(** * AIpStack event loop: the dispatch core of [EventLoop.cpp] / [EventLoop.h]

    A shallow embedding of the timer state machine, the timer heap
    comparator, the async-signal list protocol and the main iteration of
    [EventLoop::run], followed by the properties of the natural-language
    specification that are stated about them.

    Objects are identified with their addresses.  The loop state holds the
    memory of every timer, fd watcher and async-signal object that the
    program owns (a timer that was never set is [Idle], a signal that was
    never raised is in the removed state), so the mutation of a shared
    object through any reference is an update of that store.

    User code is a tree of calls into the loop ([Handler]); the loop state
    carries the history of what has been observed of the run (handler
    invocations, calls of user code, calls into the event provider), so
    that statements about the order of what happens are statements about
    that history.  The loops of the source take fuel, and each is shown to
    return with enough of it.

    [AIPSTACK_ASSERT] is a debugging aid that compiles to nothing unless
    assertions are enabled; the embedding follows the code with assertions
    compiled out and mentions each assertion in a comment.  The mutex
    [m_async_signal_mutex] makes each access to the async-signal lists one
    step; a [signal] from another thread is a step like any other. *)

From Stdlib Require Import ZArith List Bool Lia.
From stdpp Require Import base decidable functions list.

Open Scope Z_scope.

(** ** Time *)

(** Modelled from the spec: [EventLoopCommon.h] (the declarations of
    [EventLoopTime], [EventLoopDuration], [EventLoopClock] and
    [EventLoopWaitTimeoutInfo]) is not among the sources.  A time is an
    instant of a monotonic clock, counted in clock ticks from the clock
    epoch; a duration is a signed number of ticks.  The largest instant
    [EventLoopTime::max()] is a parameter [time_max] of the development. *)
Definition EventLoopTime := Z.
Definition EventLoopDuration := Z.

(** [EventLoopTime()]: a default-constructed time point is the epoch of
    its clock, zero ticks. *)
Definition EventLoopTime_epoch : EventLoopTime := 0.

(** Modelled from the spec: "Arithmetic saturates at a sentinel Time::MAX":
    the sum of an instant and a duration, never above [time_max]. *)
Definition EventLoopTime_add (time_max : EventLoopTime)
    (t : EventLoopTime) (d : EventLoopDuration) : EventLoopTime :=
  if time_max <? t + d then time_max else t + d.

(** Modelled from the spec: [EventLoopWaitTimeoutInfo], the pair
    "(first_time, time_changed)" that [prepare_timers_for_wait] builds with
    [{first_time, time_changed}] and returns to the provider. *)
Record EventLoopWaitTimeoutInfo := {
  wait_time : EventLoopTime;
  wait_time_changed : bool
}.

(** ** Timer states and the heap comparator *)

Definition TimerStateOrderBits : Z := 2.

Definition TimerStateOrderMask : Z := Z.shiftl 1 TimerStateOrderBits - 1.

Inductive TimerState := Idle | Dispatch | TempUnset | TempSet | Pending.

#[global] Instance TimerState_eq_dec : EqDecision TimerState.
Proof. solve_decision. Defined.

(** The [std::uint8_t] value of each enumerator of [enum class TimerState]. *)
Definition TimerState_code (s : TimerState) : Z :=
  match s with
  | Idle => 0
  | Dispatch => 1
  | TempUnset => 2
  | TempSet => Z.lor 2 (Z.shiftl 1 TimerStateOrderBits)
  | Pending => 3
  end.

(** [std::uint8_t(state) & TimerStateOrderMask]. *)
Definition state_order (s : TimerState) : Z :=
  Z.land (TimerState_code s) TimerStateOrderMask.

(** The two data members of [EventLoopTimer] that the loop reads and
    writes.  [m_heap_node] is represented by the membership of the timer's
    address in the heap, [m_loop] by the loop state that is passed along. *)
Record EventLoopTimer := {
  m_time : EventLoopTime;
  m_state : TimerState
}.

(** [EventLoopTimer::EventLoopTimer (EventLoop &loop)]. *)
Definition EventLoopTimer_new : EventLoopTimer :=
  {| m_time := EventLoopTime_epoch; m_state := Idle |}.

(** [EventLoopTimer::isSet]. *)
Definition isSet (tim : EventLoopTimer) : bool :=
  negb (bool_decide (m_state tim = Idle) || bool_decide (m_state tim = TempUnset)).

(** [EventLoopTimer::getSetTime]. *)
Definition getSetTime (tim : EventLoopTimer) : EventLoopTime := m_time tim.

(** [TimerCompare::compareEntries]: -1, 0 or 1. *)
Definition compareEntries (tim1 tim2 : EventLoopTimer) : Z :=
  let order1 := state_order (m_state tim1) in
  let order2 := state_order (m_state tim2) in
  if negb (order1 =? order2) then
    (if order1 <? order2 then -1 else 1)
  else if negb (m_time tim1 =? m_time tim2) then
    (if m_time tim1 <? m_time tim2 then -1 else 1)
  else 0.

(** [TimerCompare::compareKeyEntry]; the source asserts that [tim2] is
    [Pending]. *)
Definition compareKeyEntry (time1 : EventLoopTime) (tim2 : EventLoopTimer) : Z :=
  if negb (time1 =? m_time tim2) then
    (if time1 <? m_time tim2 then -1 else 1)
  else 0.

(** ** The timer heap *)

(** Modelled from the spec: [structure/minimum/LinkedHeap.h] is not among
    the sources.  "A min-heap keyed by the comparator above, supporting
    insert(node), remove(node), fixup(node) (re-establish heap order after
    key change), first(), is_empty(), and find_all_le(key, visitor) that
    visits every node with deadline <= key whose state is Pending."  The
    heap is intrusive: it holds the addresses of the timers and reads their
    keys through the comparator, so it is a function of the timer memory
    [mem].  It is kept as the list of its nodes in comparator order, the
    root first; a key that changed is out of place until [fixup]. *)
Module LinkedHeap.

Definition t := list nat.

(** Modelled from the spec: the heap of a new loop, which holds no timer. *)
Definition init : t := [].

(** Modelled from the spec: "is_empty()". *)
Definition isEmpty (h : t) : bool :=
  match h with [] => true | _ :: _ => false end.

(** Modelled from the spec: "first()", the root of the heap if there is
    one. *)
Definition first (h : t) : option nat := head h.

(** Modelled from the spec: "insert(node)", in front of the first node
    that the comparator puts after [tim]. *)
Fixpoint insert (mem : nat -> EventLoopTimer) (tim : nat) (h : t) : t :=
  match h with
  | [] => [tim]
  | x :: h' =>
      if compareEntries (mem tim) (mem x) <? 0 then tim :: x :: h'
      else x :: insert mem tim h'
  end.

(** Modelled from the spec: "remove(node)". *)
Definition remove (tim : nat) (h : t) : t :=
  List.filter (fun x => negb (Nat.eqb x tim)) h.

(** Modelled from the spec: "fixup(node) (re-establish heap order after
    key change)": the node is taken out and put where its key belongs. *)
Definition fixup (mem : nat -> EventLoopTimer) (tim : nat) (h : t) : t :=
  insert mem tim (remove tim h).

(** Modelled from the spec: the nodes that "find_all_le(key, visitor)"
    visits, "every node with deadline <= key whose state is Pending"; the
    comparison with the key is [compareKeyEntry] of the source. *)
Definition findAllLesserOrEqual (mem : nat -> EventLoopTimer)
    (key : EventLoopTime) (h : t) : list nat :=
  List.filter (fun x => bool_decide (m_state (mem x) = Pending)
                        && (0 <=? compareKeyEntry key (mem x))) h.

End LinkedHeap.

(** ** Async-signal list nodes *)

(** The addresses of the list nodes: the two list heads that are members of
    the loop, and the node that each [EventLoopAsyncSignal] inherits from
    [AsyncSignalNode]. *)
Inductive AsyncSignalNode :=
  | m_pending_async_list
  | m_dispatch_async_list
  | asig (sig : nat).

#[global] Instance AsyncSignalNode_eq_dec : EqDecision AsyncSignalNode.
Proof. solve_decision. Defined.

(** ** Fd watchers *)

(** Modelled from the spec: the event mask [EventLoopFdEvents] of
    [EventLoopCommon.h], "a bitset over {read, write, error, hangup}";
    [EventLoopFdEvents()] is the empty set. *)
Definition EventLoopFdEvents := Z.

Record EventLoopFdWatcher := {
  m_watched_fd : Z;
  m_events : EventLoopFdEvents
}.

(** [EventLoopFdWatcher::EventLoopFdWatcher]. *)
Definition EventLoopFdWatcher_new : EventLoopFdWatcher :=
  {| m_watched_fd := -1; m_events := 0 |}.

(** [EventLoopFdWatcher::hasFd]. *)
Definition hasFd (w : EventLoopFdWatcher) : bool := 0 <=? m_watched_fd w.

(** ** Calls and their history *)

(** The member functions that user code (a handler, or the code that owns
    the loop) may call on the loop and on its timers, signals and fd
    watchers.  Destructors are calls too; constructors are not, since
    every object is in the memory from the start, as its constructor
    leaves it. *)
Inductive Action :=
  | A_stop
  | A_unset (tim : nat)
  | A_setAt (tim : nat) (time : EventLoopTime)
  | A_setAfter (tim : nat) (duration : EventLoopDuration)
  | A_timer_delete (tim : nat)
  | A_signal (sig : nat)
  | A_signal_reset (sig : nat)
  | A_signal_delete (sig : nat)
  | A_initFd (w : nat) (fd : Z) (events : EventLoopFdEvents)
  | A_updateEvents (w : nat) (events : EventLoopFdEvents)
  | A_fd_reset (w : nat)
  | A_fd_delete (w : nat).

(** What can be observed of a run: clock reads, handler invocations, the
    calls made by user code and the calls into the event provider. *)
Inductive Event :=
  | EvGetTime (now : EventLoopTime)
  | EvTimerExpired (tim : nat)
  | EvSignalHandler (sig : nat)
  | EvFdHandler (w : nat) (events : EventLoopFdEvents)
  | EvCall (a : Action)
  | EvDispatchEvents
  | EvWaitForEvents (info : EventLoopWaitTimeoutInfo)
  | EvWakeup
  | EvInitFdImpl (fd : Z) (events : EventLoopFdEvents)
  | EvUpdateEventsImpl (fd : Z) (events : EventLoopFdEvents)
  | EvResetImpl (fd : Z).

#[global] Instance EventLoopWaitTimeoutInfo_eq_dec : EqDecision EventLoopWaitTimeoutInfo.
Proof. solve_decision. Defined.

#[global] Instance Action_eq_dec : EqDecision Action.
Proof. solve_decision. Defined.

#[global] Instance Event_eq_dec : EqDecision Event.
Proof. solve_decision. Defined.

(** ** The loop state *)

(** The data members of [EventLoop] ([m_async_signal_mutex] apart: every
    critical section is one step of this sequential model), the memory of
    the objects that refer to the loop, and the history [calls] of what
    has been observed so far, oldest first.  [link_next n] and
    [link_prev n] are [n.m_list_node.next] and [n.m_list_node.prev]. *)
Record EventLoop := {
  timers : nat -> EventLoopTimer;
  fd_watchers : nat -> EventLoopFdWatcher;
  link_next : AsyncSignalNode -> AsyncSignalNode;
  link_prev : AsyncSignalNode -> AsyncSignalNode;
  m_timer_heap : LinkedHeap.t;
  m_stop : bool;
  m_event_time : EventLoopTime;
  m_last_wait_time : EventLoopTime;
  calls : list Event
}.

Definition set_timers (f : nat -> EventLoopTimer) (st : EventLoop) : EventLoop :=
  {| timers := f; fd_watchers := fd_watchers st;
     link_next := link_next st; link_prev := link_prev st;
     m_timer_heap := m_timer_heap st; m_stop := m_stop st;
     m_event_time := m_event_time st; m_last_wait_time := m_last_wait_time st;
     calls := calls st |}.

Definition set_fd_watchers (f : nat -> EventLoopFdWatcher) (st : EventLoop) : EventLoop :=
  {| timers := timers st; fd_watchers := f;
     link_next := link_next st; link_prev := link_prev st;
     m_timer_heap := m_timer_heap st; m_stop := m_stop st;
     m_event_time := m_event_time st; m_last_wait_time := m_last_wait_time st;
     calls := calls st |}.

Definition set_link_next (f : AsyncSignalNode -> AsyncSignalNode) (st : EventLoop) : EventLoop :=
  {| timers := timers st; fd_watchers := fd_watchers st;
     link_next := f; link_prev := link_prev st;
     m_timer_heap := m_timer_heap st; m_stop := m_stop st;
     m_event_time := m_event_time st; m_last_wait_time := m_last_wait_time st;
     calls := calls st |}.

Definition set_link_prev (f : AsyncSignalNode -> AsyncSignalNode) (st : EventLoop) : EventLoop :=
  {| timers := timers st; fd_watchers := fd_watchers st;
     link_next := link_next st; link_prev := f;
     m_timer_heap := m_timer_heap st; m_stop := m_stop st;
     m_event_time := m_event_time st; m_last_wait_time := m_last_wait_time st;
     calls := calls st |}.

Definition set_timer_heap (h : LinkedHeap.t) (st : EventLoop) : EventLoop :=
  {| timers := timers st; fd_watchers := fd_watchers st;
     link_next := link_next st; link_prev := link_prev st;
     m_timer_heap := h; m_stop := m_stop st;
     m_event_time := m_event_time st; m_last_wait_time := m_last_wait_time st;
     calls := calls st |}.

Definition set_stop (b : bool) (st : EventLoop) : EventLoop :=
  {| timers := timers st; fd_watchers := fd_watchers st;
     link_next := link_next st; link_prev := link_prev st;
     m_timer_heap := m_timer_heap st; m_stop := b;
     m_event_time := m_event_time st; m_last_wait_time := m_last_wait_time st;
     calls := calls st |}.

Definition set_event_time (t : EventLoopTime) (st : EventLoop) : EventLoop :=
  {| timers := timers st; fd_watchers := fd_watchers st;
     link_next := link_next st; link_prev := link_prev st;
     m_timer_heap := m_timer_heap st; m_stop := m_stop st;
     m_event_time := t; m_last_wait_time := m_last_wait_time st;
     calls := calls st |}.

Definition set_last_wait_time (t : EventLoopTime) (st : EventLoop) : EventLoop :=
  {| timers := timers st; fd_watchers := fd_watchers st;
     link_next := link_next st; link_prev := link_prev st;
     m_timer_heap := m_timer_heap st; m_stop := m_stop st;
     m_event_time := m_event_time st; m_last_wait_time := t;
     calls := calls st |}.

(** Append one observation to the history. *)
Definition observe (e : Event) (st : EventLoop) : EventLoop :=
  {| timers := timers st; fd_watchers := fd_watchers st;
     link_next := link_next st; link_prev := link_prev st;
     m_timer_heap := m_timer_heap st; m_stop := m_stop st;
     m_event_time := m_event_time st; m_last_wait_time := m_last_wait_time st;
     calls := calls st ++ [e] |}.

(** Assignments to the members of one timer. *)
Definition set_m_time (tim : nat) (t : EventLoopTime) (st : EventLoop) : EventLoop :=
  set_timers (<[tim := {| m_time := t; m_state := m_state (timers st tim) |}]> (timers st)) st.

Definition set_m_state (tim : nat) (s : TimerState) (st : EventLoop) : EventLoop :=
  set_timers (<[tim := {| m_time := m_time (timers st tim); m_state := s |}]> (timers st)) st.

(** The heap operations on [m_timer_heap], reading the keys from the timer
    memory as it is at the call. *)
Definition heap_insert (tim : nat) (st : EventLoop) : EventLoop :=
  set_timer_heap (LinkedHeap.insert (timers st) tim (m_timer_heap st)) st.

Definition heap_remove (tim : nat) (st : EventLoop) : EventLoop :=
  set_timer_heap (LinkedHeap.remove tim (m_timer_heap st)) st.

Definition heap_fixup (tim : nat) (st : EventLoop) : EventLoop :=
  set_timer_heap (LinkedHeap.fixup (timers st) tim (m_timer_heap st)) st.

(** ** The async-signal lists *)

(** Modelled from the spec: [structure/LinkedList.h] is not among the
    sources.  The lists are "circular doubly-linked; lonely means
    head == head.next (empty)", and a node carries "a distinguished removed
    marker (a self-loop or equivalent) meaning not currently on either
    list".  Each operation is the sequence of link assignments of a
    circular doubly-linked list with a head node. *)
Module AsyncSignalList.

(** Modelled from the spec: the node after [e]. *)
Definition next (e : AsyncSignalNode) (st : EventLoop) : AsyncSignalNode :=
  link_next st e.

(** Modelled from the spec: the node before [e]. *)
Definition prev (e : AsyncSignalNode) (st : EventLoop) : AsyncSignalNode :=
  link_prev st e.

(** The assignments [e.next = n] and [e.prev = p]. *)
Definition set_next (e n : AsyncSignalNode) (st : EventLoop) : EventLoop :=
  set_link_next (<[e := n]> (link_next st)) st.

Definition set_prev (e p : AsyncSignalNode) (st : EventLoop) : EventLoop :=
  set_link_prev (<[e := p]> (link_prev st)) st.

(** Modelled from the spec: make [e] the head of an empty list. *)
Definition initLonely (e : AsyncSignalNode) (st : EventLoop) : EventLoop :=
  set_next e e (set_prev e e st).

(** Modelled from the spec: "lonely means head == head.next (empty)". *)
Definition isLonely (e : AsyncSignalNode) (st : EventLoop) : bool :=
  bool_decide (next e st = e).

(** Modelled from the spec: the removed marker is "a self-loop". *)
Definition markRemoved (e : AsyncSignalNode) (st : EventLoop) : EventLoop :=
  set_next e e st.

(** Modelled from the spec: the test of the removed marker. *)
Definition isRemoved (e : AsyncSignalNode) (st : EventLoop) : bool :=
  bool_decide (next e st = e).

(** Modelled from the spec: link [e] in front of [other], which is at the
    tail of the list when [other] is its head ("splice node at tail of
    pending_list"). *)
Definition initBefore (e other : AsyncSignalNode) (st : EventLoop) : EventLoop :=
  let st := set_next e other st in
  let st := set_prev e (prev other st) st in
  let st := set_next (prev other st) e st in
  set_prev other e st.

(** Modelled from the spec: unlink [e] from its neighbours; its own links
    are left as they are ("unlink it and mark it removed" are two calls in
    the source). *)
Definition remove (e : AsyncSignalNode) (st : EventLoop) : EventLoop :=
  let st := set_next (prev e st) (next e st) st in
  set_prev (next e st) (prev e st) st.

(** Modelled from the spec: make the head [e] take the place of the head
    [other] in the ring of [other], which is not lonely ("splice
    pending_list into dispatch_list"). *)
Definition initReplaceNotLonely (e other : AsyncSignalNode) (st : EventLoop) : EventLoop :=
  let st := set_next e (next other st) st in
  let st := set_prev e (prev other st) st in
  let st := set_prev (next e st) e st in
  set_next (prev e st) e st.

End AsyncSignalList.

(** ** The constructor of the loop *)

(** [EventLoop::EventLoop]: [now] is what [getTime()] returns.  Every
    timer, signal and fd watcher is as its constructor leaves it. *)
Definition EventLoop_new (time_max now : EventLoopTime) : EventLoop :=
  AsyncSignalList.initLonely m_dispatch_async_list
    (AsyncSignalList.initLonely m_pending_async_list
      {| timers := fun _ => EventLoopTimer_new;
         fd_watchers := fun _ => EventLoopFdWatcher_new;
         link_next := fun n => n;
         link_prev := fun n => n;
         m_timer_heap := LinkedHeap.init;
         m_stop := false;
         m_event_time := now;
         m_last_wait_time := time_max;
         calls := [EvGetTime now] |}).

(** [EventLoop::stop]. *)
Definition stop (st : EventLoop) : EventLoop := set_stop true st.

(** [EventLoop::getEventTime]. *)
Definition getEventTime (st : EventLoop) : EventLoopTime := m_event_time st.

(** ** Timer operations *)

(** [EventLoopTimer::~EventLoopTimer]. *)
Definition timer_delete (tim : nat) (st : EventLoop) : EventLoop :=
  if negb (bool_decide (m_state (timers st tim) = Idle)) then heap_remove tim st
  else st.

(** [EventLoopTimer::unset]. *)
Definition unset (tim : nat) (st : EventLoop) : EventLoop :=
  if bool_decide (m_state (timers st tim) = TempUnset)
     || bool_decide (m_state (timers st tim) = TempSet)
  then set_m_state tim TempUnset st
  else
    if negb (bool_decide (m_state (timers st tim) = Idle)) then
      set_m_state tim Idle (heap_remove tim st)
    else st.

(** [EventLoopTimer::setAt]. *)
Definition setAt (time : EventLoopTime) (tim : nat) (st : EventLoop) : EventLoop :=
  let st := set_m_time tim time st in
  if bool_decide (m_state (timers st tim) = TempUnset)
     || bool_decide (m_state (timers st tim) = TempSet)
  then set_m_state tim TempSet st
  else
    let old_state := m_state (timers st tim) in
    let st := set_m_state tim Pending st in
    if bool_decide (old_state = Idle) then heap_insert tim st
    else heap_fixup tim st.

(** [EventLoopTimer::setAfter]; the sum is the one of [EventLoopTime]. *)
Definition setAfter (time_max : EventLoopTime) (duration : EventLoopDuration)
    (tim : nat) (st : EventLoop) : EventLoop :=
  setAt (EventLoopTime_add time_max (getEventTime st) duration) tim st.

(** ** Fd watcher operations *)

Definition set_watcher (w : nat) (fd : Z) (events : EventLoopFdEvents)
    (st : EventLoop) : EventLoop :=
  set_fd_watchers (<[w := {| m_watched_fd := fd; m_events := events |}]> (fd_watchers st)) st.

(** [EventLoopFdWatcher::~EventLoopFdWatcher]. *)
Definition fd_delete (w : nat) (st : EventLoop) : EventLoop :=
  if 0 <=? m_watched_fd (fd_watchers st w)
  then observe (EvResetImpl (m_watched_fd (fd_watchers st w))) st
  else st.

(** [EventLoopFdWatcher::initFd]; the source asserts that the watcher has
    no fd, that [fd >= 0] and that [events] has no undefined bit. *)
Definition initFd (w : nat) (fd : Z) (events : EventLoopFdEvents)
    (st : EventLoop) : EventLoop :=
  set_watcher w fd events (observe (EvInitFdImpl fd events) st).

(** [EventLoopFdWatcher::updateEvents]. *)
Definition updateEvents (w : nat) (events : EventLoopFdEvents)
    (st : EventLoop) : EventLoop :=
  if negb (events =? m_events (fd_watchers st w)) then
    set_watcher w (m_watched_fd (fd_watchers st w)) events
      (observe (EvUpdateEventsImpl (m_watched_fd (fd_watchers st w)) events) st)
  else st.

(** [EventLoopFdWatcher::reset]. *)
Definition fd_reset (w : nat) (st : EventLoop) : EventLoop :=
  if 0 <=? m_watched_fd (fd_watchers st w) then
    set_watcher w (-1) 0 (observe (EvResetImpl (m_watched_fd (fd_watchers st w))) st)
  else st.

(** ** Async-signal operations *)

(** [EventLoopAsyncSignal::signal].  The provider's
    [signalToCheckAsyncSignals] is observed as [EvWakeup]. *)
Definition signal (sig : nat) (st : EventLoop) : EventLoop :=
  if AsyncSignalList.isRemoved (asig sig) st then
    let inserted_first := AsyncSignalList.isLonely m_pending_async_list st in
    let st := AsyncSignalList.initBefore (asig sig) m_pending_async_list st in
    if inserted_first then observe EvWakeup st else st
  else st.

(** [EventLoopAsyncSignal::reset]. *)
Definition signal_reset (sig : nat) (st : EventLoop) : EventLoop :=
  if negb (AsyncSignalList.isRemoved (asig sig) st) then
    AsyncSignalList.markRemoved (asig sig) (AsyncSignalList.remove (asig sig) st)
  else st.

(** [EventLoopAsyncSignal::EventLoopAsyncSignal]: the node of a new signal
    carries the removed marker. *)
Definition signal_new (sig : nat) (st : EventLoop) : EventLoop :=
  AsyncSignalList.markRemoved (asig sig) st.

(** [EventLoopAsyncSignal::~EventLoopAsyncSignal]. *)
Definition signal_delete (sig : nat) (st : EventLoop) : EventLoop :=
  signal_reset sig st.

(** ** Handlers *)

(** A handler is user code: it returns, or makes a call and goes on, or
    goes on according to what it reads of the loop and of the objects
    ([isSet], [getSetTime], [getEventTime], [hasFd], ...). *)
Inductive Handler :=
  | H_return
  | H_call (a : Action) (k : Handler)
  | H_read (k : EventLoop -> Handler).

(** The program around the loop: the largest time of the platform, the
    override of [handleTimerExpired] of each timer, and the [m_handler] of
    each signal and of each fd watcher. *)
Record Env := {
  time_max : EventLoopTime;
  handleTimerExpired : nat -> Handler;
  signal_m_handler : nat -> Handler;
  fd_m_handler : nat -> EventLoopFdEvents -> Handler
}.

Definition do_action (E : Env) (a : Action) (st : EventLoop) : EventLoop :=
  match a with
  | A_stop => stop st
  | A_unset tim => unset tim st
  | A_setAt tim time => setAt time tim st
  | A_setAfter tim duration => setAfter (time_max E) duration tim st
  | A_timer_delete tim => timer_delete tim st
  | A_signal sig => signal sig st
  | A_signal_reset sig => signal_reset sig st
  | A_signal_delete sig => signal_delete sig st
  | A_initFd w fd events => initFd w fd events st
  | A_updateEvents w events => updateEvents w events st
  | A_fd_reset w => fd_reset w st
  | A_fd_delete w => fd_delete w st
  end.

Fixpoint run_handler (E : Env) (h : Handler) (st : EventLoop) : EventLoop :=
  match h with
  | H_return => st
  | H_call a k => run_handler E k (do_action E a (observe (EvCall a) st))
  | H_read k => run_handler E (k st) st
  end.

(** ** The dispatch core *)

(** [EventLoop::prepare_timers_for_dispatch]: the visitor of
    [findAllLesserOrEqual] sets every visited timer to [Dispatch]; the
    source asserts that each was [Pending], and that the heap is valid
    afterwards. *)
Definition prepare_timers_for_dispatch (now : EventLoopTime) (st : EventLoop) : EventLoop :=
  fold_left (fun st tim => set_m_state tim Dispatch st)
    (LinkedHeap.findAllLesserOrEqual (timers st) now (m_timer_heap st)) st.

(** [EventLoop::dispatch_timers].  Each unit of [fuel] pays for one test
    of the [while] condition; [None] is "out of fuel".  The source asserts
    that the root is in one of the four states of a timer in the heap. *)
Fixpoint dispatch_timers (E : Env) (fuel : nat) (st : EventLoop) : option (bool * EventLoop) :=
  match fuel with
  | O => None
  | S fuel' =>
      match LinkedHeap.first (m_timer_heap st) with
      | None => Some (true, st)
      | Some tim =>
          if negb (bool_decide (m_state (timers st tim) = Dispatch)) then Some (true, st)
          else
            let st := set_m_state tim TempUnset st in
            let st := heap_fixup tim st in
            let st := run_handler E (handleTimerExpired E tim) (observe (EvTimerExpired tim) st) in
            if m_stop st then Some (false, st)
            else dispatch_timers E fuel' st
      end
  end.

(** The [while] loop of [EventLoop::prepare_timers_for_wait]; the source
    asserts that the root is [TempUnset], [TempSet] or [Pending]. *)
Fixpoint prepare_timers_for_wait_loop (fuel : nat) (first_time : EventLoopTime)
    (st : EventLoop) : option (EventLoopTime * EventLoop) :=
  match fuel with
  | O => None
  | S fuel' =>
      match LinkedHeap.first (m_timer_heap st) with
      | None => Some (first_time, st)
      | Some tim =>
          if bool_decide (m_state (timers st tim) = TempUnset) then
            prepare_timers_for_wait_loop fuel' first_time
              (set_m_state tim Idle (heap_remove tim st))
          else if bool_decide (m_state (timers st tim) = TempSet) then
            prepare_timers_for_wait_loop fuel' first_time
              (heap_fixup tim (set_m_state tim Pending st))
          else Some (m_time (timers st tim), st)
      end
  end.

(** [EventLoop::prepare_timers_for_wait]. *)
Definition prepare_timers_for_wait (time_max : EventLoopTime) (fuel : nat)
    (st : EventLoop) : option (EventLoopWaitTimeoutInfo * EventLoop) :=
  match prepare_timers_for_wait_loop fuel time_max st with
  | None => None
  | Some (first_time, st) =>
      let time_changed := negb (first_time =? m_last_wait_time st) in
      let st := set_last_wait_time first_time st in
      Some ({| wait_time := first_time; wait_time_changed := time_changed |}, st)
  end.

(** The [while (true)] loop of [EventLoop::dispatch_async_signals].  The
    source casts the node after the head to the signal object that it is
    part of; when that node is the other list head the cast has no defined
    behaviour, and the model has no result either. *)
Fixpoint dispatch_async_signals_loop (E : Env) (fuel : nat) (st : EventLoop)
    : option (bool * EventLoop) :=
  match fuel with
  | O => None
  | S fuel' =>
      match AsyncSignalList.next m_dispatch_async_list st with
      | m_dispatch_async_list => Some (true, st)
      | m_pending_async_list => None
      | asig sig =>
          let st := AsyncSignalList.remove (asig sig) st in
          let st := AsyncSignalList.markRemoved (asig sig) st in
          let st := run_handler E (signal_m_handler E sig) (observe (EvSignalHandler sig) st) in
          if m_stop st then Some (false, st)
          else dispatch_async_signals_loop E fuel' st
      end
  end.

(** [EventLoop::dispatch_async_signals]; the source asserts that the
    dispatch list is lonely on entry. *)
Definition dispatch_async_signals (E : Env) (fuel : nat) (st : EventLoop)
    : option (bool * EventLoop) :=
  if AsyncSignalList.isLonely m_pending_async_list st then Some (true, st)
  else
    let st := AsyncSignalList.initReplaceNotLonely
                m_dispatch_async_list m_pending_async_list st in
    let st := AsyncSignalList.initLonely m_pending_async_list st in
    dispatch_async_signals_loop E fuel st.

(** ** The event provider *)

(** What the platform contributes to one iteration of [run]: the reading
    of the clock, the fd readiness that the provider reports (watcher and
    events), and the signals that other threads raise while the loop is
    blocked. *)
Record Iteration := {
  it_now : EventLoopTime;
  it_ready : list (nat * EventLoopFdEvents);
  it_raised : list nat
}.

(** Modelled from the spec: the event provider ([EventProviderLinux.h]) is
    not among the sources.  "dispatch_events() -> bool: invoke handlers for
    any fd readiness the OS has reported since the previous wait and drain
    async signals (by calling the loop's dispatch_async_signals).  Returns
    false iff stop was observed during dispatch."  A watcher "must not be
    invoked after reset()".  The handlers are reached through
    [EventProviderFdBase::callFdEventHandler], the stop flag through
    [EventProviderBase::getStop], the signals through
    [EventProviderBase::dispatchAsyncSignals]. *)
Fixpoint dispatch_fd_events (E : Env) (ready : list (nat * EventLoopFdEvents))
    (st : EventLoop) : bool * EventLoop :=
  match ready with
  | [] => (true, st)
  | (w, events) :: ready' =>
      if hasFd (fd_watchers st w) then
        let st := run_handler E (fd_m_handler E w events) (observe (EvFdHandler w events) st) in
        if m_stop st then (false, st)
        else dispatch_fd_events E ready' st
      else dispatch_fd_events E ready' st
  end.

(** Modelled from the spec: "dispatch_events()", the fd handlers first
    and the async signals after them ("due timers, then provider-dispatched
    fd events, then async signals"). *)
Definition dispatchEvents (E : Env) (fuel : nat) (ready : list (nat * EventLoopFdEvents))
    (st : EventLoop) : option (bool * EventLoop) :=
  match dispatch_fd_events E ready (observe EvDispatchEvents st) with
  | (false, st) => Some (false, st)
  | (true, st) => dispatch_async_signals E fuel st
  end.

(** Modelled from the spec: "wait(deadline, deadline_changed): block until
    the earliest of: deadline, any registered fd's interest firing, or
    wakeup() being called."  While the loop is blocked other threads may
    call [signal]. *)
Definition waitForEvents (info : EventLoopWaitTimeoutInfo) (raised : list nat)
    (st : EventLoop) : EventLoop :=
  fold_left (fun st sig => signal sig st) raised (observe (EvWaitForEvents info) st).

(** ** The main loop *)

Inductive RunResult :=
  | Returned (st : EventLoop)
  | Running (st : EventLoop)
  | OutOfFuel.

(** One pass through the body of [while (true)] in [EventLoop::run]:
    [inl] when the body returns from [run], [inr] when it reaches the end
    of the body. *)
Definition run_iteration (E : Env) (fuel : nat) (it : Iteration) (st : EventLoop)
    : option (EventLoop + EventLoop) :=
  let st := set_event_time (it_now it) (observe (EvGetTime (it_now it)) st) in
  let st := prepare_timers_for_dispatch (m_event_time st) st in
  match dispatch_timers E fuel st with
  | None => None
  | Some (false, st) => Some (inl st)
  | Some (true, st) =>
      match dispatchEvents E fuel (it_ready it) st with
      | None => None
      | Some (false, st) => Some (inl st)
      | Some (true, st) =>
          match prepare_timers_for_wait (time_max E) fuel st with
          | None => None
          | Some (timeout_info, st) =>
              Some (inr (waitForEvents timeout_info (it_raised it) st))
          end
      end
  end.

(** The [while (true)] loop, for as many iterations as the platform has
    been described for; [Running] is the loop still going after them. *)
Fixpoint run_loop (E : Env) (fuel : nat) (its : list Iteration) (st : EventLoop) : RunResult :=
  match its with
  | [] => Running st
  | it :: its' =>
      match run_iteration E fuel it st with
      | None => OutOfFuel
      | Some (inl st) => Returned st
      | Some (inr st) => run_loop E fuel its' st
      end
  end.

(** [EventLoop::run]. *)
Definition run (E : Env) (fuel : nat) (its : list Iteration) (st : EventLoop) : RunResult :=
  if m_stop st then Returned st
  else run_loop E fuel its st.

(** ** Measures of the loops *)

(** The number of nodes of the heap whose timer is in a state that [P]
    accepts, with the timer memory [mem]. *)
Definition count_heap (P : TimerState -> bool) (mem : nat -> EventLoopTimer)
    (h : LinkedHeap.t) : nat :=
  length (List.filter (fun x => P (m_state (mem x))) h).

Definition is_Dispatch (s : TimerState) : bool := bool_decide (s = Dispatch).

Definition is_Temp (s : TimerState) : bool :=
  bool_decide (s = TempUnset) || bool_decide (s = TempSet).

(** The timers that [dispatch_timers] has still to fire. *)
Definition num_dispatch (st : EventLoop) : nat :=
  count_heap is_Dispatch (timers st) (m_timer_heap st).

(** The timers that [prepare_timers_for_wait] has still to finalize. *)
Definition num_temp (st : EventLoop) : nat :=
  count_heap is_Temp (timers st) (m_timer_heap st).

(** ** Reading the history *)

(** The observations that a handler leaves while it runs: its calls, and
    the calls into the provider that they make. *)
Definition is_user_event (e : Event) : bool :=
  match e with
  | EvCall _ | EvWakeup | EvInitFdImpl _ _ | EvUpdateEventsImpl _ _ | EvResetImpl _ => true
  | _ => false
  end.

(** [e] is a call of [setAt] or [setAfter] on the timer [tim]. *)
Definition arms (tim : nat) (e : Event) : bool :=
  match e with
  | EvCall (A_setAt x _) | EvCall (A_setAfter x _) => Nat.eqb x tim
  | _ => false
  end.

(** [e] is the invocation of the handler of the timer [tim]. *)
Definition fires (tim : nat) (e : Event) : bool :=
  match e with
  | EvTimerExpired x => Nat.eqb x tim
  | _ => false
  end.

(** Somewhere in [tr] the timer [tim] is armed and, later in [tr], its
    handler is invoked. *)
Fixpoint armed_then_fired (tim : nat) (tr : list Event) : bool :=
  match tr with
  | [] => false
  | e :: tr' => (arms tim e && existsb (fires tim) tr') || armed_then_fired tim tr'
  end.

(** What the timer phase of an iteration leaves in the history: handler
    invocations of timers and what the handlers do. *)
Definition is_timer_phase_event (e : Event) : bool :=
  is_user_event e || match e with EvTimerExpired _ => true | _ => false end.

(** What the provider's dispatch leaves in the history after its own call:
    handler invocations of fd watchers and of signals, and what the
    handlers do. *)
Definition is_provider_phase_event (e : Event) : bool :=
  is_user_event e
  || match e with EvFdHandler _ _ | EvSignalHandler _ => true | _ => false end.

(** ** The shape of the async-signal lists *)

(** Following the links [f] from [a] leads through the nodes [l], in this
    order, and then to [b]. *)
Fixpoint path {A : Type} (f : A -> A) (a : A) (l : list A) (b : A) : Prop :=
  match l with
  | [] => f a = b
  | x :: l' => f a = x /\ path f x l' b
  end.

(** The list with the head [head] holds the nodes of the signals [l], in
    this order: the [next] links lead from the head through them and back
    to the head, the [prev] links lead back the other way round. *)
Definition ring (st : EventLoop) (head : AsyncSignalNode) (l : list nat) : Prop :=
  path (link_next st) head (map asig l) head
  /\ path (link_prev st) head (rev (map asig l)) head.

(** The two lists hold the signals [pending] and [dispatch], no signal is
    linked twice, and every signal that is on neither list carries the
    removed marker. *)
Definition lists_wf (st : EventLoop) (pending dispatch : list nat) : Prop :=
  ring st m_pending_async_list pending
  /\ ring st m_dispatch_async_list dispatch
  /\ List.NoDup (pending ++ dispatch)
  /\ forall sig, ~ In sig (pending ++ dispatch) -> link_next st (asig sig) = asig sig.

(** How often the handler of the signal [sig] is invoked in [tr]. *)
Definition signal_fired (sig : nat) (tr : list Event) : nat :=
  length (List.filter (fun e => bool_decide (e = EvSignalHandler sig)) tr).

(** [e] is a call of [reset] on the signal [sig], or of its destructor. *)
Definition resets (sig : nat) (e : Event) : bool :=
  match e with
  | EvCall (A_signal_reset x) | EvCall (A_signal_delete x) => Nat.eqb x sig
  | _ => false
  end.

(** ** What a call does to the timers *)

(** The three ways in which a call changes the timers: it leaves them
    and the heap alone; or it removes a timer from the heap; or it changes
    one timer to a state that is not [Dispatch] and leaves the heap alone,
    inserts the timer, fixes it up or removes it. *)
Inductive timer_step (st st' : EventLoop) : Prop :=
  | timer_step_same :
      timers st' = timers st -> m_timer_heap st' = m_timer_heap st ->
      timer_step st st'
  | timer_step_remove tim :
      timers st' = timers st ->
      m_timer_heap st' = LinkedHeap.remove tim (m_timer_heap st) ->
      timer_step st st'
  | timer_step_change tim :
      m_state (timers st' tim) <> Dispatch ->
      (forall tim', tim' <> tim -> timers st' tim' = timers st tim') ->
      (m_timer_heap st' = m_timer_heap st
       \/ m_timer_heap st' = LinkedHeap.insert (timers st') tim (m_timer_heap st)
       \/ m_timer_heap st' = LinkedHeap.fixup (timers st') tim (m_timer_heap st)
       \/ m_timer_heap st' = LinkedHeap.remove tim (m_timer_heap st)) ->
      timer_step st st'.

(** ** The heads of the rings *)

(** The nodes of a ring: a list head, which is not the node of a signal,
    and the nodes of the signals. *)
Definition is_head (h : AsyncSignalNode) : Prop := forall sig, h <> asig sig.

(** ** More of the interface *)

(** [EventLoopFdWatcher::getFd] and [EventLoopFdWatcher::getEvents]. *)
Definition getFd (w : EventLoopFdWatcher) : Z := m_watched_fd w.

Definition getEvents (w : EventLoopFdWatcher) : EventLoopFdEvents := m_events w.

(** The test [(events & ~EventLoopFdEvents::All) == EnumZero] of the
    assertions of the fd watcher; [All], the set of the defined event
    bits, is a constant of [EventLoopCommon.h] and so a parameter here. *)
Definition fd_events_valid (All events : EventLoopFdEvents) : bool :=
  Z.land events (Z.lnot All) =? 0.

(** The two assertions of [EventProviderFdBase::sanityCheck]. *)
Definition sanityCheck (All : EventLoopFdEvents) (w : EventLoopFdWatcher) : bool :=
  (0 <=? m_watched_fd w) && fd_events_valid All (m_events w).

(** The three assertions of [EventLoopFdWatcher::initFd]. *)
Definition initFd_asserts (All : EventLoopFdEvents) (w : nat) (fd : Z)
    (events : EventLoopFdEvents) (st : EventLoop) : bool :=
  (m_watched_fd (fd_watchers st w) =? -1) && (0 <=? fd) && fd_events_valid All events.

(** The two assertions of [EventLoopFdWatcher::updateEvents]. *)
Definition updateEvents_asserts (All : EventLoopFdEvents) (w : nat)
    (events : EventLoopFdEvents) (st : EventLoop) : bool :=
  (0 <=? m_watched_fd (fd_watchers st w)) && fd_events_valid All events.

(** The assertions that a call of user code makes, if any. *)
Definition action_asserts (All : EventLoopFdEvents) (a : Action) (st : EventLoop) : bool :=
  match a with
  | A_initFd w fd events => initFd_asserts All w fd events st
  | A_updateEvents w events => updateEvents_asserts All w events st
  | _ => true
  end.

(** The three assertions of [EventLoop::~EventLoop]. *)
Definition EventLoop_delete_asserts (st : EventLoop) : bool :=
  LinkedHeap.isEmpty (m_timer_heap st)
  && AsyncSignalList.isLonely m_pending_async_list st
  && AsyncSignalList.isLonely m_dispatch_async_list st.

(** ** More invariants and readings of the history *)

(** No timer is in the heap twice, and a timer in the heap is not
    [Idle]. *)
Definition heap_inv (st : EventLoop) : Prop :=
  List.NoDup (m_timer_heap st)
  /\ forall tim, In tim (m_timer_heap st) -> m_state (timers st tim) <> Idle.

(** A timer that is not [Idle] is in the heap. *)
Definition armed_in_heap (st : EventLoop) : Prop :=
  forall tim, m_state (timers st tim) <> Idle -> In tim (m_timer_heap st).

(** Every registered fd watcher passes [sanityCheck]. *)
Definition watchers_sane (All : EventLoopFdEvents) (st : EventLoop) : Prop :=
  forall w, hasFd (fd_watchers st w) = true -> sanityCheck All (fd_watchers st w) = true.

(** How often the handler of the timer [tim] is invoked in [tr]. *)
Definition timer_fired (tim : nat) (tr : list Event) : nat :=
  length (List.filter (fires tim) tr).

(** The signals whose handlers are invoked in [tr], in this order. *)
Fixpoint fired_signals (tr : list Event) : list nat :=
  match tr with
  | [] => []
  | EvSignalHandler sig :: tr' => sig :: fired_signals tr'
  | _ :: tr' => fired_signals tr'
  end.

(** How often the provider is woken in [tr]. *)
Definition wakeups (tr : list Event) : nat :=
  length (List.filter (fun e => bool_decide (e = EvWakeup)) tr).

(** [e] is a call of [reset] on a signal, or of the destructor of one. *)
Definition is_reset_call (e : Event) : bool :=
  match e with
  | EvCall (A_signal_reset _) | EvCall (A_signal_delete _) => true
  | _ => false
  end.

(** A sequence of calls on one timer: [Some t] is [setAt t], [None] is
    [unset]. *)
Definition timer_calls (tim : nat) (ops : list (option EventLoopTime))
    (st : EventLoop) : EventLoop :=
  fold_left (fun st o => match o with
                         | Some time => setAt time tim st
                         | None => unset tim st
                         end) ops st.

(** The two states agree on every member and on every object. *)
Definition same_state (st st' : EventLoop) : Prop :=
  (forall tim, timers st tim = timers st' tim)
  /\ (forall w, fd_watchers st w = fd_watchers st' w)
  /\ (forall n, link_next st n = link_next st' n)
  /\ (forall n, link_prev st n = link_prev st' n)
  /\ m_timer_heap st = m_timer_heap st'
  /\ m_stop st = m_stop st'
  /\ m_event_time st = m_event_time st'
  /\ m_last_wait_time st = m_last_wait_time st'
  /\ calls st = calls st'.

(** The two states differ at most in the places that the heap gives to its
    nodes: the heaps hold the same nodes.  Which of two nodes with equal
    keys the heap puts first is not fixed by its interface. *)
Definition same_up_to_ties (st st' : EventLoop) : Prop :=
  (forall tim, timers st tim = timers st' tim)
  /\ (forall w, fd_watchers st w = fd_watchers st' w)
  /\ (forall n, link_next st n = link_next st' n)
  /\ (forall n, link_prev st n = link_prev st' n)
  /\ Permutation (m_timer_heap st) (m_timer_heap st')
  /\ m_stop st = m_stop st'
  /\ m_event_time st = m_event_time st'
  /\ m_last_wait_time st = m_last_wait_time st'
  /\ calls st = calls st'.

(** No assertion of an fd watcher fails while the handler [h] runs from
    the state [st]. *)
Fixpoint handler_asserts (All : EventLoopFdEvents) (E : Env) (h : Handler)
    (st : EventLoop) : Prop :=
  match h with
  | H_return => True
  | H_call a k =>
      action_asserts All a (observe (EvCall a) st) = true
      /\ handler_asserts All E k (do_action E a (observe (EvCall a) st))
  | H_read k => handler_asserts All E (k st) st
  end.

(** ** The order of the heap *)

(** The key by which the heap is in order whatever the handlers do: the
    order class of the state and, for a timer that is not [TempUnset] or
    [TempSet], the deadline.  The deadline of a timer whose handler is
    running or has run in this iteration may change without a [fixup]; the
    heap is brought up to date with it in [prepare_timers_for_wait]. *)
Definition entry_key (tim : EventLoopTimer) : Z * Z :=
  (state_order (m_state tim), if is_Temp (m_state tim) then 0 else m_time tim).

Definition key_le (a b : Z * Z) : Prop :=
  fst a < fst b \/ (fst a = fst b /\ snd a <= snd b).

(** Every node of the heap has a key that is not after the keys of the
    nodes behind it. *)
Fixpoint heap_sorted (mem : nat -> EventLoopTimer) (h : LinkedHeap.t) : Prop :=
  match h with
  | [] => True
  | x :: h' =>
      (forall y, In y h' -> key_le (entry_key (mem x)) (entry_key (mem y)))
      /\ heap_sorted mem h'
  end.

(** The heap between two calls of user code. *)
Definition heap_ok (st : EventLoop) : Prop :=
  heap_inv st /\ heap_sorted (timers st) (m_timer_heap st).

(** The heap between two iterations of the loop: every timer of the heap
    is [Pending]. *)
Definition heap_ready (st : EventLoop) : Prop :=
  heap_ok st /\ forall x, In x (m_timer_heap st) -> m_state (timers st x) = Pending.

(** The key of the root of the heap, if the heap has one. *)
Definition root_key (st : EventLoop) : option (Z * Z) :=
  option_map (fun x => entry_key (timers st x)) (LinkedHeap.first (m_timer_heap st)).

(** [e] is a call of [unset], [setAt] or [setAfter] on the timer [tim], or
    of its destructor. *)
Definition touches (tim : nat) (e : Event) : bool :=
  match e with
  | EvCall (A_unset x) | EvCall (A_setAt x _) | EvCall (A_setAfter x _)
  | EvCall (A_timer_delete x) => Nat.eqb x tim
  | _ => false
  end.

(** The timers whose handlers are invoked in [tr], in this order. *)
Fixpoint fired_timers (tr : list Event) : list nat :=
  match tr with
  | [] => []
  | EvTimerExpired x :: tr' => x :: fired_timers tr'
  | _ :: tr' => fired_timers tr'
  end.

(** No time of the list is after a later one. *)
Fixpoint nondecreasing (l : list EventLoopTime) : Prop :=
  match l with
  | [] => True
  | t :: l' => (forall u, In u l' -> t <= u) /\ nondecreasing l'
  end.

(** The handler never destroys a timer. *)
Fixpoint no_timer_delete (h : Handler) : Prop :=
  match h with
  | H_return => True
  | H_call a k => (forall tim, a <> A_timer_delete tim) /\ no_timer_delete k
  | H_read k => forall st, no_timer_delete (k st)
  end.

(** No handler of the program destroys a timer. *)
Definition env_no_timer_delete (E : Env) : Prop :=
  (forall tim, no_timer_delete (handleTimerExpired E tim))
  /\ (forall sig, no_timer_delete (signal_m_handler E sig))
  /\ (forall w events, no_timer_delete (fd_m_handler E w events)).

(** [e] is a call of [stop]. *)
Definition is_stop_call (e : Event) : bool := bool_decide (e = EvCall A_stop).

(** [tr] has a call of [stop], and after the first one only what the
    handler that made it still does. *)
Definition stops_promptly (tr : list Event) : Prop :=
  exists pre post,
    tr = pre ++ EvCall A_stop :: post
    /\ existsb is_stop_call pre = false
    /\ Forall (fun e => is_user_event e = true) post.

(** What a phase of an iteration that begins with the stop flag clear
    leaves in the history: no call of [stop] when it returns true, with the
    flag still clear; a call of [stop] in the last handler that it has
    invoked when it returns false. *)
Definition phase_stop (st : EventLoop) (b : bool) (st' : EventLoop) : Prop :=
  exists tr,
    calls st' = calls st ++ tr
    /\ (if b then existsb is_stop_call tr = false /\ m_stop st' = false
        else stops_promptly tr).

(** ** Handlers that read the event time *)

(** The handlers [h] and [h'] do the same wherever the event time is
    [now]: they make the same calls, and where one of them reads the state
    of the loop, what it goes on with matters only for the states whose
    [getEventTime] is [now]. *)
Inductive same_at (now : EventLoopTime) : Handler -> Handler -> Prop :=
  | same_at_return : same_at now H_return H_return
  | same_at_call a k k' :
      same_at now k k' -> same_at now (H_call a k) (H_call a k')
  | same_at_read k k' :
      (forall st, getEventTime st = now -> same_at now (k st) (k' st)) ->
      same_at now (H_read k) (H_read k')
  | same_at_read_l k h' :
      (forall st, getEventTime st = now -> same_at now (k st) h') ->
      same_at now (H_read k) h'
  | same_at_read_r h k' :
      (forall st, getEventTime st = now -> same_at now h (k' st)) ->
      same_at now h (H_read k').

(** The programs [E] and [E'] have the same largest time, and their
    handlers do the same wherever the event time is [now]. *)
Definition env_same_at (now : EventLoopTime) (E E' : Env) : Prop :=
  time_max E' = time_max E
  /\ (forall tim, same_at now (handleTimerExpired E tim) (handleTimerExpired E' tim))
  /\ (forall sig, same_at now (signal_m_handler E sig) (signal_m_handler E' sig))
  /\ (forall w events, same_at now (fd_m_handler E w events) (fd_m_handler E' w events)).

(** The state that an iteration of [run] ends with, whether it returns
    from [run] or reaches the end of the body. *)
Definition iteration_state (r : EventLoop + EventLoop) : EventLoop :=
  match r with inl st | inr st => st end.

(** ** A program for the examples *)

Definition ex_time_max : EventLoopTime := 2 ^ 63 - 1.

(** The handler of timer 0 moves the deadline of timer 1 to 3; the handler
    of timer 2 re-arms its timer at 20 and unsets it at once; the handler
    of timer 4 re-arms its timer 30 ticks after the event time; the handler
    of signal 0 stops the loop; the handler of signal 2 resets signal 3;
    every other handler returns at once. *)
Definition ex_env : Env :=
  {| time_max := ex_time_max;
     handleTimerExpired := fun tim =>
       match tim with
       | 0%nat => H_call (A_setAt 1 3) H_return
       | 2%nat => H_call (A_setAt 2 20) (H_call (A_unset 2) H_return)
       | 4%nat => H_call (A_setAfter 4 30) H_return
       | _ => H_return
       end;
     signal_m_handler := fun sig =>
       match sig with
       | 0%nat => H_call A_stop H_return
       | 2%nat => H_call (A_signal_reset 3) H_return
       | _ => H_return
       end;
     fd_m_handler := fun _ _ => H_return |}.

(** A loop constructed at time 0. *)
(** As [ex_env], but the handler of timer 4 reads the event time and
    re-arms its timer for the time 40: at the event time 10 that is 30
    ticks after the event time, as in [ex_env]. *)
Definition ex_env_reading : Env :=
  {| time_max := ex_time_max;
     handleTimerExpired := fun tim =>
       match tim with
       | 4%nat => H_read (fun st => H_call (A_setAfter 4 (40 - getEventTime st)) H_return)
       | _ => handleTimerExpired ex_env tim
       end;
     signal_m_handler := signal_m_handler ex_env;
     fd_m_handler := fd_m_handler ex_env |}.

Definition ex_loop : EventLoop := EventLoop_new ex_time_max 0.

(** Timer 0 is set at 5 and timer 1 at 7; the loop has sampled the event
    time 10 and marked the due timers. *)
Definition ex_two_due : EventLoop :=
  prepare_timers_for_dispatch 10 (setAt 7 1 (setAt 5 0 ex_loop)).

(** Timer 2 is set at 5; the loop has sampled the event time 10 and marked
    the due timers. *)
Definition ex_rearm_due : EventLoop :=
  prepare_timers_for_dispatch 10 (setAt 5 2 ex_loop).

(** The state in which the handler of timer 2 starts: what
    [dispatch_timers] does to [ex_rearm_due] before it calls the handler. *)
Definition ex_in_handler : EventLoop :=
  observe (EvTimerExpired 2) (heap_fixup 2 (set_m_state 2 TempUnset ex_rearm_due)).

(** Timers 2, 4 and 5 are set at 5, 6 and 50; the loop has sampled the
    event time 10, marked the due timers and dispatched them. *)
Definition ex_before_wait : EventLoop :=
  match dispatch_timers ex_env 3
          (prepare_timers_for_dispatch 10
             (set_event_time 10
                (observe (EvGetTime 10) (setAt 50 5 (setAt 6 4 (setAt 5 2 ex_loop))))))
  with
  | Some (_, st) => st
  | None => ex_loop
  end.

(** Signal 0, whose handler stops the loop, is raised, and then signal 1
    three times. *)
Definition ex_stop_batch : EventLoop := Nat.iter 3 (signal 1) (signal 0 ex_loop).

(** Signal 2, whose handler resets signal 3, is raised, and then signal 3
    three times. *)
Definition ex_reset_batch : EventLoop := Nat.iter 3 (signal 3) (signal 2 ex_loop).

(** Timers 2, 4 and 5 are set at 5, 6 and 50 before [run] is called. *)
Definition ex_three_timers : EventLoop := setAt 50 5 (setAt 6 4 (setAt 5 2 ex_loop)).

(** The platform during two iterations: the clock reads 10 and then 45;
    the provider reports no fd readiness; another thread raises signal 1
    while the loop is blocked for the first time. *)
Definition ex_iteration_1 : Iteration :=
  {| it_now := 10; it_ready := []; it_raised := [1%nat] |}.

Definition ex_iteration_2 : Iteration :=
  {| it_now := 45; it_ready := []; it_raised := [] |}.

(** Timers 2, 4 and 5 are set, and signals 2 and 3 are raised. *)
Definition ex_busy : EventLoop := signal 3 (signal 2 ex_three_timers).

(** Timers 2, 4 and 5 are set, signals 2 and 3 are raised, and watcher 0
    watches the fd 7 for reading. *)
Definition ex_full : EventLoop := initFd 0 7 1 ex_busy.

(** The clock reads 10, the provider reports that the fd of watcher 0 can
    be read, and another thread raises signal 1 while the loop is
    blocked. *)
Definition ex_iteration_fd : Iteration :=
  {| it_now := 10; it_ready := [(0%nat, 1)]; it_raised := [1%nat] |}.

(** * Properties *)

(** Decide every state test [bool_decide (_ = _)] of the goal. *)
Ltac decide_state_tests :=
  repeat match goal with
  | |- context [bool_decide ?P] =>
      let H := fresh in
      destruct (bool_decide_reflect P) as [H | H];
      try discriminate H; try congruence
  end.

(** ** The timer memory *)

Lemma timers_set_m_state tim s st tim' :
  timers (set_m_state tim s st) tim' =
  if decide (tim = tim') then {| m_time := m_time (timers st tim); m_state := s |}
  else timers st tim'.
Proof. reflexivity. Qed.

Lemma timers_set_m_time tim t st tim' :
  timers (set_m_time tim t st) tim' =
  if decide (tim = tim') then {| m_time := t; m_state := m_state (timers st tim) |}
  else timers st tim'.
Proof. reflexivity. Qed.

Lemma heap_remove_not_elem tim h : ~ In tim (LinkedHeap.remove tim h).
Proof.
  unfold LinkedHeap.remove. rewrite filter_In. intros [_ H].
  rewrite Nat.eqb_refl in H. discriminate.
Qed.

(** ** The comparator and the order classes *)

(** C5, as stated, fails: the order class of [Dispatch] is 1, the low two
    bits of its encoding 1; class 0 is the one of [Idle]. *)
Lemma state_order_Dispatch_is_not_0 :
  state_order Dispatch = 1 /\
  ~ (state_order Dispatch = 0 /\ state_order TempUnset = 2
     /\ state_order TempSet = 2 /\ state_order Pending = 3).
Proof. split; [reflexivity | intros [H _]; discriminate H]. Qed.

(** C5, amended: [compareEntries] compares the order classes first and the
    deadlines second, and is 0 exactly when both are equal; the order
    classes of the states that are in the heap are Dispatch = 1,
    TempUnset = TempSet = 2 and Pending = 3 ([TempSet] being a state of its
    own, encoded 6), so Dispatch is before TempUnset and TempSet, which are
    before Pending. *)
Theorem compareEntries_order_then_deadline :
  (forall tim1 tim2,
     compareEntries tim1 tim2 =
     match state_order (m_state tim1) ?= state_order (m_state tim2) with
     | Lt => -1
     | Gt => 1
     | Eq => match m_time tim1 ?= m_time tim2 with
             | Lt => -1
             | Gt => 1
             | Eq => 0
             end
     end) /\
  (forall tim1 tim2,
     compareEntries tim1 tim2 = 0 <->
     state_order (m_state tim1) = state_order (m_state tim2)
     /\ m_time tim1 = m_time tim2) /\
  TimerStateOrderMask = 3 /\
  state_order Dispatch = 1 /\ state_order TempUnset = 2 /\
  state_order TempSet = 2 /\ state_order Pending = 3 /\
  TimerState_code TempSet = 6 /\ TempSet <> TempUnset /\
  (forall t1 t2, compareEntries {| m_time := t1; m_state := Dispatch |}
                                {| m_time := t2; m_state := TempUnset |} = -1) /\
  (forall t1 t2, compareEntries {| m_time := t1; m_state := Dispatch |}
                                {| m_time := t2; m_state := TempSet |} = -1) /\
  (forall t1 t2, compareEntries {| m_time := t1; m_state := TempUnset |}
                                {| m_time := t2; m_state := Pending |} = -1) /\
  (forall t1 t2, compareEntries {| m_time := t1; m_state := TempSet |}
                                {| m_time := t2; m_state := Pending |} = -1) /\
  (forall t, compareEntries {| m_time := t; m_state := TempUnset |}
                            {| m_time := t; m_state := TempSet |} = 0).
Proof.
  assert (Hcmp : forall tim1 tim2,
     compareEntries tim1 tim2 =
     match state_order (m_state tim1) ?= state_order (m_state tim2) with
     | Lt => -1
     | Gt => 1
     | Eq => match m_time tim1 ?= m_time tim2 with
             | Lt => -1 | Gt => 1 | Eq => 0 end
     end).
  { intros tim1 tim2. unfold compareEntries. cbv zeta.
    destruct (Z.compare_spec (state_order (m_state tim1)) (state_order (m_state tim2)))
      as [Ho | Ho | Ho].
    - rewrite Ho, Z.eqb_refl. simpl.
      destruct (Z.compare_spec (m_time tim1) (m_time tim2)) as [Ht | Ht | Ht].
      + rewrite Ht, Z.eqb_refl. reflexivity.
      + replace (m_time tim1 =? m_time tim2) with false by (symmetry; apply Z.eqb_neq; lia).
        simpl. replace (m_time tim1 <? m_time tim2) with true by (symmetry; apply Z.ltb_lt; lia).
        reflexivity.
      + replace (m_time tim1 =? m_time tim2) with false by (symmetry; apply Z.eqb_neq; lia).
        simpl. replace (m_time tim1 <? m_time tim2) with false by (symmetry; apply Z.ltb_ge; lia).
        reflexivity.
    - replace (state_order (m_state tim1) =? state_order (m_state tim2)) with false
        by (symmetry; apply Z.eqb_neq; lia).
      simpl. replace (state_order (m_state tim1) <? state_order (m_state tim2)) with true
        by (symmetry; apply Z.ltb_lt; lia).
      reflexivity.
    - replace (state_order (m_state tim1) =? state_order (m_state tim2)) with false
        by (symmetry; apply Z.eqb_neq; lia).
      simpl. replace (state_order (m_state tim1) <? state_order (m_state tim2)) with false
        by (symmetry; apply Z.ltb_ge; lia).
      reflexivity. }
  split; [exact Hcmp |].
  split.
  { intros tim1 tim2. rewrite Hcmp.
    destruct (Z.compare_spec (state_order (m_state tim1)) (state_order (m_state tim2)));
      [destruct (Z.compare_spec (m_time tim1) (m_time tim2)) | |];
      split; intros; try discriminate; try lia; auto. }
  repeat split; try discriminate; intros; rewrite Hcmp; simpl;
    try reflexivity; rewrite Z.compare_refl; reflexivity.
Qed.

(** ** Timer operations *)

Lemma setAt_effect (time : EventLoopTime) (tim : nat) (st : EventLoop) :
  let st' := setAt time tim st in
  m_time (timers st' tim) = time /\
  match m_state (timers st tim) with
  | TempUnset | TempSet =>
      m_state (timers st' tim) = TempSet /\
      m_timer_heap st' = m_timer_heap st
  | Idle =>
      m_state (timers st' tim) = Pending /\
      m_timer_heap st' = LinkedHeap.insert (timers st') tim (m_timer_heap st)
  | Dispatch | Pending =>
      m_state (timers st' tim) = Pending /\
      m_timer_heap st' = LinkedHeap.fixup (timers st') tim (m_timer_heap st)
  end /\
  (forall tim', tim' <> tim -> timers st' tim' = timers st tim') /\
  m_stop st' = m_stop st /\ m_event_time st' = m_event_time st /\
  m_last_wait_time st' = m_last_wait_time st /\ calls st' = calls st /\
  link_next st' = link_next st /\ link_prev st' = link_prev st /\
  fd_watchers st' = fd_watchers st.
Proof.
  cbv zeta. unfold setAt. cbv zeta.
  rewrite !timers_set_m_time. destruct (decide (tim = tim)) as [_ | Hne]; [| congruence].
  cbn [m_state m_time].
  destruct (m_state (timers st tim)) eqn:Hs; cbn [bool_decide orb negb];
    decide_state_tests; cbn [orb];
    unfold heap_insert, heap_fixup; cbn [timers m_timer_heap set_timer_heap];
    rewrite ?timers_set_m_state, ?timers_set_m_time;
    destruct (decide (tim = tim)) as [_ | Hne]; try congruence;
    cbn [m_state m_time];
    (split; [reflexivity |]); (split; [split; reflexivity |]);
    (split; [| repeat split]);
    intros tim' Hne; rewrite ?timers_set_m_state, ?timers_set_m_time;
    destruct (decide (tim = tim')); congruence.
Qed.

(** C1: [setAt t] records the deadline [t], whatever the state; from
    [TempUnset] or [TempSet] the state becomes [TempSet] and the heap is
    left as it is; from [Idle] the state becomes [Pending] and the timer is
    inserted into the heap; from [Dispatch] or [Pending] the state becomes
    [Pending] and [fixup] is called on the timer.  The heap operations see
    the timer with its new deadline and state.  Nothing else changes. *)
Theorem setAt_transitions (time : EventLoopTime) (tim : nat) (st : EventLoop) :
  let st' := setAt time tim st in
  m_time (timers st' tim) = time /\
  match m_state (timers st tim) with
  | TempUnset | TempSet =>
      m_state (timers st' tim) = TempSet /\
      m_timer_heap st' = m_timer_heap st
  | Idle =>
      m_state (timers st' tim) = Pending /\
      m_timer_heap st' = LinkedHeap.insert (timers st') tim (m_timer_heap st)
  | Dispatch | Pending =>
      m_state (timers st' tim) = Pending /\
      m_timer_heap st' = LinkedHeap.fixup (timers st') tim (m_timer_heap st)
  end /\
  (forall tim', tim' <> tim -> timers st' tim' = timers st tim') /\
  m_stop st' = m_stop st /\ m_event_time st' = m_event_time st /\
  m_last_wait_time st' = m_last_wait_time st /\ calls st' = calls st /\
  link_next st' = link_next st /\ link_prev st' = link_prev st /\
  fd_watchers st' = fd_watchers st.
Proof. exact (setAt_effect time tim st). Qed.

Lemma unset_setAt_state (time : EventLoopTime) (tim : nat) (st : EventLoop) :
  let st' := unset tim (setAt time tim st) in
  m_time (timers st' tim) = time /\
  match m_state (timers st tim) with
  | TempUnset | TempSet =>
      m_state (timers st' tim) = TempUnset /\ m_timer_heap st' = m_timer_heap st
  | Idle | Dispatch | Pending =>
      m_state (timers st' tim) = Idle /\ ~ In tim (m_timer_heap st')
  end.
Proof.
  cbv zeta.
  pose proof (setAt_effect time tim st) as H. cbv zeta in H.
  destruct H as (Ht & Hs & _).
  unfold unset.
  destruct (m_state (timers st tim)); destruct Hs as [Hs Hh]; rewrite Hs;
    cbn [bool_decide decide_rel orb negb];
    decide_state_tests; cbn [orb negb];
    rewrite ?timers_set_m_state;
    try (destruct (decide (tim = tim)) as [_ | Hne]; [| congruence]);
    cbn [m_state m_time m_timer_heap set_m_state set_timers heap_remove set_timer_heap timers];
    rewrite ?Ht; (split; [reflexivity |]); split; try reflexivity; try assumption;
    apply heap_remove_not_elem.
Qed.

Lemma setAt_unset_isSet (time : EventLoopTime) (tim : nat) (st : EventLoop) :
  isSet (timers (unset tim (setAt time tim st)) tim) = false.
Proof.
  pose proof (unset_setAt_state time tim st) as H. cbv zeta in H.
  destruct H as [_ H]. unfold isSet.
  destruct (m_state (timers st tim)); destruct H as [-> _]; reflexivity.
Qed.

(** C4, amended: [setAt t] followed at once by [unset] leaves the timer
    not set, with the deadline [t] still stored: [Idle] and out of the heap
    when the state before was [Idle], [Dispatch] or [Pending]; [TempUnset],
    with the heap as it was (the timer is still in it until the loop
    finalizes the timer states), when the state before was [TempUnset] or
    [TempSet]. *)
Theorem setAt_unset_state (time : EventLoopTime) (tim : nat) (st : EventLoop) :
  let st' := unset tim (setAt time tim st) in
  isSet (timers st' tim) = false /\
  match m_state (timers st tim) with
  | TempUnset | TempSet =>
      m_state (timers st' tim) = TempUnset /\ m_timer_heap st' = m_timer_heap st
  | Idle | Dispatch | Pending =>
      m_state (timers st' tim) = Idle /\ ~ In tim (m_timer_heap st')
  end.
Proof.
  cbv zeta. split; [apply setAt_unset_isSet |].
  apply (unset_setAt_state time tim st).
Qed.

Lemma do_action_m_event_time E a st :
  m_event_time (do_action E a st) = m_event_time st.
Proof.
  destruct a; cbn [do_action];
    unfold signal_delete, stop, unset, setAfter, setAt, timer_delete, signal, signal_reset,
      initFd, updateEvents, fd_reset, fd_delete, AsyncSignalList.initBefore,
      AsyncSignalList.markRemoved, AsyncSignalList.remove; cbv zeta;
    repeat match goal with |- context [if ?b then _ else _] => destruct b end;
    reflexivity.
Qed.

Lemma run_handler_m_event_time E h st :
  getEventTime (run_handler E h st) = getEventTime st.
Proof.
  revert st. induction h as [| a k IH | k IH]; intros st; cbn [run_handler].
  - reflexivity.
  - rewrite IH. unfold getEventTime. rewrite do_action_m_event_time. reflexivity.
  - apply IH.
Qed.

(** C10: a timer that was constructed and never set reports the
    default-constructed time, the clock epoch, as its set time, which is
    not the largest time wherever the epoch is before the largest time, and
    reports that it is not set; [unset] leaves the stored deadline as it
    is, so after [setAt t] and [unset] the set time is still [t] and the
    timer is not set. *)
Theorem getSetTime_of_unset_timer (time_max : EventLoopTime)
    (Hmax : EventLoopTime_epoch < time_max) :
  getSetTime EventLoopTimer_new = EventLoopTime_epoch /\
  getSetTime EventLoopTimer_new <> time_max /\
  isSet EventLoopTimer_new = false /\
  (forall now tim,
     timers (EventLoop_new time_max now) tim = EventLoopTimer_new /\
     m_last_wait_time (EventLoop_new time_max now) = time_max) /\
  (forall tim st,
     getSetTime (timers (unset tim st) tim) = getSetTime (timers st tim)) /\
  (forall t tim st,
     getSetTime (timers (unset tim (setAt t tim st)) tim) = t /\
     isSet (timers (unset tim (setAt t tim st)) tim) = false).
Proof.
  split; [reflexivity |].
  split; [unfold getSetTime, EventLoopTimer_new; cbn [m_time]; lia |].
  split; [reflexivity |].
  split; [intros; split; reflexivity |].
  split.
  - intros tim st. unfold unset, getSetTime.
    repeat match goal with |- context [if ?b then _ else _] => destruct b end;
      rewrite ?timers_set_m_state;
      try (destruct (decide (tim = tim)) as [_ | Hne]; [| congruence]);
      reflexivity.
  - intros t tim st. split.
    + pose proof (unset_setAt_state t tim st) as H. cbv zeta in H. apply H.
    + apply setAt_unset_isSet.
Qed.

(** ** Counting the nodes of the heap *)

Section CountHeap.

Variable P : TimerState -> bool.

Lemma count_heap_insert mem mem' tim h :
  count_heap P mem (LinkedHeap.insert mem' tim h) =
  ((if P (m_state (mem tim)) then 1 else 0) + count_heap P mem h)%nat.
Proof.
  unfold count_heap. induction h as [| x h IH]; cbn [LinkedHeap.insert List.filter].
  - destruct (P (m_state (mem tim))); reflexivity.
  - destruct (compareEntries (mem' tim) (mem' x) <? 0); cbn [List.filter].
    + destruct (P (m_state (mem tim))); reflexivity.
    + destruct (P (m_state (mem x))); cbn [length]; rewrite IH;
        destruct (P (m_state (mem tim))); lia.
Qed.

Lemma count_heap_remove_le mem tim h :
  (count_heap P mem (LinkedHeap.remove tim h) <= count_heap P mem h)%nat.
Proof.
  unfold count_heap, LinkedHeap.remove.
  induction h as [| x h IH]; cbn [List.filter]; [lia |].
  destruct (negb (x =? tim)%nat); cbn [List.filter];
    destruct (P (m_state (mem x))); cbn [length]; lia.
Qed.

Lemma count_heap_remove_lt mem tim h :
  In tim h -> P (m_state (mem tim)) = true ->
  (count_heap P mem (LinkedHeap.remove tim h) < count_heap P mem h)%nat.
Proof.
  intros Hin HP. unfold count_heap, LinkedHeap.remove.
  induction h as [| x h IH]; [destruct Hin |].
  cbn [List.filter].
  pose proof (count_heap_remove_le mem tim h) as Hle.
  unfold count_heap, LinkedHeap.remove in Hle.
  destruct (Nat.eqb_spec x tim) as [-> | Hne]; cbn [negb List.filter].
  - rewrite HP. cbn [length]. lia.
  - destruct Hin as [-> | Hin]; [congruence |].
    specialize (IH Hin).
    destruct (P (m_state (mem x))); cbn [length]; lia.
Qed.

(** No timer of the heap enters the counted states. *)
Lemma count_heap_mono mem mem' h :
  (forall x, In x h -> P (m_state (mem' x)) = true -> P (m_state (mem x)) = true) ->
  (count_heap P mem' h <= count_heap P mem h)%nat.
Proof.
  unfold count_heap. induction h as [| x h IH]; intros Hm; cbn [List.filter]; [lia |].
  assert (IH' := IH (fun y Hy => Hm y (or_intror Hy))).
  pose proof (Hm x (or_introl eq_refl)) as Hx.
  destruct (P (m_state (mem' x))); [rewrite Hx by reflexivity |];
    [| destruct (P (m_state (mem x)))]; cbn [length]; lia.
Qed.

End CountHeap.

(** ** What the calls of user code do to the timers *)

Lemma unset_effect (tim : nat) (st : EventLoop) :
  let st' := unset tim st in
  m_time (timers st' tim) = m_time (timers st tim) /\
  match m_state (timers st tim) with
  | TempUnset | TempSet =>
      m_state (timers st' tim) = TempUnset /\ m_timer_heap st' = m_timer_heap st
  | Idle =>
      m_state (timers st' tim) = Idle /\ m_timer_heap st' = m_timer_heap st
  | Dispatch | Pending =>
      m_state (timers st' tim) = Idle /\
      m_timer_heap st' = LinkedHeap.remove tim (m_timer_heap st)
  end /\
  (forall tim', tim' <> tim -> timers st' tim' = timers st tim') /\
  calls st' = calls st /\ m_stop st' = m_stop st.
Proof.
  cbv zeta. unfold unset.
  destruct (m_state (timers st tim)) eqn:Hs; cbn [bool_decide decide_rel orb negb];
    decide_state_tests; cbn [orb negb];
    rewrite ?timers_set_m_state;
    try (destruct (decide (tim = tim)) as [_ | Hne]; [| congruence]);
    cbn [m_state m_time m_timer_heap set_m_state set_timers heap_remove set_timer_heap
         timers calls m_stop];
    rewrite ?Hs; repeat split; try reflexivity;
    intros tim' Hne; rewrite ?timers_set_m_state;
    cbn [m_state m_time m_timer_heap set_m_state set_timers heap_remove set_timer_heap timers];
    try reflexivity; unfold insert, fn_insert; destruct (decide (tim = tim')); congruence.
Qed.

Lemma setAt_timer_step time tim st : timer_step st (setAt time tim st).
Proof.
  pose proof (setAt_effect time tim st) as H. cbv zeta in H.
  destruct H as (_ & Hs & Ho & _).
  apply (timer_step_change _ _ tim); [| exact Ho |].
  - destruct (m_state (timers st tim)); destruct Hs as [-> _]; discriminate.
  - destruct (m_state (timers st tim)); destruct Hs as [_ ->]; auto.
Qed.

Lemma unset_timer_step tim st : timer_step st (unset tim st).
Proof.
  pose proof (unset_effect tim st) as H. cbv zeta in H.
  destruct H as (_ & Hs & Ho & _).
  apply (timer_step_change _ _ tim); [| exact Ho |].
  - destruct (m_state (timers st tim)); destruct Hs as [-> _]; discriminate.
  - destruct (m_state (timers st tim)); destruct Hs as [_ ->]; auto.
Qed.

Lemma do_action_timer_step E a st : timer_step st (do_action E a st).
Proof.
  destruct a; cbn [do_action];
    try apply setAt_timer_step; try apply unset_timer_step;
    try (apply timer_step_same; reflexivity).
  - unfold timer_delete. destruct (negb _).
    + apply (timer_step_remove _ _ tim); reflexivity.
    + apply timer_step_same; reflexivity.
  - unfold signal. destruct (AsyncSignalList.isRemoved _ _); [| apply timer_step_same; reflexivity].
    cbv zeta. destruct (AsyncSignalList.isLonely _ _); apply timer_step_same; reflexivity.
  - unfold signal_reset. destruct (negb _); apply timer_step_same; reflexivity.
  - unfold signal_delete, signal_reset. destruct (negb _); apply timer_step_same; reflexivity.
  - unfold updateEvents. destruct (negb _); apply timer_step_same; reflexivity.
  - unfold fd_reset. destruct (_ <=? _); apply timer_step_same; reflexivity.
  - unfold fd_delete. destruct (_ <=? _); apply timer_step_same; reflexivity.
Qed.

(** No call puts a timer into [Dispatch]. *)
Lemma timer_step_no_Dispatch st st' x :
  timer_step st st' ->
  m_state (timers st' x) = Dispatch -> m_state (timers st x) = Dispatch.
Proof.
  intros [Ht _ | tim Ht _ | tim Hs Ho _] Hx.
  - rewrite <- Ht. exact Hx.
  - rewrite <- Ht. exact Hx.
  - destruct (Nat.eq_dec x tim) as [-> | Hne]; [contradiction |].
    rewrite <- (Ho x Hne). exact Hx.
Qed.

Lemma timer_step_num_dispatch st st' :
  timer_step st st' -> (num_dispatch st' <= num_dispatch st)%nat.
Proof.
  unfold num_dispatch.
  intros [Ht Hh | tim Ht Hh | tim Hs Ho Hh].
  - rewrite Ht, Hh. lia.
  - rewrite Ht, Hh. apply count_heap_remove_le.
  - assert (Hnot : is_Dispatch (m_state (timers st' tim)) = false).
    { unfold is_Dispatch. apply bool_decide_eq_false. exact Hs. }
    assert (Hmono : forall h,
              (count_heap is_Dispatch (timers st') h <= count_heap is_Dispatch (timers st) h)%nat).
    { intros h. apply count_heap_mono. intros y _ Hy.
      destruct (Nat.eq_dec y tim) as [-> | Hne]; [congruence |].
      rewrite <- (Ho y Hne). exact Hy. }
    destruct Hh as [-> | [-> | [-> | ->]]].
    + apply Hmono.
    + rewrite count_heap_insert, Hnot. apply Hmono.
    + unfold LinkedHeap.fixup. rewrite count_heap_insert, Hnot.
      etransitivity; [apply count_heap_remove_le | apply Hmono].
    + etransitivity; [apply count_heap_remove_le | apply Hmono].
Qed.

(** ** Histories *)

Lemma armed_then_fired_app tim l1 l2 :
  armed_then_fired tim (l1 ++ l2) =
  armed_then_fired tim l1
  || (existsb (arms tim) l1 && existsb (fires tim) l2)
  || armed_then_fired tim l2.
Proof.
  induction l1 as [| e l1 IH]; cbn [app armed_then_fired existsb]; [reflexivity |].
  rewrite IH, existsb_app.
  destruct (arms tim e), (existsb (fires tim) l1), (existsb (fires tim) l2),
    (armed_then_fired tim l1), (existsb (arms tim) l1), (armed_then_fired tim l2);
    reflexivity.
Qed.

(** The reading of [armed_then_fired] on the positions of the history. *)
Lemma armed_then_fired_false tim tr :
  armed_then_fired tim tr = false <->
  (forall pre e post, tr = pre ++ e :: post -> arms tim e = true ->
     ~ In (EvTimerExpired tim) post).
Proof.
  split.
  - intros H pre e post -> Ha Hin.
    rewrite armed_then_fired_app in H. cbn [armed_then_fired] in H.
    rewrite Ha in H.
    assert (Hf : existsb (fires tim) post = true).
    { apply existsb_exists. exists (EvTimerExpired tim). split; [exact Hin |].
      cbn [fires]. apply Nat.eqb_refl. }
    rewrite Hf in H. cbn [andb orb] in H.
    rewrite !orb_true_r in H. discriminate H.
  - induction tr as [| e tr IH]; intros H; cbn [armed_then_fired]; [reflexivity |].
    rewrite IH.
    + rewrite orb_false_r. destruct (arms tim e) eqn:Ha; [| reflexivity].
      cbn [andb]. destruct (existsb (fires tim) tr) eqn:Hf; [| reflexivity].
      exfalso. apply existsb_exists in Hf. destruct Hf as (x & Hin & Hx).
      destruct x; try discriminate Hx. cbn [fires] in Hx.
      apply Nat.eqb_eq in Hx. subst tim0.
      exact (H [] e tr eq_refl Ha Hin).
    + intros pre e' post -> Ha. exact (H (e :: pre) e' post eq_refl Ha).
Qed.

Lemma user_events_not_fired tim tr :
  Forall (fun e => is_user_event e = true) tr -> existsb (fires tim) tr = false.
Proof.
  induction 1 as [| e tr He _ IH]; cbn [existsb]; [reflexivity |].
  rewrite IH. destruct e; try discriminate He; reflexivity.
Qed.

Lemma user_events_not_armed_then_fired tim tr :
  Forall (fun e => is_user_event e = true) tr -> armed_then_fired tim tr = false.
Proof.
  induction 1 as [| e tr He Htr IH]; cbn [armed_then_fired]; [reflexivity |].
  rewrite IH, (user_events_not_fired tim tr Htr), andb_false_r. reflexivity.
Qed.

(** The provider calls that one call of user code leaves in the history. *)
Lemma do_action_calls E a st :
  exists tr, calls (do_action E a st) = calls st ++ tr
             /\ Forall (fun e => is_user_event e = true) tr
             /\ forall x, existsb (arms x) tr = false.
Proof.
  assert (Hnil : exists tr : list Event, calls st = calls st ++ tr
             /\ Forall (fun e => is_user_event e = true) tr
             /\ forall x, existsb (arms x) tr = false).
  { exists []. rewrite app_nil_r. repeat split; constructor. }
  assert (Hone : forall e, is_user_event e = true -> (forall x, arms x e = false) ->
             exists tr : list Event, calls st ++ [e] = calls st ++ tr
             /\ Forall (fun e => is_user_event e = true) tr
             /\ forall x, existsb (arms x) tr = false).
  { intros e He Ha. exists [e]. repeat split; [repeat constructor; exact He |].
    intros x. cbn [existsb]. rewrite Ha. reflexivity. }
  destruct a; cbn [do_action].
  - exact Hnil.
  - pose proof (unset_effect tim st) as H. cbv zeta in H.
    destruct H as (_ & _ & _ & -> & _). exact Hnil.
  - pose proof (setAt_effect time tim st) as H. cbv zeta in H.
    destruct H as (_ & _ & _ & _ & _ & _ & -> & _). exact Hnil.
  - unfold setAfter.
    pose proof (setAt_effect (EventLoopTime_add (time_max E) (getEventTime st) duration) tim st)
      as H. cbv zeta in H.
    destruct H as (_ & _ & _ & _ & _ & _ & -> & _). exact Hnil.
  - unfold timer_delete. destruct (negb _); exact Hnil.
  - unfold signal. destruct (AsyncSignalList.isRemoved _ _); [| exact Hnil].
    cbv zeta. destruct (AsyncSignalList.isLonely _ _); [| exact Hnil].
    apply (Hone EvWakeup); reflexivity.
  - unfold signal_reset. destruct (negb _); exact Hnil.
  - unfold signal_delete, signal_reset. destruct (negb _); exact Hnil.
  - apply (Hone (EvInitFdImpl fd events)); reflexivity.
  - unfold updateEvents. destruct (negb _); [| exact Hnil].
    apply (Hone (EvUpdateEventsImpl _ _)); reflexivity.
  - unfold fd_reset. destruct (_ <=? _); [| exact Hnil].
    apply (Hone (EvResetImpl _)); reflexivity.
  - unfold fd_delete. destruct (_ <=? _); [| exact Hnil].
    apply (Hone (EvResetImpl _)); reflexivity.
Qed.

(** ** Handlers and the timers *)

Lemma armed_not_Dispatch E a st x :
  arms x (EvCall a) = true -> m_state (timers (do_action E a st) x) <> Dispatch.
Proof.
  destruct a; cbn [arms]; try discriminate; intros Hx; apply Nat.eqb_eq in Hx; subst x;
    cbn [do_action]; unfold setAfter;
    match goal with
    | |- m_state (timers (setAt ?t ?tim ?st) _) <> _ =>
        pose proof (setAt_effect t tim st) as H; cbv zeta in H;
        destruct H as (_ & Hs & _)
    end;
    destruct (m_state (timers st tim)); destruct Hs as [-> _]; discriminate.
Qed.

Lemma run_handler_timers E h st :
  exists tr,
    calls (run_handler E h st) = calls st ++ tr
    /\ Forall (fun e => is_user_event e = true) tr
    /\ (forall x, m_state (timers (run_handler E h st) x) = Dispatch ->
                  m_state (timers st x) = Dispatch)
    /\ (forall x, existsb (arms x) tr = true ->
                  m_state (timers (run_handler E h st) x) <> Dispatch)
    /\ (num_dispatch (run_handler E h st) <= num_dispatch st)%nat.
Proof.
  revert st. induction h as [| a k IH | k IH]; intros st; cbn [run_handler].
  - exists []. rewrite app_nil_r. repeat split; try constructor; auto; discriminate.
  - destruct (IH (do_action E a (observe (EvCall a) st))) as (trk & Hc & Hu & Hno & Harm & Hn).
    destruct (do_action_calls E a (observe (EvCall a) st)) as (tra & Hca & Hua & Hna).
    pose proof (do_action_timer_step E a (observe (EvCall a) st)) as Hstep.
    exists (EvCall a :: tra ++ trk). split; [| split; [| split; [| split]]].
    + rewrite Hc, Hca. cbn [observe calls]. rewrite <- !app_assoc. reflexivity.
    + constructor; [reflexivity |]. apply Forall_app. split; assumption.
    + intros x Hx. apply Hno in Hx.
      apply (timer_step_no_Dispatch _ _ x Hstep) in Hx. exact Hx.
    + intros x. cbn [existsb]. rewrite existsb_app, Hna. cbn [orb].
      intros Hx. apply orb_true_iff in Hx. destruct Hx as [Hx | Hx].
      * intros Hd. apply Hno in Hd. revert Hd. apply armed_not_Dispatch. exact Hx.
      * apply Harm. exact Hx.
    + etransitivity; [exact Hn |]. apply (timer_step_num_dispatch _ _ Hstep).
  - apply IH.
Qed.

(** ** [dispatch_timers] *)

Lemma first_In (h : LinkedHeap.t) tim : LinkedHeap.first h = Some tim -> In tim h.
Proof. destruct h; [discriminate |]. intros [= ->]. left. reflexivity. Qed.

(** The step of [dispatch_timers] that precedes the handler takes one
    timer out of [Dispatch]. *)
Lemma fire_num_dispatch tim st :
  LinkedHeap.first (m_timer_heap st) = Some tim ->
  m_state (timers st tim) = Dispatch ->
  (num_dispatch (heap_fixup tim (set_m_state tim TempUnset st)) < num_dispatch st)%nat.
Proof.
  intros Hfirst Hs. unfold num_dispatch, heap_fixup, LinkedHeap.fixup.
  cbn [timers m_timer_heap set_timer_heap set_m_state set_timers].
  rewrite count_heap_insert.
  unfold insert at 1, fn_insert at 1.
  destruct (decide (tim = tim)) as [_ | Hne]; [| congruence].
  cbn [m_state is_Dispatch bool_decide decide_rel Nat.add].
  eapply Nat.le_lt_trans;
    [| apply (count_heap_remove_lt is_Dispatch (timers st) tim);
       [apply first_In; exact Hfirst | rewrite Hs; reflexivity]].
  apply count_heap_mono. intros x _.
  unfold insert, fn_insert. destruct (decide (tim = x)); [discriminate | auto].
Qed.

(** With more fuel than there are timers to fire, [dispatch_timers]
    returns. *)
Lemma dispatch_timers_returns E fuel st :
  (num_dispatch st < fuel)%nat ->
  exists b st', dispatch_timers E fuel st = Some (b, st').
Proof.
  revert st. induction fuel as [| fuel IH]; intros st Hfuel; [lia |].
  cbn [dispatch_timers].
  destruct (LinkedHeap.first (m_timer_heap st)) as [tim |] eqn:Hfirst; [| eauto].
  destruct (bool_decide_reflect (m_state (timers st tim) = Dispatch)) as [Hs | Hs];
    cbn [negb]; [| eauto].
  cbv zeta.
  set (st1 := run_handler E (handleTimerExpired E tim)
                (observe (EvTimerExpired tim) (heap_fixup tim (set_m_state tim TempUnset st)))).
  destruct (m_stop st1); [eauto |].
  apply IH.
  destruct (run_handler_timers E (handleTimerExpired E tim)
              (observe (EvTimerExpired tim) (heap_fixup tim (set_m_state tim TempUnset st))))
    as (_ & _ & _ & _ & _ & Hn).
  pose proof (fire_num_dispatch tim st Hfirst Hs) as Hlt.
  fold st1 in Hn. unfold num_dispatch in *. cbn [observe timers m_timer_heap] in Hn. lia.
Qed.

Lemma do_action_m_stop_sticky E a st :
  m_stop st = true -> m_stop (do_action E a st) = true.
Proof.
  destruct a; cbn [do_action];
    unfold signal_delete, stop, unset, setAfter, setAt, timer_delete, signal, signal_reset,
      initFd, updateEvents, fd_reset, fd_delete, AsyncSignalList.initBefore,
      AsyncSignalList.markRemoved, AsyncSignalList.remove; cbv zeta;
    repeat match goal with |- context [if ?b then _ else _] => destruct b end;
    auto.
Qed.

Lemma run_handler_m_stop_sticky E h st :
  m_stop st = true -> m_stop (run_handler E h st) = true.
Proof.
  revert st. induction h as [| a k IH | k IH]; intros st Hs; cbn [run_handler]; auto.
  apply IH. apply do_action_m_stop_sticky. exact Hs.
Qed.

(** What one call of [dispatch_timers] adds to the history: handler
    invocations of timers that were in [Dispatch] when it was called, each
    followed by what the handler does; no timer is fired after a handler
    has armed it. *)
Lemma dispatch_timers_history E fuel st b st' :
  dispatch_timers E fuel st = Some (b, st') ->
  exists tr,
    calls st' = calls st ++ tr
    /\ Forall (fun e => is_user_event e = true \/ exists x, e = EvTimerExpired x) tr
    /\ (forall x, existsb (fires x) tr = true -> m_state (timers st x) = Dispatch)
    /\ (forall x, armed_then_fired x tr = false)
    /\ (forall x, m_state (timers st' x) = Dispatch -> m_state (timers st x) = Dispatch)
    /\ (b = false -> m_stop st' = true)
    /\ (m_stop st = false -> b = true -> m_stop st' = false)
    /\ m_event_time st' = m_event_time st.
Proof.
  revert st b st'. induction fuel as [| fuel IH]; intros st b st'; [discriminate |].
  assert (Hnil : exists tr : list Event,
    calls st = calls st ++ tr
    /\ Forall (fun e => is_user_event e = true \/ exists x, e = EvTimerExpired x) tr
    /\ (forall x, existsb (fires x) tr = true -> m_state (timers st x) = Dispatch)
    /\ (forall x, armed_then_fired x tr = false)
    /\ (forall x, m_state (timers st x) = Dispatch -> m_state (timers st x) = Dispatch)
    /\ (true = false -> m_stop st = true)
    /\ (m_stop st = false -> true = true -> m_stop st = false)
    /\ m_event_time st = m_event_time st).
  { exists []. rewrite app_nil_r. repeat split; auto; try discriminate; constructor. }
  cbn [dispatch_timers].
  destruct (LinkedHeap.first (m_timer_heap st)) as [tim |] eqn:Hfirst;
    [| intros [= <- <-]; exact Hnil].
  destruct (bool_decide_reflect (m_state (timers st tim) = Dispatch)) as [Hs | Hs];
    cbn [negb]; [| intros [= <- <-]; exact Hnil].
  cbv zeta.
  set (st0 := observe (EvTimerExpired tim) (heap_fixup tim (set_m_state tim TempUnset st))).
  destruct (run_handler_timers E (handleTimerExpired E tim) st0)
    as (trh & Hch & Huh & Hnoh & Harmh & _).
  pose proof (run_handler_m_event_time E (handleTimerExpired E tim) st0) as Hev.
  set (st1 := run_handler E (handleTimerExpired E tim) st0) in *.
  assert (Hst0 : forall x, m_state (timers st0 x) = Dispatch ->
                           m_state (timers st x) = Dispatch /\ x <> tim).
  { intros x. unfold st0. cbn [observe heap_fixup set_timer_heap timers].
    rewrite timers_set_m_state. destruct (decide (tim = x)) as [<- | Hne]; [discriminate |].
    auto. }
  assert (Hfire : forall x, fires x (EvTimerExpired tim) = true ->
                            m_state (timers st x) = Dispatch).
  { intros x Hx. cbn [fires] in Hx. apply Nat.eqb_eq in Hx. subst x. exact Hs. }
  destruct (m_stop st1) eqn:Hstop.
  - intros [= <- <-]. exists (EvTimerExpired tim :: trh).
    split; [rewrite Hch; unfold st0; cbn [observe calls];
            rewrite <- app_assoc; reflexivity |].
    split; [constructor; [right; eauto |];
            eapply List.Forall_impl; [| exact Huh]; cbv beta; auto |].
    split; [intros x; cbn [existsb]; rewrite (user_events_not_fired x trh Huh), orb_false_r;
            apply Hfire |].
    split; [intros x; cbn [armed_then_fired arms andb orb];
            apply user_events_not_armed_then_fired; exact Huh |].
    split; [intros x Hx; apply Hnoh in Hx; apply Hst0 in Hx; apply Hx |].
    split; [auto |]. split; [discriminate |]. exact Hev.
  - intros Hrest. destruct (IH st1 b st' Hrest) as (trr & Hcr & Hur & Hfr & Haf & Hnor & Hb & Hb' & Hevr).
    exists (EvTimerExpired tim :: trh ++ trr).
    split; [rewrite Hcr, Hch; unfold st0; cbn [observe calls];
            rewrite <- !app_assoc; reflexivity |].
    split; [constructor; [right; eauto |]; apply Forall_app; split; [| exact Hur];
            eapply List.Forall_impl; [| exact Huh]; cbv beta; auto |].
    split.
    { intros x. cbn [existsb]. rewrite existsb_app, (user_events_not_fired x trh Huh).
      cbn [orb]. intros Hx. apply orb_true_iff in Hx. destruct Hx as [Hx | Hx].
      - apply Hfire. exact Hx.
      - apply Hfr, Hnoh, Hst0 in Hx. apply Hx. }
    split.
    { intros x. cbn [armed_then_fired arms andb orb].
      rewrite armed_then_fired_app, Haf, (user_events_not_armed_then_fired x trh Huh).
      rewrite orb_false_r. cbn [orb].
      destruct (existsb (arms x) trh) eqn:Ha; [| reflexivity].
      destruct (existsb (fires x) trr) eqn:Hf; [| reflexivity].
      exfalso. exact (Harmh x Ha (Hfr x Hf)). }
    split; [intros x Hx; apply Hnor, Hnoh, Hst0 in Hx; apply Hx |].
    split; [exact Hb |]. split; [intros _ Hbt; apply Hb'; auto |].
    rewrite Hevr. exact Hev.
Qed.

(** C6: with enough fuel one pass of [dispatch_timers] returns, and of
    what it adds to the history: a timer whose handler is invoked was in
    [Dispatch] when the pass began; once a handler has called [setAt] or
    [setAfter] on a timer, whatever the deadline, the handler of that timer
    is not invoked in the rest of the pass; no call that a handler can make
    puts a timer into [Dispatch], and [setAt] leaves its timer in [TempSet]
    or [Pending]. *)
Theorem timer_armed_in_handler_not_fired_in_pass (E : Env) (fuel : nat) (st : EventLoop)
    (Hfuel : (num_dispatch st < fuel)%nat) :
  exists b st' tr,
    dispatch_timers E fuel st = Some (b, st')
    /\ calls st' = calls st ++ tr
    /\ (forall x, In (EvTimerExpired x) tr -> m_state (timers st x) = Dispatch)
    /\ (forall x pre e post,
          tr = pre ++ e :: post -> arms x e = true -> ~ In (EvTimerExpired x) post)
    /\ (forall a st0 x,
          m_state (timers (do_action E a st0) x) = Dispatch ->
          m_state (timers st0 x) = Dispatch)
    /\ (forall time x st0,
          m_state (timers (setAt time x st0) x) = TempSet
          \/ m_state (timers (setAt time x st0) x) = Pending).
Proof.
  destruct (dispatch_timers_returns E fuel st Hfuel) as (b & st' & Hrun).
  destruct (dispatch_timers_history E fuel st b st' Hrun)
    as (tr & Hc & _ & Hfired & Harmed & _).
  exists b, st', tr. split; [exact Hrun |]. split; [exact Hc |].
  split; [| split; [| split]].
  - intros x Hin. apply Hfired. apply existsb_exists.
    exists (EvTimerExpired x). split; [exact Hin |]. cbn [fires]. apply Nat.eqb_refl.
  - intros x. apply armed_then_fired_false. apply Harmed.
  - intros a st0 x. apply timer_step_no_Dispatch. apply do_action_timer_step.
  - intros time x st0. pose proof (setAt_effect time x st0) as H. cbv zeta in H.
    destruct H as (_ & Hs & _).
    destruct (m_state (timers st0 x)); destruct Hs as [-> _]; auto.
Qed.

(** Timer 0 fires and moves timer 1, which was due in this pass, to a
    deadline before the event time: timer 1 does not fire in the pass. *)
Lemma timer_armed_in_handler_example :
  (num_dispatch ex_two_due < 3)%nat /\
  exists b st' tr,
    dispatch_timers ex_env 3 ex_two_due = Some (b, st')
    /\ calls st' = calls ex_two_due ++ tr
    /\ (forall x, In (EvTimerExpired x) tr -> m_state (timers ex_two_due x) = Dispatch)
    /\ (forall x pre e post,
          tr = pre ++ e :: post -> arms x e = true -> ~ In (EvTimerExpired x) post)
    /\ (forall a st0 x,
          m_state (timers (do_action ex_env a st0) x) = Dispatch ->
          m_state (timers st0 x) = Dispatch)
    /\ (forall time x st0,
          m_state (timers (setAt time x st0) x) = TempSet
          \/ m_state (timers (setAt time x st0) x) = Pending).
Proof.
  split; [vm_compute; lia |].
  apply (timer_armed_in_handler_not_fired_in_pass ex_env 3 ex_two_due).
  vm_compute. lia.
Defined.

(** The run of that example: one handler invocation, of timer 0; timer 1
    is [Pending] at the deadline 3 afterwards. *)
Lemma timer_armed_in_handler_run :
  option_map (fun r => (fst r, calls (snd r), m_timer_heap (snd r),
                        timers (snd r) 0%nat, timers (snd r) 1%nat))
    (dispatch_timers ex_env 3 ex_two_due)
  = Some (true,
          [EvGetTime 0; EvTimerExpired 0; EvCall (A_setAt 1 3)],
          [0%nat; 1%nat],
          {| m_time := 5; m_state := TempUnset |},
          {| m_time := 3; m_state := Pending |}).
Proof. vm_compute. reflexivity. Qed.

(** C4, as stated, fails in the handler-context states: timer 2 fires,
    and while its handler runs (the timer is [TempUnset]) [setAt 20]
    followed by [unset] leaves it [TempUnset] and in the heap, not [Idle];
    so does the pass of [dispatch_timers] in which the handler of timer 2
    makes these two calls. *)
Lemma setAt_unset_in_handler_is_not_Idle :
  m_state (timers ex_in_handler 2%nat) = TempUnset
  /\ m_state (timers (unset 2 (setAt 20 2 ex_in_handler)) 2%nat) = TempUnset
  /\ m_state (timers (unset 2 (setAt 20 2 ex_in_handler)) 2%nat) <> Idle
  /\ m_timer_heap (unset 2 (setAt 20 2 ex_in_handler)) = [2%nat]
  /\ option_map (fun r => (fst r, calls (snd r), m_timer_heap (snd r), timers (snd r) 2%nat))
       (dispatch_timers ex_env 2 ex_rearm_due)
     = Some (true,
             [EvGetTime 0; EvTimerExpired 2; EvCall (A_setAt 2 20); EvCall (A_unset 2)],
             [2%nat],
             {| m_time := 20; m_state := TempUnset |}).
Proof.
  split; [vm_compute; reflexivity |].
  split; [vm_compute; reflexivity |].
  split; [vm_compute; discriminate |].
  split; vm_compute; reflexivity.
Qed.

(** ** [prepare_timers_for_wait] *)

Lemma finalize_unset_num_temp tim st :
  LinkedHeap.first (m_timer_heap st) = Some tim ->
  m_state (timers st tim) = TempUnset ->
  (num_temp (set_m_state tim Idle (heap_remove tim st)) < num_temp st)%nat.
Proof.
  intros Hfirst Hs. unfold num_temp.
  cbn [timers m_timer_heap set_timer_heap set_m_state set_timers heap_remove].
  eapply Nat.le_lt_trans;
    [| apply (count_heap_remove_lt is_Temp (timers st) tim);
       [apply first_In; exact Hfirst | rewrite Hs; reflexivity]].
  apply count_heap_mono. intros x _.
  unfold insert, fn_insert. destruct (decide (tim = x)); [discriminate | auto].
Qed.

Lemma finalize_set_num_temp tim st :
  LinkedHeap.first (m_timer_heap st) = Some tim ->
  m_state (timers st tim) = TempSet ->
  (num_temp (heap_fixup tim (set_m_state tim Pending st)) < num_temp st)%nat.
Proof.
  intros Hfirst Hs. unfold num_temp, heap_fixup, LinkedHeap.fixup.
  cbn [timers m_timer_heap set_timer_heap set_m_state set_timers].
  rewrite count_heap_insert.
  unfold insert at 1, fn_insert at 1.
  destruct (decide (tim = tim)) as [_ | Hne]; [| congruence].
  cbn [m_state is_Temp bool_decide decide_rel orb Nat.add].
  eapply Nat.le_lt_trans;
    [| apply (count_heap_remove_lt is_Temp (timers st) tim);
       [apply first_In; exact Hfirst | rewrite Hs; reflexivity]].
  apply count_heap_mono. intros x _.
  unfold insert, fn_insert. destruct (decide (tim = x)); [discriminate | auto].
Qed.

Lemma prepare_timers_for_wait_loop_returns fuel first_time st :
  (num_temp st < fuel)%nat ->
  exists r, prepare_timers_for_wait_loop fuel first_time st = Some r.
Proof.
  revert st. induction fuel as [| fuel IH]; intros st Hfuel; [lia |].
  cbn [prepare_timers_for_wait_loop].
  destruct (LinkedHeap.first (m_timer_heap st)) as [tim |] eqn:Hfirst; [| eauto].
  destruct (bool_decide_reflect (m_state (timers st tim) = TempUnset)) as [Hu | Hu].
  { apply IH. pose proof (finalize_unset_num_temp tim st Hfirst Hu). lia. }
  destruct (bool_decide_reflect (m_state (timers st tim) = TempSet)) as [Hs | Hs].
  { apply IH. pose proof (finalize_set_num_temp tim st Hfirst Hs). lia. }
  eauto.
Qed.

(** More fuel does not change a result. *)
Lemma prepare_timers_for_wait_loop_fuel fuel fuel' first_time st r :
  prepare_timers_for_wait_loop fuel first_time st = Some r ->
  (fuel <= fuel')%nat ->
  prepare_timers_for_wait_loop fuel' first_time st = Some r.
Proof.
  revert fuel' st. induction fuel as [| fuel IH]; intros fuel' st; [discriminate |].
  intros Hr Hle. destruct fuel' as [| fuel']; [lia |].
  cbn [prepare_timers_for_wait_loop] in *.
  destruct (LinkedHeap.first (m_timer_heap st)) as [tim |]; [| exact Hr].
  destruct (bool_decide (m_state (timers st tim) = TempUnset)); [apply IH; [exact Hr | lia] |].
  destruct (bool_decide (m_state (timers st tim) = TempSet)); [apply IH; [exact Hr | lia] |].
  exact Hr.
Qed.

(** Where the loop stops: the heap is empty and the time is the one the
    loop began with, or the root is neither [TempUnset] nor [TempSet] and
    the time is its deadline.  The loop leaves the last wait time and the
    history as they are. *)
Lemma prepare_timers_for_wait_loop_stops fuel first_time st t st' :
  prepare_timers_for_wait_loop fuel first_time st = Some (t, st') ->
  match LinkedHeap.first (m_timer_heap st') with
  | None => t = first_time
  | Some root =>
      t = m_time (timers st' root)
      /\ m_state (timers st' root) <> TempUnset
      /\ m_state (timers st' root) <> TempSet
  end
  /\ m_last_wait_time st' = m_last_wait_time st
  /\ calls st' = calls st
  /\ m_stop st' = m_stop st
  /\ m_event_time st' = m_event_time st.
Proof.
  revert st. induction fuel as [| fuel IH]; intros st; [discriminate |].
  cbn [prepare_timers_for_wait_loop].
  destruct (LinkedHeap.first (m_timer_heap st)) as [tim |] eqn:Hfirst.
  - destruct (bool_decide_reflect (m_state (timers st tim) = TempUnset)) as [Hu | Hu].
    { intros Hr. apply IH in Hr. exact Hr. }
    destruct (bool_decide_reflect (m_state (timers st tim) = TempSet)) as [Hs | Hs].
    { intros Hr. apply IH in Hr. exact Hr. }
    intros [= <- <-]. rewrite Hfirst. auto.
  - intros [= <- <-]. rewrite Hfirst. auto.
Qed.

(** C3: with enough fuel [prepare_timers_for_wait] returns, and by the
    root of the heap: with no root the time is the largest time and
    nothing changes; a [TempUnset] root is removed from the heap and set to
    [Idle], and the result is the one of going on from there; a [TempSet]
    root is set to [Pending] and fixed up, and the result is the one of
    going on from there; a [Pending] root (as any root in a state that the
    assertion of the source excludes) gives its deadline as the time and
    nothing changes.  The loop stops on an empty heap with the largest time
    or on a root that is neither [TempUnset] nor [TempSet] with its
    deadline.  [time_changed] is true exactly when the time differs from
    the last wait time that the loop had stored, and the time is stored as
    the last wait time. *)
Theorem prepare_timers_for_wait_by_root (time_max : EventLoopTime) (fuel : nat)
    (st : EventLoop) (Hfuel : (num_temp st < fuel)%nat) :
  exists info st',
    prepare_timers_for_wait time_max fuel st = Some (info, st')
    /\ match LinkedHeap.first (m_timer_heap st) with
       | None =>
           wait_time info = time_max
           /\ timers st' = timers st /\ m_timer_heap st' = m_timer_heap st
       | Some tim =>
           match m_state (timers st tim) with
           | TempUnset =>
               let st1 := set_m_state tim Idle (heap_remove tim st) in
               m_state (timers st1 tim) = Idle
               /\ m_timer_heap st1 = LinkedHeap.remove tim (m_timer_heap st)
               /\ ~ In tim (m_timer_heap st1)
               /\ (num_temp st1 < num_temp st)%nat
               /\ prepare_timers_for_wait time_max fuel st1 = Some (info, st')
           | TempSet =>
               let st1 := heap_fixup tim (set_m_state tim Pending st) in
               m_state (timers st1 tim) = Pending
               /\ m_timer_heap st1 = LinkedHeap.fixup (timers st1) tim (m_timer_heap st)
               /\ (num_temp st1 < num_temp st)%nat
               /\ prepare_timers_for_wait time_max fuel st1 = Some (info, st')
           | Pending | Idle | Dispatch =>
               wait_time info = m_time (timers st tim)
               /\ timers st' = timers st /\ m_timer_heap st' = m_timer_heap st
           end
       end
    /\ match LinkedHeap.first (m_timer_heap st') with
       | None => wait_time info = time_max
       | Some root =>
           wait_time info = m_time (timers st' root)
           /\ m_state (timers st' root) <> TempUnset
           /\ m_state (timers st' root) <> TempSet
       end
    /\ wait_time_changed info = negb (wait_time info =? m_last_wait_time st)
    /\ (wait_time_changed info = true <-> wait_time info <> m_last_wait_time st)
    /\ m_last_wait_time st' = wait_time info.
Proof.
  destruct (prepare_timers_for_wait_loop_returns fuel time_max st Hfuel) as ([t st2] & Hloop).
  pose proof (prepare_timers_for_wait_loop_stops fuel time_max st t st2 Hloop)
    as (Hstop & Hlast & _).
  unfold prepare_timers_for_wait at 1. rewrite Hloop. cbv zeta.
  eexists _, _. split; [reflexivity |].
  cbn [wait_time wait_time_changed set_last_wait_time timers m_timer_heap m_last_wait_time].
  rewrite Hlast.
  split; [| split; [exact Hstop | split; [reflexivity | split; [| reflexivity]]]].
  - destruct fuel as [| fuel]; [discriminate |].
    cbn [prepare_timers_for_wait_loop] in Hloop.
    destruct (LinkedHeap.first (m_timer_heap st)) as [tim |] eqn:Hfirst;
      [| injection Hloop as <- <-; auto].
    destruct (m_state (timers st tim)) eqn:Hs;
      cbn [bool_decide decide_rel] in Hloop;
      repeat match type of Hloop with
      | context [bool_decide ?P] =>
          let H := fresh in destruct (bool_decide_reflect P) as [H | H];
          try discriminate H; try congruence
      end;
      try (injection Hloop as <- <-; auto).
    + cbv zeta. split; [rewrite timers_set_m_state;
                        destruct (decide (tim = tim)); [reflexivity | congruence] |].
      split; [reflexivity |]. split; [apply heap_remove_not_elem |].
      split; [apply finalize_unset_num_temp; assumption |].
      unfold prepare_timers_for_wait.
      rewrite (prepare_timers_for_wait_loop_fuel fuel (S fuel) _ _ _ Hloop) by lia.
      cbv zeta. rewrite Hlast. reflexivity.
    + cbv zeta. split; [unfold heap_fixup; cbn [timers set_timer_heap];
                        rewrite timers_set_m_state;
                        destruct (decide (tim = tim)); [reflexivity | congruence] |].
      split; [reflexivity |].
      split; [apply finalize_set_num_temp; assumption |].
      unfold prepare_timers_for_wait.
      rewrite (prepare_timers_for_wait_loop_fuel fuel (S fuel) _ _ _ Hloop) by lia.
      cbv zeta. rewrite Hlast. reflexivity.
  - rewrite negb_true_iff, Z.eqb_neq. reflexivity.
Qed.

(** Timer 2 unset itself in its handler, timer 4 re-armed itself at 40
    and timer 5 is pending at 50: the loop is to wait until 40. *)
Lemma prepare_timers_for_wait_example :
  (num_temp ex_before_wait < 3)%nat /\
  exists info st',
    prepare_timers_for_wait ex_time_max 3 ex_before_wait = Some (info, st')
    /\ match LinkedHeap.first (m_timer_heap ex_before_wait) with
       | None =>
           wait_time info = ex_time_max
           /\ timers st' = timers ex_before_wait
           /\ m_timer_heap st' = m_timer_heap ex_before_wait
       | Some tim =>
           match m_state (timers ex_before_wait tim) with
           | TempUnset =>
               let st1 := set_m_state tim Idle (heap_remove tim ex_before_wait) in
               m_state (timers st1 tim) = Idle
               /\ m_timer_heap st1 = LinkedHeap.remove tim (m_timer_heap ex_before_wait)
               /\ ~ In tim (m_timer_heap st1)
               /\ (num_temp st1 < num_temp ex_before_wait)%nat
               /\ prepare_timers_for_wait ex_time_max 3 st1 = Some (info, st')
           | TempSet =>
               let st1 := heap_fixup tim (set_m_state tim Pending ex_before_wait) in
               m_state (timers st1 tim) = Pending
               /\ m_timer_heap st1
                  = LinkedHeap.fixup (timers st1) tim (m_timer_heap ex_before_wait)
               /\ (num_temp st1 < num_temp ex_before_wait)%nat
               /\ prepare_timers_for_wait ex_time_max 3 st1 = Some (info, st')
           | Pending | Idle | Dispatch =>
               wait_time info = m_time (timers ex_before_wait tim)
               /\ timers st' = timers ex_before_wait
               /\ m_timer_heap st' = m_timer_heap ex_before_wait
           end
       end
    /\ match LinkedHeap.first (m_timer_heap st') with
       | None => wait_time info = ex_time_max
       | Some root =>
           wait_time info = m_time (timers st' root)
           /\ m_state (timers st' root) <> TempUnset
           /\ m_state (timers st' root) <> TempSet
       end
    /\ wait_time_changed info = negb (wait_time info =? m_last_wait_time ex_before_wait)
    /\ (wait_time_changed info = true <-> wait_time info <> m_last_wait_time ex_before_wait)
    /\ m_last_wait_time st' = wait_time info.
Proof.
  split; [vm_compute; lia |].
  apply (prepare_timers_for_wait_by_root ex_time_max 3 ex_before_wait).
  vm_compute. lia.
Defined.

Lemma prepare_timers_for_wait_run :
  (m_timer_heap ex_before_wait,
   m_state (timers ex_before_wait 2%nat), m_state (timers ex_before_wait 4%nat),
   m_state (timers ex_before_wait 5%nat)) = ([4%nat; 2%nat; 5%nat], TempUnset, TempSet, Pending)
  /\ option_map (fun r => (fst r, m_timer_heap (snd r), timers (snd r) 2%nat,
                           timers (snd r) 4%nat, m_last_wait_time (snd r)))
       (prepare_timers_for_wait ex_time_max 3 ex_before_wait)
     = Some ({| wait_time := 40; wait_time_changed := true |},
             [4%nat; 5%nat],
             {| m_time := 20; m_state := Idle |},
             {| m_time := 40; m_state := Pending |},
             40).
Proof. split; vm_compute; reflexivity. Qed.

(** On a platform whose largest time is 2^63 - 1 ticks. *)
Lemma getSetTime_of_unset_timer_example :
  EventLoopTime_epoch < ex_time_max /\
  (getSetTime EventLoopTimer_new = EventLoopTime_epoch /\
   getSetTime EventLoopTimer_new <> ex_time_max /\
   isSet EventLoopTimer_new = false /\
   (forall now tim,
      timers (EventLoop_new ex_time_max now) tim = EventLoopTimer_new /\
      m_last_wait_time (EventLoop_new ex_time_max now) = ex_time_max) /\
   (forall tim st,
      getSetTime (timers (unset tim st) tim) = getSetTime (timers st tim)) /\
   (forall t tim st,
      getSetTime (timers (unset tim (setAt t tim st)) tim) = t /\
      isSet (timers (unset tim (setAt t tim st)) tim) = false)).
Proof.
  split; [reflexivity |].
  apply (getSetTime_of_unset_timer ex_time_max). reflexivity.
Defined.

(** ** Paths of links *)

Section Path.

Context {A : Type} `{EqDecision A}.

Implicit Types (f g : A -> A) (a b c x : A) (l : list A).

(** A path reads the links of its start and of the nodes it goes
    through, and of no other node. *)
Lemma path_start f g a a' l b :
  g a' = f a -> (forall x, In x l -> g x = f x) -> path f a l b -> path g a' l b.
Proof.
  revert a a'. induction l as [| y l IH]; intros a a' Ha Hl; cbn [path].
  - congruence.
  - intros [Hy Hp]. split; [congruence |].
    apply (IH y y); [apply Hl; left; reflexivity | | exact Hp].
    intros x Hx. apply Hl. right. exact Hx.
Qed.

Lemma path_frame f a l b p v :
  ~ In p (a :: l) -> path f a l b -> path (<[p := v]> f) a l b.
Proof.
  intros Hp. apply path_start.
  - apply fn_lookup_insert_ne. intros ->. apply Hp. left. reflexivity.
  - intros x Hx. apply fn_lookup_insert_ne. intros ->. apply Hp. right. exact Hx.
Qed.

Lemma path_app f a l1 x l2 b :
  path f a (l1 ++ x :: l2) b <-> path f a l1 x /\ path f x l2 b.
Proof.
  revert a. induction l1 as [| y l1 IH]; intros a; cbn [app path].
  - tauto.
  - rewrite IH. tauto.
Qed.

Lemma path_snoc f a l x b :
  path f a (l ++ [x]) b <-> path f a l x /\ f x = b.
Proof. rewrite path_app. cbn [path]. tauto. Qed.

Lemma last_cons_cons a y l : List.last (y :: l) a = List.last l y.
Proof.
  revert a y. induction l as [| z l IH]; intros a y; [reflexivity |].
  change (List.last (y :: z :: l) a) with (List.last (z :: l) a).
  rewrite (IH a z), (IH y z). reflexivity.
Qed.

Lemma last_In_or a l : List.last l a = a \/ In (List.last l a) l.
Proof.
  revert a. induction l as [| y l IH]; intros a; [left; reflexivity |].
  right. rewrite last_cons_cons.
  destruct (IH y) as [-> | Hin]; [left; reflexivity | right; exact Hin].
Qed.

(** The link of the start of a path. *)
Lemma path_first f a l b : path f a l b -> f a = hd b l.
Proof. destruct l; cbn [path hd]; tauto. Qed.

(** Redirect the link of the node that a path goes through last. *)
Lemma path_redirect f a l b c :
  List.NoDup (a :: l) -> path f a l b -> path (<[List.last l a := c]> f) a l c.
Proof.
  revert a. induction l as [| y l IH]; intros a Hnd; cbn [path].
  - intros _. apply fn_lookup_insert.
  - intros [Hy Hp]. rewrite last_cons_cons.
    apply List.NoDup_cons_iff in Hnd. destruct Hnd as [Ha Hnd].
    split.
    + rewrite fn_lookup_insert_ne; [exact Hy |].
      intros Heq. apply Ha. rewrite <- Heq.
      destruct (last_In_or y l) as [-> | Hin]; [left; reflexivity | right; exact Hin].
    + apply IH; assumption.
Qed.

(** Unlink the node [x] of a path: its predecessor is linked to its
    successor. *)
Lemma path_unlink f a l1 x l2 b :
  List.NoDup (a :: l1 ++ x :: l2) -> path f a (l1 ++ x :: l2) b ->
  path (<[List.last l1 a := f x]> f) a (l1 ++ l2) b.
Proof.
  revert a. induction l1 as [| y l1 IH]; intros a Hnd; cbn [app path].
  - intros [Hx Hp]. cbn [List.last]. apply List.NoDup_cons_iff in Hnd. destruct Hnd as [Ha Hnd].
    apply List.NoDup_cons_iff in Hnd. destruct Hnd as [Hxl Hnd].
    apply (path_start f _ x a).
    + apply fn_lookup_insert.
    + intros z Hz. apply fn_lookup_insert_ne. intros ->. apply Ha. right. exact Hz.
    + exact Hp.
  - intros [Hy Hp]. rewrite last_cons_cons.
    apply List.NoDup_cons_iff in Hnd. destruct Hnd as [Ha Hnd].
    split.
    + rewrite fn_lookup_insert_ne; [exact Hy |].
      intros Heq. apply Ha. rewrite <- Heq.
      destruct (last_In_or y l1) as [-> | Hin]; [left; reflexivity |].
      right. apply in_or_app. left. exact Hin.
    + apply IH; assumption.
Qed.

End Path.

(** ** Rings of signal nodes *)

Lemma hd_rev_last {A : Type} (l : list A) (d : A) : hd d (rev l) = List.last l d.
Proof.
  induction l as [| x l IH] using rev_ind; [reflexivity |].
  rewrite rev_app_distr, List.last_last. reflexivity.
Qed.

Lemma last_rev_hd {A : Type} (l : list A) (d : A) : List.last (rev l) d = hd d l.
Proof. rewrite <- (rev_involutive l) at 2. symmetry. apply hd_rev_last. Qed.

Lemma In_map_asig sig l : In (asig sig) (map asig l) <-> In sig l.
Proof.
  rewrite in_map_iff. split.
  - intros (x & [= ->] & Hx). exact Hx.
  - intros Hx. exists sig. auto.
Qed.

Lemma NoDup_map_asig l : List.NoDup l -> List.NoDup (map asig l).
Proof.
  induction 1 as [| x l Hx _ IH]; cbn [map]; constructor; [| exact IH].
  rewrite In_map_asig. exact Hx.
Qed.

Lemma is_head_pending : is_head m_pending_async_list.
Proof. intros sig. discriminate. Qed.

Lemma is_head_dispatch : is_head m_dispatch_async_list.
Proof. intros sig. discriminate. Qed.

Lemma head_not_In h l : is_head h -> ~ In h (map asig l).
Proof. intros Hh Hin. apply in_map_iff in Hin. destruct Hin as (x & Hx & _). exact (Hh x (eq_sym Hx)). Qed.

Lemma NoDup_ring_nodes h l : is_head h -> List.NoDup l -> List.NoDup (h :: map asig l).
Proof.
  intros Hh Hl. constructor; [apply head_not_In; exact Hh | apply NoDup_map_asig; exact Hl].
Qed.

(** A ring reads the links of its own nodes only. *)
Lemma ring_frame st st' h l :
  (forall x, In x (h :: map asig l) ->
             link_next st' x = link_next st x /\ link_prev st' x = link_prev st x) ->
  ring st h l -> ring st' h l.
Proof.
  intros Hfr [Hn Hp]. split.
  - revert Hn. apply path_start.
    + apply Hfr. left. reflexivity.
    + intros x Hx. apply Hfr. right. exact Hx.
  - revert Hp. apply path_start.
    + apply Hfr. left. reflexivity.
    + intros x Hx. apply Hfr. right. apply in_rev. exact Hx.
Qed.

(** The first node of a ring, and the last. *)
Lemma ring_next_head st h l : ring st h l -> link_next st h = hd h (map asig l).
Proof. intros [Hn _]. apply (path_first _ _ _ _ Hn). Qed.

Lemma ring_prev_head st h l : ring st h l -> link_prev st h = List.last (map asig l) h.
Proof. intros [_ Hp]. rewrite (path_first _ _ _ _ Hp). apply hd_rev_last. Qed.

(** The links of a node of a ring. *)
Lemma ring_links st h l1 sig l2 :
  ring st h (l1 ++ sig :: l2) ->
  link_next st (asig sig) = hd h (map asig l2)
  /\ link_prev st (asig sig) = List.last (map asig l1) h.
Proof.
  intros [Hn Hp]. rewrite map_app in Hn, Hp. cbn [map] in Hn, Hp.
  rewrite rev_app_distr in Hp. cbn [rev] in Hp. rewrite <- app_assoc in Hp. cbn [app] in Hp.
  apply path_app in Hn. destruct Hn as [_ Hn].
  apply path_app in Hp. destruct Hp as [_ Hp].
  split.
  - apply (path_first _ _ _ _ Hn).
  - rewrite (path_first _ _ _ _ Hp). apply hd_rev_last.
Qed.

(** A node of a ring does not carry the removed marker. *)
Lemma ring_member_not_removed st h l sig :
  is_head h -> List.NoDup l -> ring st h l -> In sig l ->
  link_next st (asig sig) <> asig sig.
Proof.
  intros Hh Hnd Hr Hin. apply in_split in Hin. destruct Hin as (l1 & l2 & ->).
  destruct (ring_links st h l1 sig l2 Hr) as [-> _].
  apply List.NoDup_remove_2 in Hnd.
  destruct l2 as [| y l2]; cbn [map hd].
  - apply Hh.
  - intros [= ->]. apply Hnd. apply in_or_app. right. left. reflexivity.
Qed.

Lemma initBefore_links e h st :
  e <> h ->
  link_next (AsyncSignalList.initBefore e h st)
    = <[link_prev st h := e]> (<[e := h]> (link_next st))
  /\ link_prev (AsyncSignalList.initBefore e h st)
    = <[h := e]> (<[e := link_prev st h]> (link_prev st)).
Proof.
  intros Hne. unfold AsyncSignalList.initBefore, AsyncSignalList.set_next,
    AsyncSignalList.set_prev, AsyncSignalList.prev.
  cbn [link_next link_prev set_link_next set_link_prev].
  rewrite fn_lookup_insert_ne by exact Hne. split; reflexivity.
Qed.

Lemma last_ring_node_In h l :
  In (List.last (map asig l) h) (h :: map asig l).
Proof.
  destruct (last_In_or h (map asig l)) as [-> | Hin]; [left; reflexivity | right; exact Hin].
Qed.

(** [initBefore] of a node that is in no ring, in front of the head of a
    ring: the node is the last of the ring, and no link of a node outside
    the ring changes, the links of the node apart. *)
Lemma ring_link_tail st h l sig :
  is_head h -> List.NoDup l -> ~ In sig l -> ring st h l ->
  ring (AsyncSignalList.initBefore (asig sig) h st) h (l ++ [sig])
  /\ forall x, ~ In x (asig sig :: h :: map asig l) ->
       link_next (AsyncSignalList.initBefore (asig sig) h st) x = link_next st x
       /\ link_prev (AsyncSignalList.initBefore (asig sig) h st) x = link_prev st x.
Proof.
  intros Hh Hnd Hsig Hr.
  assert (Hne : asig sig <> h) by (intros Heq; exact (Hh sig (eq_sym Heq))).
  destruct (initBefore_links (asig sig) h st Hne) as [Hnx Hpv].
  pose proof (ring_prev_head st h l Hr) as Hlast.
  assert (Hsig' : ~ In (asig sig) (h :: map asig l)).
  { intros [Heq | Hin]; [exact (Hh sig Heq) |]. apply In_map_asig in Hin. exact (Hsig Hin). }
  pose proof (last_ring_node_In h l) as HlastIn.
  assert (Hlne : List.last (map asig l) h <> asig sig).
  { intros Heq. apply Hsig'. rewrite <- Heq. exact HlastIn. }
  destruct Hr as [Hn Hp].
  split; [split |].
  - rewrite Hnx, Hlast, map_app. cbn [map]. apply path_snoc. split.
    + apply path_redirect with (b := h); [apply NoDup_ring_nodes; assumption |].
      apply path_frame; assumption.
    + rewrite fn_lookup_insert_ne by exact Hlne. apply fn_lookup_insert.
  - rewrite Hpv, map_app, rev_app_distr. cbn [map rev app path]. split.
    + apply fn_lookup_insert.
    + revert Hp. apply path_start.
      * rewrite fn_lookup_insert_ne by (intros Heq; exact (Hne (eq_sym Heq))).
        apply fn_lookup_insert.
      * intros x Hx. apply in_rev in Hx.
        rewrite !fn_lookup_insert_ne; [reflexivity | |].
        -- intros <-. apply Hsig'. right. exact Hx.
        -- intros <-. exact (head_not_In h l Hh Hx).
  - intros x Hx. rewrite Hnx, Hpv, Hlast. split.
    + rewrite !fn_lookup_insert_ne; [reflexivity | |].
      * intros <-. apply Hx. left. reflexivity.
      * intros <-. apply Hx. right. exact HlastIn.
    + rewrite !fn_lookup_insert_ne; [reflexivity | |].
      * intros <-. apply Hx. left. reflexivity.
      * intros <-. apply Hx. right. left. reflexivity.
Qed.

Lemma remove_links e st :
  link_prev st e <> e ->
  link_next (AsyncSignalList.remove e st)
    = <[link_prev st e := link_next st e]> (link_next st)
  /\ link_prev (AsyncSignalList.remove e st)
    = <[link_next st e := link_prev st e]> (link_prev st).
Proof.
  intros Hne. unfold AsyncSignalList.remove, AsyncSignalList.set_next,
    AsyncSignalList.set_prev, AsyncSignalList.prev, AsyncSignalList.next.
  cbn [link_next link_prev set_link_next set_link_prev].
  rewrite fn_lookup_insert_ne by exact Hne. split; reflexivity.
Qed.

Lemma markRemoved_links e st :
  link_next (AsyncSignalList.markRemoved e st) = <[e := e]> (link_next st)
  /\ link_prev (AsyncSignalList.markRemoved e st) = link_prev st.
Proof. split; reflexivity. Qed.

(** [remove] and then [markRemoved] of a node of a ring: the node is no
    longer in the ring and carries the removed marker, and no link of a
    node outside the ring changes. *)
Lemma ring_unlink st h l1 sig l2 :
  is_head h -> List.NoDup (l1 ++ sig :: l2) -> ring st h (l1 ++ sig :: l2) ->
  let st' := AsyncSignalList.markRemoved (asig sig) (AsyncSignalList.remove (asig sig) st) in
  ring st' h (l1 ++ l2)
  /\ link_next st' (asig sig) = asig sig
  /\ forall x, ~ In x (h :: map asig (l1 ++ sig :: l2)) ->
       link_next st' x = link_next st x /\ link_prev st' x = link_prev st x.
Proof.
  intros Hh Hnd Hr. cbv zeta.
  destruct (ring_links st h l1 sig l2 Hr) as [Hnext Hprev].
  pose proof (NoDup_ring_nodes h _ Hh Hnd) as Hnodes.
  rewrite map_app in Hnodes. cbn [map] in Hnodes.
  assert (HprevIn : In (link_prev st (asig sig)) (h :: map asig l1)).
  { rewrite Hprev. apply last_ring_node_In. }
  assert (HnextIn : In (link_next st (asig sig)) (h :: map asig l2)).
  { rewrite Hnext. destruct l2; cbn [map hd]; [left | right; left]; reflexivity. }
  assert (Hsig1 : ~ In (asig sig) (h :: map asig l1)).
  { intros Hin. apply List.NoDup_cons_iff in Hnodes. destruct Hnodes as [Hhd Hnodes].
    destruct Hin as [Heq | Hin]; [exact (Hh sig Heq) |].
    apply List.NoDup_remove_2 in Hnodes. apply Hnodes. apply in_or_app. left. exact Hin. }
  assert (Hsig2 : ~ In (asig sig) (h :: map asig l2)).
  { intros Hin. apply List.NoDup_cons_iff in Hnodes. destruct Hnodes as [Hhd Hnodes].
    destruct Hin as [Heq | Hin]; [exact (Hh sig Heq) |].
    apply List.NoDup_remove_2 in Hnodes. apply Hnodes. apply in_or_app. right. exact Hin. }
  assert (Hpne : link_prev st (asig sig) <> asig sig).
  { intros Heq. apply Hsig1. rewrite <- Heq. exact HprevIn. }
  assert (Hnne : link_next st (asig sig) <> asig sig).
  { intros Heq. apply Hsig2. rewrite <- Heq. exact HnextIn. }
  destruct (remove_links (asig sig) st Hpne) as [Hnx Hpv].
  unfold ring.
  destruct (markRemoved_links (asig sig) (AsyncSignalList.remove (asig sig) st)) as [-> ->].
  rewrite Hnx, Hpv.
  destruct Hr as [Hn Hp]. rewrite map_app in Hn, Hp. cbn [map] in Hn, Hp.
  rewrite rev_app_distr in Hp. cbn [rev] in Hp. rewrite <- app_assoc in Hp. cbn [app] in Hp.
  split; [split |].
  - rewrite map_app. apply path_frame.
    + intros [Heq | Hin]; [exact (Hh sig Heq) |].
      apply in_app_or in Hin. destruct Hin as [Hin | Hin].
      * apply Hsig1. right. exact Hin.
      * apply Hsig2. right. exact Hin.
    + rewrite Hprev. apply path_unlink; [exact Hnodes | exact Hn].
  - rewrite map_app, rev_app_distr. rewrite Hnext, <- last_rev_hd.
    apply path_unlink; [| exact Hp].
    apply List.NoDup_cons_iff in Hnodes. destruct Hnodes as [Hhd Hnodes].
    constructor.
    + intros Hin. apply Hhd. apply in_app_or in Hin. apply in_or_app.
      destruct Hin as [Hin | [Hin | Hin]].
      * right. right. apply in_rev. exact Hin.
      * right. left. exact Hin.
      * left. apply in_rev. exact Hin.
    + apply (NoDup_rev) in Hnodes. rewrite rev_app_distr in Hnodes. cbn [rev] in Hnodes.
      rewrite <- app_assoc in Hnodes. exact Hnodes.
  - split; [apply fn_lookup_insert |].
    intros x Hx. rewrite map_app in Hx. cbn [map] in Hx. split.
    + rewrite !fn_lookup_insert_ne; [reflexivity | |].
      * intros <-. destruct HprevIn as [Heq | Hin]; apply Hx;
          [left; exact Heq | right; apply in_or_app; left; exact Hin].
      * intros <-. apply Hx. right. apply in_or_app. right. left. reflexivity.
    + rewrite !fn_lookup_insert_ne; [reflexivity |].
      intros <-. destruct HnextIn as [Heq | Hin]; apply Hx;
        [left; exact Heq | right; apply in_or_app; right; right; exact Hin].
Qed.

Lemma initReplaceNotLonely_links e other st :
  link_next st other <> e ->
  link_next (AsyncSignalList.initReplaceNotLonely e other st)
    = <[link_prev st other := e]> (<[e := link_next st other]> (link_next st))
  /\ link_prev (AsyncSignalList.initReplaceNotLonely e other st)
    = <[link_next st other := e]> (<[e := link_prev st other]> (link_prev st)).
Proof.
  intros Hne. unfold AsyncSignalList.initReplaceNotLonely, AsyncSignalList.set_next,
    AsyncSignalList.set_prev, AsyncSignalList.prev, AsyncSignalList.next.
  cbn [link_next link_prev set_link_next set_link_prev].
  rewrite fn_lookup_insert, fn_lookup_insert_ne by exact Hne.
  rewrite fn_lookup_insert. split; reflexivity.
Qed.

Lemma initLonely_links e st :
  link_next (AsyncSignalList.initLonely e st) = <[e := e]> (link_next st)
  /\ link_prev (AsyncSignalList.initLonely e st) = <[e := e]> (link_prev st).
Proof. split; reflexivity. Qed.

Lemma last_default {A : Type} (l : list A) (d d' : A) :
  l <> [] -> List.last l d = List.last l d'.
Proof.
  destruct l as [| x l]; [congruence |]. intros _.
  rewrite !last_cons_cons. reflexivity.
Qed.

(** A path that is taken over by another start and made to end there:
    what [initReplaceNotLonely] does with each direction of a ring. *)
Lemma path_replace_head (f : AsyncSignalNode -> AsyncSignalNode) h h' l :
  l <> [] -> List.NoDup (h' :: l) -> ~ In h (h' :: l) -> path f h l h ->
  path (<[h := h]> (<[List.last l h := h']> (<[h' := f h]> f))) h' l h'.
Proof.
  intros Hl Hnd Hh Hp.
  apply path_frame; [exact Hh |].
  rewrite (last_default l h h' Hl).
  apply path_redirect with (b := h); [exact Hnd |].
  revert Hp. apply path_start.
  - apply fn_lookup_insert.
  - intros x Hx. apply fn_lookup_insert_ne. intros <-.
    apply List.NoDup_cons_iff in Hnd. destruct Hnd as [Hnd _]. exact (Hnd Hx).
Qed.

(** ** The invariant of the two lists *)

Lemma lists_wf_frame st st' pending dispatch :
  link_next st' = link_next st -> link_prev st' = link_prev st ->
  lists_wf st pending dispatch -> lists_wf st' pending dispatch.
Proof.
  intros Hn Hp (Hrp & Hrd & Hnd & Hrem). unfold lists_wf, ring in *.
  rewrite Hn, Hp. auto.
Qed.

Lemma lists_wf_new time_max now : lists_wf (EventLoop_new time_max now) [] [].
Proof.
  unfold lists_wf, ring. cbn [map rev app path].
  repeat split; try constructor.
Qed.

(** Under the invariant the tests of the source read the lists. *)
Lemma lists_wf_isLonely_pending st pending dispatch :
  lists_wf st pending dispatch ->
  AsyncSignalList.isLonely m_pending_async_list st = true <-> pending = [].
Proof.
  intros (Hrp & _). unfold AsyncSignalList.isLonely, AsyncSignalList.next.
  rewrite bool_decide_eq_true, (ring_next_head _ _ _ Hrp).
  destruct pending; cbn [map hd]; split; auto; discriminate.
Qed.

Lemma lists_wf_isLonely_dispatch st pending dispatch :
  lists_wf st pending dispatch ->
  AsyncSignalList.isLonely m_dispatch_async_list st = true <-> dispatch = [].
Proof.
  intros (_ & Hrd & _). unfold AsyncSignalList.isLonely, AsyncSignalList.next.
  rewrite bool_decide_eq_true, (ring_next_head _ _ _ Hrd).
  destruct dispatch; cbn [map hd]; split; auto; discriminate.
Qed.

Lemma lists_wf_isRemoved st pending dispatch sig :
  lists_wf st pending dispatch ->
  AsyncSignalList.isRemoved (asig sig) st = true <-> ~ In sig (pending ++ dispatch).
Proof.
  intros (Hrp & Hrd & Hnd & Hrem). unfold AsyncSignalList.isRemoved, AsyncSignalList.next.
  rewrite bool_decide_eq_true. split; [| apply Hrem].
  intros Hself Hin. apply in_app_or in Hin. destruct Hin as [Hin | Hin].
  - revert Hself. apply (ring_member_not_removed st m_pending_async_list pending);
      [apply is_head_pending | apply (NoDup_app_remove_r _ _ Hnd) | exact Hrp | exact Hin].
  - revert Hself. apply (ring_member_not_removed st m_dispatch_async_list dispatch);
      [apply is_head_dispatch | apply (NoDup_app_remove_l _ _ Hnd) | exact Hrd | exact Hin].
Qed.

Lemma NoDup_app_disjoint {A : Type} (l1 l2 : list A) x :
  List.NoDup (l1 ++ l2) -> In x l1 -> In x l2 -> False.
Proof.
  induction l1 as [| y l1 IH]; cbn [app]; intros Hnd H1 H2; [destruct H1 |].
  apply List.NoDup_cons_iff in Hnd. destruct Hnd as [Hy Hnd].
  destruct H1 as [-> | H1]; [apply Hy, in_or_app; right; exact H2 | exact (IH Hnd H1 H2)].
Qed.

Lemma NoDup_app_swap {A : Type} (l1 l2 : list A) :
  List.NoDup (l1 ++ l2) -> List.NoDup (l2 ++ l1).
Proof.
  intros Hnd. apply List.NoDup_app.
  - apply (List.NoDup_app_remove_l _ _ Hnd).
  - apply (List.NoDup_app_remove_r _ _ Hnd).
  - intros a H2 H1. exact (NoDup_app_disjoint l1 l2 a Hnd H1 H2).
Qed.

Lemma other_ring_outside (h h' : AsyncSignalNode) l l' x :
  is_head h -> is_head h' -> h <> h' -> List.NoDup (l ++ l') ->
  In x (h' :: map asig l') -> ~ In x (h :: map asig l).
Proof.
  intros Hh Hh' Hne Hnd [<- | Hin'] [Heq | Hin].
  - exact (Hne Heq).
  - exact (head_not_In h' l Hh' Hin).
  - subst x. exact (head_not_In h l' Hh Hin').
  - apply in_map_iff in Hin. destruct Hin as (s & <- & Hs).
    apply In_map_asig in Hin'. exact (NoDup_app_disjoint l l' s Hnd Hs Hin').
Qed.

(** A removed signal that is raised joins the pending list at its tail. *)
Lemma lists_wf_link_pending st pending dispatch sig :
  lists_wf st pending dispatch -> ~ In sig (pending ++ dispatch) ->
  lists_wf (AsyncSignalList.initBefore (asig sig) m_pending_async_list st)
    (pending ++ [sig]) dispatch.
Proof.
  intros (Hrp & Hrd & Hnd & Hrem) Hsig.
  assert (HsigP : ~ In sig pending) by (intros H; apply Hsig, in_or_app; left; exact H).
  assert (HsigD : ~ In sig dispatch) by (intros H; apply Hsig, in_or_app; right; exact H).
  destruct (ring_link_tail st m_pending_async_list pending sig is_head_pending
              (NoDup_app_remove_r _ _ Hnd) HsigP Hrp) as [Hring Hframe].
  split; [exact Hring |]. split; [| split].
  - revert Hrd. apply ring_frame. intros x Hx. apply Hframe.
    intros [<- | Hin].
    + destruct Hx as [Hx | Hx]; [discriminate Hx |].
      apply In_map_asig in Hx. exact (HsigD Hx).
    + revert Hin. apply (other_ring_outside _ m_dispatch_async_list pending dispatch);
        [apply is_head_pending | apply is_head_dispatch | discriminate | exact Hnd | exact Hx].
  - rewrite <- app_assoc. cbn [app].
    apply (List.NoDup_Add (Add_app sig pending dispatch)). split; assumption.
  - intros s Hs. rewrite <- app_assoc in Hs. cbn [app] in Hs.
    assert (Hs' : ~ In s (pending ++ dispatch)).
    { intros Hin. apply Hs. apply in_app_or in Hin. apply in_or_app.
      destruct Hin; [left | right; right]; assumption. }
    destruct (Hframe (asig s)) as [-> _]; [| apply Hrem; exact Hs'].
    intros [[= ->] | [Heq | Hin]].
    + apply Hs. apply in_or_app. right. left. reflexivity.
    + discriminate Heq.
    + apply In_map_asig in Hin. apply Hs'. apply in_or_app. left. exact Hin.
Qed.

(** A signal of the pending list that is unlinked and marked. *)
Lemma lists_wf_unlink_pending st l1 sig l2 dispatch :
  lists_wf st (l1 ++ sig :: l2) dispatch ->
  lists_wf (AsyncSignalList.markRemoved (asig sig) (AsyncSignalList.remove (asig sig) st))
    (l1 ++ l2) dispatch.
Proof.
  intros (Hrp & Hrd & Hnd & Hrem).
  pose proof (ring_unlink st m_pending_async_list l1 sig l2 is_head_pending
                (NoDup_app_remove_r _ _ Hnd) Hrp) as H. cbv zeta in H.
  destruct H as (Hring & Hself & Hframe).
  split; [exact Hring |]. split; [| split].
  - revert Hrd. apply ring_frame. intros x Hx. apply Hframe.
    revert Hx. apply other_ring_outside;
      [apply is_head_pending | apply is_head_dispatch | discriminate | exact Hnd].
  - rewrite <- app_assoc in Hnd |- *. cbn [app] in Hnd.
    apply List.NoDup_remove_1 in Hnd. exact Hnd.
  - intros s Hs. destruct (Nat.eq_dec s sig) as [-> | Hne]; [exact Hself |].
    assert (Hs' : ~ In s ((l1 ++ sig :: l2) ++ dispatch)).
    { intros Hin. apply Hs. rewrite <- !app_assoc in *. cbn [app] in Hin.
      apply in_app_or in Hin. apply in_or_app.
      destruct Hin as [Hin | [Hin | Hin]]; [left; exact Hin | congruence | right; exact Hin]. }
    destruct (Hframe (asig s)) as [-> _]; [| apply Hrem; exact Hs'].
    intros [Heq | Hin]; [discriminate Heq |].
    apply In_map_asig in Hin. apply Hs'. apply in_or_app. left. exact Hin.
Qed.

(** A signal of the dispatch list that is unlinked and marked. *)
Lemma lists_wf_unlink_dispatch st pending l1 sig l2 :
  lists_wf st pending (l1 ++ sig :: l2) ->
  lists_wf (AsyncSignalList.markRemoved (asig sig) (AsyncSignalList.remove (asig sig) st))
    pending (l1 ++ l2).
Proof.
  intros (Hrp & Hrd & Hnd & Hrem).
  assert (Hnd' : List.NoDup ((l1 ++ sig :: l2) ++ pending)).
  { apply NoDup_app_swap. exact Hnd. }
  pose proof (ring_unlink st m_dispatch_async_list l1 sig l2 is_head_dispatch
                (NoDup_app_remove_l _ _ Hnd) Hrd) as H. cbv zeta in H.
  destruct H as (Hring & Hself & Hframe).
  split; [| split; [exact Hring | split]].
  - revert Hrp. apply ring_frame. intros x Hx. apply Hframe.
    revert Hx. apply other_ring_outside;
      [apply is_head_dispatch | apply is_head_pending | discriminate | exact Hnd'].
  - apply NoDup_app_swap. rewrite <- app_assoc in Hnd' |- *. cbn [app] in Hnd'.
    apply List.NoDup_remove_1 in Hnd'. exact Hnd'.
  - intros s Hs. destruct (Nat.eq_dec s sig) as [-> | Hne]; [exact Hself |].
    assert (Hs' : ~ In s (pending ++ l1 ++ sig :: l2)).
    { intros Hin. apply Hs.
      apply in_app_or in Hin. apply in_or_app. destruct Hin as [Hin | Hin]; [left; exact Hin |].
      right. apply in_app_or in Hin. apply in_or_app.
      destruct Hin as [Hin | [Hin | Hin]]; [left; exact Hin | congruence | right; exact Hin]. }
    destruct (Hframe (asig s)) as [-> _]; [| apply Hrem; exact Hs'].
    intros [Heq | Hin]; [discriminate Heq |].
    apply In_map_asig in Hin. apply Hs'. apply in_or_app. right. exact Hin.
Qed.

(** The batch: the pending list becomes the dispatch list and is made
    empty. *)
Lemma lists_wf_take_batch st pending :
  lists_wf st pending [] -> pending <> [] ->
  lists_wf (AsyncSignalList.initLonely m_pending_async_list
              (AsyncSignalList.initReplaceNotLonely
                 m_dispatch_async_list m_pending_async_list st)) [] pending.
Proof.
  intros (Hrp & Hrd & Hnd & Hrem) Hne.
  rewrite app_nil_r in Hnd, Hrem.
  pose proof (ring_next_head _ _ _ Hrp) as Hfirst.
  pose proof (ring_prev_head _ _ _ Hrp) as Hlast.
  assert (Hmap : map asig pending <> []) by (destruct pending; [congruence | discriminate]).
  assert (Hn1 : link_next st m_pending_async_list <> m_dispatch_async_list).
  { rewrite Hfirst. destruct pending; [congruence | discriminate]. }
  destruct (initReplaceNotLonely_links m_dispatch_async_list m_pending_async_list st Hn1)
    as [Hnx Hpv].
  destruct (initLonely_links m_pending_async_list
              (AsyncSignalList.initReplaceNotLonely
                 m_dispatch_async_list m_pending_async_list st)) as [Hnx' Hpv'].
  assert (HndD : List.NoDup (m_dispatch_async_list :: map asig pending)).
  { apply NoDup_ring_nodes; [apply is_head_dispatch | exact Hnd]. }
  assert (HP : ~ In m_pending_async_list (m_dispatch_async_list :: map asig pending)).
  { intros [Heq | Hin]; [discriminate Heq |].
    exact (head_not_In _ _ is_head_pending Hin). }
  destruct Hrp as [Hn Hp].
  unfold lists_wf, ring. rewrite Hnx', Hpv', Hnx, Hpv.
  split; [| split; [| split]].
  - cbn [map rev path]. split; apply fn_lookup_insert.
  - split.
    + rewrite Hlast. apply path_replace_head; assumption.
    + rewrite Hfirst, <- last_rev_hd.
      apply path_replace_head.
      * intros Hrev. apply Hmap. rewrite <- (rev_involutive (map asig pending)), Hrev.
        reflexivity.
      * apply List.NoDup_cons_iff in HndD. destruct HndD as [HD HndD].
        constructor; [rewrite <- in_rev; exact HD | apply NoDup_rev; exact HndD].
      * intros [Heq | Hin]; [discriminate Heq |]. apply in_rev in Hin.
        exact (head_not_In _ _ is_head_pending Hin).
      * exact Hp.
  - cbn [app]. exact Hnd.
  - cbn [app]. intros s Hs.
    rewrite !fn_lookup_insert_ne; [apply Hrem; exact Hs | discriminate | | discriminate].
    rewrite Hlast. intros Heq.
    destruct (last_In_or m_pending_async_list (map asig pending)) as [Hl | Hl].
    + rewrite Hl in Heq. discriminate Heq.
    + rewrite Heq in Hl. apply In_map_asig in Hl. exact (Hs Hl).
Qed.

(** ** The calls of user code and the lists *)

Lemma incl_app_drop {A : Type} (l1 l2 : list A) x : incl (l1 ++ l2) (l1 ++ x :: l2).
Proof.
  intros y Hy. apply in_app_or in Hy. apply in_or_app.
  destruct Hy; [left | right; right]; assumption.
Qed.

Lemma signal_queued st pending dispatch sig :
  lists_wf st pending dispatch -> In sig (pending ++ dispatch) -> signal sig st = st.
Proof.
  intros Hwf Hin. unfold signal.
  destruct (AsyncSignalList.isRemoved (asig sig) st) eqn:Hrem; [| reflexivity].
  apply (lists_wf_isRemoved st pending dispatch sig Hwf) in Hrem. contradiction.
Qed.

Lemma signal_removed st pending dispatch sig :
  lists_wf st pending dispatch -> ~ In sig (pending ++ dispatch) ->
  lists_wf (signal sig st) (pending ++ [sig]) dispatch
  /\ calls (signal sig st) = calls st ++ (if pending is [] then [EvWakeup] else []).
Proof.
  intros Hwf Hnin. unfold signal.
  pose proof (proj2 (lists_wf_isRemoved st pending dispatch sig Hwf) Hnin) as ->.
  cbv zeta.
  pose proof (lists_wf_link_pending st pending dispatch sig Hwf Hnin) as Hwf'.
  pose proof (lists_wf_isLonely_pending st pending dispatch Hwf) as Hl.
  destruct (AsyncSignalList.isLonely m_pending_async_list st).
  - rewrite (proj1 Hl eq_refl) in *. split; [| reflexivity].
    revert Hwf'. apply lists_wf_frame; reflexivity.
  - split; [exact Hwf' |].
    destruct pending; [destruct Hl as [_ Hl]; discriminate (Hl eq_refl) |].
    rewrite app_nil_r. reflexivity.
Qed.

(** [reset] takes the signal off the list that it is on. *)
Lemma signal_reset_lists st pending dispatch sig :
  lists_wf st pending dispatch ->
  exists pending' dispatch',
    lists_wf (signal_reset sig st) pending' dispatch'
    /\ incl pending' pending /\ incl dispatch' dispatch
    /\ ~ In sig (pending' ++ dispatch')
    /\ (forall s, s <> sig -> In s dispatch -> In s dispatch')
    /\ (forall s, s <> sig -> In s pending -> In s pending').
Proof.
  intros Hwf. unfold signal_reset.
  destruct (AsyncSignalList.isRemoved (asig sig) st) eqn:Hrem; cbn [negb].
  - apply (lists_wf_isRemoved st pending dispatch sig Hwf) in Hrem.
    exists pending, dispatch.
    split; [exact Hwf |]. split; [apply incl_refl |]. split; [apply incl_refl |].
    split; [exact Hrem |]. split; auto.
  - assert (Hin : In sig (pending ++ dispatch)).
    { destruct (in_dec Nat.eq_dec sig (pending ++ dispatch)) as [Hin | Hnin]; [exact Hin |].
      apply (lists_wf_isRemoved st pending dispatch sig Hwf) in Hnin. congruence. }
    pose proof Hwf as (_ & _ & Hnd & _).
    apply in_app_or in Hin. destruct Hin as [Hin | Hin];
      apply in_split in Hin; destruct Hin as (l1 & l2 & ->).
    + exists (l1 ++ l2), dispatch.
      split; [apply lists_wf_unlink_pending; exact Hwf |].
      split; [apply incl_app_drop |]. split; [apply incl_refl |].
      rewrite <- app_assoc in Hnd. cbn [app] in Hnd.
      apply List.NoDup_remove_2 in Hnd. rewrite <- app_assoc.
      split; [exact Hnd |]. split; [auto |].
      intros s Hs Hin. apply in_app_or in Hin. apply in_or_app.
      destruct Hin as [Hin | [Hin | Hin]]; [left; exact Hin | congruence | right; exact Hin].
    + exists pending, (l1 ++ l2).
      split; [apply lists_wf_unlink_dispatch; exact Hwf |].
      split; [apply incl_refl |]. split; [apply incl_app_drop |].
      apply NoDup_app_swap in Hnd. rewrite <- app_assoc in Hnd. cbn [app] in Hnd.
      apply List.NoDup_remove_2 in Hnd.
      split; [| split; [| auto]].
      * intros Hs. apply Hnd. apply in_app_or in Hs. rewrite app_assoc. apply in_or_app.
        destruct Hs; [right | left]; assumption.
      * intros s Hs Hin. apply in_app_or in Hin. apply in_or_app.
        destruct Hin as [Hin | [Hin | Hin]]; [left; exact Hin | congruence | right; exact Hin].
Qed.

Lemma do_action_links E a st :
  (forall sig, a <> A_signal sig) -> (forall sig, a <> A_signal_reset sig) ->
  (forall sig, a <> A_signal_delete sig) ->
  link_next (do_action E a st) = link_next st /\ link_prev (do_action E a st) = link_prev st.
Proof.
  intros H1 H2 H3.
  destruct a; try (exfalso; eapply H1; reflexivity); try (exfalso; eapply H2; reflexivity);
    try (exfalso; eapply H3; reflexivity); cbn [do_action];
    unfold stop, unset, setAfter, setAt, timer_delete,
      initFd, updateEvents, fd_reset, fd_delete; cbv zeta;
    repeat match goal with |- context [if ?b then _ else _] => destruct b end;
    split; reflexivity.
Qed.

(** What one call does to the lists: the dispatch list loses at most the
    signal that the call resets, and gains none. *)
Lemma do_action_lists E a st pending dispatch :
  lists_wf st pending dispatch ->
  exists pending' dispatch',
    lists_wf (do_action E a (observe (EvCall a) st)) pending' dispatch'
    /\ incl dispatch' dispatch
    /\ (forall s, In s dispatch -> In s dispatch' \/ resets s (EvCall a) = true).
Proof.
  intros Hwf.
  assert (Hwf0 : lists_wf (observe (EvCall a) st) pending dispatch).
  { revert Hwf. apply lists_wf_frame; reflexivity. }
  assert (Hsame : link_next (do_action E a (observe (EvCall a) st))
                    = link_next (observe (EvCall a) st)
                  /\ link_prev (do_action E a (observe (EvCall a) st))
                    = link_prev (observe (EvCall a) st) ->
                  exists pending' dispatch',
                    lists_wf (do_action E a (observe (EvCall a) st)) pending' dispatch'
                    /\ incl dispatch' dispatch
                    /\ (forall s, In s dispatch -> In s dispatch' \/ resets s (EvCall a) = true)).
  { intros [Hn Hp]. exists pending, dispatch.
    split; [revert Hwf; apply lists_wf_frame; assumption |].
    split; [apply incl_refl | auto]. }
  assert (Hreset : forall sig, resets sig (EvCall a) = true ->
            exists pending' dispatch',
              lists_wf (signal_reset sig (observe (EvCall a) st)) pending' dispatch'
              /\ incl dispatch' dispatch
              /\ (forall s, In s dispatch -> In s dispatch' \/ resets s (EvCall a) = true)).
  { intros sig Hsig.
    destruct (signal_reset_lists _ pending dispatch sig Hwf0)
      as (pending' & dispatch' & Hwf' & _ & Hincl & _ & Hkeep & _).
    exists pending', dispatch'. split; [exact Hwf' |]. split; [exact Hincl |].
    intros s Hs. destruct (Nat.eq_dec s sig) as [-> | Hne]; [right; exact Hsig |].
    left. apply Hkeep; assumption. }
  destruct a;
    try (apply Hsame; apply do_action_links; intros; discriminate).
  - cbn [do_action]. destruct (in_dec Nat.eq_dec sig (pending ++ dispatch)) as [Hin | Hnin].
    + rewrite (signal_queued _ pending dispatch sig Hwf0 Hin).
      exists pending, dispatch. split; [exact Hwf0 |]. split; [apply incl_refl | auto].
    + destruct (signal_removed _ pending dispatch sig Hwf0 Hnin) as [Hwf' _].
      exists (pending ++ [sig]), dispatch. split; [exact Hwf' |].
      split; [apply incl_refl | auto].
  - cbn [do_action]. apply Hreset. cbn [resets]. apply Nat.eqb_refl.
  - cbn [do_action]. unfold signal_delete. apply Hreset. cbn [resets]. apply Nat.eqb_refl.
Qed.

Lemma run_handler_lists E h st pending dispatch :
  lists_wf st pending dispatch ->
  exists pending' dispatch' tr,
    lists_wf (run_handler E h st) pending' dispatch'
    /\ calls (run_handler E h st) = calls st ++ tr
    /\ Forall (fun e => is_user_event e = true) tr
    /\ incl dispatch' dispatch
    /\ (forall s, In s dispatch -> In s dispatch' \/ existsb (resets s) tr = true).
Proof.
  revert st pending dispatch.
  induction h as [| a k IH | k IH]; intros st pending dispatch Hwf; cbn [run_handler].
  - exists pending, dispatch, []. rewrite app_nil_r.
    split; [exact Hwf |]. split; [reflexivity |]. split; [constructor |].
    split; [apply incl_refl | auto].
  - destruct (do_action_lists E a st pending dispatch Hwf)
      as (pending1 & dispatch1 & Hwf1 & Hincl1 & Hkeep1).
    destruct (do_action_calls E a (observe (EvCall a) st)) as (tra & Hca & Hua & _).
    destruct (IH _ pending1 dispatch1 Hwf1)
      as (pending2 & dispatch2 & trk & Hwf2 & Hck & Huk & Hincl2 & Hkeep2).
    exists pending2, dispatch2, (EvCall a :: tra ++ trk).
    split; [exact Hwf2 |].
    split; [rewrite Hck, Hca; cbn [observe calls]; rewrite <- !app_assoc; reflexivity |].
    split; [constructor; [reflexivity |]; apply Forall_app; split; assumption |].
    split; [intros s Hs; apply Hincl1, Hincl2, Hs |].
    intros s Hs. cbn [existsb]. rewrite existsb_app.
    destruct (Hkeep1 s Hs) as [Hs1 | Hr]; [| right; rewrite Hr; reflexivity].
    destruct (Hkeep2 s Hs1) as [Hs2 | Hr]; [left; exact Hs2 |].
    right. rewrite Hr, !orb_true_r. reflexivity.
  - apply (IH st st pending dispatch Hwf).
Qed.

(** ** [dispatch_async_signals] *)

Lemma signal_fired_app sig l1 l2 :
  signal_fired sig (l1 ++ l2) = (signal_fired sig l1 + signal_fired sig l2)%nat.
Proof. unfold signal_fired. rewrite List.filter_app, length_app. reflexivity. Qed.

Lemma signal_fired_user sig tr :
  Forall (fun e => is_user_event e = true) tr -> signal_fired sig tr = 0%nat.
Proof.
  unfold signal_fired. induction 1 as [| e tr He _ IH]; cbn [List.filter]; [reflexivity |].
  destruct (bool_decide_reflect (e = EvSignalHandler sig)) as [-> | _];
    [discriminate He | exact IH].
Qed.

Lemma signal_fired_cons sig x tr :
  signal_fired sig (EvSignalHandler x :: tr)
  = ((if Nat.eq_dec x sig then 1 else 0) + signal_fired sig tr)%nat.
Proof.
  unfold signal_fired. cbn [List.filter].
  destruct (Nat.eq_dec x sig) as [-> | Hne].
  - rewrite bool_decide_eq_true_2 by reflexivity. reflexivity.
  - rewrite bool_decide_eq_false_2 by congruence. reflexivity.
Qed.

(** The loop of [dispatch_async_signals] on a dispatch list that holds
    [dispatch]: with more fuel than the list is long it returns; it
    returns true with the list empty, or false with the stop flag set;
    the handler of a signal that is not on the list is not invoked, the
    handler of a signal on the list is invoked once, unless the loop
    returns false or a handler resets the signal. *)
Lemma dispatch_async_signals_loop_spec E fuel st pending dispatch :
  lists_wf st pending dispatch -> (length dispatch < fuel)%nat ->
  exists b st' tr pending' dispatch',
    dispatch_async_signals_loop E fuel st = Some (b, st')
    /\ calls st' = calls st ++ tr
    /\ lists_wf st' pending' dispatch'
    /\ incl dispatch' dispatch
    /\ (b = true -> dispatch' = [])
    /\ (b = false -> m_stop st' = true)
    /\ Forall (fun e => is_user_event e = true \/ exists x, e = EvSignalHandler x) tr
    /\ (forall s, ~ In s dispatch -> signal_fired s tr = 0%nat)
    /\ (forall s, In s dispatch ->
          (signal_fired s tr <= 1)%nat
          /\ (signal_fired s tr = 1%nat \/ b = false \/ existsb (resets s) tr = true)).
Proof.
  revert st pending dispatch.
  induction fuel as [| fuel IH]; intros st pending dispatch Hwf Hfuel; [lia |].
  cbn [dispatch_async_signals_loop].
  pose proof Hwf as (_ & Hrd & Hnd & _).
  unfold AsyncSignalList.next. rewrite (ring_next_head _ _ _ Hrd).
  destruct dispatch as [| x dispatch0]; cbn [map hd].
  { exists true, st, [], pending, []. rewrite app_nil_r.
    split; [reflexivity |]. split; [reflexivity |]. split; [exact Hwf |].
    split; [apply incl_refl |]. split; [auto |]. split; [discriminate |].
    split; [constructor |]. split; [reflexivity |]. intros s []. }
  cbv zeta.
  pose proof (lists_wf_unlink_dispatch st pending [] x dispatch0 Hwf) as Hwf1.
  cbn [app] in Hwf1.
  set (st1 := AsyncSignalList.markRemoved (asig x) (AsyncSignalList.remove (asig x) st)) in *.
  assert (Hwf1' : lists_wf (observe (EvSignalHandler x) st1) pending dispatch0).
  { revert Hwf1. apply lists_wf_frame; reflexivity. }
  destruct (run_handler_lists E (signal_m_handler E x) _ pending dispatch0 Hwf1')
    as (pending2 & dispatch2 & trh & Hwf2 & Hch & Huh & Hincl2 & Hkeep2).
  set (st2 := run_handler E (signal_m_handler E x) (observe (EvSignalHandler x) st1)) in *.
  assert (Hx0 : ~ In x dispatch0).
  { apply List.NoDup_app_remove_l in Hnd. apply List.NoDup_cons_iff in Hnd. apply Hnd. }
  assert (Hx2 : ~ In x dispatch2) by (intros Hin; exact (Hx0 (Hincl2 x Hin))).
  assert (Hcalls : calls st2 = calls st ++ EvSignalHandler x :: trh).
  { rewrite Hch. unfold st1. cbn [observe calls]. rewrite <- app_assoc. reflexivity. }
  assert (Hev : Forall (fun e => is_user_event e = true \/ exists y, e = EvSignalHandler y)
                  (EvSignalHandler x :: trh)).
  { constructor; [right; eauto |]. eapply List.Forall_impl; [| exact Huh]. cbv beta. auto. }
  destruct (m_stop st2) eqn:Hstop.
  - exists false, st2, (EvSignalHandler x :: trh), pending2, dispatch2.
    split; [reflexivity |]. split; [exact Hcalls |]. split; [exact Hwf2 |].
    split; [intros s Hs; right; apply Hincl2, Hs |].
    split; [discriminate |]. split; [auto |]. split; [exact Hev |].
    split.
    + intros s Hs. rewrite signal_fired_cons, (signal_fired_user s trh Huh).
      destruct (Nat.eq_dec x s) as [-> | _]; [| reflexivity].
      exfalso. apply Hs. left. reflexivity.
    + intros s _. rewrite signal_fired_cons, (signal_fired_user s trh Huh).
      split; [destruct (Nat.eq_dec x s); lia | auto].
  - assert (Hlen : (length dispatch2 < fuel)%nat).
    { pose proof Hwf2 as (_ & _ & Hnd2 & _). apply List.NoDup_app_remove_l in Hnd2.
      pose proof (NoDup_incl_length Hnd2 Hincl2) as Hle. cbn [length] in Hfuel. lia. }
    destruct (IH st2 pending2 dispatch2 Hwf2 Hlen)
      as (b & st' & trr & pending' & dispatch' & Hrun & Hcr & Hwf' & Hincl' & Hbt & Hbf
          & Hevr & Hnot & Hin).
    exists b, st', (EvSignalHandler x :: trh ++ trr), pending', dispatch'.
    split; [exact Hrun |].
    split; [rewrite Hcr, Hcalls, <- app_assoc; reflexivity |].
    split; [exact Hwf' |].
    split; [intros s Hs; right; apply Hincl2, Hincl', Hs |].
    split; [exact Hbt |]. split; [exact Hbf |].
    split; [rewrite app_comm_cons; apply Forall_app; split; assumption |].
    split.
    + intros s Hs. rewrite signal_fired_cons, signal_fired_app, (signal_fired_user s trh Huh).
      rewrite Hnot by (intros Hin2; apply Hs; right; apply Hincl2, Hin2).
      destruct (Nat.eq_dec x s) as [-> | _]; [| reflexivity].
      exfalso. apply Hs. left. reflexivity.
    + intros s Hs. rewrite signal_fired_cons, signal_fired_app, (signal_fired_user s trh Huh).
      cbn [existsb]. rewrite existsb_app. cbn [resets orb Nat.add].
      destruct (Nat.eq_dec x s) as [-> | Hne].
      * rewrite (Hnot s Hx2). split; [lia | left; reflexivity].
      * destruct Hs as [Hs | Hs]; [congruence |].
        destruct (in_dec Nat.eq_dec s dispatch2) as [Hin2 | Hnin2].
        -- destruct (Hin s Hin2) as [Hle Hcases]. split; [lia |].
           destruct Hcases as [H1 | [Hb | Hr]]; [left; lia | auto |].
           right. right. rewrite Hr, orb_true_r. reflexivity.
        -- rewrite (Hnot s Hnin2). split; [lia |].
           destruct (Hkeep2 s Hs) as [Hin2 | Hr]; [contradiction |].
           right. right. rewrite Hr. reflexivity.
Qed.

Lemma dispatch_async_signals_spec E fuel st pending :
  lists_wf st pending [] -> (length pending < fuel)%nat ->
  exists b st' tr pending' dispatch',
    dispatch_async_signals E fuel st = Some (b, st')
    /\ calls st' = calls st ++ tr
    /\ lists_wf st' pending' dispatch'
    /\ incl dispatch' pending
    /\ (b = true -> dispatch' = [])
    /\ (b = false -> m_stop st' = true)
    /\ Forall (fun e => is_user_event e = true \/ exists x, e = EvSignalHandler x) tr
    /\ (forall s, ~ In s pending -> signal_fired s tr = 0%nat)
    /\ (forall s, In s pending ->
          (signal_fired s tr <= 1)%nat
          /\ (signal_fired s tr = 1%nat \/ b = false \/ existsb (resets s) tr = true)).
Proof.
  intros Hwf Hfuel. unfold dispatch_async_signals.
  pose proof (lists_wf_isLonely_pending st pending [] Hwf) as Hl.
  destruct (AsyncSignalList.isLonely m_pending_async_list st).
  - rewrite (proj1 Hl eq_refl) in *.
    exists true, st, [], [], []. rewrite app_nil_r.
    split; [reflexivity |]. split; [reflexivity |]. split; [exact Hwf |].
    split; [apply incl_refl |]. split; [auto |]. split; [discriminate |].
    split; [constructor |]. split; [reflexivity |]. intros s [].
  - cbv zeta.
    assert (Hne : pending <> []).
    { intros ->. destruct Hl as [_ Hl]. discriminate (Hl eq_refl). }
    exact (dispatch_async_signals_loop_spec E fuel _ [] pending
             (lists_wf_take_batch st pending Hwf Hne) Hfuel).
Qed.

(** What a pass of the loop of [dispatch_async_signals] that returns has
    done, for a dispatch list that holds [dispatch]: the signals that are
    left on the list have not been dispatched, which happens only when the
    loop returns false; the handler of a signal of the list has been
    invoked once, or the signal is left on the list, or a handler has reset
    it; and a handler that has been invoked has run from a state in which
    its signal is in the removed state. *)
Lemma dispatch_async_signals_loop_outcome E fuel st pending dispatch b st' :
  lists_wf st pending dispatch ->
  dispatch_async_signals_loop E fuel st = Some (b, st') ->
  exists tr pending' dispatch',
    calls st' = calls st ++ tr
    /\ lists_wf st' pending' dispatch'
    /\ incl dispatch' dispatch
    /\ (b = true -> dispatch' = [])
    /\ (b = false -> m_stop st' = true)
    /\ (forall s, ~ In s dispatch -> signal_fired s tr = 0%nat)
    /\ (forall s, In s dispatch' -> signal_fired s tr = 0%nat)
    /\ (forall s, In s dispatch ->
          (signal_fired s tr <= 1)%nat
          /\ (signal_fired s tr = 1%nat
              \/ (b = false /\ In s dispatch')
              \/ existsb (resets s) tr = true))
    /\ (forall s, signal_fired s tr = 1%nat ->
          exists pre st0 trh post,
            tr = pre ++ EvSignalHandler s :: trh ++ post
            /\ calls st0 = calls st ++ pre ++ [EvSignalHandler s]
            /\ AsyncSignalList.isRemoved (asig s) st0 = true
            /\ calls (run_handler E (signal_m_handler E s) st0) = calls st0 ++ trh).
Proof.
  revert st pending dispatch.
  induction fuel as [| fuel IH]; intros st pending dispatch Hwf Hrun; [discriminate Hrun |].
  cbn [dispatch_async_signals_loop] in Hrun.
  pose proof Hwf as (_ & Hrd & Hnd & _).
  unfold AsyncSignalList.next in Hrun. rewrite (ring_next_head _ _ _ Hrd) in Hrun.
  destruct dispatch as [| x dispatch0]; cbn [map hd] in Hrun.
  { injection Hrun as <- <-.
    exists [], pending, []. rewrite app_nil_r.
    split; [reflexivity |]. split; [exact Hwf |].
    split; [apply incl_refl |]. split; [auto |]. split; [discriminate |].
    split; [reflexivity |]. split; [intros s [] |]. split; [intros s [] |].
    intros s Hs. discriminate Hs. }
  cbv zeta in Hrun.
  pose proof (lists_wf_unlink_dispatch st pending [] x dispatch0 Hwf) as Hwf1.
  cbn [app] in Hwf1.
  set (st1 := AsyncSignalList.markRemoved (asig x) (AsyncSignalList.remove (asig x) st)) in *.
  assert (Hwf1' : lists_wf (observe (EvSignalHandler x) st1) pending dispatch0).
  { revert Hwf1. apply lists_wf_frame; reflexivity. }
  destruct (run_handler_lists E (signal_m_handler E x) _ pending dispatch0 Hwf1')
    as (pending2 & dispatch2 & trh & Hwf2 & Hch & Huh & Hincl2 & Hkeep2).
  set (st2 := run_handler E (signal_m_handler E x) (observe (EvSignalHandler x) st1)) in *.
  assert (Hx0 : ~ In x dispatch0).
  { apply List.NoDup_app_remove_l in Hnd. apply List.NoDup_cons_iff in Hnd. apply Hnd. }
  assert (Hx2 : ~ In x dispatch2) by (intros Hin; exact (Hx0 (Hincl2 x Hin))).
  assert (Hxrem : AsyncSignalList.isRemoved (asig x) (observe (EvSignalHandler x) st1) = true).
  { apply (lists_wf_isRemoved _ pending dispatch0 x Hwf1').
    intros Hin. apply in_app_or in Hin. destruct Hin as [Hin | Hin]; [| exact (Hx0 Hin)].
    apply (NoDup_app_disjoint pending (x :: dispatch0) x Hnd Hin). left. reflexivity. }
  assert (Hcalls1 : calls (observe (EvSignalHandler x) st1) = calls st ++ [EvSignalHandler x])
    by reflexivity.
  assert (Hcalls : calls st2 = calls st ++ EvSignalHandler x :: trh).
  { rewrite Hch, Hcalls1, <- app_assoc. reflexivity. }
  destruct (m_stop st2) eqn:Hstop.
  - injection Hrun as <- <-.
    exists (EvSignalHandler x :: trh), pending2, dispatch2.
    split; [exact Hcalls |]. split; [exact Hwf2 |].
    split; [intros s Hs; right; apply Hincl2, Hs |].
    split; [discriminate |]. split; [auto |].
    split; [| split; [| split]].
    + intros s Hs. rewrite signal_fired_cons, (signal_fired_user s trh Huh).
      destruct (Nat.eq_dec x s) as [-> | _]; [| reflexivity].
      exfalso. apply Hs. left. reflexivity.
    + intros s Hs. rewrite signal_fired_cons, (signal_fired_user s trh Huh).
      destruct (Nat.eq_dec x s) as [-> | _]; [contradiction | reflexivity].
    + intros s Hs. rewrite signal_fired_cons, (signal_fired_user s trh Huh).
      destruct (Nat.eq_dec x s) as [-> | Hne]; [split; [lia | left; reflexivity] |].
      split; [lia |].
      destruct Hs as [Hs | Hs]; [congruence |].
      destruct (Hkeep2 s Hs) as [Hin2 | Hr]; [right; left; auto |].
      right. right. cbn [existsb resets orb]. exact Hr.
    + intros s Hs. rewrite signal_fired_cons, (signal_fired_user s trh Huh) in Hs.
      destruct (Nat.eq_dec x s) as [-> | Hne]; [| discriminate Hs].
      exists [], (observe (EvSignalHandler s) st1), trh, [].
      rewrite app_nil_r. cbn [app].
      split; [reflexivity |]. split; [exact Hcalls1 |]. split; [exact Hxrem |]. exact Hch.
  - destruct (IH st2 pending2 dispatch2 Hwf2 Hrun)
      as (trr & pending' & dispatch' & Hcr & Hwf' & Hincl' & Hbt & Hbf
          & Hnot & Hleft & Hin & Hpin).
    exists (EvSignalHandler x :: trh ++ trr), pending', dispatch'.
    split; [rewrite Hcr, Hcalls, <- app_assoc; reflexivity |].
    split; [exact Hwf' |].
    split; [intros s Hs; right; apply Hincl2, Hincl', Hs |].
    split; [exact Hbt |]. split; [exact Hbf |].
    split; [| split; [| split]].
    + intros s Hs. rewrite signal_fired_cons, signal_fired_app, (signal_fired_user s trh Huh).
      rewrite Hnot by (intros Hin2; apply Hs; right; apply Hincl2, Hin2).
      destruct (Nat.eq_dec x s) as [-> | _]; [| reflexivity].
      exfalso. apply Hs. left. reflexivity.
    + intros s Hs. rewrite signal_fired_cons, signal_fired_app, (signal_fired_user s trh Huh).
      rewrite (Hleft s Hs).
      destruct (Nat.eq_dec x s) as [-> | _]; [| reflexivity].
      exfalso. apply Hx2, Hincl', Hs.
    + intros s Hs. rewrite signal_fired_cons, signal_fired_app, (signal_fired_user s trh Huh).
      cbn [existsb]. rewrite existsb_app. cbn [resets orb Nat.add].
      destruct (Nat.eq_dec x s) as [-> | Hne].
      * rewrite (Hnot s Hx2). split; [lia | left; reflexivity].
      * destruct Hs as [Hs | Hs]; [congruence |].
        destruct (in_dec Nat.eq_dec s dispatch2) as [Hin2 | Hnin2].
        -- destruct (Hin s Hin2) as [Hle Hcases]. split; [lia |].
           destruct Hcases as [H1 | [Hb | Hr]]; [left; lia | auto |].
           right. right. rewrite Hr, orb_true_r. reflexivity.
        -- rewrite (Hnot s Hnin2). split; [lia |].
           destruct (Hkeep2 s Hs) as [Hin2 | Hr]; [contradiction |].
           right. right. rewrite Hr. reflexivity.
    + intros s Hs. rewrite signal_fired_cons, signal_fired_app, (signal_fired_user s trh Huh) in Hs.
      destruct (Nat.eq_dec x s) as [-> | Hne].
      * exists [], (observe (EvSignalHandler s) st1), trh, trr. cbn [app].
        split; [reflexivity |]. split; [exact Hcalls1 |]. split; [exact Hxrem |]. exact Hch.
      * destruct (Hpin s) as (pre & st0 & trh0 & post & Htr & Hc0 & Hrem0 & Hh0); [lia |].
        exists (EvSignalHandler x :: trh ++ pre), st0, trh0, post.
        split; [rewrite Htr; cbn [app]; rewrite <- app_assoc; reflexivity |].
        split; [| split; [exact Hrem0 | exact Hh0]].
        rewrite Hc0, Hcalls. cbn [app]. rewrite <- !app_assoc. reflexivity.
Qed.

(** Raising a signal once more changes nothing. *)
Lemma signal_idempotent st pending dispatch sig :
  lists_wf st pending dispatch -> signal sig (signal sig st) = signal sig st.
Proof.
  intros Hwf. destruct (in_dec Nat.eq_dec sig (pending ++ dispatch)) as [Hin | Hnin].
  - rewrite (signal_queued st pending dispatch sig Hwf Hin).
    apply (signal_queued st pending dispatch sig Hwf Hin).
  - destruct (signal_removed st pending dispatch sig Hwf Hnin) as [Hwf' _].
    apply (signal_queued _ _ _ sig Hwf').
    rewrite <- app_assoc. apply in_or_app. right. left. reflexivity.
Qed.

Lemma signal_iter st pending dispatch sig N :
  lists_wf st pending dispatch -> (1 <= N)%nat ->
  Nat.iter N (signal sig) st = signal sig st.
Proof.
  intros Hwf HN. destruct N as [| N]; [lia |]. clear HN.
  induction N as [| N IH]; [reflexivity |].
  change (Nat.iter (S (S N)) (signal sig) st)
    with (signal sig (Nat.iter (S N) (signal sig) st)).
  rewrite IH. apply (signal_idempotent st pending dispatch sig Hwf).
Qed.

Lemma signal_lists st pending dispatch sig :
  lists_wf st pending dispatch ->
  exists pending',
    lists_wf (signal sig st) pending' dispatch
    /\ (In sig dispatch \/ In sig pending')
    /\ (length pending' <= S (length pending))%nat.
Proof.
  intros Hwf. destruct (in_dec Nat.eq_dec sig (pending ++ dispatch)) as [Hin | Hnin].
  - rewrite (signal_queued st pending dispatch sig Hwf Hin). exists pending.
    split; [exact Hwf |]. apply in_app_or in Hin. split; [tauto | lia].
  - destruct (signal_removed st pending dispatch sig Hwf Hnin) as [Hwf' _].
    exists (pending ++ [sig]). split; [exact Hwf' |].
    split; [right; apply in_or_app; right; left; reflexivity |].
    rewrite length_app. cbn [length]. lia.
Qed.

(** ** The phases of an iteration *)

Lemma compareKeyEntry_nonneg time tim :
  (0 <=? compareKeyEntry time tim) = (m_time tim <=? time).
Proof.
  unfold compareKeyEntry.
  destruct (Z.eqb_spec time (m_time tim)) as [-> | Hne]; cbn [negb].
  - symmetry. apply Z.leb_le. lia.
  - destruct (Z.ltb_spec time (m_time tim)); symmetry;
      [apply Z.leb_gt | apply Z.leb_le]; lia.
Qed.

Lemma mark_visited l st :
  let st' := fold_left (fun st tim => set_m_state tim Dispatch st) l st in
  (forall x, In x l -> m_state (timers st' x) = Dispatch)
  /\ (forall x, ~ In x l -> timers st' x = timers st x)
  /\ (forall x, m_time (timers st' x) = m_time (timers st x))
  /\ m_timer_heap st' = m_timer_heap st /\ calls st' = calls st
  /\ link_next st' = link_next st /\ link_prev st' = link_prev st
  /\ m_event_time st' = m_event_time st /\ m_stop st' = m_stop st
  /\ m_last_wait_time st' = m_last_wait_time st /\ fd_watchers st' = fd_watchers st.
Proof.
  cbv zeta. revert st. induction l as [| tim l IH]; intros st; cbn [fold_left].
  - repeat split; auto. intros x [].
  - destruct (IH (set_m_state tim Dispatch st))
      as (Hin & Hout & Htime & Hheap & Hcalls & Hn & Hp & Hev & Hstop & Hlast & Hfd).
    split; [| split; [| split]].
    + intros x [<- | Hx]; [| apply Hin; exact Hx].
      destruct (in_dec Nat.eq_dec tim l) as [Hl | Hl]; [apply Hin; exact Hl |].
      rewrite (Hout tim Hl), timers_set_m_state.
      destruct (decide (tim = tim)); [reflexivity | congruence].
    + intros x Hx. rewrite Hout by (intros H; apply Hx; right; exact H).
      rewrite timers_set_m_state. destruct (decide (tim = x)) as [<- | _]; [| reflexivity].
      exfalso. apply Hx. left. reflexivity.
    + intros x. rewrite Htime, timers_set_m_state.
      destruct (decide (tim = x)) as [<- | _]; reflexivity.
    + rewrite Hheap, Hcalls, Hn, Hp, Hev, Hstop, Hlast, Hfd. repeat split.
Qed.

(** [prepare_timers_for_dispatch]: every timer of the heap that is
    [Pending] with a deadline not after [now] becomes [Dispatch]; no other
    timer, no deadline and nothing else changes. *)
Lemma prepare_timers_for_dispatch_spec now st :
  let st' := prepare_timers_for_dispatch now st in
  (forall x, In x (m_timer_heap st) -> m_state (timers st x) = Pending ->
             m_time (timers st x) <= now -> m_state (timers st' x) = Dispatch)
  /\ (forall x, ~ (In x (m_timer_heap st) /\ m_state (timers st x) = Pending
                   /\ m_time (timers st x) <= now) -> timers st' x = timers st x)
  /\ (forall x, m_time (timers st' x) = m_time (timers st x))
  /\ m_timer_heap st' = m_timer_heap st /\ calls st' = calls st
  /\ link_next st' = link_next st /\ link_prev st' = link_prev st
  /\ m_event_time st' = m_event_time st /\ m_stop st' = m_stop st.
Proof.
  cbv zeta. unfold prepare_timers_for_dispatch.
  pose proof (mark_visited
                (LinkedHeap.findAllLesserOrEqual (timers st) now (m_timer_heap st)) st) as H.
  cbv zeta in H.
  destruct H as (Hin & Hout & Htime & Hheap & Hcalls & Hn & Hp & Hev & Hstop & _).
  assert (Hvisit : forall x,
            In x (LinkedHeap.findAllLesserOrEqual (timers st) now (m_timer_heap st)) <->
            In x (m_timer_heap st) /\ m_state (timers st x) = Pending
            /\ m_time (timers st x) <= now).
  { intros x. unfold LinkedHeap.findAllLesserOrEqual.
    rewrite filter_In, andb_true_iff, bool_decide_eq_true, compareKeyEntry_nonneg, Z.leb_le.
    tauto. }
  split; [intros x H1 H2 H3; apply Hin, Hvisit; auto |].
  split; [intros x Hx; apply Hout; rewrite Hvisit; exact Hx |].
  split; [exact Htime |]. auto 10.
Qed.

(** More fuel does not change a result. *)
Lemma dispatch_timers_fuel E fuel fuel' st r :
  dispatch_timers E fuel st = Some r -> (fuel <= fuel')%nat ->
  dispatch_timers E fuel' st = Some r.
Proof.
  revert fuel' st. induction fuel as [| fuel IH]; intros fuel' st; [discriminate |].
  intros Hr Hle. destruct fuel' as [| fuel']; [lia |].
  cbn [dispatch_timers] in *.
  destruct (LinkedHeap.first (m_timer_heap st)) as [tim |]; [| exact Hr].
  destruct (negb (bool_decide (m_state (timers st tim) = Dispatch))); [exact Hr |].
  cbv zeta in *.
  destruct (m_stop _); [exact Hr |]. apply IH; [exact Hr | lia].
Qed.

Lemma dispatch_async_signals_loop_fuel E fuel fuel' st r :
  dispatch_async_signals_loop E fuel st = Some r -> (fuel <= fuel')%nat ->
  dispatch_async_signals_loop E fuel' st = Some r.
Proof.
  revert fuel' st. induction fuel as [| fuel IH]; intros fuel' st; [discriminate |].
  intros Hr Hle. destruct fuel' as [| fuel']; [lia |].
  cbn [dispatch_async_signals_loop] in *.
  destruct (AsyncSignalList.next m_dispatch_async_list st); try exact Hr.
  cbv zeta in *.
  destruct (m_stop _); [exact Hr |]. apply IH; [exact Hr | lia].
Qed.

(** The timer handlers leave the dispatch list empty. *)
Lemma dispatch_timers_lists E fuel st b st' pending :
  lists_wf st pending [] -> dispatch_timers E fuel st = Some (b, st') ->
  exists pending', lists_wf st' pending' [].
Proof.
  revert st pending. induction fuel as [| fuel IH]; intros st pending Hwf; [discriminate |].
  cbn [dispatch_timers].
  destruct (LinkedHeap.first (m_timer_heap st)) as [tim |];
    [| intros [= <- <-]; eauto].
  destruct (negb (bool_decide (m_state (timers st tim) = Dispatch)));
    [intros [= <- <-]; eauto |].
  cbv zeta.
  set (st0 := observe (EvTimerExpired tim) (heap_fixup tim (set_m_state tim TempUnset st))).
  assert (Hwf0 : lists_wf st0 pending []).
  { revert Hwf. apply lists_wf_frame; reflexivity. }
  destruct (run_handler_lists E (handleTimerExpired E tim) st0 pending [] Hwf0)
    as (pending1 & dispatch1 & _ & Hwf1 & _ & _ & Hincl & _).
  assert (dispatch1 = []) as ->.
  { destruct dispatch1 as [| x l]; [reflexivity |]. destruct (Hincl x (or_introl eq_refl)). }
  destruct (m_stop _); [intros [= <- <-]; eauto |].
  apply (IH _ pending1 Hwf1).
Qed.

Lemma dispatch_async_signals_loop_event_time E fuel st b st' :
  dispatch_async_signals_loop E fuel st = Some (b, st') ->
  m_event_time st' = m_event_time st.
Proof.
  revert st. induction fuel as [| fuel IH]; intros st; [discriminate |].
  cbn [dispatch_async_signals_loop].
  destruct (AsyncSignalList.next m_dispatch_async_list st) as [| | sig];
    [discriminate | intros [= <- <-]; reflexivity |].
  cbv zeta.
  pose proof (run_handler_m_event_time E (signal_m_handler E sig)
                (observe (EvSignalHandler sig)
                   (AsyncSignalList.markRemoved (asig sig)
                      (AsyncSignalList.remove (asig sig) st)))) as Hev.
  unfold getEventTime in Hev.
  destruct (m_stop _).
  - intros [= <- <-]. exact Hev.
  - intros Hr. rewrite (IH _ Hr). exact Hev.
Qed.

Lemma dispatch_async_signals_event_time E fuel st b st' :
  dispatch_async_signals E fuel st = Some (b, st') ->
  m_event_time st' = m_event_time st.
Proof.
  unfold dispatch_async_signals.
  destruct (AsyncSignalList.isLonely m_pending_async_list st);
    [intros [= <- <-]; reflexivity |].
  cbv zeta. intros Hr. apply dispatch_async_signals_loop_event_time in Hr. exact Hr.
Qed.

(** The fd handlers that the provider invokes. *)
Lemma dispatch_fd_events_spec E ready st pending :
  lists_wf st pending [] ->
  exists tr pending',
    calls (snd (dispatch_fd_events E ready st)) = calls st ++ tr
    /\ Forall (fun e => is_provider_phase_event e = true) tr
    /\ lists_wf (snd (dispatch_fd_events E ready st)) pending' []
    /\ (fst (dispatch_fd_events E ready st) = false ->
        m_stop (snd (dispatch_fd_events E ready st)) = true)
    /\ m_event_time (snd (dispatch_fd_events E ready st)) = m_event_time st.
Proof.
  revert st pending. induction ready as [| [w events] ready IH]; intros st pending Hwf;
    cbn [dispatch_fd_events].
  - exists [], pending. rewrite app_nil_r. cbn [fst snd].
    split; [reflexivity |]. split; [constructor |]. split; [exact Hwf |].
    split; [discriminate | reflexivity].
  - destruct (hasFd (fd_watchers st w)); [| apply (IH st pending Hwf)].
    cbv zeta.
    set (st0 := observe (EvFdHandler w events) st).
    assert (Hwf0 : lists_wf st0 pending []).
    { revert Hwf. apply lists_wf_frame; reflexivity. }
    destruct (run_handler_lists E (fd_m_handler E w events) st0 pending [] Hwf0)
      as (pending1 & dispatch1 & trh & Hwf1 & Hch & Huh & Hincl & _).
    assert (dispatch1 = []) as ->.
    { destruct dispatch1 as [| x l]; [reflexivity |]. destruct (Hincl x (or_introl eq_refl)). }
    pose proof (run_handler_m_event_time E (fd_m_handler E w events) st0) as Hev.
    unfold getEventTime in Hev.
    assert (Huh' : Forall (fun e => is_provider_phase_event e = true)
                     (EvFdHandler w events :: trh)).
    { constructor; [reflexivity |]. eapply List.Forall_impl; [| exact Huh].
      cbv beta. intros e He. unfold is_provider_phase_event. rewrite He. reflexivity. }
    destruct (m_stop (run_handler E (fd_m_handler E w events) st0)) eqn:Hstop.
    + cbn [fst snd]. exists (EvFdHandler w events :: trh), pending1.
      split; [rewrite Hch; unfold st0; cbn [observe calls];
              rewrite <- app_assoc; reflexivity |].
      split; [exact Huh' |]. split; [exact Hwf1 |]. split; [auto | exact Hev].
    + destruct (IH _ pending1 Hwf1) as (trr & pending2 & Hcr & Hur & Hwf2 & Hb & Hevr).
      exists (EvFdHandler w events :: trh ++ trr), pending2.
      split; [rewrite Hcr, Hch; unfold st0; cbn [observe calls];
              rewrite <- !app_assoc; reflexivity |].
      split; [rewrite app_comm_cons; apply Forall_app; split; assumption |].
      split; [exact Hwf2 |]. split; [exact Hb |]. rewrite Hevr. exact Hev.
Qed.

(** The signals that other threads raise while the loop is blocked. *)
Lemma raise_signals_spec raised st pending :
  lists_wf st pending [] ->
  let st' := fold_left (fun st sig => signal sig st) raised st in
  exists tr pending',
    calls st' = calls st ++ tr
    /\ Forall (fun e => e = EvWakeup) tr
    /\ lists_wf st' pending' []
    /\ timers st' = timers st /\ m_timer_heap st' = m_timer_heap st
    /\ m_event_time st' = m_event_time st /\ m_stop st' = m_stop st.
Proof.
  cbv zeta. revert st pending. induction raised as [| sig raised IH]; intros st pending Hwf;
    cbn [fold_left].
  - exists [], pending. rewrite app_nil_r.
    split; [reflexivity |]. split; [constructor |]. split; [exact Hwf |]. repeat split.
  - assert (Hsig : exists tr1 pending1,
              calls (signal sig st) = calls st ++ tr1
              /\ Forall (fun e => e = EvWakeup) tr1
              /\ lists_wf (signal sig st) pending1 []
              /\ timers (signal sig st) = timers st
              /\ m_timer_heap (signal sig st) = m_timer_heap st
              /\ m_event_time (signal sig st) = m_event_time st
              /\ m_stop (signal sig st) = m_stop st).
    { destruct (in_dec Nat.eq_dec sig (pending ++ [])) as [Hin | Hnin].
      - rewrite (signal_queued st pending [] sig Hwf Hin).
        exists [], pending. rewrite app_nil_r.
        split; [reflexivity |]. split; [constructor |]. split; [exact Hwf |]. repeat split.
      - destruct (signal_removed st pending [] sig Hwf Hnin) as [Hwf' Hc].
        exists (if pending is [] then [EvWakeup] else []), (pending ++ [sig]).
        split; [exact Hc |].
        split; [destruct pending; repeat constructor |].
        split; [exact Hwf' |].
        unfold signal. destruct (AsyncSignalList.isRemoved _ _); cbv zeta;
          [destruct (AsyncSignalList.isLonely _ _) |]; repeat split. }
    destruct Hsig as (tr1 & pending1 & Hc1 & Hw1 & Hwf1 & Ht1 & Hh1 & He1 & Hs1).
    destruct (IH _ pending1 Hwf1) as (tr2 & pending2 & Hc2 & Hw2 & Hwf2 & Ht2 & Hh2 & He2 & Hs2).
    exists (tr1 ++ tr2), pending2.
    split; [rewrite Hc2, Hc1, <- app_assoc; reflexivity |].
    split; [apply Forall_app; split; assumption |].
    split; [exact Hwf2 |].
    rewrite Ht2, Hh2, He2, Hs2, Ht1, Hh1, He1, Hs1. repeat split.
Qed.

(** ** Raising a signal and dispatching it *)

(** Two passes that do not dispatch a signal that was raised three times:
    the handler of signal 0 stops the loop, and signal 1 stays on the
    dispatch list; the handler of signal 2 resets signal 3, which takes it
    off the dispatch list. *)
Lemma signal_raised_three_times_not_fired :
  option_map (fun r => (fst r, calls (snd r), signal_fired 1 (calls (snd r)),
                        AsyncSignalList.next m_dispatch_async_list (snd r)))
    (dispatch_async_signals ex_env 4 ex_stop_batch)
  = Some (false, [EvGetTime 0; EvWakeup; EvSignalHandler 0; EvCall A_stop], 0%nat, asig 1)
  /\ option_map (fun r => (fst r, calls (snd r), signal_fired 3 (calls (snd r)),
                           AsyncSignalList.isRemoved (asig 3) (snd r)))
       (dispatch_async_signals ex_env 4 ex_reset_batch)
     = Some (true, [EvGetTime 0; EvWakeup; EvSignalHandler 2; EvCall (A_signal_reset 3)],
             0%nat, true).
Proof. split; vm_compute; reflexivity. Qed.

(** C7: on well-formed lists with an empty dispatch list, raising a
    signal N >= 1 times is the same as raising it once, in what it does to
    the loop and in the provider calls it makes, and leaves the signal
    queued; [signal] on a signal that is not in the removed state changes
    nothing and makes no provider call; the provider wakeup is called
    exactly when the signal is in the removed state and the pending list is
    lonely, that is when the signal is inserted into an empty pending list.
    The pass of [dispatch_async_signals] that follows returns (with fuel
    above the length of the pending list) and invokes the handler of the
    signal at most once.  It invokes it exactly once when it dispatches the
    signal, which it does in every pass but these: the pass returns false
    with the stop flag set by an earlier handler and the signal still on
    the dispatch list, or an earlier handler of the pass has reset the
    signal.  A pass that returns true leaves the dispatch list empty, and a
    signal that is left on the dispatch list has not had its handler
    invoked.  When the handler is invoked, it is run, after the invocations
    before it, from a state in which the signal is in the removed state. *)
Theorem signal_raised_many_times_fires_once (E : Env) (fuel N : nat) (st : EventLoop)
    (pending : list nat) (sig : nat)
    (Hwf : lists_wf st pending [])
    (HN : (1 <= N)%nat)
    (Hfuel : (S (length pending) < fuel)%nat) :
  Nat.iter N (signal sig) st = signal sig st
  /\ AsyncSignalList.isRemoved (asig sig) (signal sig st) = false
  /\ (forall st0 sig0,
        AsyncSignalList.isRemoved (asig sig0) st0 = false -> signal sig0 st0 = st0)
  /\ (forall st0 sig0,
        calls (signal sig0 st0)
        = calls st0 ++ (if AsyncSignalList.isRemoved (asig sig0) st0
                           && AsyncSignalList.isLonely m_pending_async_list st0
                        then [EvWakeup] else []))
  /\ exists b st' tr pending' dispatch',
       dispatch_async_signals E fuel (Nat.iter N (signal sig) st) = Some (b, st')
       /\ calls st' = calls (Nat.iter N (signal sig) st) ++ tr
       /\ lists_wf st' pending' dispatch'
       /\ (signal_fired sig tr <= 1)%nat
       /\ (b = true -> existsb (resets sig) tr = false -> signal_fired sig tr = 1%nat)
       /\ (signal_fired sig tr = 1%nat
           \/ (b = false /\ m_stop st' = true /\ In sig dispatch')
           \/ existsb (resets sig) tr = true)
       /\ (b = false -> m_stop st' = true)
       /\ (b = true -> dispatch' = [])
       /\ (In sig dispatch' -> signal_fired sig tr = 0%nat /\ b = false)
       /\ (signal_fired sig tr = 1%nat ->
           exists pre st0 trh post,
             tr = pre ++ EvSignalHandler sig :: trh ++ post
             /\ calls st0 = calls (Nat.iter N (signal sig) st) ++ pre ++ [EvSignalHandler sig]
             /\ AsyncSignalList.isRemoved (asig sig) st0 = true
             /\ calls (run_handler E (signal_m_handler E sig) st0) = calls st0 ++ trh).
Proof.
  rewrite (signal_iter st pending [] sig N Hwf HN).
  destruct (signal_lists st pending [] sig Hwf) as (pending1 & Hwf1 & Hin & Hlen).
  destruct Hin as [[] | Hin].
  split; [reflexivity |].
  split.
  { destruct (AsyncSignalList.isRemoved (asig sig) (signal sig st)) eqn:Hrem; [| reflexivity].
    apply (lists_wf_isRemoved _ pending1 [] sig Hwf1) in Hrem.
    exfalso. apply Hrem. apply in_or_app. left. exact Hin. }
  split.
  { intros st0 sig0 Hrem. unfold signal. rewrite Hrem. reflexivity. }
  split.
  { intros st0 sig0. unfold signal.
    destruct (AsyncSignalList.isRemoved (asig sig0) st0); cbn [andb];
      [| rewrite app_nil_r; reflexivity].
    cbv zeta. unfold AsyncSignalList.isLonely at 2.
    destruct (AsyncSignalList.isLonely m_pending_async_list st0) eqn:Hl;
      unfold AsyncSignalList.isLonely in Hl; rewrite Hl;
      [reflexivity | rewrite app_nil_r; reflexivity]. }
  destruct (dispatch_async_signals_spec E fuel (signal sig st) pending1 Hwf1)
    as (b & st' & tr0 & _ & _ & Hrun & _); [lia |].
  exists b, st'.
  pose proof Hrun as Hloop. unfold dispatch_async_signals in Hloop.
  pose proof (lists_wf_isLonely_pending (signal sig st) pending1 [] Hwf1) as Hl.
  assert (Hne : pending1 <> []) by (intros ->; exact Hin).
  destruct (AsyncSignalList.isLonely m_pending_async_list (signal sig st)).
  { exfalso. apply Hne, Hl. reflexivity. }
  cbv zeta in Hloop.
  destruct (dispatch_async_signals_loop_outcome E fuel _ [] pending1 b st'
              (lists_wf_take_batch (signal sig st) pending1 Hwf1 Hne) Hloop)
    as (tr & pending' & dispatch' & Hcalls & Hwf' & _ & Hbt & Hbf & _ & Hleft & Hfired & Hpin).
  destruct (Hfired sig Hin) as [Hle Hcases].
  exists tr, pending', dispatch'.
  split; [exact Hrun |]. split; [exact Hcalls |]. split; [exact Hwf' |].
  split; [exact Hle |].
  split.
  { intros -> Hr. destruct Hcases as [H1 | [[Hb _] | Hr']];
      [exact H1 | discriminate Hb | congruence]. }
  split.
  { destruct Hcases as [H1 | [[Hb Hd] | Hr]];
      [left; exact H1 | right; left; auto | right; right; exact Hr]. }
  split; [exact Hbf |]. split; [exact Hbt |].
  split.
  { intros Hd. split; [exact (Hleft sig Hd) |].
    destruct b; [| reflexivity]. rewrite (Hbt eq_refl) in Hd. destruct Hd. }
  exact (Hpin sig).
Qed.

(** Signal 1 is raised three times on a fresh loop and dispatched. *)
Lemma signal_raised_many_times_example :
  lists_wf ex_loop [] [] /\ (1 <= 3)%nat /\ (S (length (@nil nat)) < 3)%nat /\
  (Nat.iter 3 (signal 1) ex_loop = signal 1 ex_loop
   /\ AsyncSignalList.isRemoved (asig 1) (signal 1 ex_loop) = false
   /\ (forall st0 sig0,
         AsyncSignalList.isRemoved (asig sig0) st0 = false -> signal sig0 st0 = st0)
   /\ (forall st0 sig0,
         calls (signal sig0 st0)
         = calls st0 ++ (if AsyncSignalList.isRemoved (asig sig0) st0
                            && AsyncSignalList.isLonely m_pending_async_list st0
                         then [EvWakeup] else []))
   /\ exists b st' tr pending' dispatch',
        dispatch_async_signals ex_env 3 (Nat.iter 3 (signal 1) ex_loop) = Some (b, st')
        /\ calls st' = calls (Nat.iter 3 (signal 1) ex_loop) ++ tr
        /\ lists_wf st' pending' dispatch'
        /\ (signal_fired 1 tr <= 1)%nat
        /\ (b = true -> existsb (resets 1) tr = false -> signal_fired 1 tr = 1%nat)
        /\ (signal_fired 1 tr = 1%nat
            \/ (b = false /\ m_stop st' = true /\ In 1%nat dispatch')
            \/ existsb (resets 1) tr = true)
        /\ (b = false -> m_stop st' = true)
        /\ (b = true -> dispatch' = [])
        /\ (In 1%nat dispatch' -> signal_fired 1 tr = 0%nat /\ b = false)
        /\ (signal_fired 1 tr = 1%nat ->
            exists pre st0 trh post,
              tr = pre ++ EvSignalHandler 1 :: trh ++ post
              /\ calls st0 = calls (Nat.iter 3 (signal 1) ex_loop) ++ pre ++ [EvSignalHandler 1]
              /\ AsyncSignalList.isRemoved (asig 1) st0 = true
              /\ calls (run_handler ex_env (signal_m_handler ex_env 1) st0) = calls st0 ++ trh)).
Proof.
  assert (Hwf : lists_wf ex_loop [] []).
  { unfold lists_wf, ring. cbn [map rev app path]. repeat split; try constructor. }
  split; [exact Hwf |]. split; [lia |]. split; [cbn [length]; lia |].
  apply (signal_raised_many_times_fires_once ex_env 3 3 ex_loop [] 1).
  - exact Hwf.
  - lia.
  - cbn [length]. lia.
Defined.

(** The run of that example: one wakeup, one handler invocation. *)
Lemma signal_raised_many_times_run :
  option_map (fun r => (fst r, calls (snd r)))
    (dispatch_async_signals ex_env 3 (Nat.iter 3 (signal 1) ex_loop))
  = Some (true, [EvGetTime 0; EvWakeup; EvSignalHandler 1]).
Proof. vm_compute. reflexivity. Qed.

(** ** The phases of an iteration, with enough fuel *)

Lemma user_event_timer_phase tr :
  Forall (fun e => is_user_event e = true \/ exists x, e = EvTimerExpired x) tr ->
  Forall (fun e => is_timer_phase_event e = true) tr.
Proof.
  apply List.Forall_impl. intros e [He | [x ->]]; unfold is_timer_phase_event;
    [rewrite He |]; reflexivity.
Qed.

Lemma user_event_provider_phase tr :
  Forall (fun e => is_user_event e = true \/ exists x, e = EvSignalHandler x) tr ->
  Forall (fun e => is_provider_phase_event e = true) tr.
Proof.
  apply List.Forall_impl. intros e [He | [x ->]]; unfold is_provider_phase_event;
    [rewrite He |]; reflexivity.
Qed.

Lemma dispatch_timers_total E st pending :
  lists_wf st pending [] ->
  exists b st' tr pending',
    (forall fuel, (num_dispatch st < fuel)%nat -> dispatch_timers E fuel st = Some (b, st'))
    /\ calls st' = calls st ++ tr
    /\ Forall (fun e => is_timer_phase_event e = true) tr
    /\ lists_wf st' pending' []
    /\ m_event_time st' = m_event_time st
    /\ (b = false -> m_stop st' = true)
    /\ (m_stop st = false -> b = true -> m_stop st' = false).
Proof.
  intros Hwf.
  destruct (dispatch_timers_returns E (S (num_dispatch st)) st) as (b & st' & Hrun); [lia |].
  destruct (dispatch_timers_history E _ st b st' Hrun)
    as (tr & Hc & Hev & _ & _ & _ & Hbf & Hbt & Htime).
  destruct (dispatch_timers_lists E _ st b st' pending Hwf Hrun) as (pending' & Hwf').
  exists b, st', tr, pending'.
  split; [intros fuel Hfuel; apply (dispatch_timers_fuel E _ fuel st _ Hrun); lia |].
  split; [exact Hc |]. split; [apply user_event_timer_phase; exact Hev |].
  split; [exact Hwf' |]. auto.
Qed.

Lemma dispatchEvents_total E ready st pending :
  lists_wf st pending [] ->
  exists fuel0 b st' tr pending' dispatch',
    (forall fuel, (fuel0 <= fuel)%nat -> dispatchEvents E fuel ready st = Some (b, st'))
    /\ calls st' = calls st ++ EvDispatchEvents :: tr
    /\ Forall (fun e => is_provider_phase_event e = true) tr
    /\ lists_wf st' pending' dispatch'
    /\ (b = true -> dispatch' = [])
    /\ (b = false -> m_stop st' = true)
    /\ m_event_time st' = m_event_time st.
Proof.
  intros Hwf.
  assert (Hwf0 : lists_wf (observe EvDispatchEvents st) pending []).
  { revert Hwf. apply lists_wf_frame; reflexivity. }
  destruct (dispatch_fd_events_spec E ready _ pending Hwf0)
    as (tr1 & pending1 & Hc1 & Hev1 & Hwf1 & Hb1 & Htime1).
  unfold dispatchEvents.
  destruct (dispatch_fd_events E ready (observe EvDispatchEvents st)) as [b1 st1].
  cbn [fst snd] in *.
  destruct b1.
  - destruct (dispatch_async_signals_spec E (S (length pending1)) st1 pending1 Hwf1)
      as (b & st' & tr2 & pending' & dispatch' & Hrun & Hc2 & Hwf' & _ & Hbt & Hbf & Hev2 & _);
      [lia |].
    pose proof (dispatch_async_signals_event_time E _ st1 b st' Hrun) as Htime2.
    exists (S (length pending1)), b, st', (tr1 ++ tr2), pending', dispatch'.
    split.
    { intros fuel Hfuel. revert Hrun. unfold dispatch_async_signals.
      destruct (AsyncSignalList.isLonely m_pending_async_list st1); [auto |].
      cbv zeta. intros Hrun. apply (dispatch_async_signals_loop_fuel E _ fuel _ _ Hrun).
      exact Hfuel. }
    split; [rewrite Hc2, Hc1; cbn [observe calls]; rewrite <- !app_assoc; reflexivity |].
    split; [apply Forall_app; split;
            [exact Hev1 | apply user_event_provider_phase; exact Hev2] |].
    split; [exact Hwf' |]. split; [exact Hbt |]. split; [exact Hbf |].
    rewrite Htime2. exact Htime1.
  - exists 0%nat, false, st1, tr1, pending1, [].
    split; [reflexivity |].
    split; [rewrite Hc1; cbn [observe calls]; rewrite <- app_assoc; reflexivity |].
    split; [exact Hev1 |]. split; [exact Hwf1 |]. split; [reflexivity |].
    split; [auto | exact Htime1].
Qed.

Lemma prepare_timers_for_wait_loop_links fuel first_time st r :
  prepare_timers_for_wait_loop fuel first_time st = Some r ->
  link_next (snd r) = link_next st /\ link_prev (snd r) = link_prev st.
Proof.
  revert st. induction fuel as [| fuel IH]; intros st; [discriminate |].
  cbn [prepare_timers_for_wait_loop].
  destruct (LinkedHeap.first (m_timer_heap st)) as [tim |];
    [| intros [= <-]; split; reflexivity].
  destruct (bool_decide (m_state (timers st tim) = TempUnset));
    [intros Hr; apply IH in Hr; exact Hr |].
  destruct (bool_decide (m_state (timers st tim) = TempSet));
    [intros Hr; apply IH in Hr; exact Hr |].
  intros [= <-]. split; reflexivity.
Qed.

Lemma prepare_timers_for_wait_total time_max st pending dispatch :
  lists_wf st pending dispatch ->
  exists info st',
    (forall fuel, (num_temp st < fuel)%nat ->
                  prepare_timers_for_wait time_max fuel st = Some (info, st'))
    /\ calls st' = calls st
    /\ lists_wf st' pending dispatch
    /\ m_event_time st' = m_event_time st
    /\ m_stop st' = m_stop st
    /\ m_last_wait_time st' = wait_time info
    /\ match LinkedHeap.first (m_timer_heap st') with
       | None => wait_time info = time_max
       | Some root =>
           wait_time info = m_time (timers st' root)
           /\ m_state (timers st' root) <> TempUnset
           /\ m_state (timers st' root) <> TempSet
       end.
Proof.
  intros Hwf.
  destruct (prepare_timers_for_wait_loop_returns (S (num_temp st)) time_max st)
    as ([t st1] & Hloop); [lia |].
  pose proof (prepare_timers_for_wait_loop_stops _ _ _ _ _ Hloop)
    as (Hroot & Hlast & Hcalls & Hstop & Htime).
  pose proof (prepare_timers_for_wait_loop_links _ _ _ _ Hloop) as [Hn Hp].
  cbn [snd] in Hn, Hp.
  exists {| wait_time := t; wait_time_changed := negb (t =? m_last_wait_time st1) |},
    (set_last_wait_time t st1).
  split.
  { intros fuel Hfuel. unfold prepare_timers_for_wait.
    rewrite (prepare_timers_for_wait_loop_fuel _ fuel _ _ _ Hloop) by lia. reflexivity. }
  split; [exact Hcalls |].
  split; [revert Hwf; apply lists_wf_frame; assumption |].
  split; [exact Htime |]. split; [exact Hstop |]. split; [reflexivity |]. exact Hroot.
Qed.

(** One pass through the body of the loop of [run], phase by phase, for
    any fuel from some amount on. *)
Lemma run_iteration_phases E it st pending :
  lists_wf st pending [] ->
  let st1 := set_event_time (it_now it) (observe (EvGetTime (it_now it)) st) in
  let st2 := prepare_timers_for_dispatch (it_now it) st1 in
  exists fuel0 b3 st3 tr3 pending3,
    (forall fuel, (fuel0 <= fuel)%nat -> dispatch_timers E fuel st2 = Some (b3, st3))
    /\ calls st3 = calls st ++ EvGetTime (it_now it) :: tr3
    /\ Forall (fun e => is_timer_phase_event e = true) tr3
    /\ lists_wf st3 pending3 []
    /\ m_event_time st3 = it_now it
    /\ (b3 = false -> m_stop st3 = true)
    /\ (m_stop st = false -> b3 = true -> m_stop st3 = false)
    /\ match b3 with
       | false =>
           forall fuel, (fuel0 <= fuel)%nat -> run_iteration E fuel it st = Some (inl st3)
       | true =>
           exists b4 st4 tr4 pending4 dispatch4,
             (forall fuel, (fuel0 <= fuel)%nat ->
                dispatchEvents E fuel (it_ready it) st3 = Some (b4, st4))
             /\ calls st4 = calls st3 ++ EvDispatchEvents :: tr4
             /\ Forall (fun e => is_provider_phase_event e = true) tr4
             /\ lists_wf st4 pending4 dispatch4
             /\ (b4 = true -> dispatch4 = [])
             /\ m_event_time st4 = it_now it
             /\ (b4 = false -> m_stop st4 = true)
             /\ match b4 with
                | false =>
                    forall fuel, (fuel0 <= fuel)%nat ->
                      run_iteration E fuel it st = Some (inl st4)
                | true =>
                    exists info st5 tr5 pending6,
                      (forall fuel, (fuel0 <= fuel)%nat ->
                         prepare_timers_for_wait (time_max E) fuel st4 = Some (info, st5))
                      /\ (forall fuel, (fuel0 <= fuel)%nat ->
                            run_iteration E fuel it st
                            = Some (inr (waitForEvents info (it_raised it) st5)))
                      /\ calls (waitForEvents info (it_raised it) st5)
                         = calls st4 ++ EvWaitForEvents info :: tr5
                      /\ Forall (fun e => e = EvWakeup) tr5
                      /\ lists_wf (waitForEvents info (it_raised it) st5) pending6 []
                      /\ m_event_time (waitForEvents info (it_raised it) st5) = it_now it
                      /\ match LinkedHeap.first (m_timer_heap st5) with
                         | None => wait_time info = time_max E
                         | Some root =>
                             wait_time info = m_time (timers st5 root)
                             /\ m_state (timers st5 root) <> TempUnset
                             /\ m_state (timers st5 root) <> TempSet
                         end
                end
       end.
Proof.
  intros Hwf. cbv zeta.
  set (st1 := set_event_time (it_now it) (observe (EvGetTime (it_now it)) st)).
  set (st2 := prepare_timers_for_dispatch (it_now it) st1).
  pose proof (prepare_timers_for_dispatch_spec (it_now it) st1) as Hprep. cbv zeta in Hprep.
  fold st2 in Hprep.
  destruct Hprep as (_ & _ & _ & _ & Hc2 & Hn2 & Hp2 & He2 & Hs2).
  assert (Hwf2 : lists_wf st2 pending []).
  { revert Hwf. apply lists_wf_frame; [rewrite Hn2 | rewrite Hp2]; reflexivity. }
  destruct (dispatch_timers_total E st2 pending Hwf2)
    as (b3 & st3 & tr3 & pending3 & Hrun3 & Hc3 & Hev3 & Hwf3 & Ht3 & Hbf3 & Hbt3).
  assert (Hcalls3 : calls st3 = calls st ++ EvGetTime (it_now it) :: tr3).
  { rewrite Hc3, Hc2. unfold st1. cbn [observe calls set_event_time].
    rewrite <- app_assoc. reflexivity. }
  assert (Htime3 : m_event_time st3 = it_now it) by (rewrite Ht3, He2; reflexivity).
  assert (Hstop3 : m_stop st = false -> b3 = true -> m_stop st3 = false).
  { intros Hs. apply Hbt3. rewrite Hs2. exact Hs. }
  clear Hbt3.
  assert (Hunfold : forall fuel,
            run_iteration E fuel it st =
            match dispatch_timers E fuel st2 with
            | None => None
            | Some (false, st) => Some (inl st)
            | Some (true, st) =>
                match dispatchEvents E fuel (it_ready it) st with
                | None => None
                | Some (false, st) => Some (inl st)
                | Some (true, st) =>
                    match prepare_timers_for_wait (time_max E) fuel st with
                    | None => None
                    | Some (timeout_info, st) =>
                        Some (inr (waitForEvents timeout_info (it_raised it) st))
                    end
                end
            end) by reflexivity.
  destruct b3.
  - destruct (dispatchEvents_total E (it_ready it) st3 pending3 Hwf3)
      as (f4 & b4 & st4 & tr4 & pending4 & dispatch4 & Hrun4 & Hc4 & Hev4 & Hwf4 & Hbt4
          & Hbf4 & Ht4).
    assert (Htime4 : m_event_time st4 = it_now it) by (rewrite Ht4; exact Htime3).
    destruct b4.
    + rewrite (Hbt4 eq_refl) in Hwf4.
      destruct (prepare_timers_for_wait_total (time_max E) st4 pending4 [] Hwf4)
        as (info & st5 & Hrun5 & Hc5 & Hwf5 & Ht5 & _ & _ & Hroot).
      pose proof (raise_signals_spec (it_raised it) (observe (EvWaitForEvents info) st5) pending4)
        as Hwait. cbv zeta in Hwait.
      destruct Hwait as (tr5 & pending6 & Hc6 & Hev6 & Hwf6 & _ & _ & Ht6 & _).
      { revert Hwf5. apply lists_wf_frame; reflexivity. }
      exists (Nat.max (S (num_dispatch st2)) (Nat.max f4 (S (num_temp st4)))),
        true, st3, tr3, pending3.
      split; [intros fuel Hfuel; apply Hrun3; lia |].
      split; [exact Hcalls3 |]. split; [exact Hev3 |]. split; [exact Hwf3 |].
      split; [exact Htime3 |]. split; [exact Hbf3 |]. split; [exact Hstop3 |].
      exists true, st4, tr4, pending4, [].
      split; [intros fuel Hfuel; apply Hrun4; lia |].
      split; [exact Hc4 |]. split; [exact Hev4 |]. split; [exact Hwf4 |].
      split; [reflexivity |]. split; [exact Htime4 |]. split; [exact Hbf4 |].
      exists info, st5, tr5, pending6.
      split; [intros fuel Hfuel; apply Hrun5; lia |].
      split.
      { intros fuel Hfuel. rewrite Hunfold, Hrun3, Hrun4, Hrun5 by lia. reflexivity. }
      split; [unfold waitForEvents; rewrite Hc6; cbn [observe calls];
              rewrite Hc5, <- app_assoc; reflexivity |].
      split; [exact Hev6 |]. split; [exact Hwf6 |].
      split; [unfold waitForEvents; rewrite Ht6; cbn [observe m_event_time];
              rewrite Ht5; exact Htime4 |].
      exact Hroot.
    + exists (Nat.max (S (num_dispatch st2)) f4), true, st3, tr3, pending3.
      split; [intros fuel Hfuel; apply Hrun3; lia |].
      split; [exact Hcalls3 |]. split; [exact Hev3 |]. split; [exact Hwf3 |].
      split; [exact Htime3 |]. split; [exact Hbf3 |]. split; [exact Hstop3 |].
      exists false, st4, tr4, pending4, dispatch4.
      split; [intros fuel Hfuel; apply Hrun4; lia |].
      split; [exact Hc4 |]. split; [exact Hev4 |]. split; [exact Hwf4 |].
      split; [exact Hbt4 |]. split; [exact Htime4 |]. split; [exact Hbf4 |].
      intros fuel Hfuel. rewrite Hunfold, Hrun3, Hrun4 by lia. reflexivity.
  - exists (S (num_dispatch st2)), false, st3, tr3, pending3.
    split; [intros fuel Hfuel; apply Hrun3; lia |].
    split; [exact Hcalls3 |]. split; [exact Hev3 |]. split; [exact Hwf3 |].
    split; [exact Htime3 |]. split; [exact Hbf3 |]. split; [exact Hstop3 |].
    intros fuel Hfuel. rewrite Hunfold, Hrun3 by lia. reflexivity.
Qed.

(** ** [run] *)

(** The history of a run of two iterations with three timers set: the
    two timers that are due fire in the first iteration, timer 4 re-arms
    itself 30 ticks after the event time 10, the loop waits until 40 and is
    woken by signal 1; in the second iteration, at 45, timer 4 fires again,
    the provider dispatches signal 1, and the loop waits until the deadline
    50 of timer 5. *)
Lemma run_two_iterations :
  match run ex_env 5 [ex_iteration_1; ex_iteration_2] ex_three_timers with
  | Running st => calls st
  | _ => []
  end
  = [EvGetTime 0;
     EvGetTime 10;
     EvTimerExpired 2; EvCall (A_setAt 2 20); EvCall (A_unset 2);
     EvTimerExpired 4; EvCall (A_setAfter 4 30);
     EvDispatchEvents;
     EvWaitForEvents {| wait_time := 40; wait_time_changed := true |};
     EvWakeup;
     EvGetTime 45;
     EvTimerExpired 4; EvCall (A_setAfter 4 30);
     EvDispatchEvents; EvSignalHandler 1;
     EvWaitForEvents {| wait_time := 50; wait_time_changed := true |}].
Proof. vm_compute. reflexivity. Qed.

(** ** The dispatch list *)

(** C8, as stated, fails when [dispatch_async_signals] returns false:
    the handler of signal 0 stops the loop while signal 1 of the same batch
    is still on the dispatch list, and the function returns with the
    dispatch list not lonely. *)
Lemma dispatch_list_not_lonely_after_stop :
  AsyncSignalList.isLonely m_dispatch_async_list ex_stop_batch = true
  /\ option_map (fun r => (fst r, m_stop (snd r),
                           AsyncSignalList.isLonely m_dispatch_async_list (snd r),
                           AsyncSignalList.next m_dispatch_async_list (snd r),
                           AsyncSignalList.next (asig 1) (snd r)))
       (dispatch_async_signals ex_env 4 ex_stop_batch)
     = Some (false, true, false, asig 1, m_dispatch_async_list).
Proof. split; vm_compute; reflexivity. Qed.

(** C8, amended: on well-formed lists the dispatch list is lonely
    whenever the loop is not inside [dispatch_async_signals] and has not
    returned from it with false: it stays lonely through every sequence of
    calls that user code makes and through the signals that other threads
    raise; [dispatch_async_signals] returns (with fuel above the length of
    the pending list), and when it returns true the dispatch list is lonely
    again; when it returns false, the stop flag is set and the dispatch
    list holds what is left of the batch, so it is lonely only if nothing
    is left; a pass through the body of the loop of [run] either reaches
    its end with the dispatch list lonely or returns with the stop flag
    set. *)
Theorem dispatch_list_lonely_unless_stopped (E : Env) (fuel : nat) (st : EventLoop)
    (pending : list nat) (Hwf : lists_wf st pending [])
    (Hfuel : (length pending < fuel)%nat) :
  AsyncSignalList.isLonely m_dispatch_async_list st = true
  /\ (forall h, AsyncSignalList.isLonely m_dispatch_async_list (run_handler E h st) = true)
  /\ (forall info raised,
        AsyncSignalList.isLonely m_dispatch_async_list (waitForEvents info raised st) = true)
  /\ (exists b st' pending' dispatch',
        dispatch_async_signals E fuel st = Some (b, st')
        /\ lists_wf st' pending' dispatch'
        /\ incl dispatch' pending
        /\ (AsyncSignalList.isLonely m_dispatch_async_list st' = true <-> dispatch' = [])
        /\ (b = true -> AsyncSignalList.isLonely m_dispatch_async_list st' = true)
        /\ (b = false -> m_stop st' = true))
  /\ (forall it, exists fuel0, forall fuel', (fuel0 <= fuel')%nat ->
        match run_iteration E fuel' it st with
        | Some (inr st') => AsyncSignalList.isLonely m_dispatch_async_list st' = true
        | Some (inl st') => m_stop st' = true
        | None => False
        end).
Proof.
  split; [apply (lists_wf_isLonely_dispatch st pending [] Hwf); reflexivity |].
  split.
  { intros h.
    destruct (run_handler_lists E h st pending [] Hwf)
      as (pending1 & dispatch1 & _ & Hwf1 & _ & _ & Hincl & _).
    apply (lists_wf_isLonely_dispatch _ pending1 dispatch1 Hwf1).
    destruct dispatch1 as [| x l]; [reflexivity |]. destruct (Hincl x (or_introl eq_refl)). }
  split.
  { intros info raised.
    pose proof (raise_signals_spec raised (observe (EvWaitForEvents info) st) pending) as H.
    cbv zeta in H. destruct H as (_ & pending1 & _ & _ & Hwf1 & _).
    { revert Hwf. apply lists_wf_frame; reflexivity. }
    apply (lists_wf_isLonely_dispatch _ pending1 [] Hwf1). reflexivity. }
  split.
  { destruct (dispatch_async_signals_spec E fuel st pending Hwf Hfuel)
      as (b & st' & _ & pending' & dispatch' & Hrun & _ & Hwf' & Hincl & Hbt & Hbf & _).
    exists b, st', pending', dispatch'.
    split; [exact Hrun |]. split; [exact Hwf' |]. split; [exact Hincl |].
    split; [apply (lists_wf_isLonely_dispatch _ _ _ Hwf') |].
    split; [| exact Hbf].
    intros Hb. apply (lists_wf_isLonely_dispatch _ _ _ Hwf'). apply Hbt. exact Hb. }
  intros it.
  pose proof (run_iteration_phases E it st pending Hwf) as H. cbv zeta in H.
  destruct H as (fuel0 & b3 & st3 & _ & _ & _ & _ & _ & _ & _ & Hbf3 & _ & Hnext).
  exists fuel0. intros fuel' Hfuel'.
  destruct b3; [| rewrite (Hnext fuel' Hfuel'); apply Hbf3; reflexivity].
  destruct Hnext as (b4 & st4 & _ & _ & _ & _ & _ & _ & _ & _ & _ & Hbf4 & Hnext).
  destruct b4; [| rewrite (Hnext fuel' Hfuel'); apply Hbf4; reflexivity].
  destruct Hnext as (info & st5 & _ & pending6 & _ & Hit & _ & _ & Hwf6 & _).
  rewrite (Hit fuel' Hfuel').
  apply (lists_wf_isLonely_dispatch _ pending6 [] Hwf6). reflexivity.
Qed.

(** Signals 2 and 3 are pending; the handler of signal 2 resets
    signal 3. *)
Lemma dispatch_list_lonely_example :
  lists_wf ex_reset_batch [2%nat; 3%nat] [] /\
  (length [2%nat; 3%nat] < 4)%nat /\
  (AsyncSignalList.isLonely m_dispatch_async_list ex_reset_batch = true
  /\ (forall h, AsyncSignalList.isLonely m_dispatch_async_list (run_handler ex_env h ex_reset_batch) = true)
  /\ (forall info raised,
        AsyncSignalList.isLonely m_dispatch_async_list (waitForEvents info raised ex_reset_batch) = true)
  /\ (exists b st' pending' dispatch',
        dispatch_async_signals ex_env 4 ex_reset_batch = Some (b, st')
        /\ lists_wf st' pending' dispatch'
        /\ incl dispatch' [2%nat; 3%nat]
        /\ (AsyncSignalList.isLonely m_dispatch_async_list st' = true <-> dispatch' = [])
        /\ (b = true -> AsyncSignalList.isLonely m_dispatch_async_list st' = true)
        /\ (b = false -> m_stop st' = true))
  /\ (forall it, exists fuel0, forall fuel', (fuel0 <= fuel')%nat ->
        match run_iteration ex_env fuel' it ex_reset_batch with
        | Some (inr st') => AsyncSignalList.isLonely m_dispatch_async_list st' = true
        | Some (inl st') => m_stop st' = true
        | None => False
        end)).
Proof.
  assert (Hwf : lists_wf ex_reset_batch [2%nat; 3%nat] []).
  { unfold lists_wf, ring. cbn [map rev app path].
    split; [split; vm_compute; auto |]. split; [split; vm_compute; auto |].
    split; [repeat constructor; cbn [In]; lia |].
    intros sig Hs.
    destruct sig as [| [| [| [| sig]]]]; try reflexivity;
      exfalso; apply Hs; cbn [In]; auto. }
  split; [exact Hwf |]. split; [cbn [length]; lia |].
  apply (dispatch_list_lonely_unless_stopped ex_env 4 ex_reset_batch [2%nat; 3%nat]).
  - exact Hwf.
  - cbn [length]. lia.
Defined.

(** * Further properties *)

(** ** The comparator as an order *)

Lemma compareEntries_compare tim1 tim2 :
  compareEntries tim1 tim2 =
  match state_order (m_state tim1) ?= state_order (m_state tim2) with
  | Lt => -1
  | Gt => 1
  | Eq => match m_time tim1 ?= m_time tim2 with
          | Lt => -1
          | Gt => 1
          | Eq => 0
          end
  end.
Proof.
  unfold compareEntries. cbv zeta.
  destruct (Z.compare_spec (state_order (m_state tim1)) (state_order (m_state tim2)));
    destruct (Z.compare_spec (m_time tim1) (m_time tim2));
    repeat match goal with
    | |- context [?a =? ?b] => destruct (Z.eqb_spec a b); try lia; cbn [negb]
    | |- context [?a <? ?b] => destruct (Z.ltb_spec a b); try lia
    end; reflexivity.
Qed.

(** X1: [compareEntries] is the three-way comparison of a total preorder:
    it is -1, 0 or 1, it is 0 on equal arguments, swapping the arguments
    negates it, and "not after" is transitive. *)
Theorem compareEntries_total_preorder :
  (forall a b, compareEntries a b = -1 \/ compareEntries a b = 0 \/ compareEntries a b = 1)
  /\ (forall a, compareEntries a a = 0)
  /\ (forall a b, compareEntries a b = - compareEntries b a)
  /\ (forall a b c, compareEntries a b <= 0 -> compareEntries b c <= 0 ->
                    compareEntries a c <= 0)
  /\ (forall a b c, compareEntries a b < 0 -> compareEntries b c <= 0 ->
                    compareEntries a c < 0).
Proof.
  repeat split; intros;
    repeat match goal with
    | H : context [compareEntries _ _] |- _ => rewrite compareEntries_compare in H
    end;
    rewrite ?compareEntries_compare;
    repeat match goal with
    | H : context [?a ?= ?b] |- _ => destruct (Z.compare_spec a b); try lia
    | |- context [?a ?= ?b] => destruct (Z.compare_spec a b); try lia
    end; auto.
Qed.

(** X2: [compareKeyEntry] compares a deadline with a timer as
    [compareEntries] compares a timer that has this deadline and the state
    of the other; it is not negative exactly when the deadline of the timer
    is not after the key. *)
Theorem compareKeyEntry_as_compareEntries :
  forall time1 tim2,
    compareKeyEntry time1 tim2
    = compareEntries {| m_time := time1; m_state := m_state tim2 |} tim2
    /\ (0 <= compareKeyEntry time1 tim2 <-> m_time tim2 <= time1)
    /\ (compareKeyEntry time1 tim2 = 0 <-> m_time tim2 = time1).
Proof.
  intros time1 tim2. unfold compareKeyEntry, compareEntries. cbv zeta. cbn [m_time m_state].
  rewrite Z.eqb_refl. cbn [negb].
  destruct (Z.eqb_spec time1 (m_time tim2)); cbn [negb];
    [| destruct (Z.ltb_spec time1 (m_time tim2))];
    (split; [reflexivity |]); split; split; intros; lia.
Qed.

(** ** Marking the due timers *)

(** X3: [prepare_timers_for_dispatch] puts into [Dispatch] exactly the
    timers of the heap that are [Pending] with a deadline that is not after
    the given time; it changes no deadline, no other state, and neither the
    heap nor the history. *)
Theorem prepare_timers_for_dispatch_marks_due :
  forall now st,
    let st' := prepare_timers_for_dispatch now st in
    (forall x, m_state (timers st' x) = Dispatch <->
               m_state (timers st x) = Dispatch
               \/ (In x (m_timer_heap st) /\ m_state (timers st x) = Pending
                   /\ m_time (timers st x) <= now))
    /\ (forall x, m_state (timers st' x) <> Dispatch -> timers st' x = timers st x)
    /\ (forall x, getSetTime (timers st' x) = getSetTime (timers st x))
    /\ m_timer_heap st' = m_timer_heap st
    /\ calls st' = calls st.
Proof.
  intros now st. cbv zeta.
  pose proof (prepare_timers_for_dispatch_spec now st) as H. cbv zeta in H.
  destruct H as (Hmark & Hrest & Htime & Hheap & Hcalls & _).
  assert (Hdec : forall x, (In x (m_timer_heap st) /\ m_state (timers st x) = Pending
                            /\ m_time (timers st x) <= now)
                           \/ ~ (In x (m_timer_heap st) /\ m_state (timers st x) = Pending
                                 /\ m_time (timers st x) <= now)).
  { intros x. destruct (in_dec Nat.eq_dec x (m_timer_heap st)) as [Hin | Hin]; [| tauto].
    destruct (decide (m_state (timers st x) = Pending)) as [Hp | Hp]; [| tauto].
    destruct (Z_le_gt_dec (m_time (timers st x)) now); [left; auto | right; lia]. }
  split; [| split; [| split; [exact Htime | split; [exact Hheap | exact Hcalls]]]].
  - intros x. destruct (Hdec x) as [Hd | Hd].
    + split; [intros _; right; exact Hd |].
      intros _. destruct Hd as (Hin & Hp & Ht). exact (Hmark x Hin Hp Ht).
    + rewrite (Hrest x Hd). split; [auto |]. intros [Hx | Hx]; [exact Hx | contradiction].
  - intros x Hx. destruct (Hdec x) as [Hd | Hd]; [| exact (Hrest x Hd)].
    destruct Hd as (Hin & Hp & Ht). contradiction (Hx (Hmark x Hin Hp Ht)).
Qed.

(** ** Setting and unsetting a timer *)

Lemma timer_eq (a b : EventLoopTimer) :
  m_time a = m_time b -> m_state a = m_state b -> a = b.
Proof. destruct a, b. cbn. intros -> ->. reflexivity. Qed.

Lemma same_state_refl st : same_state st st.
Proof. unfold same_state. repeat split. Qed.

(** X4: after [setAt t] the timer is set and its set time is [t], and
    after [unset] it is not set and its stored deadline is as before,
    whatever the state of the timer was; no other timer is changed. *)
Theorem setAt_unset_isSet_getSetTime :
  forall time tim st,
    isSet (timers (setAt time tim st) tim) = true
    /\ getSetTime (timers (setAt time tim st) tim) = time
    /\ isSet (timers (unset tim st) tim) = false
    /\ getSetTime (timers (unset tim st) tim) = getSetTime (timers st tim)
    /\ (forall tim', tim' <> tim ->
          timers (setAt time tim st) tim' = timers st tim'
          /\ timers (unset tim st) tim' = timers st tim').
Proof.
  intros time tim st.
  pose proof (setAt_effect time tim st) as Hs. cbv zeta in Hs.
  destruct Hs as (Hst & Hss & Hso & _).
  pose proof (unset_effect tim st) as Hu. cbv zeta in Hu.
  destruct Hu as (Hut & Hus & Huo & _).
  unfold isSet, getSetTime.
  split; [destruct (m_state (timers st tim)); destruct Hss as [-> _]; reflexivity |].
  split; [exact Hst |].
  split; [destruct (m_state (timers st tim)); destruct Hus as [-> _]; reflexivity |].
  split; [exact Hut |].
  intros tim' Hne. split; [exact (Hso tim' Hne) | exact (Huo tim' Hne)].
Qed.

Lemma In_insert mem tim h x :
  In x (LinkedHeap.insert mem tim h) <-> x = tim \/ In x h.
Proof.
  induction h as [| y h IH]; cbn [LinkedHeap.insert In].
  - intuition.
  - destruct (_ <? 0); cbn [In]; [intuition | rewrite IH; intuition].
Qed.

Lemma In_remove tim h x :
  In x (LinkedHeap.remove tim h) <-> In x h /\ x <> tim.
Proof.
  unfold LinkedHeap.remove. rewrite filter_In.
  destruct (Nat.eqb_spec x tim); cbn [negb]; intuition congruence.
Qed.

Lemma remove_not_In tim h : ~ In tim h -> LinkedHeap.remove tim h = h.
Proof.
  intros Hn. unfold LinkedHeap.remove. induction h as [| y h IH]; [reflexivity |].
  cbn [List.filter]. destruct (Nat.eqb_spec y tim) as [-> | Hne]; cbn [negb].
  - contradiction Hn. left. reflexivity.
  - f_equal. apply IH. intros Hin. apply Hn. right. exact Hin.
Qed.

Lemma remove_insert mem tim h :
  ~ In tim h -> LinkedHeap.remove tim (LinkedHeap.insert mem tim h) = h.
Proof.
  intros Hn. induction h as [| y h IH]; cbn [LinkedHeap.insert].
  - unfold LinkedHeap.remove. cbn [List.filter]. rewrite Nat.eqb_refl. reflexivity.
  - destruct (_ <? 0).
    + unfold LinkedHeap.remove. cbn [List.filter]. rewrite Nat.eqb_refl. cbn [negb].
      apply (remove_not_In tim (y :: h) Hn).
    + unfold LinkedHeap.remove. cbn [List.filter].
      destruct (Nat.eqb_spec y tim) as [-> | Hne]; cbn [negb].
      * contradiction Hn. left. reflexivity.
      * f_equal. apply IH. intros Hin. apply Hn. right. exact Hin.
Qed.

Lemma unset_state (tim : nat) (st : EventLoop) :
  m_state (timers (unset tim st) tim) = Idle
  \/ m_state (timers (unset tim st) tim) = TempUnset.
Proof.
  pose proof (unset_effect tim st) as H. cbv zeta in H. destruct H as (_ & H & _).
  destruct (m_state (timers st tim)); destruct H as [-> _]; auto.
Qed.

(** X6: [unset] is idempotent, and it does nothing at all to a timer that
    is [Idle]; the destructor of a timer does nothing after an [unset] that
    left the timer [Idle]. *)
Theorem unset_idempotent :
  forall tim st,
    same_state (unset tim (unset tim st)) (unset tim st)
    /\ (m_state (timers st tim) = Idle -> unset tim st = st)
    /\ (m_state (timers (unset tim st) tim) = Idle ->
        timer_delete tim (unset tim st) = unset tim st).
Proof.
  intros tim st. split; [| split].
  - destruct (unset_state tim st) as [Hs | Hs].
    + unfold unset at 1. rewrite Hs. cbn. apply same_state_refl.
    + unfold unset at 1. rewrite Hs. cbn [bool_decide decide_rel orb].
      decide_state_tests. cbn [orb].
      unfold same_state, set_m_state.
      cbn [timers fd_watchers link_next link_prev m_timer_heap m_stop m_event_time
           m_last_wait_time calls set_timers].
      split; [| repeat split].
      intros x. unfold insert, fn_insert.
      destruct (decide (tim = x)) as [<- | Hne]; [| reflexivity].
      apply timer_eq; [reflexivity | symmetry; exact Hs].
  - intros Hs. unfold unset. rewrite Hs. reflexivity.
  - intros Hs. unfold timer_delete. rewrite Hs. reflexivity.
Qed.

Lemma timer_calls_snoc tim ops op st :
  timer_calls tim (ops ++ [op]) st
  = match op with
    | Some time => setAt time tim (timer_calls tim ops st)
    | None => unset tim (timer_calls tim ops st)
    end.
Proof. unfold timer_calls. rewrite fold_left_app. reflexivity. Qed.

Lemma timer_calls_temp tim ops st :
  is_Temp (m_state (timers st tim)) = true ->
  m_timer_heap (timer_calls tim ops st) = m_timer_heap st
  /\ is_Temp (m_state (timers (timer_calls tim ops st) tim)) = true
  /\ (forall tim', tim' <> tim -> timers (timer_calls tim ops st) tim' = timers st tim')
  /\ calls (timer_calls tim ops st) = calls st.
Proof.
  intros Htemp. induction ops as [| op ops IH] using rev_ind.
  - repeat split. exact Htemp.
  - rewrite timer_calls_snoc. destruct IH as (Hh & Ht & Ho & Hc).
    destruct op as [time |].
    + pose proof (setAt_effect time tim (timer_calls tim ops st)) as H. cbv zeta in H.
      destruct H as (_ & Hs & Hso & _ & _ & _ & Hsc & _).
      unfold is_Temp in Ht.
      destruct (m_state (timers (timer_calls tim ops st) tim)); try discriminate Ht;
        destruct Hs as [Hs1 Hs2]; rewrite Hs1, Hs2, Hsc;
        (split; [exact Hh |]); (split; [reflexivity |]); (split; [| exact Hc]);
        intros tim' Hne; rewrite (Hso tim' Hne); apply (Ho tim' Hne).
    + pose proof (unset_effect tim (timer_calls tim ops st)) as H. cbv zeta in H.
      destruct H as (_ & Hs & Hso & Hsc & _).
      unfold is_Temp in Ht.
      destruct (m_state (timers (timer_calls tim ops st) tim)); try discriminate Ht;
        destruct Hs as [Hs1 Hs2]; rewrite Hs1, Hs2, Hsc;
        (split; [exact Hh |]); (split; [reflexivity |]); (split; [| exact Hc]);
        intros tim' Hne; rewrite (Hso tim' Hne); apply (Ho tim' Hne).
Qed.

(** X7: while the handler of a timer runs (the timer is [TempUnset] or
    [TempSet]) no sequence of [setAt] and [unset] calls on this timer
    touches the heap or another timer; the timer stays [TempUnset] or
    [TempSet], and the last call decides: after [setAt t] it is [TempSet]
    with the deadline [t], after [unset] it is [TempUnset]. *)
Theorem timer_calls_in_handler (tim : nat) (ops : list (option EventLoopTime))
    (st : EventLoop) (Htemp : is_Temp (m_state (timers st tim)) = true) :
  let st' := timer_calls tim ops st in
  m_timer_heap st' = m_timer_heap st
  /\ is_Temp (m_state (timers st' tim)) = true
  /\ (forall tim', tim' <> tim -> timers st' tim' = timers st tim')
  /\ (forall ops0 time, ops = ops0 ++ [Some time] ->
        m_state (timers st' tim) = TempSet /\ getSetTime (timers st' tim) = time
        /\ isSet (timers st' tim) = true)
  /\ (forall ops0, ops = ops0 ++ [None] ->
        m_state (timers st' tim) = TempUnset /\ isSet (timers st' tim) = false).
Proof.
  cbv zeta.
  destruct (timer_calls_temp tim ops st Htemp) as (Hh & Ht & Ho & _).
  split; [exact Hh |]. split; [exact Ht |]. split; [exact Ho |].
  split.
  - intros ops0 time ->. rewrite timer_calls_snoc.
    destruct (timer_calls_temp tim ops0 st Htemp) as (_ & Ht0 & _).
    pose proof (setAt_effect time tim (timer_calls tim ops0 st)) as H. cbv zeta in H.
    destruct H as (Htime & Hs & _).
    unfold is_Temp in Ht0. unfold isSet, getSetTime.
    destruct (m_state (timers (timer_calls tim ops0 st) tim)); try discriminate Ht0;
      destruct Hs as [-> _]; repeat split; exact Htime.
  - intros ops0 ->. rewrite timer_calls_snoc.
    destruct (timer_calls_temp tim ops0 st Htemp) as (_ & Ht0 & _).
    pose proof (unset_effect tim (timer_calls tim ops0 st)) as H. cbv zeta in H.
    destruct H as (_ & Hs & _).
    unfold is_Temp in Ht0. unfold isSet.
    destruct (m_state (timers (timer_calls tim ops0 st) tim)); try discriminate Ht0;
      destruct Hs as [-> _]; repeat split.
Qed.

Lemma timer_calls_in_handler_example :
  is_Temp (m_state (timers ex_in_handler 2%nat)) = true
  /\ (let st' := timer_calls 2 [Some 20; None; Some 30] ex_in_handler in
      m_timer_heap st' = m_timer_heap ex_in_handler
      /\ is_Temp (m_state (timers st' 2%nat)) = true
      /\ (forall tim', tim' <> 2%nat -> timers st' tim' = timers ex_in_handler tim')
      /\ (forall ops0 time, [Some 20; None; Some 30] = ops0 ++ [Some time] ->
            m_state (timers st' 2%nat) = TempSet /\ getSetTime (timers st' 2%nat) = time
            /\ isSet (timers st' 2%nat) = true)
      /\ (forall ops0, [Some 20; None; Some 30] = ops0 ++ [None] ->
            m_state (timers st' 2%nat) = TempUnset /\ isSet (timers st' 2%nat) = false)).
Proof.
  split; [vm_compute; reflexivity |].
  apply (timer_calls_in_handler 2 [Some 20; None; Some 30] ex_in_handler).
  vm_compute. reflexivity.
Defined.

(** ** The timers of the heap *)

Lemma NoDup_remove tim h : List.NoDup h -> List.NoDup (LinkedHeap.remove tim h).
Proof. intros H. unfold LinkedHeap.remove. apply List.NoDup_filter. exact H. Qed.

Lemma NoDup_insert mem tim h :
  ~ In tim h -> List.NoDup h -> List.NoDup (LinkedHeap.insert mem tim h).
Proof.
  induction h as [| y h IH]; intros Hn Hd; cbn [LinkedHeap.insert].
  - constructor; [intros [] | constructor].
  - destruct (_ <? 0).
    + constructor; assumption.
    + apply List.NoDup_cons_iff in Hd. destruct Hd as [Hy Hd].
      constructor.
      * rewrite In_insert. intros [-> | Hin]; [apply Hn; left; reflexivity | contradiction].
      * apply IH; [intros Hin; apply Hn; right; exact Hin | exact Hd].
Qed.

Lemma NoDup_fixup mem tim h : List.NoDup h -> List.NoDup (LinkedHeap.fixup mem tim h).
Proof.
  intros H. unfold LinkedHeap.fixup.
  apply NoDup_insert; [apply heap_remove_not_elem | apply NoDup_remove; exact H].
Qed.

Lemma In_fixup mem tim h x :
  In x (LinkedHeap.fixup mem tim h) <-> x = tim \/ In x h.
Proof.
  unfold LinkedHeap.fixup. rewrite In_insert, In_remove.
  destruct (Nat.eq_dec x tim); intuition.
Qed.

Lemma heap_inv_frame st st' :
  timers st' = timers st -> m_timer_heap st' = m_timer_heap st ->
  heap_inv st -> heap_inv st'.
Proof. unfold heap_inv. intros -> ->. auto. Qed.

Lemma heap_inv_new time_max now : heap_inv (EventLoop_new time_max now).
Proof. split; [constructor | intros tim []]. Qed.

Lemma heap_inv_setAt time tim st : heap_inv st -> heap_inv (setAt time tim st).
Proof.
  intros [Hd Hi].
  pose proof (setAt_effect time tim st) as H. cbv zeta in H.
  destruct H as (_ & Hs & Ho & _).
  assert (Hother : forall x, x <> tim -> In x (m_timer_heap st) ->
                             m_state (timers (setAt time tim st) x) <> Idle).
  { intros x Hne Hin. rewrite (Ho x Hne). apply Hi. exact Hin. }
  destruct (m_state (timers st tim)) eqn:Hstate; destruct Hs as [Hs Hh];
    (split; [rewrite Hh | intros x; rewrite Hh]).
  - apply NoDup_insert; [| exact Hd]. intros Hin. apply (Hi tim Hin). exact Hstate.
  - rewrite In_insert. intros [-> | Hin]; [rewrite Hs; discriminate |].
    destruct (Nat.eq_dec x tim) as [-> | Hne]; [rewrite Hs; discriminate | auto].
  - apply NoDup_fixup. exact Hd.
  - rewrite In_fixup. intros [-> | Hin]; [rewrite Hs; discriminate |].
    destruct (Nat.eq_dec x tim) as [-> | Hne]; [rewrite Hs; discriminate | auto].
  - exact Hd.
  - intros Hin. destruct (Nat.eq_dec x tim) as [-> | Hne]; [rewrite Hs; discriminate | auto].
  - exact Hd.
  - intros Hin. destruct (Nat.eq_dec x tim) as [-> | Hne]; [rewrite Hs; discriminate | auto].
  - apply NoDup_fixup. exact Hd.
  - rewrite In_fixup. intros [-> | Hin]; [rewrite Hs; discriminate |].
    destruct (Nat.eq_dec x tim) as [-> | Hne]; [rewrite Hs; discriminate | auto].
Qed.

Lemma heap_inv_unset tim st : heap_inv st -> heap_inv (unset tim st).
Proof.
  intros [Hd Hi].
  pose proof (unset_effect tim st) as H. cbv zeta in H.
  destruct H as (_ & Hs & Ho & _).
  assert (Hother : forall x, x <> tim -> In x (m_timer_heap st) ->
                             m_state (timers (unset tim st) x) <> Idle).
  { intros x Hne Hin. rewrite (Ho x Hne). apply Hi. exact Hin. }
  destruct (m_state (timers st tim)) eqn:Hstate; destruct Hs as [Hs Hh];
    (split; [rewrite Hh | intros x; rewrite Hh]);
    try exact Hd; try (apply NoDup_remove; exact Hd);
    try (rewrite In_remove; intros [Hin Hne]; auto);
    try (intros Hin; destruct (Nat.eq_dec x tim) as [-> | Hne];
         [try (rewrite Hs; discriminate) | auto]).
  exfalso. apply (Hi tim Hin). exact Hstate.
Qed.

Lemma heap_inv_timer_delete tim st : heap_inv st -> heap_inv (timer_delete tim st).
Proof.
  intros [Hd Hi]. unfold timer_delete. destruct (negb _); [| split; assumption].
  split; cbn [heap_remove set_timer_heap m_timer_heap timers].
  - apply NoDup_remove. exact Hd.
  - intros x. rewrite In_remove. intros [Hin _]. apply Hi. exact Hin.
Qed.

Lemma do_action_timers_same E a st :
  (forall tim, a <> A_unset tim) -> (forall tim time, a <> A_setAt tim time) ->
  (forall tim d, a <> A_setAfter tim d) -> (forall tim, a <> A_timer_delete tim) ->
  timers (do_action E a st) = timers st
  /\ m_timer_heap (do_action E a st) = m_timer_heap st.
Proof.
  intros H1 H2 H3 H4.
  destruct a; cbn [do_action];
    try (contradiction (H1 _ eq_refl)); try (contradiction (H2 _ _ eq_refl));
    try (contradiction (H3 _ _ eq_refl)); try (contradiction (H4 _ eq_refl)).
  - split; reflexivity.
  - unfold signal. destruct (AsyncSignalList.isRemoved _ _); [| split; reflexivity].
    cbv zeta. destruct (AsyncSignalList.isLonely _ _); split; reflexivity.
  - unfold signal_reset. destruct (negb _); split; reflexivity.
  - unfold signal_delete, signal_reset. destruct (negb _); split; reflexivity.
  - split; reflexivity.
  - unfold updateEvents. destruct (negb _); split; reflexivity.
  - unfold fd_reset. destruct (_ <=? _); split; reflexivity.
  - unfold fd_delete. destruct (_ <=? _); split; reflexivity.
Qed.

Lemma heap_inv_do_action E a st : heap_inv st -> heap_inv (do_action E a st).
Proof.
  intros Hinv.
  destruct a;
    try (apply (heap_inv_frame st);
         [apply do_action_timers_same; discriminate
         | apply do_action_timers_same; discriminate | exact Hinv]);
    cbn [do_action].
  - apply heap_inv_unset. exact Hinv.
  - apply heap_inv_setAt. exact Hinv.
  - apply heap_inv_setAt. exact Hinv.
  - apply heap_inv_timer_delete. exact Hinv.
Qed.

Lemma heap_inv_run_handler E h st : heap_inv st -> heap_inv (run_handler E h st).
Proof.
  revert st. induction h as [| a k IH | k IH]; intros st Hinv; cbn [run_handler].
  - exact Hinv.
  - apply IH. apply heap_inv_do_action.
    apply (heap_inv_frame st); [reflexivity | reflexivity | exact Hinv].
  - apply (IH st st). exact Hinv.
Qed.

Lemma heap_inv_set_m_state tim s st :
  s <> Idle -> heap_inv st -> heap_inv (set_m_state tim s st).
Proof.
  intros Hs [Hd Hi]. split; [exact Hd |].
  intros x Hin. rewrite timers_set_m_state.
  destruct (decide (tim = x)); [exact Hs | apply Hi; exact Hin].
Qed.

Lemma heap_inv_heap_fixup tim st :
  m_state (timers st tim) <> Idle -> heap_inv st -> heap_inv (heap_fixup tim st).
Proof.
  intros Hs [Hd Hi]. split; cbn [heap_fixup set_timer_heap m_timer_heap timers].
  - apply NoDup_fixup. exact Hd.
  - intros x. rewrite In_fixup. intros [-> | Hin]; [exact Hs | apply Hi; exact Hin].
Qed.

Lemma heap_inv_prepare_timers_for_dispatch now st :
  heap_inv st -> heap_inv (prepare_timers_for_dispatch now st).
Proof.
  intros Hinv. unfold prepare_timers_for_dispatch.
  generalize (LinkedHeap.findAllLesserOrEqual (timers st) now (m_timer_heap st)).
  intros l. revert st Hinv. induction l as [| tim l IH]; intros st Hinv; cbn [fold_left].
  - exact Hinv.
  - apply IH. apply heap_inv_set_m_state; [discriminate | exact Hinv].
Qed.

Lemma heap_inv_dispatch_timers E fuel st b st' :
  heap_inv st -> dispatch_timers E fuel st = Some (b, st') -> heap_inv st'.
Proof.
  revert st. induction fuel as [| fuel IH]; intros st Hinv; [discriminate |].
  cbn [dispatch_timers].
  destruct (LinkedHeap.first (m_timer_heap st)) as [tim |]; [| intros [= <- <-]; exact Hinv].
  destruct (negb _); [intros [= <- <-]; exact Hinv |].
  assert (Hinv' : heap_inv (run_handler E (handleTimerExpired E tim)
                    (observe (EvTimerExpired tim)
                       (heap_fixup tim (set_m_state tim TempUnset st))))).
  { apply heap_inv_run_handler.
    apply (heap_inv_frame (heap_fixup tim (set_m_state tim TempUnset st)));
      [reflexivity | reflexivity |].
    apply heap_inv_heap_fixup.
    - rewrite timers_set_m_state. destruct (decide (tim = tim)); [discriminate | congruence].
    - apply heap_inv_set_m_state; [discriminate | exact Hinv]. }
  destruct (m_stop _); [intros [= <- <-]; exact Hinv' | apply IH; exact Hinv'].
Qed.

Lemma heap_inv_prepare_timers_for_wait_loop fuel first_time st r :
  heap_inv st -> prepare_timers_for_wait_loop fuel first_time st = Some r ->
  heap_inv (snd r).
Proof.
  revert st. induction fuel as [| fuel IH]; intros st Hinv; [discriminate |].
  cbn [prepare_timers_for_wait_loop].
  destruct (LinkedHeap.first (m_timer_heap st)) as [tim |]; [| intros [= <-]; exact Hinv].
  destruct (bool_decide _).
  { apply IH. destruct Hinv as [Hd Hi]. split.
    - cbn [set_m_state set_timers heap_remove set_timer_heap m_timer_heap].
      apply NoDup_remove. exact Hd.
    - intros x. cbn [set_m_state set_timers heap_remove set_timer_heap m_timer_heap timers].
      rewrite In_remove. intros [Hin Hne]. unfold insert, fn_insert.
      destruct (decide (tim = x)); [congruence | apply Hi; exact Hin]. }
  destruct (bool_decide _).
  { apply IH. apply heap_inv_heap_fixup.
    - rewrite timers_set_m_state. destruct (decide (tim = tim)); [discriminate | congruence].
    - apply heap_inv_set_m_state; [discriminate | exact Hinv]. }
  intros [= <-]. exact Hinv.
Qed.

Lemma heap_inv_dispatch_async_signals_loop E fuel st b st' :
  heap_inv st -> dispatch_async_signals_loop E fuel st = Some (b, st') -> heap_inv st'.
Proof.
  revert st. induction fuel as [| fuel IH]; intros st Hinv; [discriminate |].
  cbn [dispatch_async_signals_loop].
  destruct (AsyncSignalList.next m_dispatch_async_list st) as [| | sig];
    [discriminate | intros [= <- <-]; exact Hinv |].
  assert (Hinv' : heap_inv (run_handler E (signal_m_handler E sig)
                    (observe (EvSignalHandler sig)
                       (AsyncSignalList.markRemoved (asig sig)
                          (AsyncSignalList.remove (asig sig) st))))).
  { apply heap_inv_run_handler.
    apply (heap_inv_frame st); [reflexivity | reflexivity | exact Hinv]. }
  destruct (m_stop _); [intros [= <- <-]; exact Hinv' | apply IH; exact Hinv'].
Qed.

Lemma heap_inv_dispatch_fd_events E ready st :
  heap_inv st -> heap_inv (snd (dispatch_fd_events E ready st)).
Proof.
  revert st. induction ready as [| [w events] ready IH]; intros st Hinv;
    cbn [dispatch_fd_events]; [exact Hinv |].
  destruct (hasFd _); [| apply IH; exact Hinv].
  assert (Hinv' : heap_inv (run_handler E (fd_m_handler E w events)
                              (observe (EvFdHandler w events) st))).
  { apply heap_inv_run_handler.
    apply (heap_inv_frame st); [reflexivity | reflexivity | exact Hinv]. }
  destruct (m_stop _); [exact Hinv' | apply IH; exact Hinv'].
Qed.

Lemma heap_inv_dispatchEvents E fuel ready st b st' :
  heap_inv st -> dispatchEvents E fuel ready st = Some (b, st') -> heap_inv st'.
Proof.
  intros Hinv. unfold dispatchEvents.
  pose proof (heap_inv_dispatch_fd_events E ready (observe EvDispatchEvents st)) as Hfd.
  destruct (dispatch_fd_events E ready (observe EvDispatchEvents st)) as [[|] st1];
    cbn [snd] in Hfd.
  - unfold dispatch_async_signals.
    destruct (AsyncSignalList.isLonely _ _).
    + intros [= <- <-]. apply Hfd.
      apply (heap_inv_frame st); [reflexivity | reflexivity | exact Hinv].
    + apply heap_inv_dispatch_async_signals_loop.
      apply (heap_inv_frame st1); [reflexivity | reflexivity |].
      apply Hfd. apply (heap_inv_frame st); [reflexivity | reflexivity | exact Hinv].
  - intros [= <- <-]. apply Hfd.
    apply (heap_inv_frame st); [reflexivity | reflexivity | exact Hinv].
Qed.

Lemma signal_timers sig st :
  timers (signal sig st) = timers st /\ m_timer_heap (signal sig st) = m_timer_heap st
  /\ m_stop (signal sig st) = m_stop st.
Proof.
  unfold signal. destruct (AsyncSignalList.isRemoved _ _); [| repeat split].
  cbv zeta. destruct (AsyncSignalList.isLonely _ _); repeat split.
Qed.

Lemma heap_inv_waitForEvents info raised st :
  heap_inv st -> heap_inv (waitForEvents info raised st).
Proof.
  intros Hinv. unfold waitForEvents.
  assert (H0 : heap_inv (observe (EvWaitForEvents info) st)).
  { apply (heap_inv_frame st); [reflexivity | reflexivity | exact Hinv]. }
  revert H0. generalize (observe (EvWaitForEvents info) st). clear.
  induction raised as [| sig raised IH]; intros st Hinv; cbn [fold_left]; [exact Hinv |].
  apply IH. apply (heap_inv_frame st); [apply signal_timers | apply signal_timers | exact Hinv].
Qed.

Lemma heap_inv_run_iteration E fuel it st r :
  heap_inv st -> run_iteration E fuel it st = Some r ->
  heap_inv (match r with inl s | inr s => s end).
Proof.
  intros Hinv. unfold run_iteration.
  assert (H1 : heap_inv (prepare_timers_for_dispatch
                 (m_event_time (set_event_time (it_now it) (observe (EvGetTime (it_now it)) st)))
                 (set_event_time (it_now it) (observe (EvGetTime (it_now it)) st)))).
  { apply heap_inv_prepare_timers_for_dispatch.
    apply (heap_inv_frame st); [reflexivity | reflexivity | exact Hinv]. }
  revert H1. generalize (prepare_timers_for_dispatch
                 (m_event_time (set_event_time (it_now it) (observe (EvGetTime (it_now it)) st)))
                 (set_event_time (it_now it) (observe (EvGetTime (it_now it)) st))).
  intros st1 H1.
  destruct (dispatch_timers E fuel st1) as [[[|] st2] |] eqn:Hdt; [| | discriminate].
  - pose proof (heap_inv_dispatch_timers E fuel st1 _ _ H1 Hdt) as H2.
    destruct (dispatchEvents E fuel (it_ready it) st2) as [[[|] st3] |] eqn:Hde;
      [| | discriminate].
    + pose proof (heap_inv_dispatchEvents E fuel _ st2 _ _ H2 Hde) as H3.
      unfold prepare_timers_for_wait.
      destruct (prepare_timers_for_wait_loop fuel (time_max E) st3) as [[t st4] |] eqn:Hpw;
        [| discriminate].
      intros [= <-].
      apply heap_inv_waitForEvents.
      apply (heap_inv_frame st4); [reflexivity | reflexivity |].
      apply (heap_inv_prepare_timers_for_wait_loop fuel (time_max E) st3 (t, st4) H3 Hpw).
    + intros [= <-]. apply (heap_inv_dispatchEvents E fuel _ st2 _ _ H2 Hde).
  - intros [= <-]. apply (heap_inv_dispatch_timers E fuel st1 _ _ H1 Hdt).
Qed.

Lemma heap_inv_run_loop E fuel its st :
  heap_inv st ->
  match run_loop E fuel its st with
  | Returned s | Running s => heap_inv s
  | OutOfFuel => True
  end.
Proof.
  revert st. induction its as [| it its IH]; intros st Hinv; cbn [run_loop]; [exact Hinv |].
  destruct (run_iteration E fuel it st) as [[s | s] |] eqn:Hit; [| | exact I].
  - apply (heap_inv_run_iteration E fuel it st (inl s) Hinv Hit).
  - apply IH. apply (heap_inv_run_iteration E fuel it st (inr s) Hinv Hit).
Qed.

(** X8: the timers of the heap: no timer is in the heap twice and no
    timer of the heap is [Idle].  This holds in a new loop, and from a
    state in which it holds every call of user code keeps it, every
    handler keeps it, and so does [run], for as long as it goes on and when
    it returns. *)
Theorem heap_inv_preserved (E : Env) (fuel : nat) (its : list Iteration)
    (st : EventLoop) (Hinv : heap_inv st) :
  (forall time_max now, heap_inv (EventLoop_new time_max now))
  /\ (forall a, heap_inv (do_action E a st))
  /\ (forall h, heap_inv (run_handler E h st))
  /\ match run E fuel its st with
     | Returned s | Running s => heap_inv s
     | OutOfFuel => True
     end.
Proof.
  split; [exact heap_inv_new |].
  split; [intros a; apply heap_inv_do_action; exact Hinv |].
  split; [intros h; apply heap_inv_run_handler; exact Hinv |].
  unfold run.
  destruct (m_stop st); [exact Hinv | apply heap_inv_run_loop; exact Hinv].
Qed.

Lemma heap_inv_preserved_example :
  heap_inv ex_three_timers
  /\ ((forall time_max now, heap_inv (EventLoop_new time_max now))
      /\ (forall a, heap_inv (do_action ex_env a ex_three_timers))
      /\ (forall h, heap_inv (run_handler ex_env h ex_three_timers))
      /\ match run ex_env 5 [ex_iteration_1; ex_iteration_2] ex_three_timers with
         | Returned s | Running s => heap_inv s
         | OutOfFuel => True
         end).
Proof.
  assert (H : heap_inv ex_three_timers).
  { split.
    - vm_compute. repeat constructor; cbn [In]; lia.
    - intros tim Hin. vm_compute in Hin.
      destruct Hin as [<- | [<- | [<- | []]]]; vm_compute; discriminate. }
  split; [exact H |].
  apply (heap_inv_preserved ex_env 5 [ex_iteration_1; ex_iteration_2] ex_three_timers H).
Defined.

(** ** Firing the due timers *)

Lemma timer_fired_app x l1 l2 :
  timer_fired x (l1 ++ l2) = (timer_fired x l1 + timer_fired x l2)%nat.
Proof. unfold timer_fired. rewrite List.filter_app, length_app. reflexivity. Qed.

Lemma timer_fired_user x tr :
  Forall (fun e => is_user_event e = true) tr -> timer_fired x tr = 0%nat.
Proof.
  induction 1 as [| e tr He _ IH]; [reflexivity |].
  unfold timer_fired in *. cbn [List.filter].
  destruct e; cbn [fires]; try exact IH. discriminate He.
Qed.

Lemma dispatch_timers_fired E fuel st b st' :
  dispatch_timers E fuel st = Some (b, st') ->
  exists tr,
    calls st' = calls st ++ tr
    /\ forall x, (timer_fired x tr <= 1)%nat
                 /\ (m_state (timers st x) <> Dispatch -> timer_fired x tr = 0%nat).
Proof.
  revert st b st'. induction fuel as [| fuel IH]; intros st b st'; [discriminate |].
  assert (Hnil : exists tr : list Event,
            calls st = calls st ++ tr
            /\ forall x, (timer_fired x tr <= 1)%nat
                         /\ (m_state (timers st x) <> Dispatch -> timer_fired x tr = 0%nat)).
  { exists []. rewrite app_nil_r. split; [reflexivity |]. intros x. cbn. split; [lia | reflexivity]. }
  cbn [dispatch_timers].
  destruct (LinkedHeap.first (m_timer_heap st)) as [tim |]; [| intros [= <- <-]; exact Hnil].
  destruct (bool_decide_reflect (m_state (timers st tim) = Dispatch)) as [Hd | Hd];
    cbn [negb]; [| intros [= <- <-]; exact Hnil].
  set (st1 := observe (EvTimerExpired tim) (heap_fixup tim (set_m_state tim TempUnset st))).
  destruct (run_handler_timers E (handleTimerExpired E tim) st1)
    as (trh & Hch & Huh & Hnoh & _ & _).
  assert (Hst1 : forall x, m_state (timers st1 x) = Dispatch ->
                           x <> tim /\ m_state (timers st x) = Dispatch).
  { intros x. unfold st1. cbn [observe heap_fixup set_timer_heap timers].
    rewrite timers_set_m_state. destruct (decide (tim = x)) as [<- | Hne]; [discriminate |].
    intros Hx. split; [congruence | exact Hx]. }
  assert (Hone : forall tr2,
            (forall x, (timer_fired x tr2 <= 1)%nat
                       /\ (m_state (timers (run_handler E (handleTimerExpired E tim) st1) x)
                             <> Dispatch -> timer_fired x tr2 = 0%nat)) ->
            forall x, (timer_fired x ([EvTimerExpired tim] ++ trh ++ tr2) <= 1)%nat
                      /\ (m_state (timers st x) <> Dispatch ->
                          timer_fired x ([EvTimerExpired tim] ++ trh ++ tr2) = 0%nat)).
  { intros tr2 H2 x. rewrite !timer_fired_app, (timer_fired_user x trh Huh).
    destruct (H2 x) as [Hle Hz].
    unfold timer_fired at 1 3. cbn [List.filter fires].
    destruct (Nat.eqb_spec tim x) as [<- | Hne]; cbn [length].
    - rewrite Hz; [split; [lia | intros Hc; contradiction] |].
      intros Hc. apply Hnoh in Hc. apply Hst1 in Hc. destruct Hc as [Hc _]. congruence.
    - split; [lia |]. intros Hx. rewrite Hz; [reflexivity |].
      intros Hc. apply Hnoh in Hc. apply Hst1 in Hc. destruct Hc as [_ Hc]. contradiction. }
  fold st1.
  destruct (m_stop (run_handler E (handleTimerExpired E tim) st1)) eqn:Hstop.
  - intros [= <- <-]. exists ([EvTimerExpired tim] ++ trh ++ []).
    split.
    + rewrite Hch. unfold st1. cbn [observe calls heap_fixup set_timer_heap set_m_state set_timers].
      rewrite app_nil_r, <- !app_assoc. reflexivity.
    + apply Hone. intros x. cbn. split; [lia | reflexivity].
  - intros Hrest. destruct (IH _ _ _ Hrest) as (tr2 & Hc2 & H2).
    exists ([EvTimerExpired tim] ++ trh ++ tr2). split.
    + rewrite Hc2, Hch. unfold st1.
      cbn [observe calls heap_fixup set_timer_heap set_m_state set_timers].
      rewrite <- !app_assoc. reflexivity.
    + apply Hone. exact H2.
Qed.

(** X9: in one pass of [dispatch_timers], which returns with enough fuel,
    the handler of a timer is invoked at most once, and not at all when
    the timer is not in [Dispatch] when the pass begins. *)
Theorem timer_fires_at_most_once_per_pass (E : Env) (fuel : nat) (st : EventLoop)
    (Hfuel : (num_dispatch st < fuel)%nat) :
  exists b st' tr,
    dispatch_timers E fuel st = Some (b, st')
    /\ calls st' = calls st ++ tr
    /\ forall x, (timer_fired x tr <= 1)%nat
                 /\ (m_state (timers st x) <> Dispatch -> timer_fired x tr = 0%nat).
Proof.
  destruct (dispatch_timers_returns E fuel st Hfuel) as (b & st' & Hr).
  destruct (dispatch_timers_fired E fuel st b st' Hr) as (tr & Hc & Hf).
  exists b, st', tr. split; [exact Hr |]. split; [exact Hc | exact Hf].
Qed.

Lemma timer_fires_at_most_once_example :
  (num_dispatch ex_two_due < 3)%nat
  /\ exists b st' tr,
       dispatch_timers ex_env 3 ex_two_due = Some (b, st')
       /\ calls st' = calls ex_two_due ++ tr
       /\ forall x, (timer_fired x tr <= 1)%nat
                    /\ (m_state (timers ex_two_due x) <> Dispatch ->
                        timer_fired x tr = 0%nat).
Proof.
  split; [vm_compute; lia |].
  apply (timer_fires_at_most_once_per_pass ex_env 3 ex_two_due).
  vm_compute. lia.
Defined.

(** ** Stopping the loop *)

Lemma dispatch_fd_events_stop E ready st :
  (fst (dispatch_fd_events E ready st) = false ->
   m_stop (snd (dispatch_fd_events E ready st)) = true)
  /\ (m_stop st = false -> fst (dispatch_fd_events E ready st) = true ->
      m_stop (snd (dispatch_fd_events E ready st)) = false).
Proof.
  revert st. induction ready as [| [w events] ready IH]; intros st; cbn [dispatch_fd_events].
  - cbn [fst snd]. split; [discriminate | auto].
  - destruct (hasFd _); [| apply IH].
    destruct (m_stop (run_handler E (fd_m_handler E w events)
                        (observe (EvFdHandler w events) st))) eqn:Hstop.
    + cbn [fst snd]. split; [intros _; exact Hstop | discriminate].
    + destruct (IH (run_handler E (fd_m_handler E w events)
                      (observe (EvFdHandler w events) st))) as [H1 H2].
      split; [exact H1 | intros _; apply H2; exact Hstop].
Qed.

Lemma dispatch_async_signals_loop_stop E fuel st b st' :
  dispatch_async_signals_loop E fuel st = Some (b, st') ->
  (b = false -> m_stop st' = true) /\ (m_stop st = false -> b = true -> m_stop st' = false).
Proof.
  revert st. induction fuel as [| fuel IH]; intros st; [discriminate |].
  cbn [dispatch_async_signals_loop].
  destruct (AsyncSignalList.next m_dispatch_async_list st) as [| | sig];
    [discriminate | intros [= <- <-]; split; [discriminate | auto] |].
  destruct (m_stop (run_handler E (signal_m_handler E sig) _)) eqn:Hstop.
  - intros [= <- <-]. split; [intros _; exact Hstop | discriminate].
  - intros Hr. destruct (IH _ Hr) as [H1 H2]. split; [exact H1 | intros _; apply H2; exact Hstop].
Qed.

Lemma dispatchEvents_stop E fuel ready st b st' :
  dispatchEvents E fuel ready st = Some (b, st') ->
  (b = false -> m_stop st' = true) /\ (m_stop st = false -> b = true -> m_stop st' = false).
Proof.
  unfold dispatchEvents.
  pose proof (dispatch_fd_events_stop E ready (observe EvDispatchEvents st)) as [Hf1 Hf2].
  destruct (dispatch_fd_events E ready (observe EvDispatchEvents st)) as [[|] st1];
    cbn [fst snd] in Hf1, Hf2.
  - unfold dispatch_async_signals. destruct (AsyncSignalList.isLonely _ _).
    + intros [= <- <-]. split; [discriminate |]. intros Hs _. apply Hf2; [exact Hs | reflexivity].
    + intros Hr. apply dispatch_async_signals_loop_stop in Hr. destruct Hr as [H1 H2].
      split; [exact H1 |]. intros Hs Hb. apply H2; [| exact Hb].
      cbn. apply Hf2; [exact Hs | reflexivity].
  - intros [= <- <-]. split; [intros _; apply Hf1; reflexivity | discriminate].
Qed.

Lemma waitForEvents_stop info raised st :
  m_stop (waitForEvents info raised st) = m_stop st.
Proof.
  unfold waitForEvents.
  change (m_stop st) with (m_stop (observe (EvWaitForEvents info) st)).
  generalize (observe (EvWaitForEvents info) st). clear.
  induction raised as [| sig raised IH]; intros st; cbn [fold_left]; [reflexivity |].
  rewrite IH. apply signal_timers.
Qed.

Lemma run_iteration_stop E fuel it st r :
  m_stop st = false -> run_iteration E fuel it st = Some r ->
  match r with
  | inl s => m_stop s = true
  | inr s => m_stop s = false
  end.
Proof.
  intros Hs. unfold run_iteration.
  pose proof (prepare_timers_for_dispatch_spec
                (m_event_time (set_event_time (it_now it) (observe (EvGetTime (it_now it)) st)))
                (set_event_time (it_now it) (observe (EvGetTime (it_now it)) st))) as Hp.
  cbv zeta in Hp. destruct Hp as (_ & _ & _ & _ & _ & _ & _ & _ & Hp).
  cbn [set_event_time observe m_stop] in Hp. rewrite Hs in Hp.
  revert Hp. generalize (prepare_timers_for_dispatch
                 (m_event_time (set_event_time (it_now it) (observe (EvGetTime (it_now it)) st)))
                 (set_event_time (it_now it) (observe (EvGetTime (it_now it)) st))).
  intros st1 Hs1.
  destruct (dispatch_timers E fuel st1) as [[[|] st2] |] eqn:Hdt; [| | discriminate].
  - destruct (dispatch_timers_history E fuel st1 _ _ Hdt)
      as (_ & _ & _ & _ & _ & _ & _ & Ht & _).
    pose proof (Ht Hs1 eq_refl) as Hs2.
    destruct (dispatchEvents E fuel (it_ready it) st2) as [[[|] st3] |] eqn:Hde;
      [| | discriminate].
    + destruct (dispatchEvents_stop E fuel _ st2 _ _ Hde) as [_ H3].
      pose proof (H3 Hs2 eq_refl) as Hs3.
      unfold prepare_timers_for_wait.
      destruct (prepare_timers_for_wait_loop fuel (time_max E) st3) as [[t st4] |] eqn:Hpw;
        [| discriminate].
      intros [= <-]. rewrite waitForEvents_stop. cbn [set_last_wait_time m_stop].
      destruct (prepare_timers_for_wait_loop_stops fuel (time_max E) st3 t st4 Hpw)
        as (_ & _ & _ & -> & _). exact Hs3.
    + intros [= <-]. apply (dispatchEvents_stop E fuel _ st2 _ _ Hde). reflexivity.
  - intros [= <-].
    destruct (dispatch_timers_history E fuel st1 _ _ Hdt)
      as (_ & _ & _ & _ & _ & _ & Hf & _).
    apply Hf. reflexivity.
Qed.

Lemma run_loop_stop E fuel its st :
  m_stop st = false ->
  match run_loop E fuel its st with
  | Returned s => m_stop s = true
  | Running s => m_stop s = false
  | OutOfFuel => True
  end.
Proof.
  revert st. induction its as [| it its IH]; intros st Hs; cbn [run_loop]; [exact Hs |].
  destruct (run_iteration E fuel it st) as [[s | s] |] eqn:Hit; [| | exact I].
  - apply (run_iteration_stop E fuel it st (inl s) Hs Hit).
  - apply IH. apply (run_iteration_stop E fuel it st (inr s) Hs Hit).
Qed.

Lemma do_action_m_stop E a st :
  m_stop (do_action E a st) = m_stop st || bool_decide (a = A_stop).
Proof.
  destruct a; cbn [do_action];
    try (rewrite bool_decide_eq_false_2 by discriminate; rewrite orb_false_r).
  - unfold stop. cbn. rewrite orb_true_r. reflexivity.
  - pose proof (unset_effect tim st) as H. cbv zeta in H. apply H.
  - pose proof (setAt_effect time tim st) as H. cbv zeta in H. apply H.
  - unfold setAfter.
    pose proof (setAt_effect (EventLoopTime_add (time_max E) (getEventTime st) duration) tim st)
      as H. cbv zeta in H. apply H.
  - unfold timer_delete. destruct (negb _); reflexivity.
  - apply signal_timers.
  - unfold signal_reset. destruct (negb _); reflexivity.
  - unfold signal_delete, signal_reset. destruct (negb _); reflexivity.
  - reflexivity.
  - unfold updateEvents. destruct (negb _); reflexivity.
  - unfold fd_reset. destruct (_ <=? _); reflexivity.
  - unfold fd_delete. destruct (_ <=? _); reflexivity.
Qed.

(** X10: stopping: no call of user code clears the stop flag, and only
    [stop] sets it; [run] returns only with the flag set, it is still
    going on only with the flag clear, and [run] on a loop that has
    returned returns at once, doing nothing. *)
Theorem run_returns_iff_stopped :
  forall E fuel its st,
    (forall a, m_stop (do_action E a st) = m_stop st || bool_decide (a = A_stop))
    /\ (forall h, m_stop st = true -> m_stop (run_handler E h st) = true)
    /\ match run E fuel its st with
       | Returned s =>
           m_stop s = true /\ forall fuel' its', run E fuel' its' s = Returned s
       | Running s => m_stop s = false
       | OutOfFuel => True
       end.
Proof.
  intros E fuel its st. split; [| split].
  - intros a. apply do_action_m_stop.
  - intros h. apply run_handler_m_stop_sticky.
  - unfold run. destruct (m_stop st) eqn:Hs.
    + split; [exact Hs |]. intros fuel' its'. rewrite Hs. reflexivity.
    + pose proof (run_loop_stop E fuel its st Hs) as H.
      destruct (run_loop E fuel its st) as [s | s |]; [| exact H | exact I].
      split; [exact H |]. intros fuel' its'. rewrite H. reflexivity.
Qed.

(** ** Fd watchers *)

Lemma watchers_sane_frame All st st' :
  fd_watchers st' = fd_watchers st -> watchers_sane All st -> watchers_sane All st'.
Proof. unfold watchers_sane. intros ->. auto. Qed.

Lemma fd_watchers_set_watcher w fd events st w' :
  fd_watchers (set_watcher w fd events st) w'
  = if decide (w = w') then {| m_watched_fd := fd; m_events := events |}
    else fd_watchers st w'.
Proof. reflexivity. Qed.

Lemma watchers_sane_do_action All E a st :
  watchers_sane All st -> action_asserts All a st = true ->
  watchers_sane All (do_action E a st).
Proof.
  intros Hsane Hpre.
  destruct a; cbn [do_action]; cbn [action_asserts] in Hpre.
  - exact Hsane.
  - revert Hsane. apply watchers_sane_frame.
    pose proof (unset_effect tim st) as H. cbv zeta in H.
    unfold unset. repeat match goal with |- context [if ?b then _ else _] => destruct b end;
      reflexivity.
  - revert Hsane. apply watchers_sane_frame.
    pose proof (setAt_effect time tim st) as H. cbv zeta in H. apply H.
  - revert Hsane. apply watchers_sane_frame. unfold setAfter.
    pose proof (setAt_effect (EventLoopTime_add (time_max E) (getEventTime st) duration) tim st)
      as H. cbv zeta in H. apply H.
  - revert Hsane. apply watchers_sane_frame. unfold timer_delete. destruct (negb _); reflexivity.
  - revert Hsane. apply watchers_sane_frame. unfold signal.
    destruct (AsyncSignalList.isRemoved _ _); [| reflexivity].
    cbv zeta. destruct (AsyncSignalList.isLonely _ _); reflexivity.
  - revert Hsane. apply watchers_sane_frame. unfold signal_reset. destruct (negb _); reflexivity.
  - revert Hsane. apply watchers_sane_frame. unfold signal_delete, signal_reset.
    destruct (negb _); reflexivity.
  - unfold initFd_asserts in Hpre. apply andb_true_iff in Hpre. destruct Hpre as [Hpre Hv].
    apply andb_true_iff in Hpre. destruct Hpre as [_ Hfd].
    intros w'. unfold initFd. rewrite fd_watchers_set_watcher.
    destruct (decide (w = w')) as [_ | _]; [| apply Hsane].
    intros _. unfold sanityCheck. cbn [m_watched_fd m_events]. rewrite Hfd, Hv. reflexivity.
  - unfold updateEvents_asserts in Hpre. apply andb_true_iff in Hpre. destruct Hpre as [Hfd Hv].
    unfold updateEvents. destruct (negb _); [| exact Hsane].
    intros w'. rewrite fd_watchers_set_watcher.
    destruct (decide (w = w')) as [_ | _]; [| apply Hsane].
    intros _. unfold sanityCheck. cbn [m_watched_fd m_events]. rewrite Hfd, Hv. reflexivity.
  - unfold fd_reset. destruct (_ <=? _); [| exact Hsane].
    intros w'. rewrite fd_watchers_set_watcher.
    destruct (decide (w = w')) as [_ | _]; [discriminate | apply Hsane].
  - revert Hsane. apply watchers_sane_frame. unfold fd_delete. destruct (_ <=? _); reflexivity.
Qed.

Lemma watchers_sane_run_handler All E h st :
  watchers_sane All st -> handler_asserts All E h st ->
  watchers_sane All (run_handler E h st).
Proof.
  revert st. induction h as [| a k IH | k IH]; intros st Hsane Hpre;
    cbn [run_handler]; cbn [handler_asserts] in Hpre.
  - exact Hsane.
  - destruct Hpre as [Ha Hk]. apply IH; [| exact Hk].
    apply watchers_sane_do_action; [| exact Ha].
    revert Hsane. apply watchers_sane_frame. reflexivity.
  - apply (IH st st Hsane Hpre).
Qed.

(** X11: the assertions of [sanityCheck] hold for every registered fd
    watcher of a new loop, where none is registered, and they go on
    holding after a call of user code, and after a whole handler, in which
    the assertions of [initFd] and [updateEvents] hold. *)
Theorem sanityCheck_preserved (All : EventLoopFdEvents) (E : Env) (a : Action)
    (h : Handler) (st : EventLoop)
    (Hsane : watchers_sane All st)
    (Ha : action_asserts All a st = true)
    (Hh : handler_asserts All E h st) :
  (forall time_max now, watchers_sane All (EventLoop_new time_max now))
  /\ watchers_sane All (do_action E a st)
  /\ watchers_sane All (run_handler E h st).
Proof.
  split; [| split].
  - intros tm now w. discriminate.
  - apply watchers_sane_do_action; assumption.
  - apply watchers_sane_run_handler; assumption.
Qed.

Lemma sanityCheck_preserved_example :
  watchers_sane 15 (initFd 0 3 1 ex_loop)
  /\ action_asserts 15 (A_updateEvents 0 3) (initFd 0 3 1 ex_loop) = true
  /\ handler_asserts 15 ex_env
       (H_call (A_fd_reset 0) (H_call (A_initFd 0 4 2) H_return)) (initFd 0 3 1 ex_loop)
  /\ ((forall time_max now, watchers_sane 15 (EventLoop_new time_max now))
      /\ watchers_sane 15 (do_action ex_env (A_updateEvents 0 3) (initFd 0 3 1 ex_loop))
      /\ watchers_sane 15
           (run_handler ex_env (H_call (A_fd_reset 0) (H_call (A_initFd 0 4 2) H_return))
              (initFd 0 3 1 ex_loop))).
Proof.
  assert (H : watchers_sane 15 (initFd 0 3 1 ex_loop)).
  { intros w. unfold initFd. rewrite fd_watchers_set_watcher.
    destruct (decide (0%nat = w)); [reflexivity | discriminate]. }
  assert (Ha : action_asserts 15 (A_updateEvents 0 3) (initFd 0 3 1 ex_loop) = true).
  { vm_compute. reflexivity. }
  assert (Hh : handler_asserts 15 ex_env
                 (H_call (A_fd_reset 0) (H_call (A_initFd 0 4 2) H_return))
                 (initFd 0 3 1 ex_loop)).
  { vm_compute. auto. }
  split; [exact H |]. split; [exact Ha |]. split; [exact Hh |].
  apply (sanityCheck_preserved 15 ex_env (A_updateEvents 0 3)
           (H_call (A_fd_reset 0) (H_call (A_initFd 0 4 2) H_return))
           (initFd 0 3 1 ex_loop) H Ha Hh).
Defined.

(** X12: registering and resetting an fd watcher: after [initFd] with a
    file descriptor that is not negative the watcher has this descriptor
    and these events; [reset] after it leaves the watcher as its
    constructor does, and the provider has been told of the registration
    and then of the reset, once each; a second [reset], and the destructor,
    then do nothing. *)
Theorem initFd_fd_reset_round_trip (w : nat) (fd : Z) (events : EventLoopFdEvents)
    (st : EventLoop) (Hfd : 0 <= fd) :
  let st1 := initFd w fd events st in
  let st2 := fd_reset w st1 in
  hasFd (fd_watchers st1 w) = true
  /\ getFd (fd_watchers st1 w) = fd
  /\ getEvents (fd_watchers st1 w) = events
  /\ fd_watchers st2 w = EventLoopFdWatcher_new
  /\ hasFd (fd_watchers st2 w) = false
  /\ (forall w', w' <> w -> fd_watchers st2 w' = fd_watchers st w')
  /\ calls st2 = calls st ++ [EvInitFdImpl fd events; EvResetImpl fd]
  /\ fd_reset w st2 = st2
  /\ fd_delete w st2 = st2.
Proof.
  cbv zeta.
  assert (Hb : (0 <=? fd) = true) by (apply Z.leb_le; exact Hfd).
  assert (H1 : fd_watchers (initFd w fd events st) w
               = {| m_watched_fd := fd; m_events := events |}).
  { unfold initFd. rewrite fd_watchers_set_watcher.
    destruct (decide (w = w)); [reflexivity | congruence]. }
  assert (H2 : fd_reset w (initFd w fd events st)
               = set_watcher w (-1) 0 (observe (EvResetImpl fd) (initFd w fd events st))).
  { unfold fd_reset. rewrite H1. cbn [m_watched_fd]. rewrite Hb. reflexivity. }
  assert (H3 : fd_watchers (fd_reset w (initFd w fd events st)) w = EventLoopFdWatcher_new).
  { rewrite H2, fd_watchers_set_watcher.
    destruct (decide (w = w)); [reflexivity | congruence]. }
  unfold hasFd, getFd, getEvents. rewrite H1, H3. cbn [m_watched_fd m_events].
  split; [exact Hb |]. split; [reflexivity |]. split; [reflexivity |].
  split; [reflexivity |]. split; [reflexivity |].
  split.
  { intros w' Hne. rewrite H2, fd_watchers_set_watcher.
    destruct (decide (w = w')); [congruence |].
    cbn [observe fd_watchers]. unfold initFd. rewrite fd_watchers_set_watcher.
    destruct (decide (w = w')); [congruence | reflexivity]. }
  split.
  { rewrite H2. unfold initFd.
    cbn [set_watcher set_fd_watchers observe calls]. rewrite <- app_assoc. reflexivity. }
  split.
  - unfold fd_reset at 1. rewrite H3. reflexivity.
  - unfold fd_delete. rewrite H3. reflexivity.
Qed.

Lemma initFd_fd_reset_example :
  0 <= 3
  /\ (let st1 := initFd 0 3 1 ex_loop in
      let st2 := fd_reset 0 st1 in
      hasFd (fd_watchers st1 0%nat) = true
      /\ getFd (fd_watchers st1 0%nat) = 3
      /\ getEvents (fd_watchers st1 0%nat) = 1
      /\ fd_watchers st2 0%nat = EventLoopFdWatcher_new
      /\ hasFd (fd_watchers st2 0%nat) = false
      /\ (forall w', w' <> 0%nat -> fd_watchers st2 w' = fd_watchers ex_loop w')
      /\ calls st2 = calls ex_loop ++ [EvInitFdImpl 3 1; EvResetImpl 3]
      /\ fd_reset 0 st2 = st2
      /\ fd_delete 0 st2 = st2).
Proof.
  split; [lia |].
  apply (initFd_fd_reset_round_trip 0 3 1 ex_loop). lia.
Defined.

(** X13: [updateEvents] tells the provider only of a change: with the
    events that the watcher has it does nothing; with other events it
    stores them, keeps the descriptor and calls the provider once; calling
    it again with the same events does nothing. *)
Theorem updateEvents_only_on_change :
  forall w events st,
    (events = getEvents (fd_watchers st w) -> updateEvents w events st = st)
    /\ (events <> getEvents (fd_watchers st w) ->
        calls (updateEvents w events st)
        = calls st ++ [EvUpdateEventsImpl (getFd (fd_watchers st w)) events])
    /\ getEvents (fd_watchers (updateEvents w events st) w) = events
    /\ getFd (fd_watchers (updateEvents w events st) w) = getFd (fd_watchers st w)
    /\ (forall w', w' <> w -> fd_watchers (updateEvents w events st) w' = fd_watchers st w')
    /\ updateEvents w events (updateEvents w events st) = updateEvents w events st.
Proof.
  intros w events st. unfold getEvents, getFd.
  assert (Hev : m_events (fd_watchers (updateEvents w events st) w) = events).
  { unfold updateEvents. destruct (Z.eqb_spec events (m_events (fd_watchers st w))) as [He | He];
      cbn [negb]; [symmetry; exact He |].
    rewrite fd_watchers_set_watcher. destruct (decide (w = w)); [reflexivity | congruence]. }
  split; [| split; [| split; [exact Hev | split; [| split]]]].
  - intros ->. unfold updateEvents. rewrite Z.eqb_refl. reflexivity.
  - intros Hne. unfold updateEvents.
    destruct (Z.eqb_spec events (m_events (fd_watchers st w))); [contradiction |].
    reflexivity.
  - unfold updateEvents. destruct (negb _); [| reflexivity].
    rewrite fd_watchers_set_watcher. destruct (decide (w = w)); [reflexivity | congruence].
  - intros w' Hne. unfold updateEvents. destruct (negb _); [| reflexivity].
    rewrite fd_watchers_set_watcher. destruct (decide (w = w')); [congruence | reflexivity].
  - unfold updateEvents at 1. rewrite Hev, Z.eqb_refl. reflexivity.
Qed.

(** ** The order of the signal handlers *)

Lemma sublist_app_drop {A : Type} (l1 l2 : list A) x : sublist (l1 ++ l2) (l1 ++ x :: l2).
Proof. apply sublist_app; [reflexivity | apply sublist_cons; reflexivity]. Qed.

Lemma signal_reset_sublist st pending dispatch sig :
  lists_wf st pending dispatch ->
  exists pending' dispatch',
    lists_wf (signal_reset sig st) pending' dispatch'
    /\ sublist pending' pending /\ sublist dispatch' dispatch.
Proof.
  intros Hwf. unfold signal_reset.
  destruct (AsyncSignalList.isRemoved (asig sig) st) eqn:Hrem; cbn [negb].
  - exists pending, dispatch. split; [exact Hwf |]. split; reflexivity.
  - assert (Hin : In sig (pending ++ dispatch)).
    { destruct (in_dec Nat.eq_dec sig (pending ++ dispatch)) as [Hin | Hnin]; [exact Hin |].
      apply (lists_wf_isRemoved st pending dispatch sig Hwf) in Hnin. congruence. }
    apply in_app_or in Hin. destruct Hin as [Hin | Hin];
      apply in_split in Hin; destruct Hin as (l1 & l2 & ->).
    + exists (l1 ++ l2), dispatch.
      split; [apply lists_wf_unlink_pending; exact Hwf |].
      split; [apply sublist_app_drop | reflexivity].
    + exists pending, (l1 ++ l2).
      split; [apply lists_wf_unlink_dispatch; exact Hwf |].
      split; [reflexivity | apply sublist_app_drop].
Qed.

Lemma do_action_sublist E a st pending dispatch :
  lists_wf st pending dispatch ->
  exists pending' dispatch',
    lists_wf (do_action E a (observe (EvCall a) st)) pending' dispatch'
    /\ sublist dispatch' dispatch
    /\ (is_reset_call (EvCall a) = false -> dispatch' = dispatch).
Proof.
  intros Hwf.
  assert (Hwf0 : lists_wf (observe (EvCall a) st) pending dispatch).
  { revert Hwf. apply lists_wf_frame; reflexivity. }
  assert (Hsame : link_next (do_action E a (observe (EvCall a) st))
                    = link_next (observe (EvCall a) st)
                  /\ link_prev (do_action E a (observe (EvCall a) st))
                    = link_prev (observe (EvCall a) st) ->
                  exists pending' dispatch',
                    lists_wf (do_action E a (observe (EvCall a) st)) pending' dispatch'
                    /\ sublist dispatch' dispatch
                    /\ (is_reset_call (EvCall a) = false -> dispatch' = dispatch)).
  { intros [Hn Hp]. exists pending, dispatch.
    split; [revert Hwf; apply lists_wf_frame; assumption |].
    split; [reflexivity | auto]. }
  destruct a;
    try (apply Hsame; apply do_action_links; intros; discriminate).
  - cbn [do_action]. destruct (in_dec Nat.eq_dec sig (pending ++ dispatch)) as [Hin | Hnin].
    + rewrite (signal_queued _ pending dispatch sig Hwf0 Hin).
      exists pending, dispatch. split; [exact Hwf0 |]. split; [reflexivity | auto].
    + destruct (signal_removed _ pending dispatch sig Hwf0 Hnin) as [Hwf' _].
      exists (pending ++ [sig]), dispatch. split; [exact Hwf' |].
      split; [reflexivity | auto].
  - cbn [do_action].
    destruct (signal_reset_sublist _ pending dispatch sig Hwf0)
      as (pending' & dispatch' & Hwf' & _ & Hsub).
    exists pending', dispatch'. split; [exact Hwf' |]. split; [exact Hsub | discriminate].
  - cbn [do_action]. unfold signal_delete.
    destruct (signal_reset_sublist _ pending dispatch sig Hwf0)
      as (pending' & dispatch' & Hwf' & _ & Hsub).
    exists pending', dispatch'. split; [exact Hwf' |]. split; [exact Hsub | discriminate].
Qed.

Lemma do_action_calls_no_reset E a st :
  exists tr, calls (do_action E a st) = calls st ++ tr
             /\ Forall (fun e => is_user_event e = true) tr
             /\ existsb is_reset_call tr = false.
Proof.
  assert (Hnil : exists tr : list Event, calls st = calls st ++ tr
             /\ Forall (fun e => is_user_event e = true) tr
             /\ existsb is_reset_call tr = false).
  { exists []. rewrite app_nil_r. repeat split; constructor. }
  assert (Hone : forall e, is_user_event e = true -> is_reset_call e = false ->
             exists tr : list Event, calls st ++ [e] = calls st ++ tr
             /\ Forall (fun e => is_user_event e = true) tr
             /\ existsb is_reset_call tr = false).
  { intros e He Ha. exists [e]. repeat split; [repeat constructor; exact He |].
    cbn [existsb]. rewrite Ha. reflexivity. }
  destruct a; cbn [do_action].
  - exact Hnil.
  - pose proof (unset_effect tim st) as H. cbv zeta in H.
    destruct H as (_ & _ & _ & -> & _). exact Hnil.
  - pose proof (setAt_effect time tim st) as H. cbv zeta in H.
    destruct H as (_ & _ & _ & _ & _ & _ & -> & _). exact Hnil.
  - unfold setAfter.
    pose proof (setAt_effect (EventLoopTime_add (time_max E) (getEventTime st) duration) tim st)
      as H. cbv zeta in H.
    destruct H as (_ & _ & _ & _ & _ & _ & -> & _). exact Hnil.
  - unfold timer_delete. destruct (negb _); exact Hnil.
  - unfold signal. destruct (AsyncSignalList.isRemoved _ _); [| exact Hnil].
    cbv zeta. destruct (AsyncSignalList.isLonely _ _); [| exact Hnil].
    apply (Hone EvWakeup); reflexivity.
  - unfold signal_reset. destruct (negb _); exact Hnil.
  - unfold signal_delete, signal_reset. destruct (negb _); exact Hnil.
  - apply (Hone (EvInitFdImpl fd events)); reflexivity.
  - unfold updateEvents. destruct (negb _); [| exact Hnil].
    apply (Hone (EvUpdateEventsImpl _ _)); reflexivity.
  - unfold fd_reset. destruct (_ <=? _); [| exact Hnil].
    apply (Hone (EvResetImpl _)); reflexivity.
  - unfold fd_delete. destruct (_ <=? _); [| exact Hnil].
    apply (Hone (EvResetImpl _)); reflexivity.
Qed.

Lemma run_handler_sublist E h st pending dispatch :
  lists_wf st pending dispatch ->
  exists pending' dispatch' tr,
    lists_wf (run_handler E h st) pending' dispatch'
    /\ calls (run_handler E h st) = calls st ++ tr
    /\ Forall (fun e => is_user_event e = true) tr
    /\ sublist dispatch' dispatch
    /\ (existsb is_reset_call tr = false -> dispatch' = dispatch).
Proof.
  revert st pending dispatch.
  induction h as [| a k IH | k IH]; intros st pending dispatch Hwf; cbn [run_handler].
  - exists pending, dispatch, []. rewrite app_nil_r.
    split; [exact Hwf |]. split; [reflexivity |]. split; [constructor |].
    split; [reflexivity | auto].
  - destruct (do_action_sublist E a st pending dispatch Hwf)
      as (pending1 & dispatch1 & Hwf1 & Hsub1 & Hkeep1).
    destruct (do_action_calls_no_reset E a (observe (EvCall a) st)) as (tra & Hca & Hua & Hra).
    destruct (IH _ pending1 dispatch1 Hwf1)
      as (pending2 & dispatch2 & trk & Hwf2 & Hck & Huk & Hsub2 & Hkeep2).
    exists pending2, dispatch2, (EvCall a :: tra ++ trk).
    split; [exact Hwf2 |].
    split; [rewrite Hck, Hca; cbn [observe calls]; rewrite <- !app_assoc; reflexivity |].
    split; [constructor; [reflexivity |]; apply Forall_app; split; assumption |].
    split; [etransitivity; eassumption |].
    cbn [existsb]. rewrite existsb_app, Hra. cbn [orb]. intros Hno.
    apply orb_false_iff in Hno. destruct Hno as [Hno1 Hno2].
    rewrite (Hkeep2 Hno2). apply Hkeep1. exact Hno1.
  - apply (IH st st pending dispatch Hwf).
Qed.

Lemma fired_signals_app l1 l2 :
  fired_signals (l1 ++ l2) = fired_signals l1 ++ fired_signals l2.
Proof.
  induction l1 as [| e l1 IH]; [reflexivity |].
  cbn [app fired_signals]. destruct e; rewrite IH; reflexivity.
Qed.

Lemma fired_signals_user tr :
  Forall (fun e => is_user_event e = true) tr -> fired_signals tr = [].
Proof.
  induction 1 as [| e tr He _ IH]; [reflexivity |].
  destruct e; cbn [fired_signals]; try exact IH; discriminate He.
Qed.

Lemma existsb_is_reset_call_handler x tr :
  existsb is_reset_call (EvSignalHandler x :: tr) = existsb is_reset_call tr.
Proof. reflexivity. Qed.

Lemma dispatch_async_signals_loop_order E fuel st pending dispatch b st' :
  lists_wf st pending dispatch ->
  dispatch_async_signals_loop E fuel st = Some (b, st') ->
  exists tr,
    calls st' = calls st ++ tr
    /\ sublist (fired_signals tr) dispatch
    /\ (b = true -> existsb is_reset_call tr = false -> fired_signals tr = dispatch).
Proof.
  revert st pending dispatch.
  induction fuel as [| fuel IH]; intros st pending dispatch Hwf; [discriminate |].
  cbn [dispatch_async_signals_loop].
  pose proof Hwf as (_ & Hrd & Hnd & _).
  unfold AsyncSignalList.next. rewrite (ring_next_head _ _ _ Hrd).
  destruct dispatch as [| x dispatch0]; cbn [map hd].
  { intros [= <- <-]. exists []. rewrite app_nil_r.
    split; [reflexivity |]. split; [constructor | reflexivity]. }
  cbv zeta.
  pose proof (lists_wf_unlink_dispatch st pending [] x dispatch0 Hwf) as Hwf1.
  cbn [app] in Hwf1.
  set (st1 := AsyncSignalList.markRemoved (asig x) (AsyncSignalList.remove (asig x) st)) in *.
  assert (Hwf1' : lists_wf (observe (EvSignalHandler x) st1) pending dispatch0).
  { revert Hwf1. apply lists_wf_frame; reflexivity. }
  destruct (run_handler_sublist E (signal_m_handler E x) _ pending dispatch0 Hwf1')
    as (pending2 & dispatch2 & trh & Hwf2 & Hch & Huh & Hsub2 & Hkeep2).
  set (st2 := run_handler E (signal_m_handler E x) (observe (EvSignalHandler x) st1)) in *.
  assert (Hcalls : calls st2 = calls st ++ EvSignalHandler x :: trh).
  { rewrite Hch. unfold st1. cbn [observe calls]. rewrite <- app_assoc. reflexivity. }
  destruct (m_stop st2) eqn:Hstop.
  - intros [= <- <-]. exists (EvSignalHandler x :: trh).
    split; [exact Hcalls |]. cbn [fired_signals]. rewrite (fired_signals_user trh Huh).
    split; [| discriminate].
    apply sublist_skip. apply sublist_nil_l.
  - intros Hrun. destruct (IH st2 pending2 dispatch2 Hwf2 Hrun) as (trr & Hcr & Hsubr & Hall).
    exists (EvSignalHandler x :: trh ++ trr).
    split; [rewrite Hcr, Hcalls, <- app_assoc; reflexivity |].
    cbn [fired_signals]. rewrite fired_signals_app, (fired_signals_user trh Huh). cbn [app].
    split.
    + apply sublist_skip. etransitivity; eassumption.
    + intros Hb. rewrite existsb_is_reset_call_handler, existsb_app. intros Hno.
      apply orb_false_iff in Hno. destruct Hno as [Hno1 Hno2].
      rewrite (Hall Hb Hno2), (Hkeep2 Hno1). reflexivity.
Qed.

(** X14: the handlers of one batch of signals are invoked in the order
    in which the signals are on the pending list, which is the order in
    which they were raised; the handlers invoked are a subsequence of the
    batch, and the whole batch when [dispatch_async_signals] returns true
    and no handler resets or destroys a signal. *)
Theorem async_signals_fire_in_order (E : Env) (fuel : nat) (st : EventLoop)
    (pending : list nat) (Hwf : lists_wf st pending [])
    (Hfuel : (length pending < fuel)%nat) :
  exists b st' tr,
    dispatch_async_signals E fuel st = Some (b, st')
    /\ calls st' = calls st ++ tr
    /\ sublist (fired_signals tr) pending
    /\ (b = true -> existsb is_reset_call tr = false -> fired_signals tr = pending).
Proof.
  destruct (dispatch_async_signals_spec E fuel st pending Hwf Hfuel)
    as (b & st' & _ & _ & _ & Hrun & _).
  exists b, st'. revert Hrun. unfold dispatch_async_signals.
  pose proof (lists_wf_isLonely_pending st pending [] Hwf) as Hl.
  destruct (AsyncSignalList.isLonely m_pending_async_list st).
  - intros [= <- <-]. rewrite (proj1 Hl eq_refl). exists []. rewrite app_nil_r.
    split; [reflexivity |]. split; [reflexivity |]. split; [constructor | reflexivity].
  - cbv zeta. intros Hrun.
    assert (Hne : pending <> []).
    { intros ->. destruct Hl as [_ Hl]. discriminate (Hl eq_refl). }
    destruct (dispatch_async_signals_loop_order E fuel _ [] pending b st'
                (lists_wf_take_batch st pending Hwf Hne) Hrun) as (tr & Hc & Hsub & Hall).
    exists tr. split; [exact Hrun |]. split; [exact Hc |]. split; [exact Hsub | exact Hall].
Qed.

Lemma async_signals_fire_in_order_example :
  lists_wf ex_reset_batch [2%nat; 3%nat] []
  /\ (length [2%nat; 3%nat] < 4)%nat
  /\ exists b st' tr,
       dispatch_async_signals ex_env 4 ex_reset_batch = Some (b, st')
       /\ calls st' = calls ex_reset_batch ++ tr
       /\ sublist (fired_signals tr) [2%nat; 3%nat]
       /\ (b = true -> existsb is_reset_call tr = false ->
           fired_signals tr = [2%nat; 3%nat]).
Proof.
  assert (Hwf : lists_wf ex_reset_batch [2%nat; 3%nat] []).
  { unfold lists_wf, ring. cbn [map rev app path].
    split; [split; vm_compute; auto |]. split; [split; vm_compute; auto |].
    split; [repeat constructor; cbn [In]; lia |].
    intros sig Hs.
    destruct sig as [| [| [| [| sig]]]]; try reflexivity;
      exfalso; apply Hs; cbn [In]; auto. }
  split; [exact Hwf |]. split; [cbn [length]; lia |].
  apply (async_signals_fire_in_order ex_env 4 ex_reset_batch [2%nat; 3%nat]).
  - exact Hwf.
  - cbn [length]. lia.
Defined.

(** ** Waking the loop *)

Lemma raise_signals_wakeups raised st pending dispatch :
  lists_wf st pending dispatch ->
  exists added,
    lists_wf (fold_left (fun st sig => signal sig st) raised st) (pending ++ added) dispatch
    /\ calls (fold_left (fun st sig => signal sig st) raised st)
       = calls st ++ (if pending is [] then (if added is [] then [] else [EvWakeup]) else [])
    /\ (forall sig, In sig added <-> In sig raised /\ ~ In sig (pending ++ dispatch)).
Proof.
  revert st pending. induction raised as [| sig raised IH]; intros st pending Hwf;
    cbn [fold_left].
  - exists []. rewrite app_nil_r. split; [exact Hwf |].
    split; [destruct pending; rewrite app_nil_r; reflexivity |].
    intros s. cbn [In]. tauto.
  - destruct (in_dec Nat.eq_dec sig (pending ++ dispatch)) as [Hin | Hnin].
    + rewrite (signal_queued st pending dispatch sig Hwf Hin).
      destruct (IH st pending Hwf) as (added & Hwf' & Hc & Hchar).
      exists added. split; [exact Hwf' |]. split; [exact Hc |].
      intros s. rewrite Hchar. cbn [In]. split; [tauto |].
      intros [[<- | Hs] Hn]; [contradiction | tauto].
    + destruct (signal_removed st pending dispatch sig Hwf Hnin) as [Hwf1 Hc1].
      destruct (IH (signal sig st) (pending ++ [sig]) Hwf1) as (added & Hwf' & Hc & Hchar).
      exists (sig :: added).
      split; [rewrite <- app_assoc in Hwf'; exact Hwf' |].
      split.
      * rewrite Hc, Hc1. destruct pending; cbn [app]; rewrite <- app_assoc; reflexivity.
      * intros s. cbn [In]. rewrite Hchar. rewrite <- app_assoc. cbn [app].
        split.
        -- intros [<- | [Hs Hn]]; [tauto |]. split; [tauto |].
           intros Hin. apply Hn. apply in_app_or in Hin. apply in_or_app.
           destruct Hin as [Hin | Hin]; [left; exact Hin | right; right; exact Hin].
        -- intros [[<- | Hs] Hn]; [tauto |].
           destruct (Nat.eq_dec sig s) as [<- | Hne]; [tauto |]. right.
           split; [exact Hs |]. intros Hin. apply Hn.
           apply in_app_or in Hin. apply in_or_app.
           destruct Hin as [Hin | [Heq | Hin]]; [left; exact Hin | congruence | right; exact Hin].
Qed.

(** X15: however many signals are raised in a row, and however often, the
    provider is woken at most once: exactly once when the pending list was
    empty and one of the signals was not queued already, and not at all
    otherwise; the signals that were not queued are appended to the
    pending list. *)
Theorem signals_wake_once (raised : list nat) (st : EventLoop)
    (pending dispatch : list nat) (Hwf : lists_wf st pending dispatch) :
  let st' := fold_left (fun st sig => signal sig st) raised st in
  exists added tr,
    lists_wf st' (pending ++ added) dispatch
    /\ calls st' = calls st ++ tr
    /\ (wakeups tr <= 1)%nat
    /\ (wakeups tr = 1%nat <-> pending = [] /\ added <> [])
    /\ (forall sig, In sig added <-> In sig raised /\ ~ In sig (pending ++ dispatch)).
Proof.
  cbv zeta.
  destruct (raise_signals_wakeups raised st pending dispatch Hwf) as (added & Hwf' & Hc & Hchar).
  exists added, (if pending is [] then (if added is [] then [] else [EvWakeup]) else []).
  split; [exact Hwf' |]. split; [exact Hc |].
  assert (Hw : wakeups [EvWakeup] = 1%nat) by (vm_compute; reflexivity).
  split; [destruct pending, added; rewrite ?Hw; cbn; lia |].
  split; [| exact Hchar].
  destruct pending, added; rewrite ?Hw; cbn; split; try discriminate; try tauto;
    try (intros [H1 H2]; congruence); auto.
Qed.

Lemma signals_wake_once_example :
  lists_wf ex_loop [] []
  /\ (let st' := fold_left (fun st sig => signal sig st) [1; 2; 1; 1; 2]%nat ex_loop in
      exists added tr,
        lists_wf st' ([] ++ added) []
        /\ calls st' = calls ex_loop ++ tr
        /\ (wakeups tr <= 1)%nat
        /\ (wakeups tr = 1%nat <-> @nil nat = [] /\ added <> [])
        /\ (forall sig, In sig added <-> In sig [1; 2; 1; 1; 2]%nat /\ ~ In sig ([] ++ []))).
Proof.
  assert (Hwf : lists_wf ex_loop [] []).
  { unfold lists_wf, ring. cbn [map rev app path]. repeat split; try constructor. }
  split; [exact Hwf |].
  apply (signals_wake_once [1; 2; 1; 1; 2]%nat ex_loop [] [] Hwf).
Defined.

(** ** Resetting a signal *)

Lemma signal_reset_removed sig st :
  AsyncSignalList.isRemoved (asig sig) (signal_reset sig st) = true.
Proof.
  unfold signal_reset.
  destruct (AsyncSignalList.isRemoved (asig sig) st) eqn:Hrem; cbn [negb]; [exact Hrem |].
  unfold AsyncSignalList.isRemoved, AsyncSignalList.next.
  rewrite (proj1 (markRemoved_links _ _)).
  apply bool_decide_eq_true_2. unfold insert, fn_insert.
  destruct (decide (asig sig = asig sig)); [reflexivity | congruence].
Qed.

(** X16: [reset] takes a signal off the list that it is on and marks it
    removed, so that [reset] again, and the destructor, do nothing; the
    other signals stay where they are, in their order; and raising a
    signal just before resetting it makes no difference to the lists. *)
Theorem signal_reset_cancels (st : EventLoop) (pending dispatch : list nat) (sig : nat)
    (Hwf : lists_wf st pending dispatch) :
  AsyncSignalList.isRemoved (asig sig) (signal_reset sig st) = true
  /\ signal_reset sig (signal_reset sig st) = signal_reset sig st
  /\ signal_delete sig (signal_reset sig st) = signal_reset sig st
  /\ exists pending' dispatch',
       lists_wf (signal_reset sig st) pending' dispatch'
       /\ lists_wf (signal_reset sig (signal sig st)) pending' dispatch'
       /\ sublist pending' pending /\ sublist dispatch' dispatch
       /\ ~ In sig (pending' ++ dispatch')
       /\ (forall s, s <> sig -> In s (pending ++ dispatch) -> In s (pending' ++ dispatch')).
Proof.
  assert (Hidem : signal_reset sig (signal_reset sig st) = signal_reset sig st).
  { unfold signal_reset at 1. rewrite signal_reset_removed. reflexivity. }
  split; [apply signal_reset_removed |].
  split; [exact Hidem |]. split; [exact Hidem |].
  destruct (in_dec Nat.eq_dec sig (pending ++ dispatch)) as [Hin | Hnin].
  - destruct (signal_reset_sublist st pending dispatch sig Hwf)
      as (pending' & dispatch' & Hwf' & Hsp & Hsd).
    exists pending', dispatch'.
    split; [exact Hwf' |].
    split; [rewrite (signal_queued st pending dispatch sig Hwf Hin); exact Hwf' |].
    split; [exact Hsp |]. split; [exact Hsd |].
    split.
    + apply (lists_wf_isRemoved _ _ _ sig Hwf'). apply signal_reset_removed.
    + destruct (signal_reset_lists st pending dispatch sig Hwf)
        as (pending2 & dispatch2 & Hwf2 & _ & _ & _ & Hkd & Hkp).
      intros s Hne Hs.
      assert (Hin2 : In s (pending2 ++ dispatch2)).
      { apply in_app_or in Hs. apply in_or_app.
        destruct Hs as [Hs | Hs]; [left; apply Hkp | right; apply Hkd]; assumption. }
      destruct (in_dec Nat.eq_dec s (pending' ++ dispatch')) as [Hyes | Hno]; [exact Hyes |].
      apply (lists_wf_isRemoved _ _ _ s Hwf') in Hno.
      apply (lists_wf_isRemoved _ _ _ s Hwf2) in Hno. contradiction.
  - exists pending, dispatch.
    assert (Hsame : signal_reset sig st = st).
    { unfold signal_reset.
      rewrite (proj2 (lists_wf_isRemoved st pending dispatch sig Hwf) Hnin). reflexivity. }
    split; [rewrite Hsame; exact Hwf |].
    split.
    { destruct (signal_removed st pending dispatch sig Hwf Hnin) as [Hwf1 _].
      pose proof (lists_wf_unlink_pending (signal sig st) pending sig [] dispatch Hwf1) as Hwf2.
      rewrite app_nil_r in Hwf2.
      unfold signal_reset.
      assert (Hrem : AsyncSignalList.isRemoved (asig sig) (signal sig st) = false).
      { destruct (AsyncSignalList.isRemoved (asig sig) (signal sig st)) eqn:Hr; [| reflexivity].
        apply (lists_wf_isRemoved _ _ _ sig Hwf1) in Hr. exfalso. apply Hr.
        rewrite <- app_assoc. apply in_or_app. right. left. reflexivity. }
      rewrite Hrem. exact Hwf2. }
    split; [reflexivity |]. split; [reflexivity |]. split; [exact Hnin | auto].
Qed.

Lemma signal_reset_cancels_example :
  lists_wf ex_reset_batch [2%nat; 3%nat] []
  /\ (AsyncSignalList.isRemoved (asig 3) (signal_reset 3 ex_reset_batch) = true
      /\ signal_reset 3 (signal_reset 3 ex_reset_batch) = signal_reset 3 ex_reset_batch
      /\ signal_delete 3 (signal_reset 3 ex_reset_batch) = signal_reset 3 ex_reset_batch
      /\ exists pending' dispatch',
           lists_wf (signal_reset 3 ex_reset_batch) pending' dispatch'
           /\ lists_wf (signal_reset 3 (signal 3 ex_reset_batch)) pending' dispatch'
           /\ sublist pending' [2%nat; 3%nat] /\ sublist dispatch' []
           /\ ~ In 3%nat (pending' ++ dispatch')
           /\ (forall s, s <> 3%nat -> In s ([2%nat; 3%nat] ++ []) ->
                         In s (pending' ++ dispatch'))).
Proof.
  assert (Hwf : lists_wf ex_reset_batch [2%nat; 3%nat] []).
  { unfold lists_wf, ring. cbn [map rev app path].
    split; [split; vm_compute; auto |]. split; [split; vm_compute; auto |].
    split; [repeat constructor; cbn [In]; lia |].
    intros sig Hs.
    destruct sig as [| [| [| [| sig]]]]; try reflexivity;
      exfalso; apply Hs; cbn [In]; auto. }
  split; [exact Hwf |].
  apply (signal_reset_cancels ex_reset_batch [2%nat; 3%nat] [] 3 Hwf).
Defined.

(** ** Destroying the loop *)

Lemma timer_delete_all l st :
  heap_inv st -> incl (m_timer_heap st) l ->
  m_timer_heap (fold_left (fun s tim => timer_delete tim s) l st) = []
  /\ link_next (fold_left (fun s tim => timer_delete tim s) l st) = link_next st
  /\ link_prev (fold_left (fun s tim => timer_delete tim s) l st) = link_prev st.
Proof.
  revert st. induction l as [| tim l IH]; intros st Hinv Hincl; cbn [fold_left].
  - split; [| split; reflexivity].
    destruct (m_timer_heap st) as [| x h]; [reflexivity |].
    destruct (Hincl x (or_introl eq_refl)).
  - assert (Hlinks : link_next (timer_delete tim st) = link_next st
                     /\ link_prev (timer_delete tim st) = link_prev st).
    { unfold timer_delete. destruct (negb _); split; reflexivity. }
    destruct (IH (timer_delete tim st)) as (Hh & Hn & Hp).
    + apply heap_inv_timer_delete. exact Hinv.
    + intros x Hx. unfold timer_delete in Hx.
      destruct (bool_decide_reflect (m_state (timers st tim) = Idle)) as [Hs | Hs];
        cbn [negb] in Hx.
      * destruct (Hincl x Hx) as [<- | Hin]; [| exact Hin].
        destruct Hinv as [_ Hi]. contradiction (Hi tim Hx).
      * cbn [heap_remove set_timer_heap m_timer_heap] in Hx. apply In_remove in Hx.
        destruct Hx as [Hx Hne]. destruct (Hincl x Hx) as [<- | Hin]; [congruence | exact Hin].
    + split; [exact Hh |]. destruct Hlinks as [<- <-]. split; assumption.
Qed.

Lemma signal_delete_all l st pending dispatch :
  lists_wf st pending dispatch -> incl (pending ++ dispatch) l ->
  lists_wf (fold_left (fun s sig => signal_delete sig s) l st) [] []
  /\ m_timer_heap (fold_left (fun s sig => signal_delete sig s) l st) = m_timer_heap st.
Proof.
  revert st pending dispatch.
  induction l as [| sig l IH]; intros st pending dispatch Hwf Hincl; cbn [fold_left].
  - assert (Hnil : pending ++ dispatch = []).
    { destruct (pending ++ dispatch) as [| x r]; [reflexivity |].
      destruct (Hincl x (or_introl eq_refl)). }
    apply app_eq_nil in Hnil. destruct Hnil as [-> ->]. split; [exact Hwf | reflexivity].
  - unfold signal_delete at 2 4.
    destruct (signal_reset_lists st pending dispatch sig Hwf)
      as (pending' & dispatch' & Hwf' & Hip & Hid & Hnin & _).
    destruct (IH (signal_reset sig st) pending' dispatch' Hwf') as [H1 H2].
    + intros x Hx.
      assert (Hx' : In x (pending ++ dispatch)).
      { apply in_app_or in Hx. apply in_or_app.
        destruct Hx as [Hx | Hx]; [left; apply Hip | right; apply Hid]; exact Hx. }
      destruct (Hincl x Hx') as [<- | Hin]; [contradiction | exact Hin].
    + split; [exact H1 |]. rewrite H2. unfold signal_reset. destruct (negb _); reflexivity.
Qed.

(** X17: the assertions of the destructor of the loop (the heap is empty
    and both lists are lonely) hold for a new loop; they hold exactly when
    no timer is in the heap and no signal is on a list; and they hold once
    every timer of the heap and every signal of the two lists has been
    destroyed. *)
Theorem EventLoop_delete_after_cleanup (st : EventLoop) (pending dispatch : list nat)
    (Hinv : heap_inv st) (Hwf : lists_wf st pending dispatch) :
  (forall time_max now, EventLoop_delete_asserts (EventLoop_new time_max now) = true)
  /\ (EventLoop_delete_asserts st = true
      <-> m_timer_heap st = [] /\ pending = [] /\ dispatch = [])
  /\ EventLoop_delete_asserts
       (fold_left (fun s sig => signal_delete sig s) (pending ++ dispatch)
          (fold_left (fun s tim => timer_delete tim s) (m_timer_heap st) st)) = true.
Proof.
  assert (Hchar : forall s p d, lists_wf s p d ->
            (EventLoop_delete_asserts s = true <-> m_timer_heap s = [] /\ p = [] /\ d = [])).
  { intros s p d Hs. unfold EventLoop_delete_asserts.
    rewrite !andb_true_iff.
    rewrite (lists_wf_isLonely_pending s p d Hs), (lists_wf_isLonely_dispatch s p d Hs).
    destruct (m_timer_heap s); cbn [LinkedHeap.isEmpty];
      (split; [intros [[H1 H2] H3] | intros (H1 & H2 & H3)]);
      try discriminate; auto. }
  split; [intros tm now; reflexivity |].
  split; [apply Hchar; exact Hwf |].
  destruct (timer_delete_all (m_timer_heap st) st Hinv (incl_refl _)) as (Hh & Hn & Hp).
  assert (Hwf1 : lists_wf (fold_left (fun s tim => timer_delete tim s) (m_timer_heap st) st)
                   pending dispatch).
  { revert Hwf. apply lists_wf_frame; assumption. }
  destruct (signal_delete_all (pending ++ dispatch) _ pending dispatch Hwf1 (incl_refl _))
    as [Hwf2 Hh2].
  apply (Hchar _ [] [] Hwf2). rewrite Hh2, Hh. auto.
Qed.

Lemma EventLoop_delete_after_cleanup_example :
  heap_inv ex_busy /\ lists_wf ex_busy [2%nat; 3%nat] []
  /\ ((forall time_max now, EventLoop_delete_asserts (EventLoop_new time_max now) = true)
      /\ (EventLoop_delete_asserts ex_busy = true
          <-> m_timer_heap ex_busy = [] /\ [2%nat; 3%nat] = [] /\ @nil nat = [])
      /\ EventLoop_delete_asserts
           (fold_left (fun s sig => signal_delete sig s) ([2%nat; 3%nat] ++ [])
              (fold_left (fun s tim => timer_delete tim s) (m_timer_heap ex_busy) ex_busy))
         = true).
Proof.
  assert (Hinv : heap_inv ex_busy).
  { split.
    - vm_compute. repeat constructor; cbn [In]; lia.
    - intros tim Hin. vm_compute in Hin.
      destruct Hin as [<- | [<- | [<- | []]]]; vm_compute; discriminate. }
  assert (Hwf : lists_wf ex_busy [2%nat; 3%nat] []).
  { unfold lists_wf, ring. cbn [map rev app path].
    split; [split; vm_compute; auto |]. split; [split; vm_compute; auto |].
    split; [repeat constructor; cbn [In]; lia |].
    intros sig Hs.
    destruct sig as [| [| [| [| sig]]]]; try reflexivity;
      exfalso; apply Hs; cbn [In]; auto. }
  split; [exact Hinv |]. split; [exact Hwf |].
  apply (EventLoop_delete_after_cleanup ex_busy [2%nat; 3%nat] [] Hinv Hwf).
Defined.

(** ** Preparing the wait twice *)

(** X18: [prepare_timers_for_wait] right after [prepare_timers_for_wait]
    changes nothing: it gives the same time, and reports it as
    unchanged. *)
Theorem prepare_timers_for_wait_twice (time_max : EventLoopTime) (fuel fuel2 : nat)
    (st : EventLoop) (Hfuel : (num_temp st < fuel)%nat) :
  exists info st',
    prepare_timers_for_wait time_max fuel st = Some (info, st')
    /\ prepare_timers_for_wait time_max (S fuel2) st'
       = Some ({| wait_time := wait_time info; wait_time_changed := false |}, st').
Proof.
  destruct (prepare_timers_for_wait_loop_returns fuel time_max st Hfuel) as ([t st0] & Hr).
  unfold prepare_timers_for_wait at 1. rewrite Hr.
  eexists. eexists. split; [reflexivity |].
  cbn [wait_time].
  destruct (prepare_timers_for_wait_loop_stops fuel time_max st t st0 Hr) as (Hroot & _).
  unfold prepare_timers_for_wait. cbn [prepare_timers_for_wait_loop].
  cbn [set_last_wait_time m_timer_heap timers].
  destruct (LinkedHeap.first (m_timer_heap st0)) as [root |].
  - destruct Hroot as (Ht & Hu & Hs).
    rewrite (bool_decide_eq_false_2 _ Hu), (bool_decide_eq_false_2 _ Hs).
    cbn [m_last_wait_time]. rewrite <- Ht, Z.eqb_refl. reflexivity.
  - cbn [m_last_wait_time]. rewrite Hroot, Z.eqb_refl. reflexivity.
Qed.

Lemma prepare_timers_for_wait_twice_example :
  (num_temp ex_before_wait < 3)%nat
  /\ exists info st',
       prepare_timers_for_wait ex_time_max 3 ex_before_wait = Some (info, st')
       /\ prepare_timers_for_wait ex_time_max (S 0) st'
          = Some ({| wait_time := wait_time info; wait_time_changed := false |}, st').
Proof.
  split; [vm_compute; lia |].
  apply (prepare_timers_for_wait_twice ex_time_max 3 0 ex_before_wait).
  vm_compute. lia.
Defined.

(** ** The order of the heap *)

Lemma key_le_trans a b c : key_le a b -> key_le b c -> key_le a c.
Proof. unfold key_le. lia. Qed.

Lemma compareEntries_lt_key a b :
  compareEntries a b < 0 -> key_le (entry_key a) (entry_key b).
Proof.
  rewrite compareEntries_compare. unfold key_le, entry_key. cbn [fst snd].
  destruct (Z.compare_spec (state_order (m_state a)) (state_order (m_state b))) as [Ho | Ho | Ho];
    [| intros _; left; exact Ho | lia].
  destruct (Z.compare_spec (m_time a) (m_time b)); try lia.
  intros _. right. split; [exact Ho |].
  destruct (m_state a), (m_state b); vm_compute in Ho; try discriminate Ho;
    unfold is_Temp; decide_state_tests; cbn [orb]; lia.
Qed.

Lemma compareEntries_ge_key a b :
  ~ compareEntries a b < 0 -> key_le (entry_key b) (entry_key a).
Proof.
  rewrite compareEntries_compare. unfold key_le, entry_key. cbn [fst snd].
  destruct (Z.compare_spec (state_order (m_state a)) (state_order (m_state b))) as [Ho | Ho | Ho];
    [| lia | intros _; left; exact Ho].
  destruct (Z.compare_spec (m_time a) (m_time b)); try lia;
    intros _; right; (split; [symmetry; exact Ho |]);
    destruct (m_state a), (m_state b); vm_compute in Ho; try discriminate Ho;
    unfold is_Temp; decide_state_tests; cbn [orb]; lia.
Qed.

Lemma heap_sorted_ext mem mem' h :
  (forall x, In x h -> entry_key (mem' x) = entry_key (mem x)) ->
  heap_sorted mem h -> heap_sorted mem' h.
Proof.
  induction h as [| x h IH]; intros Hext; cbn [heap_sorted]; [auto |].
  intros [Hx Hh]. split.
  - intros y Hy. rewrite (Hext x (or_introl eq_refl)), (Hext y (or_intror Hy)). apply Hx, Hy.
  - apply IH; [| exact Hh]. intros z Hz. apply Hext. right. exact Hz.
Qed.

Lemma heap_sorted_remove mem tim h :
  heap_sorted mem h -> heap_sorted mem (LinkedHeap.remove tim h).
Proof.
  induction h as [| x h IH]; cbn [heap_sorted]; [auto |].
  intros [Hx Hh]. unfold LinkedHeap.remove. cbn [List.filter].
  destruct (negb (Nat.eqb x tim)); [| apply IH; exact Hh].
  cbn [heap_sorted]. split; [| apply IH; exact Hh].
  intros y Hy. apply Hx. apply filter_In in Hy. apply Hy.
Qed.

Lemma heap_sorted_insert mem tim h :
  heap_sorted mem h -> heap_sorted mem (LinkedHeap.insert mem tim h).
Proof.
  induction h as [| x h IH]; cbn [heap_sorted LinkedHeap.insert].
  - intros _. split; [intros y [] | exact I].
  - intros [Hx Hh].
    destruct (Z.ltb_spec (compareEntries (mem tim) (mem x)) 0) as [Hlt | Hge].
    + cbn [heap_sorted]. split; [| split; assumption].
      intros y [<- | Hy]; [apply compareEntries_lt_key; exact Hlt |].
      apply (key_le_trans _ (entry_key (mem x))); [apply compareEntries_lt_key; exact Hlt |].
      apply Hx, Hy.
    + cbn [heap_sorted]. split; [| apply IH; exact Hh].
      intros y Hy. apply In_insert in Hy. destruct Hy as [-> | Hy]; [| apply Hx, Hy].
      apply compareEntries_ge_key. lia.
Qed.

Lemma heap_sorted_insert_changed mem mem' tim h :
  (forall x, x <> tim -> mem' x = mem x) -> ~ In tim h ->
  heap_sorted mem h -> heap_sorted mem' (LinkedHeap.insert mem' tim h).
Proof.
  intros Ho Hn Hs. apply heap_sorted_insert.
  revert Hs. apply heap_sorted_ext. intros x Hx. rewrite Ho; [reflexivity |].
  intros ->. contradiction.
Qed.

Lemma heap_sorted_fixup_changed mem mem' tim h :
  (forall x, x <> tim -> mem' x = mem x) ->
  heap_sorted mem h -> heap_sorted mem' (LinkedHeap.fixup mem' tim h).
Proof.
  intros Ho Hs. unfold LinkedHeap.fixup.
  apply (heap_sorted_insert_changed mem); [exact Ho | apply heap_remove_not_elem |].
  apply heap_sorted_remove. exact Hs.
Qed.

Lemma heap_sorted_remove_changed mem mem' tim h :
  (forall x, x <> tim -> mem' x = mem x) ->
  heap_sorted mem h -> heap_sorted mem' (LinkedHeap.remove tim h).
Proof.
  intros Ho Hs. apply (heap_sorted_ext mem).
  - intros x Hx. apply In_remove in Hx. rewrite Ho; [reflexivity | apply Hx].
  - apply heap_sorted_remove. exact Hs.
Qed.

Lemma heap_ok_frame st st' :
  timers st' = timers st -> m_timer_heap st' = m_timer_heap st ->
  heap_ok st -> heap_ok st'.
Proof.
  intros Ht Hh [Hinv Hs]. split; [apply (heap_inv_frame st); assumption |].
  rewrite Ht, Hh. exact Hs.
Qed.

Lemma heap_ok_setAt time tim st : heap_ok st -> heap_ok (setAt time tim st).
Proof.
  intros [Hinv Hs]. split; [apply heap_inv_setAt; exact Hinv |].
  pose proof (setAt_effect time tim st) as H. cbv zeta in H.
  destruct H as (_ & Hst & Ho & _).
  destruct (m_state (timers st tim)) eqn:Hstate; destruct Hst as [Hs' ->].
  - apply (heap_sorted_insert_changed (timers st)); [exact Ho | | exact Hs].
    intros Hin. destruct Hinv as [_ Hi]. apply (Hi tim Hin), Hstate.
  - apply (heap_sorted_fixup_changed (timers st)); [exact Ho | exact Hs].
  - revert Hs. apply heap_sorted_ext. intros x _.
    destruct (Nat.eq_dec x tim) as [-> | Hne]; [| rewrite (Ho x Hne); reflexivity].
    unfold entry_key. rewrite Hs', Hstate. reflexivity.
  - revert Hs. apply heap_sorted_ext. intros x _.
    destruct (Nat.eq_dec x tim) as [-> | Hne]; [| rewrite (Ho x Hne); reflexivity].
    unfold entry_key. rewrite Hs', Hstate. reflexivity.
  - apply (heap_sorted_fixup_changed (timers st)); [exact Ho | exact Hs].
Qed.

Lemma heap_ok_unset tim st : heap_ok st -> heap_ok (unset tim st).
Proof.
  intros [Hinv Hs]. split; [apply heap_inv_unset; exact Hinv |].
  pose proof (unset_effect tim st) as H. cbv zeta in H.
  destruct H as (Ht & Hst & Ho & _).
  destruct (m_state (timers st tim)) eqn:Hstate; destruct Hst as [Hs' ->].
  - revert Hs. apply heap_sorted_ext. intros x _.
    destruct (Nat.eq_dec x tim) as [-> | Hne]; [| rewrite (Ho x Hne); reflexivity].
    unfold entry_key. rewrite Hs', Hstate, Ht. reflexivity.
  - apply (heap_sorted_remove_changed (timers st)); [exact Ho | exact Hs].
  - revert Hs. apply heap_sorted_ext. intros x _.
    destruct (Nat.eq_dec x tim) as [-> | Hne]; [| rewrite (Ho x Hne); reflexivity].
    unfold entry_key. rewrite Hs', Hstate. reflexivity.
  - revert Hs. apply heap_sorted_ext. intros x _.
    destruct (Nat.eq_dec x tim) as [-> | Hne]; [| rewrite (Ho x Hne); reflexivity].
    unfold entry_key. rewrite Hs', Hstate. reflexivity.
  - apply (heap_sorted_remove_changed (timers st)); [exact Ho | exact Hs].
Qed.

Lemma heap_ok_timer_delete tim st : heap_ok st -> heap_ok (timer_delete tim st).
Proof.
  intros [Hinv Hs]. split; [apply heap_inv_timer_delete; exact Hinv |].
  unfold timer_delete. destruct (negb _); [| exact Hs].
  cbn [heap_remove set_timer_heap timers m_timer_heap].
  apply heap_sorted_remove. exact Hs.
Qed.

Lemma heap_ok_do_action E a st : heap_ok st -> heap_ok (do_action E a st).
Proof.
  intros Hok.
  destruct a;
    try (apply (heap_ok_frame st);
         [apply do_action_timers_same; discriminate
         | apply do_action_timers_same; discriminate | exact Hok]);
    cbn [do_action].
  - apply heap_ok_unset. exact Hok.
  - apply heap_ok_setAt. exact Hok.
  - apply heap_ok_setAt. exact Hok.
  - apply heap_ok_timer_delete. exact Hok.
Qed.

Lemma heap_ok_run_handler E h st : heap_ok st -> heap_ok (run_handler E h st).
Proof.
  revert st. induction h as [| a k IH | k IH]; intros st Hok; cbn [run_handler].
  - exact Hok.
  - apply IH. apply heap_ok_do_action.
    apply (heap_ok_frame st); [reflexivity | reflexivity | exact Hok].
  - apply (IH st st). exact Hok.
Qed.

Lemma heap_ok_change_fixup tim s st :
  s <> Idle -> heap_ok st -> heap_ok (heap_fixup tim (set_m_state tim s st)).
Proof.
  intros Hs [Hinv Hsort]. split.
  - apply heap_inv_heap_fixup.
    + rewrite timers_set_m_state. destruct (decide (tim = tim)); [exact Hs | congruence].
    + apply heap_inv_set_m_state; assumption.
  - cbn [heap_fixup set_timer_heap timers m_timer_heap].
    apply (heap_sorted_fixup_changed (timers st)); [| exact Hsort].
    intros x Hne. rewrite timers_set_m_state.
    destruct (decide (tim = x)); [congruence | reflexivity].
Qed.

Lemma heap_ok_dispatch_timers E fuel st b st' :
  heap_ok st -> dispatch_timers E fuel st = Some (b, st') -> heap_ok st'.
Proof.
  revert st. induction fuel as [| fuel IH]; intros st Hok; [discriminate |].
  cbn [dispatch_timers].
  destruct (LinkedHeap.first (m_timer_heap st)) as [tim |]; [| intros [= <- <-]; exact Hok].
  destruct (negb _); [intros [= <- <-]; exact Hok |].
  assert (Hok' : heap_ok (run_handler E (handleTimerExpired E tim)
                    (observe (EvTimerExpired tim)
                       (heap_fixup tim (set_m_state tim TempUnset st))))).
  { apply heap_ok_run_handler.
    apply (heap_ok_frame (heap_fixup tim (set_m_state tim TempUnset st)));
      [reflexivity | reflexivity |].
    apply heap_ok_change_fixup; [discriminate | exact Hok]. }
  destruct (m_stop _); [intros [= <- <-]; exact Hok' | apply IH; exact Hok'].
Qed.

Lemma state_order_cases s :
  state_order s = match s with
                  | Idle => 0
                  | Dispatch => 1
                  | TempUnset | TempSet => 2
                  | Pending => 3
                  end.
Proof. destruct s; reflexivity. Qed.

Lemma key_le_class a b :
  key_le (entry_key a) (entry_key b) -> state_order (m_state a) <= state_order (m_state b).
Proof. unfold key_le, entry_key. cbn [fst snd]. lia. Qed.

Lemma num_dispatch_0 st :
  num_dispatch st = 0%nat <->
  forall x, In x (m_timer_heap st) -> m_state (timers st x) <> Dispatch.
Proof.
  unfold num_dispatch, count_heap, is_Dispatch.
  induction (m_timer_heap st) as [| y h IH]; cbn [List.filter In].
  - split; [intros _ x [] | reflexivity].
  - destruct (bool_decide_reflect (m_state (timers st y) = Dispatch)) as [Hy | Hy]; cbn [length].
    + split; [discriminate |]. intros H. contradiction (H y (or_introl eq_refl)).
    + rewrite IH. split.
      * intros H x [<- | Hx]; [exact Hy | apply H, Hx].
      * intros H x Hx. apply H. right. exact Hx.
Qed.

(** When the root is not in [Dispatch], no timer of the heap is. *)
Lemma no_Dispatch_of_root st :
  heap_ok st ->
  (forall r, LinkedHeap.first (m_timer_heap st) = Some r -> m_state (timers st r) <> Dispatch) ->
  forall x, In x (m_timer_heap st) -> m_state (timers st x) <> Dispatch.
Proof.
  intros [[_ Hi] Hs] Hroot x Hx.
  destruct (m_timer_heap st) as [| r h]; [destruct Hx |].
  pose proof (Hroot r eq_refl) as Hr. pose proof (Hi r (or_introl eq_refl)) as Hr'.
  destruct Hx as [<- | Hx]; [exact Hr |].
  destruct Hs as [Hs _]. apply Hs in Hx. apply key_le_class in Hx.
  rewrite !state_order_cases in Hx.
  intros Hd. rewrite Hd in Hx. destruct (m_state (timers st r)); try congruence; lia.
Qed.

Lemma existsb_fires_timer_fired x tr :
  existsb (fires x) tr = true <-> (1 <= timer_fired x tr)%nat.
Proof.
  unfold timer_fired. induction tr as [| e tr IH]; cbn [existsb List.filter length].
  - split; [discriminate | lia].
  - destruct (fires x e); cbn [orb length]; [split; [lia | reflexivity] | exact IH].
Qed.

Lemma do_action_untouched E a st x :
  touches x (EvCall a) = false ->
  timers (do_action E a st) x = timers st x
  /\ (In x (m_timer_heap (do_action E a st)) <-> In x (m_timer_heap st)).
Proof.
  intros Ht.
  assert (Hset : forall time tim, tim <> x ->
            timers (setAt time tim st) x = timers st x
            /\ (In x (m_timer_heap (setAt time tim st)) <-> In x (m_timer_heap st))).
  { intros time tim Hne.
    pose proof (setAt_effect time tim st) as H. cbv zeta in H.
    destruct H as (_ & Hs & Ho & _).
    split; [apply Ho; congruence |].
    destruct (m_state (timers st tim)); destruct Hs as [_ ->];
      rewrite ?In_insert, ?In_fixup; intuition congruence. }
  destruct a;
    try (match goal with
         | |- context [do_action E ?a st] =>
             assert (Hsame : timers (do_action E a st) = timers st
                             /\ m_timer_heap (do_action E a st) = m_timer_heap st)
               by (apply do_action_timers_same; discriminate)
         end;
         destruct Hsame as [-> ->]; tauto);
    cbn [do_action]; cbn [touches] in Ht; apply Nat.eqb_neq in Ht.
  - pose proof (unset_effect tim st) as H. cbv zeta in H.
    destruct H as (_ & Hs & Ho & _).
    split; [apply Ho; congruence |].
    destruct (m_state (timers st tim)); destruct Hs as [_ ->];
      rewrite ?In_remove; intuition congruence.
  - apply Hset. exact Ht.
  - apply Hset. exact Ht.
  - unfold timer_delete. destruct (negb _); [| tauto].
    cbn [heap_remove set_timer_heap timers m_timer_heap].
    rewrite In_remove. intuition congruence.
Qed.

Lemma do_action_Dispatch_in_heap E a st x :
  In x (m_timer_heap (do_action E a st)) ->
  m_state (timers (do_action E a st) x) = Dispatch ->
  In x (m_timer_heap st) /\ timers (do_action E a st) x = timers st x.
Proof.
  destruct (touches x (EvCall a)) eqn:Ht.
  - destruct a; try discriminate Ht; cbn [touches] in Ht; apply Nat.eqb_eq in Ht; subst x;
      cbn [do_action].
    + intros _ Hd. destruct (unset_state tim st) as [Hs | Hs]; congruence.
    + intros _ Hd. exfalso. pose proof (setAt_effect time tim st) as H. cbv zeta in H.
      destruct H as (_ & Hs & _).
      destruct (m_state (timers st tim)); destruct Hs as [Hs _]; congruence.
    + intros _ Hd. exfalso. unfold setAfter in Hd.
      pose proof (setAt_effect (EventLoopTime_add (time_max E) (getEventTime st) duration) tim st)
        as H. cbv zeta in H. destruct H as (_ & Hs & _).
      destruct (m_state (timers st tim)); destruct Hs as [Hs _]; congruence.
    + unfold timer_delete.
      destruct (bool_decide_reflect (m_state (timers st tim) = Idle)) as [Hs | Hs]; cbn [negb].
      * intros _ Hd. congruence.
      * intros Hin. exfalso. revert Hin. apply heap_remove_not_elem.
  - destruct (do_action_untouched E a st x Ht) as [-> ->]. auto.
Qed.

Lemma do_action_calls_own E a st :
  exists tr, calls (do_action E a st) = calls st ++ tr
             /\ Forall (fun e => is_user_event e = true) tr
             /\ forall x, existsb (touches x) tr = false.
Proof.
  assert (Hnil : exists tr : list Event, calls st = calls st ++ tr
             /\ Forall (fun e => is_user_event e = true) tr
             /\ forall x, existsb (touches x) tr = false).
  { exists []. rewrite app_nil_r. repeat split; constructor. }
  assert (Hone : forall e, is_user_event e = true -> (forall x, touches x e = false) ->
             exists tr : list Event, calls st ++ [e] = calls st ++ tr
             /\ Forall (fun e => is_user_event e = true) tr
             /\ forall x, existsb (touches x) tr = false).
  { intros e He Ha. exists [e]. repeat split; [repeat constructor; exact He |].
    intros x. cbn [existsb]. rewrite Ha. reflexivity. }
  destruct a; cbn [do_action].
  - exact Hnil.
  - pose proof (unset_effect tim st) as H. cbv zeta in H.
    destruct H as (_ & _ & _ & -> & _). exact Hnil.
  - pose proof (setAt_effect time tim st) as H. cbv zeta in H.
    destruct H as (_ & _ & _ & _ & _ & _ & -> & _). exact Hnil.
  - unfold setAfter.
    pose proof (setAt_effect (EventLoopTime_add (time_max E) (getEventTime st) duration) tim st)
      as H. cbv zeta in H.
    destruct H as (_ & _ & _ & _ & _ & _ & -> & _). exact Hnil.
  - unfold timer_delete. destruct (negb _); exact Hnil.
  - unfold signal. destruct (AsyncSignalList.isRemoved _ _); [| exact Hnil].
    cbv zeta. destruct (AsyncSignalList.isLonely _ _); [| exact Hnil].
    apply (Hone EvWakeup); reflexivity.
  - unfold signal_reset. destruct (negb _); exact Hnil.
  - unfold signal_delete, signal_reset. destruct (negb _); exact Hnil.
  - apply (Hone (EvInitFdImpl fd events)); reflexivity.
  - unfold updateEvents. destruct (negb _); [| exact Hnil].
    apply (Hone (EvUpdateEventsImpl _ _)); reflexivity.
  - unfold fd_reset. destruct (_ <=? _); [| exact Hnil].
    apply (Hone (EvResetImpl _)); reflexivity.
  - unfold fd_delete. destruct (_ <=? _); [| exact Hnil].
    apply (Hone (EvResetImpl _)); reflexivity.
Qed.

Lemma run_handler_untouched E h st :
  exists tr,
    calls (run_handler E h st) = calls st ++ tr
    /\ Forall (fun e => is_user_event e = true) tr
    /\ (forall x, existsb (touches x) tr = false ->
          timers (run_handler E h st) x = timers st x
          /\ (In x (m_timer_heap (run_handler E h st)) <-> In x (m_timer_heap st)))
    /\ (forall x, In x (m_timer_heap (run_handler E h st)) ->
          m_state (timers (run_handler E h st) x) = Dispatch ->
          In x (m_timer_heap st) /\ timers (run_handler E h st) x = timers st x).
Proof.
  revert st. induction h as [| a k IH | k IH]; intros st; cbn [run_handler].
  - exists []. rewrite app_nil_r. repeat split; auto; tauto.
  - destruct (IH (do_action E a (observe (EvCall a) st))) as (trk & Hck & Huk & Hun & Hd).
    destruct (do_action_calls_own E a (observe (EvCall a) st)) as (tra & Hca & Hua & Hta).
    exists (EvCall a :: tra ++ trk).
    split; [rewrite Hck, Hca; cbn [observe calls]; rewrite <- !app_assoc; reflexivity |].
    split; [constructor; [reflexivity |]; apply Forall_app; split; assumption |].
    split.
    + intros x. cbn [existsb]. rewrite existsb_app, Hta. cbn [orb]. intros Hno.
      apply orb_false_iff in Hno. destruct Hno as [Hno1 Hno2].
      destruct (Hun x Hno2) as [-> ->].
      apply (do_action_untouched E a (observe (EvCall a) st) x Hno1).
    + intros x Hin Hx. destruct (Hd x Hin Hx) as [Hin1 Hx1].
      rewrite Hx1 in Hx.
      destruct (do_action_Dispatch_in_heap E a (observe (EvCall a) st) x Hin1 Hx) as [Hin0 Hx0].
      split; [exact Hin0 |]. rewrite Hx1. exact Hx0.
  - apply (IH st st).
Qed.

Lemma dispatch_timers_complete E fuel st b st' :
  heap_ok st -> dispatch_timers E fuel st = Some (b, st') ->
  exists tr,
    calls st' = calls st ++ tr
    /\ (b = true -> forall x, In x (m_timer_heap st) -> m_state (timers st x) = Dispatch ->
          existsb (fires x) tr = true \/ existsb (touches x) tr = true)
    /\ (forall x, existsb (fires x) tr = true ->
          In x (m_timer_heap st) /\ m_state (timers st x) = Dispatch)
    /\ (b = true -> forall x, In x (m_timer_heap st') -> m_state (timers st' x) <> Dispatch).
Proof.
  revert st b st'. induction fuel as [| fuel IH]; intros st b st' Hok; [discriminate |].
  assert (Hbase : (forall r, LinkedHeap.first (m_timer_heap st) = Some r ->
                             m_state (timers st r) <> Dispatch) ->
            exists tr : list Event,
              calls st = calls st ++ tr
              /\ (true = true -> forall x, In x (m_timer_heap st) ->
                    m_state (timers st x) = Dispatch ->
                    existsb (fires x) tr = true \/ existsb (touches x) tr = true)
              /\ (forall x, existsb (fires x) tr = true ->
                    In x (m_timer_heap st) /\ m_state (timers st x) = Dispatch)
              /\ (true = true -> forall x, In x (m_timer_heap st) ->
                    m_state (timers st x) <> Dispatch)).
  { intros Hroot. pose proof (no_Dispatch_of_root st Hok Hroot) as Hno.
    exists []. rewrite app_nil_r. split; [reflexivity |].
    split; [intros _ x Hx Hd; contradiction (Hno x Hx Hd) |].
    split; [intros x; discriminate | intros _; exact Hno]. }
  cbn [dispatch_timers].
  destruct (LinkedHeap.first (m_timer_heap st)) as [tim |] eqn:Hfirst;
    [| intros [= <- <-]; apply Hbase; intros r; discriminate].
  destruct (bool_decide_reflect (m_state (timers st tim) = Dispatch)) as [Hd | Hd];
    cbn [negb]; [| intros [= <- <-]; apply Hbase; intros r [= <-]; exact Hd].
  set (st1 := observe (EvTimerExpired tim) (heap_fixup tim (set_m_state tim TempUnset st))).
  assert (Hok1 : heap_ok st1).
  { apply (heap_ok_frame (heap_fixup tim (set_m_state tim TempUnset st)));
      [reflexivity | reflexivity |].
    apply heap_ok_change_fixup; [discriminate | exact Hok]. }
  assert (Htim : In tim (m_timer_heap st)) by (apply first_In; exact Hfirst).
  assert (Hheap1 : forall x, In x (m_timer_heap st1) <-> In x (m_timer_heap st)).
  { intros x. unfold st1. cbn [observe heap_fixup set_timer_heap m_timer_heap set_m_state
                               set_timers].
    rewrite In_fixup. split; [intros [-> | Hx]; assumption | auto]. }
  assert (Htimers1 : forall x, x <> tim -> timers st1 x = timers st x).
  { intros x Hne. unfold st1. cbn [observe heap_fixup set_timer_heap timers].
    rewrite timers_set_m_state. destruct (decide (tim = x)); [congruence | reflexivity]. }
  assert (Htim1 : m_state (timers st1 tim) = TempUnset).
  { unfold st1. cbn [observe heap_fixup set_timer_heap timers].
    rewrite timers_set_m_state. destruct (decide (tim = tim)); [reflexivity | congruence]. }
  destruct (run_handler_untouched E (handleTimerExpired E tim) st1)
    as (trh & Hch & Huh & Hun & Hdh).
  pose proof (heap_ok_run_handler E (handleTimerExpired E tim) st1 Hok1) as Hok2.
  assert (Hcalls : calls (run_handler E (handleTimerExpired E tim) st1)
                   = calls st ++ EvTimerExpired tim :: trh).
  { rewrite Hch. unfold st1.
    cbn [observe calls heap_fixup set_timer_heap set_m_state set_timers].
    rewrite <- app_assoc. reflexivity. }
  assert (Hback : forall x, In x (m_timer_heap (run_handler E (handleTimerExpired E tim) st1)) ->
            m_state (timers (run_handler E (handleTimerExpired E tim) st1) x) = Dispatch ->
            In x (m_timer_heap st) /\ m_state (timers st x) = Dispatch).
  { intros x Hin Hx. destruct (Hdh x Hin Hx) as [Hin1 Hx1].
    rewrite Hx1 in Hx.
    assert (Hne : x <> tim) by (intros ->; congruence).
    rewrite (Htimers1 x Hne) in Hx. split; [apply Hheap1; exact Hin1 | exact Hx]. }
  fold st1.
  destruct (m_stop (run_handler E (handleTimerExpired E tim) st1)) eqn:Hstop.
  - intros [= <- <-]. exists (EvTimerExpired tim :: trh).
    split; [exact Hcalls |]. split; [discriminate |]. split; [| discriminate].
    intros x. cbn [existsb fires]. rewrite (user_events_not_fired x trh Huh), orb_false_r.
    intros Hx. apply Nat.eqb_eq in Hx. subst x. split; assumption.
  - intros Hrun. destruct (IH _ _ _ Hok2 Hrun) as (tr2 & Hc2 & Hall & Honly & Hnone).
    exists (EvTimerExpired tim :: trh ++ tr2).
    split; [rewrite Hc2, Hcalls, <- app_assoc; reflexivity |].
    split; [| split; [| exact Hnone]].
    + intros Hb x Hx Hdx. cbn [existsb fires touches]. rewrite !existsb_app.
      destruct (Nat.eqb_spec tim x) as [-> | Hne]; [left; reflexivity |].
      cbn [orb].
      destruct (existsb (touches x) trh) eqn:Htouch; [right; reflexivity |].
      destruct (Hun x Htouch) as [Ht2 Hh2].
      destruct (Hall Hb x) as [Hf | Ht].
      * apply Hh2, Hheap1, Hx.
      * rewrite Ht2, (Htimers1 x); [exact Hdx | congruence].
      * left. rewrite Hf. apply orb_true_r.
      * right. exact Ht.
    + intros x. cbn [existsb fires]. rewrite existsb_app, (user_events_not_fired x trh Huh).
      cbn [orb]. intros Hx. apply orb_true_iff in Hx. destruct Hx as [Hx | Hx].
      * apply Nat.eqb_eq in Hx. subst x. split; assumption.
      * destruct (Honly x Hx) as [Hin Hdx]. apply Hback; assumption.
Qed.

Lemma heap_ok_prepare_timers_for_dispatch now st :
  heap_ready st -> heap_ok (prepare_timers_for_dispatch now st).
Proof.
  intros [[Hinv Hs] Hp]. split; [apply heap_inv_prepare_timers_for_dispatch; exact Hinv |].
  pose proof (prepare_timers_for_dispatch_spec now st) as H. cbv zeta in H.
  destruct H as (Hmark & Hrest & Htime & Hheap & _).
  rewrite Hheap.
  assert (Hkey : forall x, In x (m_timer_heap st) ->
            entry_key (timers (prepare_timers_for_dispatch now st) x)
            = (if m_time (timers st x) <=? now then 1 else 3, m_time (timers st x))).
  { intros x Hx. unfold entry_key.
    destruct (Z.leb_spec (m_time (timers st x)) now) as [Hle | Hgt].
    - rewrite (Hmark x Hx (Hp x Hx) Hle), Htime. reflexivity.
    - rewrite Hrest by lia. rewrite (Hp x Hx). reflexivity. }
  assert (Hkey0 : forall x, In x (m_timer_heap st) ->
            entry_key (timers st x) = (3, m_time (timers st x))).
  { intros x Hx. unfold entry_key. rewrite (Hp x Hx). reflexivity. }
  revert Hs Hkey Hkey0. generalize (m_timer_heap st) as h.
  induction h as [| x h IH]; cbn [heap_sorted]; [auto |].
  intros [Hx Hh] Hkey Hkey0. split.
  - intros y Hy. pose proof (Hx y Hy) as Hle.
    rewrite (Hkey0 x (or_introl eq_refl)), (Hkey0 y (or_intror Hy)) in Hle.
    rewrite (Hkey x (or_introl eq_refl)), (Hkey y (or_intror Hy)).
    unfold key_le in *. cbn [fst snd] in *.
    destruct (Z.leb_spec (m_time (timers st x)) now), (Z.leb_spec (m_time (timers st y)) now);
      lia.
  - apply IH; [exact Hh | |]; intros z Hz; [apply Hkey | apply Hkey0]; right; exact Hz.
Qed.

Lemma num_dispatch_le_length st : (num_dispatch st <= length (m_timer_heap st))%nat.
Proof. unfold num_dispatch, count_heap. apply List.filter_length_le. Qed.

(** X19: the timer phase of an iteration, from a heap in which every
    timer is [Pending] and which is in order (the heap being the list of
    its nodes in comparator order): the handler of a timer is invoked at
    most once, and only if the timer was in the heap with a deadline that
    is not after the event time; and when the phase is not cut short by
    [stop], every such timer has had its handler invoked, or a handler has
    unset, set or destroyed it before its turn; no timer is left in
    [Dispatch]. *)
Theorem timers_fire_exactly_when_due (E : Env) (fuel : nat) (now : EventLoopTime)
    (st : EventLoop) (Hready : heap_ready st)
    (Hfuel : (length (m_timer_heap st) < fuel)%nat) :
  exists b st' tr,
    dispatch_timers E fuel (prepare_timers_for_dispatch now st) = Some (b, st')
    /\ calls st' = calls st ++ tr
    /\ (forall x, (timer_fired x tr <= 1)%nat)
    /\ (forall x, timer_fired x tr = 1%nat ->
          In x (m_timer_heap st) /\ isSet (timers st x) = true
          /\ getSetTime (timers st x) <= now)
    /\ (b = true -> forall x, In x (m_timer_heap st) -> getSetTime (timers st x) <= now ->
          timer_fired x tr = 1%nat \/ existsb (touches x) tr = true)
    /\ (b = true -> forall x, In x (m_timer_heap st') -> m_state (timers st' x) <> Dispatch)
    /\ (b = false -> m_stop st' = true)
    /\ heap_ok st'.
Proof.
  pose proof (heap_ok_prepare_timers_for_dispatch now st Hready) as Hok1.
  pose proof (prepare_timers_for_dispatch_spec now st) as H. cbv zeta in H.
  destruct H as (Hmark & Hrest & Htime & Hheap & Hcalls & _).
  destruct Hready as [_ Hp].
  set (st1 := prepare_timers_for_dispatch now st) in *.
  assert (Hfuel1 : (num_dispatch st1 < fuel)%nat).
  { pose proof (num_dispatch_le_length st1) as Hle. rewrite Hheap in Hle. lia. }
  destruct (dispatch_timers_returns E fuel st1 Hfuel1) as (b & st' & Hrun).
  destruct (dispatch_timers_fired E fuel st1 b st' Hrun) as (tr & Hc & Hfired).
  destruct (dispatch_timers_complete E fuel st1 b st' Hok1 Hrun)
    as (tr' & Hc' & Hall & Honly & Hnone).
  assert (tr' = tr) by (rewrite Hc in Hc'; apply app_inv_head in Hc'; congruence). subst tr'.
  destruct (dispatch_timers_history E fuel st1 b st' Hrun)
    as (_ & _ & _ & _ & _ & _ & Hstop & _).
  exists b, st', tr.
  split; [exact Hrun |]. split; [rewrite Hc, Hcalls; reflexivity |].
  split; [intros x; apply Hfired |].
  split.
  { intros x Hx.
    assert (Hex : existsb (fires x) tr = true) by (apply existsb_fires_timer_fired; lia).
    destruct (Honly x Hex) as [Hin Hd]. rewrite Hheap in Hin.
    split; [exact Hin |].
    unfold isSet, getSetTime. rewrite (Hp x Hin). split; [reflexivity |].
    destruct (Z_le_gt_dec (m_time (timers st x)) now) as [Hle | Hgt]; [exact Hle |].
    rewrite Hrest in Hd by lia. rewrite (Hp x Hin) in Hd. discriminate Hd. }
  split.
  { intros Hb x Hin Hle. unfold getSetTime in Hle.
    destruct (Hall Hb x) as [Hf | Ht].
    - rewrite Hheap. exact Hin.
    - apply Hmark; [exact Hin | apply Hp; exact Hin | exact Hle].
    - left. apply existsb_fires_timer_fired in Hf. destruct (Hfired x) as [Hle1 _]. lia.
    - right. exact Ht. }
  split; [exact Hnone |]. split; [exact Hstop |].
  apply (heap_ok_dispatch_timers E fuel st1 b st' Hok1 Hrun).
Qed.

Lemma timers_fire_exactly_when_due_example :
  heap_ready ex_three_timers
  /\ (length (m_timer_heap ex_three_timers) < 4)%nat
  /\ exists b st' tr,
       dispatch_timers ex_env 4 (prepare_timers_for_dispatch 10 ex_three_timers) = Some (b, st')
       /\ calls st' = calls ex_three_timers ++ tr
       /\ (forall x, (timer_fired x tr <= 1)%nat)
       /\ (forall x, timer_fired x tr = 1%nat ->
             In x (m_timer_heap ex_three_timers) /\ isSet (timers ex_three_timers x) = true
             /\ getSetTime (timers ex_three_timers x) <= 10)
       /\ (b = true -> forall x, In x (m_timer_heap ex_three_timers) ->
             getSetTime (timers ex_three_timers x) <= 10 ->
             timer_fired x tr = 1%nat \/ existsb (touches x) tr = true)
       /\ (b = true -> forall x, In x (m_timer_heap st') -> m_state (timers st' x) <> Dispatch)
       /\ (b = false -> m_stop st' = true)
       /\ heap_ok st'.
Proof.
  assert (Hready : heap_ready ex_three_timers).
  { split; [split; [split |] |].
    - vm_compute. repeat constructor; cbn [In]; lia.
    - intros tim Hin. vm_compute in Hin.
      destruct Hin as [<- | [<- | [<- | []]]]; vm_compute; discriminate.
    - vm_compute. repeat split; intros y Hy;
        repeat (destruct Hy as [<- | Hy]); try contradiction; vm_compute;
        first [left; reflexivity | right; split; [reflexivity | discriminate]].
    - intros tim Hin. vm_compute in Hin.
      destruct Hin as [<- | [<- | [<- | []]]]; vm_compute; reflexivity. }
  split; [exact Hready |]. split; [vm_compute; lia |].
  apply (timers_fire_exactly_when_due ex_env 4 10 ex_three_timers Hready).
  vm_compute. lia.
Defined.

(** ** The time to wait for *)

Lemma first_None (h : LinkedHeap.t) : LinkedHeap.first h = None -> h = [].
Proof. destruct h; [reflexivity | discriminate]. Qed.

Lemma first_Some (h : LinkedHeap.t) r :
  LinkedHeap.first h = Some r -> exists h', h = r :: h'.
Proof. destruct h as [| x h']; [discriminate |]. intros [= ->]. exists h'. reflexivity. Qed.

Lemma prepare_timers_for_wait_loop_sorted fuel first_time st t st' :
  heap_ok st ->
  (forall x, In x (m_timer_heap st) -> m_state (timers st x) <> Dispatch) ->
  prepare_timers_for_wait_loop fuel first_time st = Some (t, st') ->
  heap_ok st'
  /\ (forall x, In x (m_timer_heap st') -> m_state (timers st' x) = Pending)
  /\ (forall x, In x (m_timer_heap st') <->
                In x (m_timer_heap st) /\ isSet (timers st x) = true)
  /\ (forall x, m_time (timers st' x) = m_time (timers st x)).
Proof.
  revert st. induction fuel as [| fuel IH]; intros st Hok Hnd; [discriminate |].
  cbn [prepare_timers_for_wait_loop].
  destruct (LinkedHeap.first (m_timer_heap st)) as [tim |] eqn:Hfirst.
  2: { intros [= <- <-]. apply first_None in Hfirst.
       split; [exact Hok |]. rewrite Hfirst.
       split; [intros x [] |]. split; [intros x; cbn [In]; tauto | reflexivity]. }
  assert (Htim : In tim (m_timer_heap st)) by (apply first_In; exact Hfirst).
  destruct (bool_decide_reflect (m_state (timers st tim) = TempUnset)) as [Hu | Hu].
  { set (st1 := set_m_state tim Idle (heap_remove tim st)).
    assert (Ht1 : forall x, x <> tim -> timers st1 x = timers st x).
    { intros x Hne. unfold st1. rewrite timers_set_m_state.
      destruct (decide (tim = x)); [congruence | reflexivity]. }
    assert (Hh1 : m_timer_heap st1 = LinkedHeap.remove tim (m_timer_heap st)) by reflexivity.
    assert (Hok1 : heap_ok st1).
    { destruct Hok as [[Hd Hi] Hs]. split; [split |]; rewrite Hh1.
      - apply NoDup_remove. exact Hd.
      - intros x Hx. apply In_remove in Hx. destruct Hx as [Hx Hne].
        rewrite (Ht1 x Hne). apply Hi, Hx.
      - apply (heap_sorted_remove_changed (timers st)); [exact Ht1 | exact Hs]. }
    assert (Hnd1 : forall x, In x (m_timer_heap st1) -> m_state (timers st1 x) <> Dispatch).
    { intros x Hx. rewrite Hh1 in Hx. apply In_remove in Hx. destruct Hx as [Hx Hne].
      rewrite (Ht1 x Hne). apply Hnd, Hx. }
    intros Hr. destruct (IH st1 Hok1 Hnd1 Hr) as (Hok' & Hp' & Hchar & Htime).
    split; [exact Hok' |]. split; [exact Hp' |]. split.
    - intros x. rewrite Hchar, Hh1, In_remove. split.
      + intros [[Hx Hne] Hset]. rewrite (Ht1 x Hne) in Hset. auto.
      + intros [Hx Hset].
        assert (Hne : x <> tim).
        { intros ->. unfold isSet in Hset. rewrite Hu in Hset. discriminate Hset. }
        rewrite (Ht1 x Hne). auto.
    - intros x. rewrite Htime. unfold st1. rewrite timers_set_m_state.
      destruct (decide (tim = x)) as [<- | _]; reflexivity. }
  destruct (bool_decide_reflect (m_state (timers st tim) = TempSet)) as [Hs | Hs].
  { set (st1 := heap_fixup tim (set_m_state tim Pending st)).
    assert (Ht1 : forall x, x <> tim -> timers st1 x = timers st x).
    { intros x Hne. unfold st1. cbn [heap_fixup set_timer_heap timers].
      rewrite timers_set_m_state. destruct (decide (tim = x)); [congruence | reflexivity]. }
    assert (Htim1 : timers st1 tim = {| m_time := m_time (timers st tim); m_state := Pending |}).
    { unfold st1. cbn [heap_fixup set_timer_heap timers].
      rewrite timers_set_m_state. destruct (decide (tim = tim)); [reflexivity | congruence]. }
    assert (Hh1 : forall x, In x (m_timer_heap st1) <-> In x (m_timer_heap st)).
    { intros x. unfold st1. cbn [heap_fixup set_timer_heap m_timer_heap set_m_state set_timers].
      rewrite In_fixup. split; [intros [-> | Hx]; assumption | auto]. }
    assert (Hok1 : heap_ok st1).
    { apply heap_ok_change_fixup; [discriminate | exact Hok]. }
    assert (Hnd1 : forall x, In x (m_timer_heap st1) -> m_state (timers st1 x) <> Dispatch).
    { intros x Hx. destruct (Nat.eq_dec x tim) as [-> | Hne].
      - rewrite Htim1. discriminate.
      - rewrite (Ht1 x Hne). apply Hnd, Hh1, Hx. }
    intros Hr. destruct (IH st1 Hok1 Hnd1 Hr) as (Hok' & Hp' & Hchar & Htime).
    split; [exact Hok' |]. split; [exact Hp' |]. split.
    - intros x. rewrite Hchar, Hh1.
      destruct (Nat.eq_dec x tim) as [-> | Hne]; [| rewrite (Ht1 x Hne); tauto].
      rewrite Htim1. unfold isSet. rewrite Hs. tauto.
    - intros x. rewrite Htime.
      destruct (Nat.eq_dec x tim) as [-> | Hne]; [rewrite Htim1; reflexivity |].
      rewrite (Ht1 x Hne). reflexivity. }
  intros [= <- <-].
  assert (Hp : forall x, In x (m_timer_heap st) -> m_state (timers st x) = Pending).
  { destruct Hok as [[_ Hi] Hsort].
    assert (Hroot : m_state (timers st tim) = Pending).
    { pose proof (Hi tim Htim) as H1. pose proof (Hnd tim Htim) as H2.
      destruct (m_state (timers st tim)); congruence. }
    destruct (first_Some _ _ Hfirst) as (h' & Hh). rewrite Hh in *.
    intros x [<- | Hx]; [exact Hroot |].
    destruct Hsort as [Hsort _]. apply Hsort in Hx. apply key_le_class in Hx.
    rewrite !state_order_cases, Hroot in Hx.
    destruct (m_state (timers st x)); try reflexivity; lia. }
  split; [exact Hok |]. split; [exact Hp |]. split; [| reflexivity].
  intros x. split; [| tauto]. intros Hx. split; [exact Hx |].
  unfold isSet. rewrite (Hp x Hx). reflexivity.
Qed.

(** X20: the time that [prepare_timers_for_wait] gives to the provider is
    the earliest deadline of the set timers of the heap, and the largest
    time when no timer of the heap is set; afterwards the heap holds
    exactly the timers that were set, all [Pending], with their deadlines
    as they were.  The heap is taken in order and with no timer in
    [Dispatch], as [dispatch_timers] leaves it when it returns true. *)
Theorem wait_time_is_earliest_deadline (time_max : EventLoopTime) (fuel : nat)
    (st : EventLoop) (Hok : heap_ok st)
    (Hnd : forall x, In x (m_timer_heap st) -> m_state (timers st x) <> Dispatch)
    (Hfuel : (num_temp st < fuel)%nat) :
  exists info st',
    prepare_timers_for_wait time_max fuel st = Some (info, st')
    /\ (forall x, In x (m_timer_heap st) -> isSet (timers st x) = true ->
                  wait_time info <= getSetTime (timers st x))
    /\ ((exists x, In x (m_timer_heap st) /\ isSet (timers st x) = true
                   /\ wait_time info = getSetTime (timers st x))
        \/ ((forall x, In x (m_timer_heap st) -> isSet (timers st x) = false)
            /\ wait_time info = time_max))
    /\ (forall x, In x (m_timer_heap st') <->
                  In x (m_timer_heap st) /\ isSet (timers st x) = true)
    /\ (forall x, In x (m_timer_heap st') -> m_state (timers st' x) = Pending)
    /\ (forall x, getSetTime (timers st' x) = getSetTime (timers st x))
    /\ heap_ready st'.
Proof.
  destruct (prepare_timers_for_wait_loop_returns fuel time_max st Hfuel) as ([t st0] & Hr).
  unfold prepare_timers_for_wait. rewrite Hr.
  eexists. eexists. split; [reflexivity |].
  cbn [wait_time set_last_wait_time m_timer_heap timers].
  destruct (prepare_timers_for_wait_loop_sorted fuel time_max st t st0 Hok Hnd Hr)
    as (Hok' & Hp & Hchar & Htime).
  destruct (prepare_timers_for_wait_loop_stops fuel time_max st t st0 Hr) as (Hroot & _).
  unfold getSetTime.
  assert (Hmin : forall x, In x (m_timer_heap st0) -> t <= m_time (timers st0 x)).
  { destruct Hok' as [_ Hsort].
    destruct (LinkedHeap.first (m_timer_heap st0)) as [root |] eqn:Hfirst.
    - destruct Hroot as [-> _]. destruct (first_Some _ _ Hfirst) as (h' & Hh).
      rewrite Hh in *. intros x [<- | Hx]; [lia |].
      pose proof (Hp root (or_introl eq_refl)) as Hpr.
      pose proof (Hp x (or_intror Hx)) as Hpx.
      destruct Hsort as [Hsort _]. apply Hsort in Hx.
      unfold key_le, entry_key in Hx. rewrite Hpr, Hpx in Hx. cbn [fst snd] in Hx.
      change (is_Temp Pending) with false in Hx. cbv iota in Hx. lia.
    - apply first_None in Hfirst. rewrite Hfirst. intros x []. }
  split.
  { intros x Hx Hset. rewrite <- Htime. apply Hmin, Hchar. auto. }
  split.
  { destruct (LinkedHeap.first (m_timer_heap st0)) as [root |] eqn:Hfirst.
    - left. destruct Hroot as [-> _]. exists root.
      apply first_In in Hfirst. apply Hchar in Hfirst. destruct Hfirst as [Hin Hset].
      split; [exact Hin |]. split; [exact Hset | apply Htime].
    - right. apply first_None in Hfirst. split; [| exact Hroot].
      intros x Hx. destruct (isSet (timers st x)) eqn:Hset; [| reflexivity].
      exfalso. assert (Hin : In x (m_timer_heap st0)) by (apply Hchar; auto).
      rewrite Hfirst in Hin. destruct Hin. }
  split; [exact Hchar |]. split; [exact Hp |]. split; [exact Htime |].
  split; [| exact Hp].
  revert Hok'. apply heap_ok_frame; reflexivity.
Qed.

Lemma wait_time_is_earliest_deadline_example :
  heap_ok ex_before_wait
  /\ (forall x, In x (m_timer_heap ex_before_wait) ->
                m_state (timers ex_before_wait x) <> Dispatch)
  /\ (num_temp ex_before_wait < 3)%nat
  /\ exists info st',
       prepare_timers_for_wait ex_time_max 3 ex_before_wait = Some (info, st')
       /\ (forall x, In x (m_timer_heap ex_before_wait) ->
                     isSet (timers ex_before_wait x) = true ->
                     wait_time info <= getSetTime (timers ex_before_wait x))
       /\ ((exists x, In x (m_timer_heap ex_before_wait)
                      /\ isSet (timers ex_before_wait x) = true
                      /\ wait_time info = getSetTime (timers ex_before_wait x))
           \/ ((forall x, In x (m_timer_heap ex_before_wait) ->
                          isSet (timers ex_before_wait x) = false)
               /\ wait_time info = ex_time_max))
       /\ (forall x, In x (m_timer_heap st') <->
                     In x (m_timer_heap ex_before_wait)
                     /\ isSet (timers ex_before_wait x) = true)
       /\ (forall x, In x (m_timer_heap st') -> m_state (timers st' x) = Pending)
       /\ (forall x, getSetTime (timers st' x) = getSetTime (timers ex_before_wait x))
       /\ heap_ready st'.
Proof.
  assert (Hok : heap_ok ex_before_wait).
  { split; [split |].
    - vm_compute. repeat constructor; cbn [In]; lia.
    - intros tim Hin. vm_compute in Hin.
      destruct Hin as [<- | [<- | [<- | []]]]; vm_compute; discriminate.
    - vm_compute. repeat split; intros y Hy;
        repeat (destruct Hy as [<- | Hy]); try contradiction; vm_compute;
        first [left; reflexivity | right; split; [reflexivity | discriminate]]. }
  assert (Hnd : forall x, In x (m_timer_heap ex_before_wait) ->
                          m_state (timers ex_before_wait x) <> Dispatch).
  { intros tim Hin. vm_compute in Hin.
    destruct Hin as [<- | [<- | [<- | []]]]; vm_compute; discriminate. }
  split; [exact Hok |]. split; [exact Hnd |]. split; [vm_compute; lia |].
  apply (wait_time_is_earliest_deadline ex_time_max 3 ex_before_wait Hok Hnd).
  vm_compute. lia.
Defined.

(** ** The heap from iteration to iteration *)

(** What the handlers keep, the provider's dispatch keeps. *)
Section PhaseInvariant.

Variable E : Env.
Variable P : EventLoop -> Prop.
Hypothesis P_frame : forall st st',
  timers st' = timers st -> m_timer_heap st' = m_timer_heap st -> P st -> P st'.
Hypothesis P_fd_handler : forall w events st,
  P st -> P (run_handler E (fd_m_handler E w events) st).
Hypothesis P_signal_handler : forall sig st,
  P st -> P (run_handler E (signal_m_handler E sig) st).

Lemma phase_dispatch_fd_events ready st :
  P st -> P (snd (dispatch_fd_events E ready st)).
Proof.
  revert st. induction ready as [| [w events] ready IH]; intros st HP;
    cbn [dispatch_fd_events]; [exact HP |].
  destruct (hasFd _); [| apply IH; exact HP].
  assert (HP' : P (run_handler E (fd_m_handler E w events)
                     (observe (EvFdHandler w events) st))).
  { apply P_fd_handler. apply (P_frame st); [reflexivity | reflexivity | exact HP]. }
  destruct (m_stop _); [exact HP' | apply IH; exact HP'].
Qed.

Lemma phase_dispatch_async_signals_loop fuel st b st' :
  P st -> dispatch_async_signals_loop E fuel st = Some (b, st') -> P st'.
Proof.
  revert st. induction fuel as [| fuel IH]; intros st HP; [discriminate |].
  cbn [dispatch_async_signals_loop].
  destruct (AsyncSignalList.next m_dispatch_async_list st) as [| | sig];
    [discriminate | intros [= <- <-]; exact HP |].
  assert (HP' : P (run_handler E (signal_m_handler E sig)
                     (observe (EvSignalHandler sig)
                        (AsyncSignalList.markRemoved (asig sig)
                           (AsyncSignalList.remove (asig sig) st))))).
  { apply P_signal_handler. apply (P_frame st); [reflexivity | reflexivity | exact HP]. }
  destruct (m_stop _); [intros [= <- <-]; exact HP' | apply IH; exact HP'].
Qed.

Lemma phase_dispatchEvents fuel ready st b st' :
  P st -> dispatchEvents E fuel ready st = Some (b, st') -> P st'.
Proof.
  intros HP. unfold dispatchEvents.
  assert (HP0 : P (observe EvDispatchEvents st)).
  { apply (P_frame st); [reflexivity | reflexivity | exact HP]. }
  pose proof (phase_dispatch_fd_events ready (observe EvDispatchEvents st) HP0) as Hfd.
  destruct (dispatch_fd_events E ready (observe EvDispatchEvents st)) as [[|] st1];
    cbn [snd] in Hfd.
  - unfold dispatch_async_signals.
    destruct (AsyncSignalList.isLonely _ _); [intros [= <- <-]; exact Hfd |].
    apply phase_dispatch_async_signals_loop.
    apply (P_frame st1); [reflexivity | reflexivity | exact Hfd].
  - intros [= <- <-]. exact Hfd.
Qed.

Lemma phase_waitForEvents info raised st :
  P st -> P (waitForEvents info raised st).
Proof.
  intros HP. unfold waitForEvents.
  assert (H0 : P (observe (EvWaitForEvents info) st)).
  { apply (P_frame st); [reflexivity | reflexivity | exact HP]. }
  revert H0. generalize (observe (EvWaitForEvents info) st).
  induction raised as [| sig raised IH]; intros st0 HP0; cbn [fold_left]; [exact HP0 |].
  apply IH. apply (P_frame st0); [apply signal_timers | apply signal_timers | exact HP0].
Qed.

End PhaseInvariant.

Lemma heap_ready_frame st st' :
  timers st' = timers st -> m_timer_heap st' = m_timer_heap st ->
  heap_ready st -> heap_ready st'.
Proof.
  intros Ht Hh [Hok Hp]. split; [apply (heap_ok_frame st); assumption |].
  rewrite Ht, Hh. exact Hp.
Qed.

Lemma heap_ready_new time_max now : heap_ready (EventLoop_new time_max now).
Proof.
  split; [split; [apply heap_inv_new | exact I] | intros x []].
Qed.

Lemma heap_ready_do_action E a st : heap_ready st -> heap_ready (do_action E a st).
Proof.
  intros [Hok Hp]. split; [apply heap_ok_do_action; exact Hok |].
  assert (Hset : forall time tim x, In x (m_timer_heap (setAt time tim st)) ->
                   m_state (timers (setAt time tim st) x) = Pending).
  { intros time tim x.
    pose proof (setAt_effect time tim st) as H. cbv zeta in H.
    destruct H as (_ & Hs & Ho & _).
    destruct (m_state (timers st tim)) eqn:Hstate; destruct Hs as [Hs ->];
      rewrite ?In_insert, ?In_fixup; intros Hx;
      (destruct (Nat.eq_dec x tim) as [-> | Hne];
       [try exact Hs; rewrite (Hp tim Hx) in Hstate; discriminate Hstate
       | rewrite (Ho x Hne); apply Hp; tauto]). }
  destruct a;
    try (match goal with
         | |- context [do_action E ?a st] =>
             assert (Hsame : timers (do_action E a st) = timers st
                             /\ m_timer_heap (do_action E a st) = m_timer_heap st)
               by (apply do_action_timers_same; discriminate)
         end;
         destruct Hsame as [-> ->]; exact Hp);
    cbn [do_action].
  - intros x. pose proof (unset_effect tim st) as H. cbv zeta in H.
    destruct H as (_ & Hs & Ho & _).
    destruct (m_state (timers st tim)) eqn:Hstate; destruct Hs as [Hs ->];
      rewrite ?In_remove; intros Hx;
      (destruct (Nat.eq_dec x tim) as [-> | Hne];
       [try tauto; try (rewrite (Hp tim Hx) in Hstate; discriminate Hstate)
       | rewrite (Ho x Hne); apply Hp; tauto]).
  - apply Hset.
  - apply Hset.
  - intros x. unfold timer_delete. destruct (negb _); [| apply Hp].
    cbn [heap_remove set_timer_heap timers m_timer_heap]. rewrite In_remove.
    intros [Hx _]. apply Hp, Hx.
Qed.

Lemma quiet_run_handler E h st :
  heap_ok st /\ num_dispatch st = 0%nat ->
  heap_ok (run_handler E h st) /\ num_dispatch (run_handler E h st) = 0%nat.
Proof.
  intros [Hok Hn]. split; [apply heap_ok_run_handler; exact Hok |].
  destruct (run_handler_timers E h st) as (_ & _ & _ & _ & _ & Hle). lia.
Qed.

Lemma quiet_frame st st' :
  timers st' = timers st -> m_timer_heap st' = m_timer_heap st ->
  heap_ok st /\ num_dispatch st = 0%nat -> heap_ok st' /\ num_dispatch st' = 0%nat.
Proof.
  intros Ht Hh [Hok Hn]. split; [apply (heap_ok_frame st); assumption |].
  unfold num_dispatch in *. rewrite Ht, Hh. exact Hn.
Qed.

Lemma heap_ready_run_iteration E fuel it st r :
  heap_ready st -> run_iteration E fuel it st = Some r ->
  match r with
  | inl s => heap_ok s
  | inr s => heap_ready s
  end.
Proof.
  intros Hready. unfold run_iteration.
  assert (H1 : heap_ok (prepare_timers_for_dispatch
                 (m_event_time (set_event_time (it_now it) (observe (EvGetTime (it_now it)) st)))
                 (set_event_time (it_now it) (observe (EvGetTime (it_now it)) st)))).
  { apply heap_ok_prepare_timers_for_dispatch.
    apply (heap_ready_frame st); [reflexivity | reflexivity | exact Hready]. }
  revert H1. generalize (prepare_timers_for_dispatch
                 (m_event_time (set_event_time (it_now it) (observe (EvGetTime (it_now it)) st)))
                 (set_event_time (it_now it) (observe (EvGetTime (it_now it)) st))).
  intros st1 H1.
  destruct (dispatch_timers E fuel st1) as [[[|] st2] |] eqn:Hdt; [| | discriminate].
  - pose proof (heap_ok_dispatch_timers E fuel st1 _ _ H1 Hdt) as H2.
    destruct (dispatch_timers_complete E fuel st1 _ _ H1 Hdt) as (_ & _ & _ & _ & Hnone).
    assert (Hq2 : heap_ok st2 /\ num_dispatch st2 = 0%nat).
    { split; [exact H2 |]. apply num_dispatch_0. apply Hnone. reflexivity. }
    destruct (dispatchEvents E fuel (it_ready it) st2) as [[[|] st3] |] eqn:Hde;
      [| | discriminate].
    + pose proof (phase_dispatchEvents E _ quiet_frame
                    (fun w events => quiet_run_handler E (fd_m_handler E w events))
                    (fun sig => quiet_run_handler E (signal_m_handler E sig))
                    fuel _ st2 _ _ Hq2 Hde) as [H3 Hn3].
      unfold prepare_timers_for_wait.
      destruct (prepare_timers_for_wait_loop fuel (time_max E) st3) as [[t st4] |] eqn:Hpw;
        [| discriminate].
      intros [= <-].
      destruct (prepare_timers_for_wait_loop_sorted fuel (time_max E) st3 t st4 H3
                  (proj1 (num_dispatch_0 st3) Hn3) Hpw) as (H4 & Hp4 & _).
      apply (phase_waitForEvents heap_ready heap_ready_frame).
      apply (heap_ready_frame st4); [reflexivity | reflexivity |]. split; assumption.
    + intros [= <-].
      apply (phase_dispatchEvents E _ quiet_frame
               (fun w events => quiet_run_handler E (fd_m_handler E w events))
               (fun sig => quiet_run_handler E (signal_m_handler E sig))
               fuel _ st2 _ _ Hq2 Hde).
  - intros [= <-]. apply (heap_ok_dispatch_timers E fuel st1 _ _ H1 Hdt).
Qed.

Lemma heap_ready_run_loop E fuel its st :
  heap_ready st ->
  match run_loop E fuel its st with
  | Returned s => heap_ok s
  | Running s => heap_ready s
  | OutOfFuel => True
  end.
Proof.
  revert st. induction its as [| it its IH]; intros st Hready; cbn [run_loop]; [exact Hready |].
  destruct (run_iteration E fuel it st) as [[s | s] |] eqn:Hit; [| | exact I].
  - apply (heap_ready_run_iteration E fuel it st (inl s) Hready Hit).
  - apply IH. apply (heap_ready_run_iteration E fuel it st (inr s) Hready Hit).
Qed.

(** X21: between two iterations of [run] every timer of the heap is
    [Pending] and the heap is in order, no timer twice and none [Idle]:
    this holds in a new loop, every call of user code outside the loop
    keeps it, it holds again after every iteration, and when [run] returns
    the heap is still in order (the heap being the list of its nodes in
    comparator order). *)
Theorem heap_ready_preserved (E : Env) (fuel : nat) (its : list Iteration)
    (st : EventLoop) (Hready : heap_ready st) :
  (forall time_max now, heap_ready (EventLoop_new time_max now))
  /\ (forall a, heap_ready (do_action E a st))
  /\ match run E fuel its st with
     | Returned s => heap_ok s
     | Running s => heap_ready s
     | OutOfFuel => True
     end.
Proof.
  split; [exact heap_ready_new |].
  split; [intros a; apply heap_ready_do_action; exact Hready |].
  unfold run. destruct (m_stop st); [apply Hready | apply heap_ready_run_loop; exact Hready].
Qed.

Lemma heap_ready_preserved_example :
  heap_ready ex_three_timers
  /\ ((forall time_max now, heap_ready (EventLoop_new time_max now))
      /\ (forall a, heap_ready (do_action ex_env a ex_three_timers))
      /\ match run ex_env 5 [ex_iteration_1; ex_iteration_2] ex_three_timers with
         | Returned s => heap_ok s
         | Running s => heap_ready s
         | OutOfFuel => True
         end).
Proof.
  assert (Hready : heap_ready ex_three_timers).
  { split; [split; [split |] |].
    - vm_compute. repeat constructor; cbn [In]; lia.
    - intros tim Hin. vm_compute in Hin.
      destruct Hin as [<- | [<- | [<- | []]]]; vm_compute; discriminate.
    - vm_compute. repeat split; intros y Hy;
        repeat (destruct Hy as [<- | Hy]); try contradiction; vm_compute;
        first [left; reflexivity | right; split; [reflexivity | discriminate]].
    - intros tim Hin. vm_compute in Hin.
      destruct Hin as [<- | [<- | [<- | []]]]; vm_compute; reflexivity. }
  split; [exact Hready |].
  apply (heap_ready_preserved ex_env 5 [ex_iteration_1; ex_iteration_2] ex_three_timers Hready).
Defined.

(** ** The order of the timer handlers *)

Lemma fired_timers_app l1 l2 :
  fired_timers (l1 ++ l2) = fired_timers l1 ++ fired_timers l2.
Proof.
  induction l1 as [| e l1 IH]; [reflexivity |].
  cbn [app fired_timers]. destruct e; rewrite IH; reflexivity.
Qed.

Lemma fired_timers_user tr :
  Forall (fun e => is_user_event e = true) tr -> fired_timers tr = [].
Proof.
  induction 1 as [| e tr He _ IH]; [reflexivity |].
  destruct e; cbn [fired_timers]; try exact IH; discriminate He.
Qed.

Lemma dispatch_timers_order E fuel st b st' :
  heap_ok st -> dispatch_timers E fuel st = Some (b, st') ->
  exists tr,
    calls st' = calls st ++ tr
    /\ nondecreasing (map (fun x => m_time (timers st x)) (fired_timers tr))
    /\ forall x, In x (fired_timers tr) ->
                 In x (m_timer_heap st) /\ m_state (timers st x) = Dispatch.
Proof.
  revert st b st'. induction fuel as [| fuel IH]; intros st b st' Hok; [discriminate |].
  assert (Hnil : exists tr : list Event,
            calls st = calls st ++ tr
            /\ nondecreasing (map (fun x => m_time (timers st x)) (fired_timers tr))
            /\ forall x, In x (fired_timers tr) ->
                         In x (m_timer_heap st) /\ m_state (timers st x) = Dispatch).
  { exists []. rewrite app_nil_r. split; [reflexivity |]. split; [exact I | intros x []]. }
  cbn [dispatch_timers].
  destruct (LinkedHeap.first (m_timer_heap st)) as [tim |] eqn:Hfirst;
    [| intros [= <- <-]; exact Hnil].
  destruct (bool_decide_reflect (m_state (timers st tim) = Dispatch)) as [Hd | Hd];
    cbn [negb]; [| intros [= <- <-]; exact Hnil].
  set (st1 := observe (EvTimerExpired tim) (heap_fixup tim (set_m_state tim TempUnset st))).
  assert (Hok1 : heap_ok st1).
  { apply (heap_ok_frame (heap_fixup tim (set_m_state tim TempUnset st)));
      [reflexivity | reflexivity |].
    apply heap_ok_change_fixup; [discriminate | exact Hok]. }
  assert (Htim : In tim (m_timer_heap st)) by (apply first_In; exact Hfirst).
  assert (Hheap1 : forall x, In x (m_timer_heap st1) <-> In x (m_timer_heap st)).
  { intros x. unfold st1. cbn [observe heap_fixup set_timer_heap m_timer_heap set_m_state
                               set_timers].
    rewrite In_fixup. split; [intros [-> | Hx]; assumption | auto]. }
  assert (Htimers1 : forall x, x <> tim -> timers st1 x = timers st x).
  { intros x Hne. unfold st1. cbn [observe heap_fixup set_timer_heap timers].
    rewrite timers_set_m_state. destruct (decide (tim = x)); [congruence | reflexivity]. }
  assert (Htim1 : m_state (timers st1 tim) = TempUnset).
  { unfold st1. cbn [observe heap_fixup set_timer_heap timers].
    rewrite timers_set_m_state. destruct (decide (tim = tim)); [reflexivity | congruence]. }
  destruct (run_handler_untouched E (handleTimerExpired E tim) st1)
    as (trh & Hch & Huh & _ & Hdh).
  pose proof (heap_ok_run_handler E (handleTimerExpired E tim) st1 Hok1) as Hok2.
  assert (Hcalls : calls (run_handler E (handleTimerExpired E tim) st1)
                   = calls st ++ EvTimerExpired tim :: trh).
  { rewrite Hch. unfold st1.
    cbn [observe calls heap_fixup set_timer_heap set_m_state set_timers].
    rewrite <- app_assoc. reflexivity. }
  assert (Hback : forall x, In x (m_timer_heap (run_handler E (handleTimerExpired E tim) st1)) ->
            m_state (timers (run_handler E (handleTimerExpired E tim) st1) x) = Dispatch ->
            In x (m_timer_heap st) /\ x <> tim
            /\ timers (run_handler E (handleTimerExpired E tim) st1) x = timers st x).
  { intros x Hin Hx. destruct (Hdh x Hin Hx) as [Hin1 Hx1].
    rewrite Hx1 in Hx.
    assert (Hne : x <> tim) by (intros ->; congruence).
    split; [apply Hheap1; exact Hin1 |]. split; [exact Hne |].
    rewrite Hx1. apply Htimers1. exact Hne. }
  assert (Hone : forall tr2,
            nondecreasing (map (fun x => m_time (timers (run_handler E (handleTimerExpired E tim)
                                                           st1) x)) (fired_timers tr2)) ->
            (forall x, In x (fired_timers tr2) ->
               In x (m_timer_heap (run_handler E (handleTimerExpired E tim) st1))
               /\ m_state (timers (run_handler E (handleTimerExpired E tim) st1) x) = Dispatch) ->
            nondecreasing (map (fun x => m_time (timers st x))
                             (fired_timers (EvTimerExpired tim :: trh ++ tr2)))
            /\ forall x, In x (fired_timers (EvTimerExpired tim :: trh ++ tr2)) ->
                         In x (m_timer_heap st) /\ m_state (timers st x) = Dispatch).
  { intros tr2 Hnd2 Hin2.
    cbn [fired_timers]. rewrite fired_timers_app, (fired_timers_user trh Huh). cbn [app map].
    assert (Hsame : forall x, In x (fired_timers tr2) ->
              In x (m_timer_heap st) /\ x <> tim
              /\ timers (run_handler E (handleTimerExpired E tim) st1) x = timers st x
              /\ m_state (timers st x) = Dispatch).
    { intros x Hx. destruct (Hin2 x Hx) as [Hi Hs].
      destruct (Hback x Hi Hs) as (H1 & H2 & H3).
      split; [exact H1 |]. split; [exact H2 |]. split; [exact H3 |]. rewrite <- H3. exact Hs. }
    split; [cbn [nondecreasing]; split |].
    - intros u Hu. apply in_map_iff in Hu. destruct Hu as (x & <- & Hx).
      destruct (Hsame x Hx) as (Hi & Hne & _ & Hs).
      destruct Hok as [_ Hsort].
      destruct (first_Some _ _ Hfirst) as (h' & Hh). rewrite Hh in Hsort, Hi.
      destruct Hi as [Hi | Hi]; [congruence |].
      destruct Hsort as [Hsort _]. apply Hsort in Hi.
      unfold key_le, entry_key in Hi. rewrite Hd, Hs in Hi. cbn [fst snd] in Hi.
      change (is_Temp Dispatch) with false in Hi. cbv iota in Hi. lia.
    - rewrite (map_ext_in _ (fun x => m_time (timers (run_handler E (handleTimerExpired E tim)
                                                         st1) x))); [exact Hnd2 |].
      intros x Hx. destruct (Hsame x Hx) as (_ & _ & -> & _). reflexivity.
    - intros x [<- | Hx]; [split; assumption |].
      destruct (Hsame x Hx) as (Hi & _ & _ & Hs). split; assumption. }
  fold st1.
  destruct (m_stop (run_handler E (handleTimerExpired E tim) st1)) eqn:Hstop.
  - intros [= <- <-]. exists (EvTimerExpired tim :: trh ++ []).
    split; [rewrite app_nil_r; exact Hcalls |].
    apply Hone; [exact I | intros x []].
  - intros Hrun. destruct (IH _ _ _ Hok2 Hrun) as (tr2 & Hc2 & Hnd2 & Hin2).
    exists (EvTimerExpired tim :: trh ++ tr2).
    split; [rewrite Hc2, Hcalls, <- app_assoc; reflexivity |].
    apply Hone; assumption.
Qed.

(** X22: in the timer phase of an iteration the handlers of the timers
    are invoked in the order of the deadlines that the timers had when the
    phase began: no handler is invoked before the handler of a timer with
    an earlier deadline (the heap being the list of its nodes in
    comparator order). *)
Theorem timers_fire_in_deadline_order (E : Env) (fuel : nat) (now : EventLoopTime)
    (st : EventLoop) (Hready : heap_ready st)
    (Hfuel : (length (m_timer_heap st) < fuel)%nat) :
  exists b st' tr,
    dispatch_timers E fuel (prepare_timers_for_dispatch now st) = Some (b, st')
    /\ calls st' = calls st ++ tr
    /\ nondecreasing (map (fun x => getSetTime (timers st x)) (fired_timers tr))
    /\ forall x, In x (fired_timers tr) ->
                 In x (m_timer_heap st) /\ getSetTime (timers st x) <= now.
Proof.
  pose proof (heap_ok_prepare_timers_for_dispatch now st Hready) as Hok1.
  pose proof (prepare_timers_for_dispatch_spec now st) as H. cbv zeta in H.
  destruct H as (Hmark & Hrest & Htime & Hheap & Hcalls & _).
  destruct Hready as [_ Hp].
  set (st1 := prepare_timers_for_dispatch now st) in *.
  assert (Hfuel1 : (num_dispatch st1 < fuel)%nat).
  { pose proof (num_dispatch_le_length st1) as Hle. rewrite Hheap in Hle. lia. }
  destruct (dispatch_timers_returns E fuel st1 Hfuel1) as (b & st' & Hrun).
  destruct (dispatch_timers_order E fuel st1 b st' Hok1 Hrun) as (tr & Hc & Hnd & Hin).
  exists b, st', tr.
  split; [exact Hrun |]. split; [rewrite Hc, Hcalls; reflexivity |].
  split.
  - unfold getSetTime.
    rewrite (map_ext (fun x => m_time (timers st x)) (fun x => m_time (timers st1 x)));
      [exact Hnd | intros x; symmetry; apply Htime].
  - intros x Hx. destruct (Hin x Hx) as [Hi Hs]. rewrite Hheap in Hi.
    split; [exact Hi |]. unfold getSetTime.
    destruct (Z_le_gt_dec (m_time (timers st x)) now) as [Hle | Hgt]; [exact Hle |].
    rewrite Hrest in Hs by lia. rewrite (Hp x Hi) in Hs. discriminate Hs.
Qed.

Lemma timers_fire_in_deadline_order_example :
  heap_ready ex_three_timers
  /\ (length (m_timer_heap ex_three_timers) < 4)%nat
  /\ exists b st' tr,
       dispatch_timers ex_env 4 (prepare_timers_for_dispatch 10 ex_three_timers) = Some (b, st')
       /\ calls st' = calls ex_three_timers ++ tr
       /\ nondecreasing (map (fun x => getSetTime (timers ex_three_timers x)) (fired_timers tr))
       /\ forall x, In x (fired_timers tr) ->
                    In x (m_timer_heap ex_three_timers)
                    /\ getSetTime (timers ex_three_timers x) <= 10.
Proof.
  assert (Hready : heap_ready ex_three_timers).
  { split; [split; [split |] |].
    - vm_compute. repeat constructor; cbn [In]; lia.
    - intros tim Hin. vm_compute in Hin.
      destruct Hin as [<- | [<- | [<- | []]]]; vm_compute; discriminate.
    - vm_compute. repeat split; intros y Hy;
        repeat (destruct Hy as [<- | Hy]); try contradiction; vm_compute;
        first [left; reflexivity | right; split; [reflexivity | discriminate]].
    - intros tim Hin. vm_compute in Hin.
      destruct Hin as [<- | [<- | [<- | []]]]; vm_compute; reflexivity. }
  split; [exact Hready |]. split; [vm_compute; lia |].
  apply (timers_fire_in_deadline_order ex_env 4 10 ex_three_timers Hready).
  vm_compute. lia.
Defined.

(** ** The set timers are in the heap *)

Lemma armed_in_heap_frame st st' :
  timers st' = timers st -> m_timer_heap st' = m_timer_heap st ->
  armed_in_heap st -> armed_in_heap st'.
Proof. unfold armed_in_heap. intros -> ->. auto. Qed.

Lemma armed_in_heap_new time_max now : armed_in_heap (EventLoop_new time_max now).
Proof. intros x Hx. contradiction Hx. reflexivity. Qed.

Lemma armed_in_heap_setAt time tim st : armed_in_heap st -> armed_in_heap (setAt time tim st).
Proof.
  intros Harm x Hx.
  pose proof (setAt_effect time tim st) as H. cbv zeta in H.
  destruct H as (_ & Hs & Ho & _).
  assert (Hin : x <> tim -> In x (m_timer_heap st)).
  { intros Hne. apply Harm. rewrite <- (Ho x Hne). exact Hx. }
  destruct (m_state (timers st tim)) eqn:Hstate; destruct Hs as [_ ->];
    rewrite ?In_insert, ?In_fixup;
    destruct (Nat.eq_dec x tim) as [-> | Hne]; auto;
    apply Harm; rewrite Hstate; discriminate.
Qed.

Lemma armed_in_heap_unset tim st : armed_in_heap st -> armed_in_heap (unset tim st).
Proof.
  intros Harm x Hx.
  pose proof (unset_effect tim st) as H. cbv zeta in H.
  destruct H as (_ & Hs & Ho & _).
  assert (Hin : x <> tim -> In x (m_timer_heap st)).
  { intros Hne. apply Harm. rewrite <- (Ho x Hne). exact Hx. }
  destruct (m_state (timers st tim)) eqn:Hstate; destruct Hs as [Hs' ->];
    rewrite ?In_remove;
    destruct (Nat.eq_dec x tim) as [-> | Hne]; auto;
    try (contradiction (Hx Hs'));
    apply Harm; rewrite Hstate; discriminate.
Qed.

Lemma armed_in_heap_do_action E a st :
  (forall tim, a <> A_timer_delete tim) ->
  armed_in_heap st -> armed_in_heap (do_action E a st).
Proof.
  intros Hnd Harm.
  destruct a;
    try (apply (armed_in_heap_frame st);
         [apply do_action_timers_same; discriminate
         | apply do_action_timers_same; discriminate | exact Harm]);
    cbn [do_action].
  - apply armed_in_heap_unset. exact Harm.
  - apply armed_in_heap_setAt. exact Harm.
  - apply armed_in_heap_setAt. exact Harm.
  - contradiction (Hnd tim eq_refl).
Qed.

Lemma armed_in_heap_run_handler E h st :
  no_timer_delete h -> armed_in_heap st -> armed_in_heap (run_handler E h st).
Proof.
  revert st. induction h as [| a k IH | k IH]; intros st Hnd Harm;
    cbn [run_handler]; cbn [no_timer_delete] in Hnd.
  - exact Harm.
  - destruct Hnd as [Ha Hk]. apply IH; [exact Hk |].
    apply armed_in_heap_do_action; [exact Ha |].
    apply (armed_in_heap_frame st); [reflexivity | reflexivity | exact Harm].
  - apply (IH st st (Hnd st) Harm).
Qed.

Lemma armed_in_heap_change_fixup tim s st :
  armed_in_heap st -> armed_in_heap (heap_fixup tim (set_m_state tim s st)).
Proof.
  intros Harm x. cbn [heap_fixup set_timer_heap timers m_timer_heap].
  rewrite timers_set_m_state, In_fixup.
  destruct (decide (tim = x)) as [-> | Hne]; [auto |].
  intros Hx. right. apply Harm. exact Hx.
Qed.

Lemma armed_in_heap_prepare_timers_for_dispatch now st :
  armed_in_heap st -> armed_in_heap (prepare_timers_for_dispatch now st).
Proof.
  intros Harm x Hx.
  pose proof (prepare_timers_for_dispatch_spec now st) as H. cbv zeta in H.
  destruct H as (_ & Hrest & _ & Hheap & _). rewrite Hheap.
  destruct (in_dec Nat.eq_dec x (m_timer_heap st)) as [Hin | Hnin]; [exact Hin |].
  apply Harm. rewrite <- Hrest; [exact Hx | tauto].
Qed.

Lemma armed_in_heap_dispatch_timers E fuel st b st' :
  (forall tim, no_timer_delete (handleTimerExpired E tim)) ->
  armed_in_heap st -> dispatch_timers E fuel st = Some (b, st') -> armed_in_heap st'.
Proof.
  intros Henv. revert st. induction fuel as [| fuel IH]; intros st Harm; [discriminate |].
  cbn [dispatch_timers].
  destruct (LinkedHeap.first (m_timer_heap st)) as [tim |]; [| intros [= <- <-]; exact Harm].
  destruct (negb _); [intros [= <- <-]; exact Harm |].
  assert (Harm' : armed_in_heap (run_handler E (handleTimerExpired E tim)
                    (observe (EvTimerExpired tim)
                       (heap_fixup tim (set_m_state tim TempUnset st))))).
  { apply armed_in_heap_run_handler; [apply Henv |].
    apply (armed_in_heap_frame (heap_fixup tim (set_m_state tim TempUnset st)));
      [reflexivity | reflexivity |].
    apply armed_in_heap_change_fixup. exact Harm. }
  destruct (m_stop _); [intros [= <- <-]; exact Harm' | apply IH; exact Harm'].
Qed.

Lemma armed_in_heap_prepare_timers_for_wait_loop fuel first_time st r :
  armed_in_heap st -> prepare_timers_for_wait_loop fuel first_time st = Some r ->
  armed_in_heap (snd r).
Proof.
  revert st. induction fuel as [| fuel IH]; intros st Harm; [discriminate |].
  cbn [prepare_timers_for_wait_loop].
  destruct (LinkedHeap.first (m_timer_heap st)) as [tim |]; [| intros [= <-]; exact Harm].
  destruct (bool_decide _).
  { apply IH. intros x.
    cbn [set_m_state set_timers heap_remove set_timer_heap m_timer_heap timers].
    rewrite In_remove. unfold insert, fn_insert.
    destruct (decide (tim = x)) as [<- | Hne]; cbn [m_state]; [congruence |].
    intros Hx. split; [apply Harm; exact Hx | congruence]. }
  destruct (bool_decide _).
  { apply IH. apply armed_in_heap_change_fixup. exact Harm. }
  intros [= <-]. exact Harm.
Qed.

Lemma armed_in_heap_run_iteration E fuel it st r :
  env_no_timer_delete E ->
  armed_in_heap st -> run_iteration E fuel it st = Some r ->
  armed_in_heap (match r with inl s | inr s => s end).
Proof.
  intros (Ht & Hs & Hf) Harm. unfold run_iteration.
  assert (H1 : armed_in_heap (prepare_timers_for_dispatch
                 (m_event_time (set_event_time (it_now it) (observe (EvGetTime (it_now it)) st)))
                 (set_event_time (it_now it) (observe (EvGetTime (it_now it)) st)))).
  { apply armed_in_heap_prepare_timers_for_dispatch.
    apply (armed_in_heap_frame st); [reflexivity | reflexivity | exact Harm]. }
  revert H1. generalize (prepare_timers_for_dispatch
                 (m_event_time (set_event_time (it_now it) (observe (EvGetTime (it_now it)) st)))
                 (set_event_time (it_now it) (observe (EvGetTime (it_now it)) st))).
  intros st1 H1.
  assert (Hphase : forall st2 b st3,
            armed_in_heap st2 -> dispatchEvents E fuel (it_ready it) st2 = Some (b, st3) ->
            armed_in_heap st3).
  { intros st2 b st3.
    apply (phase_dispatchEvents E armed_in_heap armed_in_heap_frame).
    - intros w events s. apply armed_in_heap_run_handler. apply Hf.
    - intros sig s. apply armed_in_heap_run_handler. apply Hs. }
  destruct (dispatch_timers E fuel st1) as [[[|] st2] |] eqn:Hdt; [| | discriminate].
  - pose proof (armed_in_heap_dispatch_timers E fuel st1 _ _ Ht H1 Hdt) as H2.
    destruct (dispatchEvents E fuel (it_ready it) st2) as [[[|] st3] |] eqn:Hde;
      [| | discriminate].
    + pose proof (Hphase st2 _ st3 H2 Hde) as H3.
      unfold prepare_timers_for_wait.
      destruct (prepare_timers_for_wait_loop fuel (time_max E) st3) as [[t st4] |] eqn:Hpw;
        [| discriminate].
      intros [= <-].
      apply (phase_waitForEvents armed_in_heap armed_in_heap_frame).
      apply (armed_in_heap_frame st4); [reflexivity | reflexivity |].
      apply (armed_in_heap_prepare_timers_for_wait_loop fuel (time_max E) st3 (t, st4) H3 Hpw).
    + intros [= <-]. apply (Hphase st2 _ st3 H2 Hde).
  - intros [= <-]. apply (armed_in_heap_dispatch_timers E fuel st1 _ _ Ht H1 Hdt).
Qed.

Lemma armed_in_heap_run_loop E fuel its st :
  env_no_timer_delete E -> armed_in_heap st ->
  match run_loop E fuel its st with
  | Returned s | Running s => armed_in_heap s
  | OutOfFuel => True
  end.
Proof.
  intros Henv. revert st. induction its as [| it its IH]; intros st Harm; cbn [run_loop];
    [exact Harm |].
  destruct (run_iteration E fuel it st) as [[s | s] |] eqn:Hit; [| | exact I].
  - apply (armed_in_heap_run_iteration E fuel it st (inl s) Henv Harm Hit).
  - apply IH. apply (armed_in_heap_run_iteration E fuel it st (inr s) Henv Harm Hit).
Qed.

Lemma armed_isSet st x :
  armed_in_heap st -> isSet (timers st x) = true -> In x (m_timer_heap st).
Proof.
  intros Harm Hset. apply Harm. intros Hs. unfold isSet in Hset. rewrite Hs in Hset.
  discriminate Hset.
Qed.

(** X23: every timer that is not [Idle], and so every set timer, is in
    the heap, as long as no timer is destroyed: this holds in a new loop,
    every call of user code but the destructor of a timer keeps it, and so
    does [run] with handlers that destroy no timer; together with no
    timer of the heap being [Idle], the timers of the heap are exactly the
    timers that are not [Idle]. *)
Theorem set_timers_are_in_heap (E : Env) (fuel : nat) (its : list Iteration)
    (st : EventLoop) (Henv : env_no_timer_delete E)
    (Hinv : heap_inv st) (Harm : armed_in_heap st) :
  (forall time_max now, armed_in_heap (EventLoop_new time_max now))
  /\ (forall x, In x (m_timer_heap st) <-> m_state (timers st x) <> Idle)
  /\ (forall x, isSet (timers st x) = true -> In x (m_timer_heap st))
  /\ (forall a, (forall tim, a <> A_timer_delete tim) -> armed_in_heap (do_action E a st))
  /\ match run E fuel its st with
     | Returned s | Running s =>
         forall x, In x (m_timer_heap s) <-> m_state (timers s x) <> Idle
     | OutOfFuel => True
     end.
Proof.
  split; [exact armed_in_heap_new |].
  split; [intros x; split; [apply Hinv | apply Harm] |].
  split; [intros x; apply armed_isSet; exact Harm |].
  split; [intros a Ha; apply armed_in_heap_do_action; assumption |].
  assert (Hinv' : match run E fuel its st with
                  | Returned s | Running s => heap_inv s
                  | OutOfFuel => True
                  end).
  { unfold run. destruct (m_stop st); [exact Hinv | apply heap_inv_run_loop; exact Hinv]. }
  assert (Harm' : match run E fuel its st with
                  | Returned s | Running s => armed_in_heap s
                  | OutOfFuel => True
                  end).
  { unfold run. destruct (m_stop st); [exact Harm | apply armed_in_heap_run_loop; assumption]. }
  destruct (run E fuel its st) as [s | s |]; [| | exact I];
    intros x; split; [apply Hinv' | apply Harm' | apply Hinv' | apply Harm'].
Qed.

Lemma set_timers_are_in_heap_example :
  env_no_timer_delete ex_env /\ heap_inv ex_three_timers /\ armed_in_heap ex_three_timers
  /\ ((forall time_max now, armed_in_heap (EventLoop_new time_max now))
      /\ (forall x, In x (m_timer_heap ex_three_timers) <->
                    m_state (timers ex_three_timers x) <> Idle)
      /\ (forall x, isSet (timers ex_three_timers x) = true ->
                    In x (m_timer_heap ex_three_timers))
      /\ (forall a, (forall tim, a <> A_timer_delete tim) ->
                    armed_in_heap (do_action ex_env a ex_three_timers))
      /\ match run ex_env 5 [ex_iteration_1; ex_iteration_2] ex_three_timers with
         | Returned s | Running s =>
             forall x, In x (m_timer_heap s) <-> m_state (timers s x) <> Idle
         | OutOfFuel => True
         end).
Proof.
  assert (Henv : env_no_timer_delete ex_env).
  { split; [| split].
    - intros tim. destruct tim as [| [| [| [| [| tim]]]]]; cbn; repeat split; discriminate.
    - intros sig. destruct sig as [| [| [| sig]]]; cbn; repeat split; discriminate.
    - intros w events. exact I. }
  assert (Hinv : heap_inv ex_three_timers).
  { split.
    - vm_compute. repeat constructor; cbn [In]; lia.
    - intros tim Hin. vm_compute in Hin.
      destruct Hin as [<- | [<- | [<- | []]]]; vm_compute; discriminate. }
  assert (Harm : armed_in_heap ex_three_timers).
  { intros x Hx. destruct x as [| [| [| [| [| [| x]]]]]];
      vm_compute in Hx; vm_compute; try (contradiction Hx; reflexivity); auto. }
  split; [exact Henv |]. split; [exact Hinv |]. split; [exact Harm |].
  apply (set_timers_are_in_heap ex_env 5 [ex_iteration_1; ex_iteration_2] ex_three_timers
           Henv Hinv Harm).
Defined.

(** ** The lists from iteration to iteration *)

Lemma lists_wf_dispatch_async_signals E fuel st pending b st' :
  lists_wf st pending [] -> dispatch_async_signals E fuel st = Some (b, st') ->
  exists pending' dispatch', lists_wf st' pending' dispatch' /\ (b = true -> dispatch' = []).
Proof.
  intros Hwf Hrun.
  destruct (dispatch_async_signals_spec E (Nat.max fuel (S (length pending))) st pending Hwf)
    as (b0 & st0 & _ & pending' & dispatch' & Hrun0 & _ & Hwf' & _ & Hbt & _); [lia |].
  assert (Hsame : dispatch_async_signals E (Nat.max fuel (S (length pending))) st
                  = Some (b, st')).
  { revert Hrun. unfold dispatch_async_signals.
    destruct (AsyncSignalList.isLonely _ _); [auto |]. cbv zeta.
    intros Hrun. apply (dispatch_async_signals_loop_fuel E fuel); [exact Hrun | lia]. }
  rewrite Hsame in Hrun0. injection Hrun0 as <- <-.
  exists pending', dispatch'. split; [exact Hwf' | exact Hbt].
Qed.

Lemma lists_wf_run_iteration E fuel it st pending r :
  lists_wf st pending [] -> run_iteration E fuel it st = Some r ->
  match r with
  | inl s => exists pending' dispatch', lists_wf s pending' dispatch'
  | inr s => exists pending', lists_wf s pending' []
  end.
Proof.
  intros Hwf. unfold run_iteration.
  pose proof (prepare_timers_for_dispatch_spec
                (m_event_time (set_event_time (it_now it) (observe (EvGetTime (it_now it)) st)))
                (set_event_time (it_now it) (observe (EvGetTime (it_now it)) st))) as Hp.
  cbv zeta in Hp. destruct Hp as (_ & _ & _ & _ & _ & Hn & Hpv & _).
  assert (H1 : lists_wf (prepare_timers_for_dispatch
                 (m_event_time (set_event_time (it_now it) (observe (EvGetTime (it_now it)) st)))
                 (set_event_time (it_now it) (observe (EvGetTime (it_now it)) st))) pending []).
  { revert Hwf. apply lists_wf_frame; assumption. }
  clear Hn Hpv.
  revert H1. generalize (prepare_timers_for_dispatch
                 (m_event_time (set_event_time (it_now it) (observe (EvGetTime (it_now it)) st)))
                 (set_event_time (it_now it) (observe (EvGetTime (it_now it)) st))).
  intros st1 H1.
  destruct (dispatch_timers E fuel st1) as [[[|] st2] |] eqn:Hdt; [| | discriminate].
  - destruct (dispatch_timers_lists E fuel st1 _ _ pending H1 Hdt) as (pending2 & H2).
    unfold dispatchEvents.
    assert (H2' : lists_wf (observe EvDispatchEvents st2) pending2 []).
    { revert H2. apply lists_wf_frame; reflexivity. }
    destruct (dispatch_fd_events_spec E (it_ready it) _ pending2 H2')
      as (_ & pending3 & _ & _ & H3 & _).
    destruct (dispatch_fd_events E (it_ready it) (observe EvDispatchEvents st2))
      as [[|] st3]; cbn [snd] in H3.
    + destruct (dispatch_async_signals E fuel st3) as [[[|] st4] |] eqn:Has;
        [| | discriminate].
      * destruct (lists_wf_dispatch_async_signals E fuel st3 pending3 _ _ H3 Has)
          as (pending4 & dispatch4 & H4 & Hd4).
        rewrite (Hd4 eq_refl) in H4.
        unfold prepare_timers_for_wait.
        destruct (prepare_timers_for_wait_loop fuel (time_max E) st4) as [[t st5] |] eqn:Hpw;
          [| discriminate].
        intros [= <-].
        destruct (prepare_timers_for_wait_loop_links fuel (time_max E) st4 _ Hpw) as [Hn5 Hp5].
        cbn [snd] in Hn5, Hp5.
        assert (H5 : lists_wf (observe (EvWaitForEvents
                                  {| wait_time := t;
                                     wait_time_changed := negb (t =? m_last_wait_time st5) |})
                                 (set_last_wait_time t st5)) pending4 []).
        { revert H4. apply lists_wf_frame; assumption. }
        pose proof (raise_signals_spec (it_raised it) _ pending4 H5) as H6. cbv zeta in H6.
        destruct H6 as (_ & pending6 & _ & _ & H6 & _).
        exists pending6. exact H6.
      * intros [= <-].
        destruct (lists_wf_dispatch_async_signals E fuel st3 pending3 _ _ H3 Has)
          as (pending4 & dispatch4 & H4 & _).
        exists pending4, dispatch4. exact H4.
    + intros [= <-]. exists pending3, []. exact H3.
  - intros [= <-]. destruct (dispatch_timers_lists E fuel st1 _ _ pending H1 Hdt) as (p & H2).
    exists p, []. exact H2.
Qed.

Lemma lists_wf_run_loop E fuel its st pending :
  lists_wf st pending [] ->
  match run_loop E fuel its st with
  | Returned s => exists pending' dispatch', lists_wf s pending' dispatch'
  | Running s => exists pending', lists_wf s pending' []
  | OutOfFuel => True
  end.
Proof.
  revert st pending. induction its as [| it its IH]; intros st pending Hwf; cbn [run_loop].
  - exists pending. exact Hwf.
  - destruct (run_iteration E fuel it st) as [[s | s] |] eqn:Hit; [| | exact I].
    + apply (lists_wf_run_iteration E fuel it st pending (inl s) Hwf Hit).
    + destruct (lists_wf_run_iteration E fuel it st pending (inr s) Hwf Hit) as (p & Hs).
      apply (IH s p Hs).
Qed.

(** X24: the two signal lists stay well formed: circular, doubly linked,
    no signal on them twice, and every signal that is on neither marked
    removed.  This holds in a new loop, every handler keeps it, with the
    dispatch list empty outside [dispatch_async_signals], and so does
    [run]: the dispatch list is empty after every iteration that does not
    return. *)
Theorem lists_wf_preserved (E : Env) (fuel : nat) (its : list Iteration)
    (st : EventLoop) (pending : list nat) (Hwf : lists_wf st pending []) :
  (forall time_max now, lists_wf (EventLoop_new time_max now) [] [])
  /\ (forall h, exists pending', lists_wf (run_handler E h st) pending' [])
  /\ match run E fuel its st with
     | Returned s => exists pending' dispatch', lists_wf s pending' dispatch'
     | Running s => exists pending', lists_wf s pending' []
     | OutOfFuel => True
     end.
Proof.
  split; [exact lists_wf_new |].
  split.
  - intros h. destruct (run_handler_lists E h st pending [] Hwf)
      as (pending' & dispatch' & _ & Hwf' & _ & _ & Hincl & _).
    exists pending'. destruct dispatch' as [| x d]; [exact Hwf' |].
    destruct (Hincl x (or_introl eq_refl)).
  - unfold run. destruct (m_stop st).
    + exists pending, []. exact Hwf.
    + apply (lists_wf_run_loop E fuel its st pending Hwf).
Qed.

Lemma lists_wf_preserved_example :
  lists_wf ex_busy [2%nat; 3%nat] []
  /\ ((forall time_max now, lists_wf (EventLoop_new time_max now) [] [])
      /\ (forall h, exists pending', lists_wf (run_handler ex_env h ex_busy) pending' [])
      /\ match run ex_env 5 [ex_iteration_1; ex_iteration_2] ex_busy with
         | Returned s => exists pending' dispatch', lists_wf s pending' dispatch'
         | Running s => exists pending', lists_wf s pending' []
         | OutOfFuel => True
         end).
Proof.
  assert (Hwf : lists_wf ex_busy [2%nat; 3%nat] []).
  { unfold lists_wf, ring. cbn [map rev app path].
    split; [split; vm_compute; auto |]. split; [split; vm_compute; auto |].
    split; [repeat constructor; cbn [In]; lia |].
    intros sig Hs.
    destruct sig as [| [| [| [| sig]]]]; try reflexivity;
      exfalso; apply Hs; cbn [In]; auto. }
  split; [exact Hwf |].
  apply (lists_wf_preserved ex_env 5 [ex_iteration_1; ex_iteration_2] ex_busy
           [2%nat; 3%nat] Hwf).
Defined.

Lemma Permutation_insert mem tim h :
  Permutation (LinkedHeap.insert mem tim h) (tim :: h).
Proof.
  induction h as [| y h IH]; cbn [LinkedHeap.insert]; [reflexivity |].
  destruct (_ <? 0); [reflexivity |].
  etransitivity; [apply perm_skip, IH | apply perm_swap].
Qed.

Lemma Permutation_fixup mem tim h :
  Permutation (LinkedHeap.fixup mem tim h) (tim :: LinkedHeap.remove tim h).
Proof. apply Permutation_insert. Qed.

Lemma remove_fixup mem tim h :
  LinkedHeap.remove tim (LinkedHeap.fixup mem tim h) = LinkedHeap.remove tim h.
Proof. unfold LinkedHeap.fixup. apply remove_insert, heap_remove_not_elem. Qed.

Lemma key_le_antisym a b : key_le a b -> key_le b a -> a = b.
Proof.
  destruct a, b. unfold key_le. cbn [fst snd]. intros H1 H2. f_equal; lia.
Qed.

(** Two ordered heaps with the same nodes have roots with the same key. *)
Lemma heap_sorted_root_key mem h h' :
  heap_sorted mem h -> heap_sorted mem h' -> Permutation h h' ->
  option_map (fun x => entry_key (mem x)) (LinkedHeap.first h)
  = option_map (fun x => entry_key (mem x)) (LinkedHeap.first h').
Proof.
  intros Hs Hs' Hp.
  destruct h as [| x h], h' as [| y h'].
  - reflexivity.
  - apply Permutation_nil in Hp. discriminate Hp.
  - symmetry in Hp. apply Permutation_nil in Hp. discriminate Hp.
  - cbn [LinkedHeap.first head option_map]. f_equal.
    destruct (Nat.eq_dec x y) as [-> | Hne]; [reflexivity |].
    destruct Hs as [Hx _], Hs' as [Hy _].
    apply key_le_antisym.
    + apply Hx.
      assert (Hin : In y (x :: h)).
      { apply (Permutation_in _ (Permutation_sym Hp)). left. reflexivity. }
      destruct Hin as [Heq | Hin]; [contradiction | exact Hin].
    + apply Hy.
      assert (Hin : In x (y :: h')).
      { apply (Permutation_in _ Hp). left. reflexivity. }
      destruct Hin as [Heq | Hin]; [congruence | exact Hin].
Qed.

Lemma same_up_to_ties_root_key st st' :
  same_up_to_ties st st' -> heap_ok st -> heap_ok st' -> root_key st = root_key st'.
Proof.
  intros (Ht & _ & _ & _ & Hp & _) [_ Hs] [_ Hs'].
  unfold root_key.
  assert (Hs'' : heap_sorted (timers st) (m_timer_heap st')).
  { revert Hs'. apply heap_sorted_ext. intros x _. rewrite Ht. reflexivity. }
  rewrite (heap_sorted_root_key _ _ _ Hs Hs'' Hp).
  destruct (LinkedHeap.first (m_timer_heap st')) as [x |]; [| reflexivity].
  cbn [option_map]. rewrite Ht. reflexivity.
Qed.

(** ** Setting a timer twice, setting a timer that was unset, and a new
    signal *)

(** X5: a second [setAt] overrides the first: [setAt t1] followed by
    [setAt t2] leaves every timer and the rest of the loop as [setAt t2]
    alone does, and the heap with the same nodes, for a timer that is not
    in the heap while it is [Idle].  When the heap was in order before, it
    is in order after both, and the key of its root, the state class and
    the deadline of the timer that is first to fire, is the same; only the
    places of nodes with equal keys may differ. *)
Theorem setAt_setAt (time1 time2 : EventLoopTime) (tim : nat) (st : EventLoop)
    (Hidle : m_state (timers st tim) = Idle -> ~ In tim (m_timer_heap st)) :
  same_up_to_ties (setAt time2 tim (setAt time1 tim st)) (setAt time2 tim st)
  /\ (heap_ok st ->
      heap_ok (setAt time2 tim (setAt time1 tim st))
      /\ heap_ok (setAt time2 tim st)
      /\ root_key (setAt time2 tim (setAt time1 tim st))
         = root_key (setAt time2 tim st)).
Proof.
  assert (Hsame : same_up_to_ties (setAt time2 tim (setAt time1 tim st))
                                  (setAt time2 tim st)).
  { pose proof (setAt_effect time1 tim st) as H1. cbv zeta in H1.
    destruct H1 as (_ & Hs1 & Ho1 & Hstop1 & Het1 & Hlw1 & Hc1 & Hn1 & Hp1 & Hf1).
    pose proof (setAt_effect time2 tim (setAt time1 tim st)) as H12. cbv zeta in H12.
    destruct H12 as (Ht12 & Hs12 & Ho12 & Hstop12 & Het12 & Hlw12 & Hc12 & Hn12 & Hp12 & Hf12).
    pose proof (setAt_effect time2 tim st) as H2. cbv zeta in H2.
    destruct H2 as (Ht2 & Hs2 & Ho2 & Hstop2 & Het2 & Hlw2 & Hc2 & Hn2 & Hp2 & Hf2).
    assert (Htimers : forall x, timers (setAt time2 tim (setAt time1 tim st)) x
                                = timers (setAt time2 tim st) x).
    { intros x. destruct (Nat.eq_dec x tim) as [-> | Hne].
      - apply timer_eq; [congruence |].
        destruct (m_state (timers st tim));
          destruct Hs1 as [Hs1 _]; rewrite Hs1 in Hs12;
          destruct Hs12 as [-> _]; destruct Hs2 as [-> _]; reflexivity.
      - rewrite (Ho12 x Hne), (Ho1 x Hne), (Ho2 x Hne). reflexivity. }
    unfold same_up_to_ties.
    split; [exact Htimers |].
    split; [intros w; congruence |].
    split; [intros n; congruence |].
    split; [intros n; congruence |].
    split; [| repeat split; congruence].
    destruct (m_state (timers st tim)) eqn:Hstate;
      destruct Hs1 as [Hs1 Hh1]; rewrite Hs1 in Hs12;
      destruct Hs12 as [_ Hh12]; destruct Hs2 as [_ Hh2];
      rewrite Hh12, Hh2, ?Hh1; try reflexivity.
    - etransitivity; [apply Permutation_fixup |].
      rewrite remove_insert by auto. symmetry. apply Permutation_insert.
    - etransitivity; [apply Permutation_fixup |].
      rewrite remove_fixup. symmetry. apply Permutation_fixup.
    - etransitivity; [apply Permutation_fixup |].
      rewrite remove_fixup. symmetry. apply Permutation_fixup. }
  split; [exact Hsame |].
  intros Hok.
  assert (Hok1 : heap_ok (setAt time2 tim (setAt time1 tim st)))
    by (apply heap_ok_setAt, heap_ok_setAt, Hok).
  assert (Hok2 : heap_ok (setAt time2 tim st)) by (apply heap_ok_setAt, Hok).
  split; [exact Hok1 |]. split; [exact Hok2 |].
  apply same_up_to_ties_root_key; assumption.
Qed.

(** Timer 4 is moved to the deadline 5 that timer 2 has. *)
Lemma setAt_setAt_example :
  (m_state (timers ex_three_timers 4%nat) = Idle -> ~ In 4%nat (m_timer_heap ex_three_timers))
  /\ heap_ok ex_three_timers
  /\ same_up_to_ties (setAt 5 4 (setAt 60 4 ex_three_timers)) (setAt 5 4 ex_three_timers)
  /\ (heap_ok ex_three_timers ->
      heap_ok (setAt 5 4 (setAt 60 4 ex_three_timers))
      /\ heap_ok (setAt 5 4 ex_three_timers)
      /\ root_key (setAt 5 4 (setAt 60 4 ex_three_timers))
         = root_key (setAt 5 4 ex_three_timers)).
Proof.
  assert (H : m_state (timers ex_three_timers 4%nat) = Idle ->
              ~ In 4%nat (m_timer_heap ex_three_timers)).
  { vm_compute. discriminate. }
  split; [exact H |].
  split.
  { split; [split |].
    - vm_compute. repeat constructor; cbn [In]; lia.
    - intros tim Hin. vm_compute in Hin.
      destruct Hin as [<- | [<- | [<- | []]]]; vm_compute; discriminate.
    - vm_compute. repeat split; intros y Hy;
        repeat (destruct Hy as [<- | Hy]); try contradiction; vm_compute;
        first [left; reflexivity | right; split; [reflexivity | discriminate]]. }
  apply (setAt_setAt 60 5 4 ex_three_timers). exact H.
Defined.

(** X25: [setAt] makes an [unset] before it redundant: [unset] followed by
    [setAt t] leaves every timer and the rest of the loop as [setAt t]
    alone does, and the heap with the same nodes, whatever the state of the
    timer.  When the heap was in order before, it is in order after both,
    and the key of its root is the same; only the places of nodes with
    equal keys may differ. *)
Theorem unset_setAt :
  forall time tim st,
    same_up_to_ties (setAt time tim (unset tim st)) (setAt time tim st)
    /\ (heap_ok st ->
        heap_ok (setAt time tim (unset tim st))
        /\ heap_ok (setAt time tim st)
        /\ root_key (setAt time tim (unset tim st)) = root_key (setAt time tim st)).
Proof.
  intros time tim st.
  assert (Hsame : same_up_to_ties (setAt time tim (unset tim st)) (setAt time tim st)).
  { pose proof (unset_effect tim st) as Hu. cbv zeta in Hu.
    destruct Hu as (_ & Hus & Huo & _).
    pose proof (setAt_effect time tim (unset tim st)) as H12. cbv zeta in H12.
    destruct H12 as (Ht12 & Hs12 & Ho12 & Hstop12 & Het12 & Hlw12 & Hc12 & Hn12 & Hp12 & Hf12).
    pose proof (setAt_effect time tim st) as H2. cbv zeta in H2.
    destruct H2 as (Ht2 & Hs2 & Ho2 & Hstop2 & Het2 & Hlw2 & Hc2 & Hn2 & Hp2 & Hf2).
    assert (Hrest : m_stop (unset tim st) = m_stop st
                    /\ m_event_time (unset tim st) = m_event_time st
                    /\ m_last_wait_time (unset tim st) = m_last_wait_time st
                    /\ calls (unset tim st) = calls st
                    /\ link_next (unset tim st) = link_next st
                    /\ link_prev (unset tim st) = link_prev st
                    /\ fd_watchers (unset tim st) = fd_watchers st).
    { unfold unset.
      repeat match goal with |- context [if ?b then _ else _] => destruct b end;
        repeat split. }
    destruct Hrest as (Hr1 & Hr2 & Hr3 & Hr4 & Hr5 & Hr6 & Hr7).
    assert (Htimers : forall x, timers (setAt time tim (unset tim st)) x
                                = timers (setAt time tim st) x).
    { intros x. destruct (Nat.eq_dec x tim) as [-> | Hne].
      - apply timer_eq; [congruence |].
        destruct (m_state (timers st tim));
          destruct Hus as [Hus _]; rewrite Hus in Hs12;
          destruct Hs12 as [-> _]; destruct Hs2 as [-> _]; reflexivity.
      - rewrite (Ho12 x Hne), (Huo x Hne), (Ho2 x Hne). reflexivity. }
    unfold same_up_to_ties.
    split; [exact Htimers |].
    split; [intros w; congruence |].
    split; [intros n; congruence |].
    split; [intros n; congruence |].
    split; [| repeat split; congruence].
    destruct (m_state (timers st tim)) eqn:Hstate;
      destruct Hus as [Hus Hhu]; rewrite Hus in Hs12;
      destruct Hs12 as [_ Hh12]; destruct Hs2 as [_ Hh2];
      rewrite Hh12, Hh2, ?Hhu; try reflexivity.
    - etransitivity; [apply Permutation_insert |]. symmetry. apply Permutation_insert.
    - etransitivity; [apply Permutation_insert |]. symmetry. apply Permutation_fixup.
    - etransitivity; [apply Permutation_insert |]. symmetry. apply Permutation_fixup. }
  split; [exact Hsame |].
  intros Hok.
  assert (Hok1 : heap_ok (setAt time tim (unset tim st)))
    by (apply heap_ok_setAt, heap_ok_unset, Hok).
  assert (Hok2 : heap_ok (setAt time tim st)) by (apply heap_ok_setAt, Hok).
  split; [exact Hok1 |]. split; [exact Hok2 |].
  apply same_up_to_ties_root_key; assumption.
Qed.

(** Timer 4, which is set at 6, is unset and set at the deadline 5 that
    timer 2 has. *)
Lemma unset_setAt_example :
  heap_ok ex_three_timers
  /\ same_up_to_ties (setAt 5 4 (unset 4 ex_three_timers)) (setAt 5 4 ex_three_timers)
  /\ (heap_ok ex_three_timers ->
      heap_ok (setAt 5 4 (unset 4 ex_three_timers))
      /\ heap_ok (setAt 5 4 ex_three_timers)
      /\ root_key (setAt 5 4 (unset 4 ex_three_timers))
         = root_key (setAt 5 4 ex_three_timers)).
Proof.
  split.
  { split; [split |].
    - vm_compute. repeat constructor; cbn [In]; lia.
    - intros tim Hin. vm_compute in Hin.
      destruct Hin as [<- | [<- | [<- | []]]]; vm_compute; discriminate.
    - vm_compute. repeat split; intros y Hy;
        repeat (destruct Hy as [<- | Hy]); try contradiction; vm_compute;
        first [left; reflexivity | right; split; [reflexivity | discriminate]]. }
  apply (unset_setAt 5 4%nat ex_three_timers).
Defined.

Lemma lists_wf_signal_new st pending dispatch sig :
  lists_wf st pending dispatch -> ~ In sig (pending ++ dispatch) ->
  lists_wf (signal_new sig st) pending dispatch.
Proof.
  intros (Hrp & Hrd & Hnd & Hrem) Hnew.
  assert (Hout : forall h l, is_head h -> (forall s, In s l -> In s (pending ++ dispatch)) ->
            forall x, In x (h :: map asig l) ->
              link_next (signal_new sig st) x = link_next st x
              /\ link_prev (signal_new sig st) x = link_prev st x).
  { intros h l Hh Hl x Hx. unfold signal_new.
    destruct (markRemoved_links (asig sig) st) as [-> ->]. split; [| reflexivity].
    apply fn_lookup_insert_ne. intros <-.
    destruct Hx as [Heq | Hx]; [exact (Hh sig Heq) |].
    apply In_map_asig in Hx. apply Hnew, Hl, Hx. }
  split; [| split; [| split; [exact Hnd |]]].
  - revert Hrp. apply ring_frame. apply Hout; [apply is_head_pending |].
    intros s Hs. apply in_or_app. left. exact Hs.
  - revert Hrd. apply ring_frame. apply Hout; [apply is_head_dispatch |].
    intros s Hs. apply in_or_app. right. exact Hs.
  - intros s Hs. unfold signal_new.
    destruct (markRemoved_links (asig sig) st) as [-> _].
    unfold insert, fn_insert. destruct (decide (asig sig = asig s)) as [Heq | Hne];
      [exact Heq | apply Hrem; exact Hs].
Qed.

(** X26: a new signal is on neither list: the constructor leaves both
    lists as they are and the signal marked removed, so that [reset] and
    the destructor do nothing; the first [signal] appends the signal to
    the pending list and wakes the provider exactly when that list was
    empty. *)
Theorem signal_new_not_queued (st : EventLoop) (pending dispatch : list nat) (sig : nat)
    (Hwf : lists_wf st pending dispatch) (Hnew : ~ In sig (pending ++ dispatch)) :
  lists_wf (signal_new sig st) pending dispatch
  /\ AsyncSignalList.isRemoved (asig sig) (signal_new sig st) = true
  /\ signal_reset sig (signal_new sig st) = signal_new sig st
  /\ signal_delete sig (signal_new sig st) = signal_new sig st
  /\ lists_wf (signal sig (signal_new sig st)) (pending ++ [sig]) dispatch
  /\ calls (signal sig (signal_new sig st))
     = calls st ++ (if pending is [] then [EvWakeup] else []).
Proof.
  pose proof (lists_wf_signal_new st pending dispatch sig Hwf Hnew) as Hwf'.
  assert (Hrem : AsyncSignalList.isRemoved (asig sig) (signal_new sig st) = true).
  { apply (lists_wf_isRemoved _ _ _ sig Hwf'). exact Hnew. }
  assert (Hreset : signal_reset sig (signal_new sig st) = signal_new sig st).
  { unfold signal_reset. rewrite Hrem. reflexivity. }
  split; [exact Hwf' |]. split; [exact Hrem |]. split; [exact Hreset |].
  split; [exact Hreset |].
  exact (signal_removed (signal_new sig st) pending dispatch sig Hwf' Hnew).
Qed.

Lemma signal_new_not_queued_example :
  lists_wf ex_reset_batch [2%nat; 3%nat] [] /\ ~ In 1%nat ([2%nat; 3%nat] ++ [])
  /\ (lists_wf (signal_new 1 ex_reset_batch) [2%nat; 3%nat] []
      /\ AsyncSignalList.isRemoved (asig 1) (signal_new 1 ex_reset_batch) = true
      /\ signal_reset 1 (signal_new 1 ex_reset_batch) = signal_new 1 ex_reset_batch
      /\ signal_delete 1 (signal_new 1 ex_reset_batch) = signal_new 1 ex_reset_batch
      /\ lists_wf (signal 1 (signal_new 1 ex_reset_batch)) ([2%nat; 3%nat] ++ [1%nat]) []
      /\ calls (signal 1 (signal_new 1 ex_reset_batch))
         = calls ex_reset_batch ++ (if [2%nat; 3%nat] is [] then [EvWakeup] else [])).
Proof.
  assert (Hwf : lists_wf ex_reset_batch [2%nat; 3%nat] []).
  { unfold lists_wf, ring. cbn [map rev app path].
    split; [split; vm_compute; auto |]. split; [split; vm_compute; auto |].
    split; [repeat constructor; cbn [In]; lia |].
    intros sig Hs.
    destruct sig as [| [| [| [| sig]]]]; try reflexivity;
      exfalso; apply Hs; cbn [In]; auto. }
  assert (Hnew : ~ In 1%nat ([2%nat; 3%nat] ++ [])).
  { cbn [app In]. lia. }
  split; [exact Hwf |]. split; [exact Hnew |].
  apply (signal_new_not_queued ex_reset_batch [2%nat; 3%nat] [] 1 Hwf Hnew).
Defined.

(** ** Stopping at once *)

Lemma do_action_calls_not_call E a st :
  exists tr, calls (do_action E a st) = calls st ++ tr
             /\ Forall (fun e => is_user_event e = true) tr
             /\ existsb is_stop_call tr = false.
Proof.
  assert (Hnil : exists tr : list Event, calls st = calls st ++ tr
             /\ Forall (fun e => is_user_event e = true) tr
             /\ existsb is_stop_call tr = false).
  { exists []. rewrite app_nil_r. repeat split; constructor. }
  assert (Hone : forall e, is_user_event e = true -> is_stop_call e = false ->
             exists tr : list Event, calls st ++ [e] = calls st ++ tr
             /\ Forall (fun e => is_user_event e = true) tr
             /\ existsb is_stop_call tr = false).
  { intros e He Ha. exists [e]. repeat split; [repeat constructor; exact He |].
    cbn [existsb]. rewrite Ha. reflexivity. }
  destruct a; cbn [do_action].
  - exact Hnil.
  - pose proof (unset_effect tim st) as H. cbv zeta in H.
    destruct H as (_ & _ & _ & -> & _). exact Hnil.
  - pose proof (setAt_effect time tim st) as H. cbv zeta in H.
    destruct H as (_ & _ & _ & _ & _ & _ & -> & _). exact Hnil.
  - unfold setAfter.
    pose proof (setAt_effect (EventLoopTime_add (time_max E) (getEventTime st) duration) tim st)
      as H. cbv zeta in H.
    destruct H as (_ & _ & _ & _ & _ & _ & -> & _). exact Hnil.
  - unfold timer_delete. destruct (negb _); exact Hnil.
  - unfold signal. destruct (AsyncSignalList.isRemoved _ _); [| exact Hnil].
    cbv zeta. destruct (AsyncSignalList.isLonely _ _); [| exact Hnil].
    apply (Hone EvWakeup); reflexivity.
  - unfold signal_reset. destruct (negb _); exact Hnil.
  - unfold signal_delete, signal_reset. destruct (negb _); exact Hnil.
  - apply (Hone (EvInitFdImpl fd events)); reflexivity.
  - unfold updateEvents. destruct (negb _); [| exact Hnil].
    apply (Hone (EvUpdateEventsImpl _ _)); reflexivity.
  - unfold fd_reset. destruct (_ <=? _); [| exact Hnil].
    apply (Hone (EvResetImpl _)); reflexivity.
  - unfold fd_delete. destruct (_ <=? _); [| exact Hnil].
    apply (Hone (EvResetImpl _)); reflexivity.
Qed.

Lemma run_handler_stop_trace E h st :
  m_stop st = false ->
  exists tr,
    calls (run_handler E h st) = calls st ++ tr
    /\ Forall (fun e => is_user_event e = true) tr
    /\ (m_stop (run_handler E h st) = false -> existsb is_stop_call tr = false)
    /\ (m_stop (run_handler E h st) = true -> stops_promptly tr).
Proof.
  revert st. induction h as [| a k IH | k IH]; intros st Hs; cbn [run_handler].
  - exists []. rewrite app_nil_r. split; [reflexivity |]. split; [constructor |].
    split; [reflexivity | congruence].
  - destruct (do_action_calls_not_call E a (observe (EvCall a) st)) as (tra & Hca & Hua & Hna).
    pose proof (do_action_m_stop E a (observe (EvCall a) st)) as Hstop.
    cbn [observe m_stop] in Hstop. rewrite Hs in Hstop. cbn [orb] in Hstop.
    destruct (bool_decide_reflect (a = A_stop)) as [-> | Hne].
    + destruct (run_handler_timers E k (do_action E A_stop (observe (EvCall A_stop) st)))
        as (trk & Hck & Huk & _).
      exists (EvCall A_stop :: tra ++ trk).
      split; [rewrite Hck, Hca; cbn [observe calls]; rewrite <- !app_assoc; reflexivity |].
      split; [constructor; [reflexivity |]; apply Forall_app; split; assumption |].
      rewrite (run_handler_m_stop_sticky E k _ Hstop).
      split; [discriminate |]. intros _.
      exists [], (tra ++ trk). split; [reflexivity |]. split; [reflexivity |].
      apply Forall_app; split; assumption.
    + destruct (IH _ Hstop) as (trk & Hck & Huk & Hfalse & Htrue).
      exists (EvCall a :: tra ++ trk).
      split; [rewrite Hck, Hca; cbn [observe calls]; rewrite <- !app_assoc; reflexivity |].
      split; [constructor; [reflexivity |]; apply Forall_app; split; assumption |].
      assert (Hhead : existsb is_stop_call (EvCall a :: tra) = false).
      { cbn [existsb]. rewrite Hna, orb_false_r. unfold is_stop_call.
        apply bool_decide_eq_false_2. congruence. }
      split.
      * intros Hf. rewrite app_comm_cons, existsb_app, Hhead, (Hfalse Hf). reflexivity.
      * intros Ht. destruct (Htrue Ht) as (pre & post & -> & Hpre & Hpost).
        exists (EvCall a :: tra ++ pre), post.
        split; [cbn [app]; rewrite <- app_assoc; reflexivity |]. split; [| exact Hpost].
        rewrite app_comm_cons, existsb_app, Hhead, Hpre. reflexivity.
  - apply (IH st st Hs).
Qed.

Lemma stops_promptly_app l1 l2 :
  existsb is_stop_call l1 = false -> stops_promptly l2 -> stops_promptly (l1 ++ l2).
Proof.
  intros H1 (pre & post & -> & Hpre & Hpost).
  exists (l1 ++ pre), post. split; [rewrite <- app_assoc; reflexivity |].
  split; [rewrite existsb_app, H1, Hpre; reflexivity | exact Hpost].
Qed.

Lemma phase_stop_refl st : m_stop st = false -> phase_stop st true st.
Proof. intros Hs. exists []. rewrite app_nil_r. repeat split. exact Hs. Qed.

(** A step of a phase: an observation that is not a call of [stop], the
    handler, and the rest of the phase if the handler has not stopped the
    loop. *)
Lemma phase_stop_step E e h st1 st b st' :
  is_stop_call e = false -> m_stop st1 = false ->
  calls st = calls st1 ++ [e] -> m_stop st = false ->
  (m_stop (run_handler E h st) = true -> b = false /\ st' = run_handler E h st) ->
  (m_stop (run_handler E h st) = false -> phase_stop (run_handler E h st) b st') ->
  phase_stop st1 b st'.
Proof.
  intros He Hs1 Hc Hs Htrue Hfalse.
  destruct (run_handler_stop_trace E h st Hs) as (trh & Hch & Huh & Hno & Hyes).
  destruct (m_stop (run_handler E h st)) eqn:Hstop.
  - destruct (Htrue eq_refl) as [-> ->].
    exists (e :: trh). split; [rewrite Hch, Hc, <- app_assoc; reflexivity |].
    apply (stops_promptly_app [e]); [cbn [existsb]; rewrite He; reflexivity |].
    apply Hyes. reflexivity.
  - destruct (Hfalse eq_refl) as (tr2 & Hc2 & H2).
    exists (e :: trh ++ tr2).
    split; [rewrite Hc2, Hch, Hc, <- !app_assoc; reflexivity |].
    assert (Hhead : existsb is_stop_call (e :: trh) = false).
    { cbn [existsb]. rewrite He, (Hno eq_refl). reflexivity. }
    destruct b.
    + destruct H2 as [H2 Hs2]. split; [| exact Hs2].
      rewrite app_comm_cons, existsb_app, Hhead, H2. reflexivity.
    + rewrite app_comm_cons. apply stops_promptly_app; assumption.
Qed.

Lemma phase_stop_trans st1 st2 b st3 :
  phase_stop st1 true st2 -> phase_stop st2 b st3 -> phase_stop st1 b st3.
Proof.
  intros (tr1 & Hc1 & H1 & _) (tr2 & Hc2 & H2).
  exists (tr1 ++ tr2). split; [rewrite Hc2, Hc1, <- app_assoc; reflexivity |].
  destruct b.
  - destruct H2 as [H2 Hs]. split; [| exact Hs]. rewrite existsb_app, H1, H2. reflexivity.
  - apply stops_promptly_app; assumption.
Qed.

Lemma phase_stop_frame st st' b st2 :
  calls st' = calls st -> phase_stop st' b st2 -> phase_stop st b st2.
Proof. intros Hc (tr & Hc2 & H). exists tr. rewrite <- Hc. split; assumption. Qed.

Lemma dispatch_timers_stop_trace E fuel st b st' :
  m_stop st = false -> dispatch_timers E fuel st = Some (b, st') -> phase_stop st b st'.
Proof.
  revert st. induction fuel as [| fuel IH]; intros st Hs; [discriminate |].
  cbn [dispatch_timers].
  destruct (LinkedHeap.first (m_timer_heap st)) as [tim |];
    [| intros [= <- <-]; apply phase_stop_refl; exact Hs].
  destruct (negb _); [intros [= <- <-]; apply phase_stop_refl; exact Hs |].
  intros Hrun.
  apply (phase_stop_step E (EvTimerExpired tim) (handleTimerExpired E tim) st
           (observe (EvTimerExpired tim) (heap_fixup tim (set_m_state tim TempUnset st))));
    try reflexivity; try exact Hs.
  - intros Hstop. rewrite Hstop in Hrun. injection Hrun as <- <-. auto.
  - intros Hstop. rewrite Hstop in Hrun. apply (IH _ Hstop Hrun).
Qed.

Lemma dispatch_async_signals_loop_stop_trace E fuel st b st' :
  m_stop st = false -> dispatch_async_signals_loop E fuel st = Some (b, st') ->
  phase_stop st b st'.
Proof.
  revert st. induction fuel as [| fuel IH]; intros st Hs; [discriminate |].
  cbn [dispatch_async_signals_loop].
  destruct (AsyncSignalList.next m_dispatch_async_list st) as [| | sig];
    [discriminate | intros [= <- <-]; apply phase_stop_refl; exact Hs |].
  intros Hrun.
  apply (phase_stop_step E (EvSignalHandler sig) (signal_m_handler E sig) st
           (observe (EvSignalHandler sig)
              (AsyncSignalList.markRemoved (asig sig) (AsyncSignalList.remove (asig sig) st))));
    try reflexivity; try exact Hs.
  - intros Hstop. rewrite Hstop in Hrun. injection Hrun as <- <-. auto.
  - intros Hstop. rewrite Hstop in Hrun. apply (IH _ Hstop Hrun).
Qed.

Lemma dispatch_fd_events_stop_trace E ready st :
  m_stop st = false ->
  phase_stop st (fst (dispatch_fd_events E ready st)) (snd (dispatch_fd_events E ready st)).
Proof.
  revert st. induction ready as [| [w events] ready IH]; intros st Hs;
    cbn [dispatch_fd_events].
  - apply phase_stop_refl. exact Hs.
  - destruct (hasFd _); [| apply IH; exact Hs].
    apply (phase_stop_step E (EvFdHandler w events) (fd_m_handler E w events) st
             (observe (EvFdHandler w events) st));
      try reflexivity; try exact Hs.
    + intros Hstop. rewrite Hstop. auto.
    + intros Hstop. rewrite Hstop. apply IH. exact Hstop.
Qed.

Lemma dispatchEvents_stop_trace E fuel ready st b st' :
  m_stop st = false -> dispatchEvents E fuel ready st = Some (b, st') -> phase_stop st b st'.
Proof.
  intros Hs. unfold dispatchEvents.
  pose proof (dispatch_fd_events_stop_trace E ready (observe EvDispatchEvents st) Hs) as Hfd.
  assert (Hfirst : phase_stop st true (observe EvDispatchEvents st)).
  { exists [EvDispatchEvents]. split; [reflexivity |]. split; [reflexivity | exact Hs]. }
  destruct (dispatch_fd_events E ready (observe EvDispatchEvents st)) as [[|] st1];
    cbn [fst snd] in Hfd.
  - pose proof (phase_stop_trans _ _ _ _ Hfirst Hfd) as H1.
    assert (Hs1 : m_stop st1 = false) by (destruct Hfd as (_ & _ & _ & H); exact H).
    unfold dispatch_async_signals.
    destruct (AsyncSignalList.isLonely _ _); [intros [= <- <-]; exact H1 |].
    cbv zeta. intros Hrun.
    apply (phase_stop_trans _ _ _ _ H1).
    apply (phase_stop_frame st1
             (AsyncSignalList.initLonely m_pending_async_list
                (AsyncSignalList.initReplaceNotLonely m_dispatch_async_list
                   m_pending_async_list st1))); [reflexivity |].
    apply (dispatch_async_signals_loop_stop_trace E fuel _ b st'); [exact Hs1 | exact Hrun].
  - intros [= <- <-]. apply (phase_stop_trans _ _ _ _ Hfirst Hfd).
Qed.

Lemma signal_calls_no_stop sig st :
  exists tr, calls (signal sig st) = calls st ++ tr /\ existsb is_stop_call tr = false.
Proof.
  unfold signal.
  destruct (AsyncSignalList.isRemoved _ _);
    [| exists []; rewrite app_nil_r; split; reflexivity].
  cbv zeta. destruct (AsyncSignalList.isLonely _ _).
  - exists [EvWakeup]. split; reflexivity.
  - exists []. rewrite app_nil_r. split; reflexivity.
Qed.

Lemma waitForEvents_stop_trace info raised st :
  m_stop st = false -> phase_stop st true (waitForEvents info raised st).
Proof.
  intros Hs. unfold waitForEvents.
  assert (H0 : phase_stop st true (observe (EvWaitForEvents info) st)).
  { exists [EvWaitForEvents info]. split; [reflexivity |]. split; [reflexivity | exact Hs]. }
  revert H0. generalize (observe (EvWaitForEvents info) st).
  induction raised as [| sig raised IH]; intros st0 H0; cbn [fold_left]; [exact H0 |].
  apply IH. apply (phase_stop_trans _ _ _ _ H0).
  destruct (signal_calls_no_stop sig st0) as (tr & Hc & Hn).
  exists tr. split; [exact Hc |]. split; [exact Hn |].
  rewrite (proj2 (proj2 (signal_timers sig st0))).
  destruct H0 as (_ & _ & _ & H). exact H.
Qed.

Lemma run_iteration_stop_trace E fuel it st r :
  m_stop st = false -> run_iteration E fuel it st = Some r ->
  match r with
  | inl s => phase_stop st false s
  | inr s => phase_stop st true s
  end.
Proof.
  intros Hs. unfold run_iteration.
  pose proof (prepare_timers_for_dispatch_spec
                (m_event_time (set_event_time (it_now it) (observe (EvGetTime (it_now it)) st)))
                (set_event_time (it_now it) (observe (EvGetTime (it_now it)) st))) as Hp.
  cbv zeta in Hp. destruct Hp as (_ & _ & _ & _ & Hc1 & _ & _ & _ & Hs1).
  cbn [set_event_time observe m_stop calls] in Hc1, Hs1. rewrite Hs in Hs1.
  assert (H1 : phase_stop st true (prepare_timers_for_dispatch
                 (m_event_time (set_event_time (it_now it) (observe (EvGetTime (it_now it)) st)))
                 (set_event_time (it_now it) (observe (EvGetTime (it_now it)) st)))).
  { exists [EvGetTime (it_now it)]. split; [exact Hc1 |]. split; [reflexivity | exact Hs1]. }
  revert H1 Hs1. clear Hc1.
  generalize (prepare_timers_for_dispatch
                 (m_event_time (set_event_time (it_now it) (observe (EvGetTime (it_now it)) st)))
                 (set_event_time (it_now it) (observe (EvGetTime (it_now it)) st))).
  intros st1 H1 Hs1.
  destruct (dispatch_timers E fuel st1) as [[[|] st2] |] eqn:Hdt; [| | discriminate].
  - pose proof (phase_stop_trans _ _ _ _ H1 (dispatch_timers_stop_trace E fuel _ _ _ Hs1 Hdt))
      as H2.
    assert (Hs2 : m_stop st2 = false) by (destruct H2 as (_ & _ & _ & H); exact H).
    destruct (dispatchEvents E fuel (it_ready it) st2) as [[[|] st3] |] eqn:Hde;
      [| | discriminate].
    + pose proof (phase_stop_trans _ _ _ _ H2 (dispatchEvents_stop_trace E fuel _ _ _ _ Hs2 Hde))
        as H3.
      assert (Hs3 : m_stop st3 = false) by (destruct H3 as (_ & _ & _ & H); exact H).
      unfold prepare_timers_for_wait.
      destruct (prepare_timers_for_wait_loop fuel (time_max E) st3) as [[t st4] |] eqn:Hpw;
        [| discriminate].
      intros [= <-].
      destruct (prepare_timers_for_wait_loop_stops fuel (time_max E) st3 t st4 Hpw)
        as (_ & _ & Hc4 & Hs4 & _).
      apply (phase_stop_trans _ _ _ _ H3).
      apply (phase_stop_frame _ (set_last_wait_time t st4)); [exact Hc4 |].
      apply waitForEvents_stop_trace. cbn [set_last_wait_time m_stop]. congruence.
    + intros [= <-].
      apply (phase_stop_trans _ _ _ _ H2 (dispatchEvents_stop_trace E fuel _ _ _ _ Hs2 Hde)).
  - intros [= <-].
    apply (phase_stop_trans _ _ _ _ H1 (dispatch_timers_stop_trace E fuel _ _ _ Hs1 Hdt)).
Qed.

Lemma run_loop_stop_trace E fuel its st :
  m_stop st = false ->
  match run_loop E fuel its st with
  | Returned s => phase_stop st false s
  | Running s => phase_stop st true s
  | OutOfFuel => True
  end.
Proof.
  revert st. induction its as [| it its IH]; intros st Hs; cbn [run_loop].
  - apply phase_stop_refl. exact Hs.
  - destruct (run_iteration E fuel it st) as [[s | s] |] eqn:Hit; [| | exact I].
    + apply (run_iteration_stop_trace E fuel it st (inl s) Hs Hit).
    + pose proof (run_iteration_stop_trace E fuel it st (inr s) Hs Hit) as H1.
      assert (Hs1 : m_stop s = false) by (destruct H1 as (_ & _ & _ & H); exact H).
      pose proof (IH s Hs1) as H2.
      destruct (run_loop E fuel its s) as [s' | s' |]; [| | exact I];
        apply (phase_stop_trans _ _ _ _ H1 H2).
Qed.

(** X27: [stop] is honoured at once: when [run], entered with the stop
    flag clear, returns, a handler has called [stop], and after the first
    such call nothing is observed but what this handler still does: no
    other handler is invoked and the provider is not called to dispatch or
    to wait.  While [run] goes on, no handler has called [stop]. *)
Theorem stop_is_prompt (E : Env) (fuel : nat) (its : list Iteration) (st : EventLoop)
    (Hs : m_stop st = false) :
  match run E fuel its st with
  | Returned s =>
      exists pre post,
        calls s = calls st ++ pre ++ EvCall A_stop :: post
        /\ existsb is_stop_call pre = false
        /\ Forall (fun e => is_user_event e = true) post
  | Running s =>
      exists tr, calls s = calls st ++ tr /\ existsb is_stop_call tr = false
  | OutOfFuel => True
  end.
Proof.
  unfold run. rewrite Hs.
  pose proof (run_loop_stop_trace E fuel its st Hs) as H.
  destruct (run_loop E fuel its st) as [s | s |]; [| | exact I].
  - destruct H as (tr & Hc & pre & post & -> & Hpre & Hpost).
    exists pre, post. split; [exact Hc |]. split; assumption.
  - destruct H as (tr & Hc & Hn & _). exists tr. split; assumption.
Qed.

Lemma stop_is_prompt_example :
  m_stop ex_stop_batch = false
  /\ match run ex_env 5 [ex_iteration_1; ex_iteration_2] ex_stop_batch with
     | Returned s =>
         exists pre post,
           calls s = calls ex_stop_batch ++ pre ++ EvCall A_stop :: post
           /\ existsb is_stop_call pre = false
           /\ Forall (fun e => is_user_event e = true) post
     | Running s =>
         exists tr, calls s = calls ex_stop_batch ++ tr /\ existsb is_stop_call tr = false
     | OutOfFuel => True
     end.
Proof.
  split; [reflexivity |].
  apply (stop_is_prompt ex_env 5 [ex_iteration_1; ex_iteration_2] ex_stop_batch).
  reflexivity.
Defined.

(** * The loop as a whole *)

(** ** The event time of an iteration *)

Lemma same_at_refl now h : same_at now h h.
Proof.
  induction h as [| a k IH | k IH].
  - constructor.
  - constructor. exact IH.
  - apply same_at_read. intros st _. apply IH.
Qed.

Lemma do_action_time_max E E' a st :
  time_max E' = time_max E -> do_action E' a st = do_action E a st.
Proof. intros Hmax. destruct a; cbn [do_action]; try reflexivity. rewrite Hmax. reflexivity. Qed.

(** Two handlers that do the same at the event time of the loop do the
    same to the loop. *)
Lemma run_handler_same_at now E E' h h' :
  time_max E' = time_max E -> same_at now h h' ->
  forall st, m_event_time st = now -> run_handler E' h' st = run_handler E h st.
Proof.
  intros Hmax Hs. induction Hs as [| a k k' _ IH | k k' _ IH | k h' _ IH | h k' _ IH];
    intros st Hst; cbn [run_handler].
  - reflexivity.
  - rewrite (do_action_time_max E E' a _ Hmax). apply IH.
    rewrite do_action_m_event_time. exact Hst.
  - exact (IH st Hst st Hst).
  - exact (IH st Hst st Hst).
  - exact (IH st Hst st Hst).
Qed.

Lemma dispatch_timers_same_at now E E' fuel :
  env_same_at now E E' ->
  forall st, m_event_time st = now -> dispatch_timers E' fuel st = dispatch_timers E fuel st.
Proof.
  intros (Hmax & Ht & _). induction fuel as [| fuel IH]; intros st Hst; [reflexivity |].
  cbn [dispatch_timers].
  destruct (LinkedHeap.first (m_timer_heap st)) as [tim |]; [| reflexivity].
  destruct (negb _); [reflexivity |]. cbv zeta.
  rewrite (run_handler_same_at now E E' _ _ Hmax (Ht tim)) by exact Hst.
  destruct (m_stop _); [reflexivity |].
  apply IH.
  pose proof (run_handler_m_event_time E (handleTimerExpired E tim)
                (observe (EvTimerExpired tim)
                   (heap_fixup tim (set_m_state tim TempUnset st)))) as Hev.
  unfold getEventTime in Hev. rewrite Hev. exact Hst.
Qed.

Lemma dispatch_fd_events_event_time E ready st :
  m_event_time (snd (dispatch_fd_events E ready st)) = m_event_time st.
Proof.
  revert st. induction ready as [| [w events] ready IH]; intros st;
    cbn [dispatch_fd_events]; [reflexivity |].
  destruct (hasFd _); [| apply IH].
  pose proof (run_handler_m_event_time E (fd_m_handler E w events)
                (observe (EvFdHandler w events) st)) as Hev.
  unfold getEventTime in Hev.
  destruct (m_stop _); [exact Hev | rewrite IH; exact Hev].
Qed.

Lemma dispatch_fd_events_same_at now E E' ready :
  env_same_at now E E' ->
  forall st, m_event_time st = now ->
    dispatch_fd_events E' ready st = dispatch_fd_events E ready st.
Proof.
  intros (Hmax & _ & _ & Hf). induction ready as [| [w events] ready IH]; intros st Hst;
    cbn [dispatch_fd_events]; [reflexivity |].
  destruct (hasFd _); [| apply IH; exact Hst].
  rewrite (run_handler_same_at now E E' _ _ Hmax (Hf w events)) by exact Hst.
  destruct (m_stop _); [reflexivity |].
  apply IH.
  pose proof (run_handler_m_event_time E (fd_m_handler E w events)
                (observe (EvFdHandler w events) st)) as Hev.
  unfold getEventTime in Hev. rewrite Hev. exact Hst.
Qed.

Lemma dispatch_async_signals_loop_same_at now E E' fuel :
  env_same_at now E E' ->
  forall st, m_event_time st = now ->
    dispatch_async_signals_loop E' fuel st = dispatch_async_signals_loop E fuel st.
Proof.
  intros (Hmax & _ & Hs & _). induction fuel as [| fuel IH]; intros st Hst; [reflexivity |].
  cbn [dispatch_async_signals_loop].
  destruct (AsyncSignalList.next m_dispatch_async_list st) as [| | sig];
    [reflexivity | reflexivity |].
  cbv zeta.
  rewrite (run_handler_same_at now E E' _ _ Hmax (Hs sig)) by exact Hst.
  destruct (m_stop _); [reflexivity |].
  apply IH.
  pose proof (run_handler_m_event_time E (signal_m_handler E sig)
                (observe (EvSignalHandler sig)
                   (AsyncSignalList.markRemoved (asig sig)
                      (AsyncSignalList.remove (asig sig) st)))) as Hev.
  unfold getEventTime in Hev. rewrite Hev. exact Hst.
Qed.

Lemma dispatchEvents_same_at now E E' fuel ready st :
  env_same_at now E E' -> m_event_time st = now ->
  dispatchEvents E' fuel ready st = dispatchEvents E fuel ready st.
Proof.
  intros Hsame Hst. unfold dispatchEvents.
  rewrite (dispatch_fd_events_same_at now E E' ready Hsame) by exact Hst.
  pose proof (dispatch_fd_events_event_time E ready (observe EvDispatchEvents st)) as Hev.
  destruct (dispatch_fd_events E ready (observe EvDispatchEvents st)) as [[|] st1];
    [| reflexivity].
  cbn [snd] in Hev. unfold dispatch_async_signals.
  destruct (AsyncSignalList.isLonely _ _); [reflexivity |]. cbv zeta.
  apply (dispatch_async_signals_loop_same_at now E E' fuel Hsame).
  cbn [AsyncSignalList.initLonely AsyncSignalList.initReplaceNotLonely m_event_time].
  rewrite <- Hst. exact Hev.
Qed.

Lemma dispatchEvents_event_time E fuel ready st b st' :
  dispatchEvents E fuel ready st = Some (b, st') -> m_event_time st' = m_event_time st.
Proof.
  unfold dispatchEvents.
  pose proof (dispatch_fd_events_event_time E ready (observe EvDispatchEvents st)) as Hev.
  destruct (dispatch_fd_events E ready (observe EvDispatchEvents st)) as [[|] st1];
    cbn [snd] in Hev.
  - intros Hr. rewrite (dispatch_async_signals_event_time E fuel st1 b st' Hr). exact Hev.
  - intros [= <- <-]. exact Hev.
Qed.

Lemma signal_event_time sig st : m_event_time (signal sig st) = m_event_time st.
Proof.
  unfold signal. destruct (AsyncSignalList.isRemoved _ _); [| reflexivity].
  cbv zeta. destruct (AsyncSignalList.isLonely _ _); reflexivity.
Qed.

Lemma waitForEvents_event_time info raised st :
  m_event_time (waitForEvents info raised st) = m_event_time st.
Proof.
  unfold waitForEvents.
  assert (H : forall s, m_event_time (fold_left (fun st sig => signal sig st) raised s)
                        = m_event_time s).
  { induction raised as [| sig raised IH]; intros s; cbn [fold_left]; [reflexivity |].
    rewrite IH. apply signal_event_time. }
  rewrite H. reflexivity.
Qed.

(** Every pass through the body of [run] ends with the event time that
    it has sampled. *)
Lemma run_iteration_event_time E fuel it st r :
  run_iteration E fuel it st = Some r -> m_event_time (iteration_state r) = it_now it.
Proof.
  unfold run_iteration. cbv zeta.
  set (st1 := set_event_time (it_now it) (observe (EvGetTime (it_now it)) st)).
  pose proof (prepare_timers_for_dispatch_spec (m_event_time st1) st1) as H2. cbv zeta in H2.
  destruct H2 as (_ & _ & _ & _ & _ & _ & _ & He2 & _).
  set (st2 := prepare_timers_for_dispatch (m_event_time st1) st1) in *.
  assert (Hst2 : m_event_time st2 = it_now it) by (rewrite He2; reflexivity).
  destruct (dispatch_timers E fuel st2) as [[b3 st3] |] eqn:H3; [| discriminate].
  destruct (dispatch_timers_history E fuel st2 b3 st3 H3)
    as (_ & _ & _ & _ & _ & _ & _ & _ & He3).
  assert (Hst3 : m_event_time st3 = it_now it) by congruence.
  destruct b3; [| intros [= <-]; exact Hst3].
  destruct (dispatchEvents E fuel (it_ready it) st3) as [[b4 st4] |] eqn:H4; [| discriminate].
  pose proof (dispatchEvents_event_time E fuel _ st3 b4 st4 H4) as He4.
  assert (Hst4 : m_event_time st4 = it_now it) by congruence.
  destruct b4; [| intros [= <-]; exact Hst4].
  unfold prepare_timers_for_wait.
  destruct (prepare_timers_for_wait_loop fuel (time_max E) st4) as [[t st5] |] eqn:H5;
    [| discriminate].
  pose proof (prepare_timers_for_wait_loop_stops fuel _ st4 t st5 H5) as H5'.
  destruct H5' as (_ & _ & _ & _ & He5).
  cbv zeta. intros [= <-]. cbn [iteration_state].
  rewrite waitForEvents_event_time. cbn [set_last_wait_time m_event_time]. congruence.
Qed.

(** What the handlers would do at another event time than the clock
    sample of the iteration makes no difference to the iteration. *)
Lemma run_iteration_same_at E E' fuel it st :
  env_same_at (it_now it) E E' ->
  run_iteration E' fuel it st = run_iteration E fuel it st.
Proof.
  intros Hsame. unfold run_iteration. cbv zeta.
  set (st1 := set_event_time (it_now it) (observe (EvGetTime (it_now it)) st)).
  pose proof (prepare_timers_for_dispatch_spec (m_event_time st1) st1) as H2. cbv zeta in H2.
  destruct H2 as (_ & _ & _ & _ & _ & _ & _ & He2 & _).
  set (st2 := prepare_timers_for_dispatch (m_event_time st1) st1) in *.
  assert (Hst2 : m_event_time st2 = it_now it) by (rewrite He2; reflexivity).
  rewrite (dispatch_timers_same_at (it_now it) E E' fuel Hsame st2 Hst2).
  destruct (dispatch_timers E fuel st2) as [[b3 st3] |] eqn:H3; [| reflexivity].
  destruct (dispatch_timers_history E fuel st2 b3 st3 H3)
    as (_ & _ & _ & _ & _ & _ & _ & _ & He3).
  assert (Hst3 : m_event_time st3 = it_now it) by congruence.
  destruct b3; [| reflexivity].
  rewrite (dispatchEvents_same_at (it_now it) E E' fuel (it_ready it) st3 Hsame Hst3).
  destruct (dispatchEvents E fuel (it_ready it) st3) as [[[|] st4] |]; [| reflexivity ..].
  destruct Hsame as (-> & _). reflexivity.
Qed.

(** C9: [setAfter d] is [setAt] at the sum of the event time of the loop
    and [d], where the event time is the member [m_event_time] that
    [getEventTime] returns.  It leaves the timer set, with the least of
    [event_time + d] and the largest time as its deadline: the largest
    time wherever [event_time + d] would exceed it, and never more.
    The event time is frozen for the iteration: [run] stores the clock
    sample of the iteration in it, no call that a handler makes and no
    handler changes it, every pass through the body of [run] ends with it,
    and what a handler would do at another event time than the clock
    sample makes no difference to the pass, so that a [setAfter d] in an
    iteration is a [setAt] at the sum of its clock sample and [d].
    The sum of a time and a duration is not in the sources: it is the
    saturating sum of the specification. *)
Theorem setAfter_is_setAt_event_time_plus :
  (forall time_max duration tim st,
     setAfter time_max duration tim st
     = setAt (EventLoopTime_add time_max (m_event_time st) duration) tim st)
  /\ (forall st, getEventTime st = m_event_time st)
  /\ (forall time_max duration tim st,
        let deadline := getSetTime (timers (setAfter time_max duration tim st) tim) in
        isSet (timers (setAfter time_max duration tim st) tim) = true
        /\ deadline = Z.min (m_event_time st + duration) time_max
        /\ deadline <= time_max
        /\ (time_max <= m_event_time st + duration -> deadline = time_max)
        /\ (m_event_time st + duration <= time_max ->
            deadline = m_event_time st + duration))
  /\ (forall E a st, getEventTime (do_action E a st) = getEventTime st)
  /\ (forall E h st, getEventTime (run_handler E h st) = getEventTime st)
  /\ (forall E fuel it st r,
        run_iteration E fuel it st = Some r ->
        getEventTime (iteration_state r) = it_now it)
  /\ (forall E E' fuel it st,
        env_same_at (it_now it) E E' ->
        run_iteration E' fuel it st = run_iteration E fuel it st)
  /\ (forall now E tim duration k st,
        getEventTime st = now ->
        run_handler E (H_call (A_setAfter tim duration) k) st
        = run_handler E k
            (setAt (EventLoopTime_add (time_max E) now duration) tim
               (observe (EvCall (A_setAfter tim duration)) st))).
Proof.
  assert (Hmin : forall time_max t d,
            EventLoopTime_add time_max t d = Z.min (t + d) time_max).
  { intros time_max t d. unfold EventLoopTime_add.
    destruct (Z.ltb_spec time_max (t + d)); lia. }
  split; [reflexivity |]. split; [reflexivity |].
  split.
  { intros time_max duration tim st. cbv zeta. unfold setAfter, getEventTime.
    pose proof (setAt_effect (EventLoopTime_add time_max (m_event_time st) duration) tim st)
      as H. cbv zeta in H. destruct H as (Ht & Hs & _).
    split.
    { unfold isSet. destruct (m_state (timers st tim)); destruct Hs as [-> _]; reflexivity. }
    unfold getSetTime. rewrite Ht, Hmin. repeat split; lia. }
  split; [intros E a st; unfold getEventTime; apply do_action_m_event_time |].
  split; [exact run_handler_m_event_time |].
  split; [intros E fuel it st r; unfold getEventTime; apply run_iteration_event_time |].
  split; [exact run_iteration_same_at |].
  intros now E tim duration k st <-. reflexivity.
Qed.

(** In the first iteration of the example the clock reads 10: the handler
    of timer 4 that computes its duration from the event time does what the
    handler that re-arms the timer 30 ticks after the event time does, and
    a timer that is set the largest time after the event time 10 has the
    largest time as its deadline. *)
Lemma setAfter_is_setAt_event_time_plus_example :
  env_same_at (it_now ex_iteration_1) ex_env ex_env_reading
  /\ run_iteration ex_env_reading 5 ex_iteration_1 ex_three_timers
     = run_iteration ex_env 5 ex_iteration_1 ex_three_timers
  /\ getSetTime (timers (setAfter ex_time_max ex_time_max 4
                           (set_event_time 10 ex_three_timers)) 4%nat)
     = ex_time_max.
Proof.
  assert (Hsame : env_same_at (it_now ex_iteration_1) ex_env ex_env_reading).
  { split; [reflexivity |]. split; [| split; intros; apply same_at_refl].
    intros tim. destruct tim as [| [| [| [| [| tim]]]]]; try apply same_at_refl.
    cbn [ex_env ex_env_reading handleTimerExpired].
    apply same_at_read_r. intros st Hst. rewrite Hst. apply same_at_refl. }
  destruct setAfter_is_setAt_event_time_plus as (_ & _ & Hdeadline & _ & _ & _ & Hiter & _).
  split; [exact Hsame |].
  split; [apply Hiter; exact Hsame |].
  apply (Hdeadline ex_time_max ex_time_max 4%nat (set_event_time 10 ex_three_timers)).
  vm_compute. discriminate.
Defined.

(** ** One pass through the body of [run] *)

(** When the root of the heap is in [Dispatch], [dispatch_timers] begins
    with its handler, which it runs from the state in which the timer is
    [TempUnset] and the heap is fixed up. *)
Lemma dispatch_timers_first E fuel st b st' root :
  dispatch_timers E fuel st = Some (b, st') ->
  LinkedHeap.first (m_timer_heap st) = Some root ->
  m_state (timers st root) = Dispatch ->
  let st0 := observe (EvTimerExpired root)
               (heap_fixup root (set_m_state root TempUnset st)) in
  exists trh rest,
    calls (run_handler E (handleTimerExpired E root) st0) = calls st0 ++ trh
    /\ calls st' = calls st ++ EvTimerExpired root :: trh ++ rest.
Proof.
  intros Hrun Hfirst Hstate. cbv zeta.
  destruct fuel as [| fuel]; [discriminate Hrun |].
  cbn [dispatch_timers] in Hrun. rewrite Hfirst, Hstate in Hrun.
  rewrite bool_decide_eq_true_2 in Hrun by reflexivity. cbn [negb] in Hrun. cbv zeta in Hrun.
  destruct (run_handler_timers E (handleTimerExpired E root)
              (observe (EvTimerExpired root)
                 (heap_fixup root (set_m_state root TempUnset st))))
    as (trh & Hch & _).
  exists trh.
  destruct (m_stop _).
  - injection Hrun as <- <-. exists []. split; [exact Hch |].
    rewrite Hch, app_nil_r. cbn [observe calls heap_fixup set_timer_heap set_m_state set_timers].
    rewrite <- app_assoc. reflexivity.
  - destruct (dispatch_timers_history E fuel _ b st' Hrun) as (rest & Hc & _).
    exists rest. split; [exact Hch |].
    rewrite Hc, Hch. cbn [observe calls heap_fixup set_timer_heap set_m_state set_timers].
    rewrite <- !app_assoc. reflexivity.
Qed.

(** [dispatch_timers] returns true only when the root of the heap, if
    there is one, is not in [Dispatch]. *)
Lemma dispatch_timers_true_root E fuel st st' root :
  dispatch_timers E fuel st = Some (true, st') ->
  LinkedHeap.first (m_timer_heap st') = Some root ->
  m_state (timers st' root) <> Dispatch.
Proof.
  revert st. induction fuel as [| fuel IH]; intros st; [discriminate |].
  cbn [dispatch_timers].
  destruct (LinkedHeap.first (m_timer_heap st)) as [tim |] eqn:Hfirst.
  - destruct (bool_decide_reflect (m_state (timers st tim) = Dispatch)) as [Hs | Hs];
      cbn [negb].
    + cbv zeta. destruct (m_stop _); [discriminate |]. apply IH.
    + intros [= <-] Hroot. rewrite Hfirst in Hroot. injection Hroot as <-. exact Hs.
  - intros [= <-] Hroot. rewrite Hfirst in Hroot. discriminate Hroot.
Qed.

(** A call leaves a signal that is queued on its list, unless it is a
    reset of that signal. *)
Lemma do_action_queued E a st pending dispatch s :
  lists_wf st pending dispatch ->
  AsyncSignalList.isRemoved (asig s) st = false ->
  AsyncSignalList.isRemoved (asig s) (do_action E a (observe (EvCall a) st)) = false
  \/ resets s (EvCall a) = true.
Proof.
  intros Hwf Hq.
  assert (Hwf0 : lists_wf (observe (EvCall a) st) pending dispatch).
  { revert Hwf. apply lists_wf_frame; reflexivity. }
  assert (Hin : In s (pending ++ dispatch)).
  { destruct (in_dec Nat.eq_dec s (pending ++ dispatch)) as [Hin | Hnin]; [exact Hin |].
    apply (lists_wf_isRemoved st pending dispatch s Hwf) in Hnin. congruence. }
  assert (Hkeep : forall st' pending' dispatch',
            lists_wf st' pending' dispatch' -> In s (pending' ++ dispatch') ->
            AsyncSignalList.isRemoved (asig s) st' = false).
  { intros st' pending' dispatch' Hwf' Hin'.
    destruct (AsyncSignalList.isRemoved (asig s) st') eqn:Hrem; [| reflexivity].
    apply (lists_wf_isRemoved st' pending' dispatch' s Hwf') in Hrem. contradiction. }
  assert (Hsame : link_next (do_action E a (observe (EvCall a) st))
                    = link_next (observe (EvCall a) st)
                  /\ link_prev (do_action E a (observe (EvCall a) st))
                    = link_prev (observe (EvCall a) st) ->
                  AsyncSignalList.isRemoved (asig s) (do_action E a (observe (EvCall a) st))
                  = false
                  \/ resets s (EvCall a) = true).
  { intros [Hn Hp]. left. apply (Hkeep _ pending dispatch); [| exact Hin].
    revert Hwf. apply lists_wf_frame; assumption. }
  assert (Hreset : forall sig,
            AsyncSignalList.isRemoved (asig s) (signal_reset sig (observe (EvCall a) st))
            = false
            \/ Nat.eqb sig s = true).
  { intros sig. destruct (Nat.eq_dec sig s) as [-> | Hne]; [right; apply Nat.eqb_refl |].
    left.
    destruct (signal_reset_lists _ pending dispatch sig Hwf0)
      as (pending' & dispatch' & Hwf' & _ & _ & _ & Hkd & Hkp).
    apply (Hkeep _ pending' dispatch' Hwf').
    apply in_or_app. apply in_app_or in Hin.
    destruct Hin as [Hin | Hin]; [left; apply Hkp | right; apply Hkd]; congruence. }
  destruct a;
    try (apply Hsame; apply do_action_links; intros; discriminate).
  - cbn [do_action]. left.
    destruct (in_dec Nat.eq_dec sig (pending ++ dispatch)) as [Hin' | Hnin'].
    + rewrite (signal_queued _ pending dispatch sig Hwf0 Hin').
      apply (Hkeep _ pending dispatch Hwf0 Hin).
    + destruct (signal_removed _ pending dispatch sig Hwf0 Hnin') as [Hwf' _].
      apply (Hkeep _ _ _ Hwf'). rewrite <- app_assoc.
      apply in_or_app. apply in_app_or in Hin.
      destruct Hin as [Hin | Hin]; [left; exact Hin | right; right; exact Hin].
  - cbn [do_action resets]. apply Hreset.
  - cbn [do_action resets]. unfold signal_delete. apply Hreset.
Qed.

Lemma run_handler_queued E h st pending dispatch s :
  lists_wf st pending dispatch ->
  AsyncSignalList.isRemoved (asig s) st = false ->
  exists tr,
    calls (run_handler E h st) = calls st ++ tr
    /\ (AsyncSignalList.isRemoved (asig s) (run_handler E h st) = false
        \/ existsb (resets s) tr = true).
Proof.
  revert st pending dispatch.
  induction h as [| a k IH | k IH]; intros st pending dispatch Hwf Hq; cbn [run_handler].
  - exists []. rewrite app_nil_r. auto.
  - destruct (do_action_lists E a st pending dispatch Hwf)
      as (pending1 & dispatch1 & Hwf1 & _).
    destruct (do_action_calls E a (observe (EvCall a) st)) as (tra & Hca & Hua & _).
    destruct (do_action_queued E a st pending dispatch s Hwf Hq) as [Hq1 | Hr].
    + destruct (IH _ pending1 dispatch1 Hwf1 Hq1) as (trk & Hck & Hk).
      exists (EvCall a :: tra ++ trk).
      split; [rewrite Hck, Hca; cbn [observe calls]; rewrite <- !app_assoc; reflexivity |].
      destruct Hk as [Hk | Hk]; [left; exact Hk |].
      right. cbn [existsb]. rewrite existsb_app, Hk, !orb_true_r. reflexivity.
    + destruct (run_handler_timers E k (do_action E a (observe (EvCall a) st)))
        as (trk & Hck & _).
      exists (EvCall a :: tra ++ trk).
      split; [rewrite Hck, Hca; cbn [observe calls]; rewrite <- !app_assoc; reflexivity |].
      right. cbn [existsb]. rewrite Hr. reflexivity.
  - apply (IH st st pending dispatch Hwf Hq).
Qed.

(** The fd handlers that the provider invokes: none of them is the
    handler of a signal, and they leave a signal that is queued on the
    pending list, unless one of them resets it. *)
Lemma dispatch_fd_events_queued E ready st pending :
  lists_wf st pending [] ->
  exists tr pending',
    calls (snd (dispatch_fd_events E ready st)) = calls st ++ tr
    /\ lists_wf (snd (dispatch_fd_events E ready st)) pending' []
    /\ (forall s, signal_fired s tr = 0%nat)
    /\ (forall s, AsyncSignalList.isRemoved (asig s) st = false ->
          AsyncSignalList.isRemoved (asig s) (snd (dispatch_fd_events E ready st)) = false
          \/ existsb (resets s) tr = true).
Proof.
  revert st pending. induction ready as [| [w events] ready IH]; intros st pending Hwf;
    cbn [dispatch_fd_events].
  - exists [], pending. rewrite app_nil_r. cbn [snd].
    split; [reflexivity |]. split; [exact Hwf |]. split; [reflexivity | auto].
  - destruct (hasFd _); [| apply (IH st pending Hwf)].
    assert (Hwf0 : lists_wf (observe (EvFdHandler w events) st) pending []).
    { revert Hwf. apply lists_wf_frame; reflexivity. }
    destruct (run_handler_lists E (fd_m_handler E w events) _ pending [] Hwf0)
      as (pending1 & dispatch1 & trh & Hwf1 & Hch & Huh & Hincl & _).
    assert (dispatch1 = []) as ->.
    { destruct dispatch1 as [| x l]; [reflexivity |]. destruct (Hincl x). left. reflexivity. }
    set (st1 := run_handler E (fd_m_handler E w events) (observe (EvFdHandler w events) st))
      in *.
    assert (Hc1 : calls st1 = calls st ++ EvFdHandler w events :: trh).
    { rewrite Hch. cbn [observe calls]. rewrite <- app_assoc. reflexivity. }
    assert (Hf1 : forall s, signal_fired s (EvFdHandler w events :: trh) = 0%nat).
    { intros s. change (EvFdHandler w events :: trh) with ([EvFdHandler w events] ++ trh).
      rewrite signal_fired_app, (signal_fired_user s trh Huh). reflexivity. }
    assert (Hq1 : forall s, AsyncSignalList.isRemoved (asig s) st = false ->
              AsyncSignalList.isRemoved (asig s) st1 = false
              \/ existsb (resets s) (EvFdHandler w events :: trh) = true).
    { intros s Hs.
      destruct (run_handler_queued E (fd_m_handler E w events) _ pending [] s Hwf0 Hs)
        as (trh' & Hch' & Hk).
      assert (trh' = trh) as ->.
      { fold st1 in Hch'. rewrite Hch in Hch'. apply app_inv_head in Hch'. congruence. }
      exact Hk. }
    destruct (m_stop st1).
    + exists (EvFdHandler w events :: trh), pending1. cbn [snd].
      split; [exact Hc1 |]. split; [exact Hwf1 |]. split; [exact Hf1 | exact Hq1].
    + destruct (IH st1 pending1 Hwf1) as (tr & pending' & Hc & Hwf' & Hf & Hq).
      exists ((EvFdHandler w events :: trh) ++ tr), pending'.
      split; [rewrite Hc, Hc1, <- app_assoc; reflexivity |].
      split; [exact Hwf' |].
      split; [intros s; rewrite signal_fired_app, Hf1, Hf; reflexivity |].
      intros s Hs. rewrite existsb_app.
      destruct (Hq1 s Hs) as [Hs1 | Hr]; [| right; rewrite Hr; reflexivity].
      destruct (Hq s Hs1) as [Hs' | Hr]; [left; exact Hs' |].
      right. rewrite Hr, orb_true_r. reflexivity.
Qed.

(** The provider phase and the signals: the handler of a signal is invoked
    at most once; the handler of a signal that is queued when the phase
    begins is invoked once, unless the phase returns false or a handler of
    the phase resets the signal; the dispatch list is empty when the phase
    returns true. *)
Lemma dispatchEvents_signals E fuel ready st pending b st' :
  lists_wf st pending [] ->
  dispatchEvents E fuel ready st = Some (b, st') ->
  exists tr,
    calls st' = calls st ++ EvDispatchEvents :: tr
    /\ (forall s, (signal_fired s tr <= 1)%nat)
    /\ (forall s, AsyncSignalList.isRemoved (asig s) st = false ->
          signal_fired s tr = 1%nat \/ b = false \/ existsb (resets s) tr = true)
    /\ (b = true -> AsyncSignalList.isLonely m_dispatch_async_list st' = true).
Proof.
  intros Hwf. unfold dispatchEvents.
  assert (Hwf0 : lists_wf (observe EvDispatchEvents st) pending []).
  { revert Hwf. apply lists_wf_frame; reflexivity. }
  destruct (dispatch_fd_events_queued E ready _ pending Hwf0)
    as (trf & pending1 & Hcf & Hwf1 & Hff & Hqf).
  destruct (dispatch_fd_events E ready (observe EvDispatchEvents st)) as [bf st1].
  cbn [snd] in Hcf, Hwf1, Hqf.
  assert (Hcf' : calls st1 = calls st ++ EvDispatchEvents :: trf).
  { rewrite Hcf. cbn [observe calls]. rewrite <- app_assoc. reflexivity. }
  destruct bf.
  - unfold dispatch_async_signals.
    pose proof (lists_wf_isLonely_pending st1 pending1 [] Hwf1) as Hl.
    destruct (AsyncSignalList.isLonely m_pending_async_list st1).
    + intros [= <- <-]. exists trf.
      assert (pending1 = []) as -> by (apply Hl; reflexivity).
      split; [exact Hcf' |]. split; [intros s; rewrite Hff; lia |].
      split; [| intros _; apply (lists_wf_isLonely_dispatch st1 [] [] Hwf1); reflexivity].
      intros s Hs. destruct (Hqf s Hs) as [Hs1 | Hr]; [| auto].
      exfalso.
      assert (Hrem : AsyncSignalList.isRemoved (asig s) st1 = true).
      { apply (lists_wf_isRemoved st1 [] [] s Hwf1). intros []. }
      congruence.
    + cbv zeta. intros Hloop.
      assert (Hne : pending1 <> []).
      { intros ->. destruct Hl as [_ Hl]. discriminate (Hl eq_refl). }
      destruct (dispatch_async_signals_loop_outcome E fuel _ [] pending1 b st'
                  (lists_wf_take_batch st1 pending1 Hwf1 Hne) Hloop)
        as (trs & pending' & dispatch' & Hcs & Hwf' & _ & Hbt & _ & Hnot & _ & Hfired & _).
      exists (trf ++ trs).
      split.
      { rewrite Hcs.
        change (calls (AsyncSignalList.initLonely m_pending_async_list
                         (AsyncSignalList.initReplaceNotLonely
                            m_dispatch_async_list m_pending_async_list st1)))
          with (calls st1).
        rewrite Hcf', <- app_assoc. reflexivity. }
      split.
      { intros s. rewrite signal_fired_app, Hff.
        destruct (in_dec Nat.eq_dec s pending1) as [Hin | Hnin].
        - destruct (Hfired s Hin) as [Hle _]. lia.
        - rewrite (Hnot s Hnin). lia. }
      split.
      { intros s Hs. rewrite signal_fired_app, Hff, existsb_app.
        destruct (Hqf s Hs) as [Hs1 | Hr]; [| right; right; rewrite Hr; reflexivity].
        assert (Hin : In s pending1).
        { destruct (in_dec Nat.eq_dec s pending1) as [Hin | Hnin]; [exact Hin |].
          assert (Hrem : AsyncSignalList.isRemoved (asig s) st1 = true).
          { apply (lists_wf_isRemoved st1 pending1 [] s Hwf1).
            rewrite app_nil_r. exact Hnin. }
          congruence. }
        destruct (Hfired s Hin) as [_ [H1 | [[Hb _] | Hr]]];
          [left; exact H1 | right; left; exact Hb |].
        right. right. rewrite Hr, orb_true_r. reflexivity. }
      intros Hb. apply (lists_wf_isLonely_dispatch st' pending' dispatch' Hwf').
      apply Hbt, Hb.
  - intros [= <- <-]. exists trf.
    split; [exact Hcf' |]. split; [intros s; rewrite Hff; lia |].
    split; [auto | discriminate].
Qed.

(** The provider phase begins with the handler of the first watcher that
    is reported, when that watcher is registered. *)
Lemma dispatchEvents_first E fuel st pending b st' w events ready :
  lists_wf st pending [] ->
  dispatchEvents E fuel ((w, events) :: ready) st = Some (b, st') ->
  hasFd (fd_watchers st w) = true ->
  let st0 := observe (EvFdHandler w events) (observe EvDispatchEvents st) in
  exists trh rest,
    calls (run_handler E (fd_m_handler E w events) st0) = calls st0 ++ trh
    /\ calls st' = calls st ++ EvDispatchEvents :: EvFdHandler w events :: trh ++ rest.
Proof.
  intros Hwf Hrun Hfd. cbv zeta.
  unfold dispatchEvents in Hrun. cbn [dispatch_fd_events] in Hrun.
  change (fd_watchers (observe EvDispatchEvents st)) with (fd_watchers st) in Hrun.
  rewrite Hfd in Hrun.
  assert (Hwf0 : lists_wf (observe (EvFdHandler w events) (observe EvDispatchEvents st))
                   pending []).
  { revert Hwf. apply lists_wf_frame; reflexivity. }
  destruct (run_handler_lists E (fd_m_handler E w events) _ pending [] Hwf0)
    as (pending1 & dispatch1 & trh & Hwf1 & Hch & _ & Hincl & _).
  assert (dispatch1 = []) as ->.
  { destruct dispatch1 as [| x l]; [reflexivity |]. destruct (Hincl x). left. reflexivity. }
  set (st1 := run_handler E (fd_m_handler E w events)
                (observe (EvFdHandler w events) (observe EvDispatchEvents st))) in *.
  assert (Hc1 : calls st1 = calls st ++ EvDispatchEvents :: EvFdHandler w events :: trh).
  { rewrite Hch. cbn [observe calls]. rewrite <- !app_assoc. reflexivity. }
  exists trh.
  destruct (m_stop st1).
  - injection Hrun as <- <-. exists []. split; [exact Hch |].
    rewrite app_nil_r. exact Hc1.
  - destruct (dispatch_fd_events_queued E ready st1 pending1 Hwf1)
      as (trf & pending2 & Hcf & Hwf2 & _).
    destruct (dispatch_fd_events E ready st1) as [bf st2]. cbn [snd] in Hcf, Hwf2.
    destruct bf.
    + unfold dispatch_async_signals in Hrun.
      pose proof (lists_wf_isLonely_pending st2 pending2 [] Hwf2) as Hl.
      destruct (AsyncSignalList.isLonely m_pending_async_list st2).
      * injection Hrun as <- <-. exists trf. split; [exact Hch |].
        rewrite Hcf, Hc1, <- app_assoc. reflexivity.
      * cbv zeta in Hrun.
        assert (Hne : pending2 <> []).
        { intros ->. destruct Hl as [_ Hl]. discriminate (Hl eq_refl). }
        destruct (dispatch_async_signals_loop_outcome E fuel _ [] pending2 b st'
                    (lists_wf_take_batch st2 pending2 Hwf2 Hne) Hrun)
          as (trs & _ & _ & Hcs & _).
        exists (trf ++ trs). split; [exact Hch |].
        rewrite Hcs.
        change (calls (AsyncSignalList.initLonely m_pending_async_list
                         (AsyncSignalList.initReplaceNotLonely
                            m_dispatch_async_list m_pending_async_list st2)))
          with (calls st2).
        rewrite Hcf, Hc1, <- !app_assoc. reflexivity.
    + injection Hrun as <- <-. exists trf. split; [exact Hch |].
      rewrite Hcf, Hc1, <- app_assoc. reflexivity.
Qed.

Lemma prepare_timers_for_wait_links time_max fuel st info st' :
  prepare_timers_for_wait time_max fuel st = Some (info, st') ->
  link_next st' = link_next st /\ link_prev st' = link_prev st.
Proof.
  unfold prepare_timers_for_wait.
  destruct (prepare_timers_for_wait_loop fuel time_max st) as [[t st1] |] eqn:Hloop;
    [| discriminate].
  apply prepare_timers_for_wait_loop_links in Hloop. cbn [snd] in Hloop.
  cbv zeta. intros [= _ <-]. exact Hloop.
Qed.

(** The signals that other threads raise while the loop is blocked are
    queued when the wait returns. *)
Lemma waitForEvents_queued info raised st pending dispatch :
  lists_wf st pending dispatch ->
  forall sig, In sig raised ->
    AsyncSignalList.isRemoved (asig sig) (waitForEvents info raised st) = false.
Proof.
  intros Hwf sig Hsig. unfold waitForEvents.
  assert (Hwf0 : lists_wf (observe (EvWaitForEvents info) st) pending dispatch).
  { revert Hwf. apply lists_wf_frame; reflexivity. }
  assert (H : forall s p, lists_wf s p dispatch -> In sig raised \/ In sig (p ++ dispatch) ->
            AsyncSignalList.isRemoved (asig sig)
              (fold_left (fun st sig => signal sig st) raised s) = false).
  { clear. induction raised as [| x raised IH]; intros s p Hwf Hin; cbn [fold_left].
    - destruct Hin as [[] | Hin].
      destruct (AsyncSignalList.isRemoved (asig sig) s) eqn:Hrem; [| reflexivity].
      apply (lists_wf_isRemoved s p dispatch sig Hwf) in Hrem. contradiction.
    - destruct (in_dec Nat.eq_dec x (p ++ dispatch)) as [Hx | Hx].
      + rewrite (signal_queued s p dispatch x Hwf Hx).
        apply (IH s p Hwf).
        destruct Hin as [[<- | Hin] | Hin]; [right; exact Hx | left; exact Hin
                                             | right; exact Hin].
      + destruct (signal_removed s p dispatch x Hwf Hx) as [Hwf' _].
        apply (IH _ _ Hwf').
        rewrite <- app_assoc. cbn [app].
        destruct Hin as [[<- | Hin] | Hin]; [| left; exact Hin |].
        * right. apply in_or_app. right. left. reflexivity.
        * right. apply in_or_app. apply in_app_or in Hin.
          destruct Hin as [Hin | Hin]; [left; exact Hin | right; right; exact Hin]. }
  apply (H _ pending Hwf0). left. exact Hsig.
Qed.

(** C2: [run] called with the stop flag set returns at once, with the
    loop and its history as they were; otherwise it goes through the body
    of its loop, and one pass through the body does this, in this order,
    with any fuel from some amount on: it samples the clock into the event
    time, which stays the event time throughout the pass; it puts every
    timer of the heap that is [Pending] with a deadline not after the event
    time into [Dispatch] and changes no other timer; it dispatches the due
    timers, which leaves only timer handler invocations and what those
    handlers do in the history, and returns from [run] when that returns
    false, which it does with the stop flag set; it calls the provider's
    dispatch of events, which leaves only fd and signal handler invocations
    and what those handlers do in the history, and returns from [run] when
    that returns false, which it does with the stop flag set; it finalizes
    the timer states, which gives the deadline of the root of the heap, or
    the largest time when the heap is empty, as the time to wait until; and
    it blocks in the provider's wait with that time.
    The dispatch of the due timers invokes the handler of a timer at most
    once, and only of a timer that is in [Dispatch] after the marking; when
    the root of the heap is in [Dispatch] it begins with the handler of the
    root, run from the state in which the timer is [TempUnset] and the heap
    fixed up; and it returns true only with a root that is not in
    [Dispatch].  From a heap that is in order with every timer [Pending],
    the timers whose handlers it invokes are timers of the heap with a
    deadline not after the event time, and when it returns true it has
    invoked the handler of every such timer that no handler has unset, set
    or destroyed before, and has left no timer in [Dispatch].
    The provider's dispatch begins with the handler of the first watcher
    that is reported, when that watcher has an fd; it invokes the handler
    of a signal at most once, and the handler of every signal that is
    queued when it begins once, unless it returns false or a handler resets
    the signal; and it returns true with the dispatch list empty.  The
    signals that other threads raise during the wait are queued when the
    wait returns. *)
Theorem run_iteration_in_order (E : Env) (it : Iteration) (its : list Iteration)
    (st : EventLoop) (pending : list nat) (Hwf : lists_wf st pending []) :
  (forall fuel its0, m_stop st = true -> run E fuel its0 st = Returned st)
  /\ (forall fuel, m_stop st = false ->
        run E fuel (it :: its) st
        = match run_iteration E fuel it st with
          | None => OutOfFuel
          | Some (inl st') => Returned st'
          | Some (inr st') => run_loop E fuel its st'
          end)
  /\ let st1 := set_event_time (it_now it) (observe (EvGetTime (it_now it)) st) in
     let st2 := prepare_timers_for_dispatch (it_now it) st1 in
     m_event_time st2 = it_now it
     /\ (forall x, In x (m_timer_heap st) -> m_state (timers st x) = Pending ->
                   m_time (timers st x) <= it_now it -> m_state (timers st2 x) = Dispatch)
     /\ (forall x, ~ (In x (m_timer_heap st) /\ m_state (timers st x) = Pending
                      /\ m_time (timers st x) <= it_now it) -> timers st2 x = timers st x)
     /\ exists fuel0 b3 st3 tr3,
          (forall fuel, (fuel0 <= fuel)%nat -> dispatch_timers E fuel st2 = Some (b3, st3))
          /\ calls st3 = calls st ++ EvGetTime (it_now it) :: tr3
          /\ Forall (fun e => is_timer_phase_event e = true) tr3
          /\ m_event_time st3 = it_now it
          /\ (b3 = false -> m_stop st3 = true)
          /\ (m_stop st = false -> b3 = true -> m_stop st3 = false)
          /\ (forall x, (timer_fired x tr3 <= 1)%nat)
          /\ (forall x, timer_fired x tr3 = 1%nat -> m_state (timers st2 x) = Dispatch)
          /\ (forall root,
                LinkedHeap.first (m_timer_heap st2) = Some root ->
                m_state (timers st2 root) = Dispatch ->
                let st0 := observe (EvTimerExpired root)
                             (heap_fixup root (set_m_state root TempUnset st2)) in
                exists trh rest,
                  calls (run_handler E (handleTimerExpired E root) st0) = calls st0 ++ trh
                  /\ tr3 = EvTimerExpired root :: trh ++ rest)
          /\ (b3 = true -> forall root,
                LinkedHeap.first (m_timer_heap st3) = Some root ->
                m_state (timers st3 root) <> Dispatch)
          /\ (heap_ready st ->
              (forall x, timer_fired x tr3 = 1%nat ->
                 In x (m_timer_heap st) /\ getSetTime (timers st x) <= it_now it)
              /\ (b3 = true -> forall x,
                    In x (m_timer_heap st) -> getSetTime (timers st x) <= it_now it ->
                    timer_fired x tr3 = 1%nat \/ existsb (touches x) tr3 = true)
              /\ (b3 = true -> forall x,
                    In x (m_timer_heap st3) -> m_state (timers st3 x) <> Dispatch)
              /\ heap_ok st3)
          /\ match b3 with
             | false =>
                 forall fuel, (fuel0 <= fuel)%nat ->
                   run_iteration E fuel it st = Some (inl st3)
             | true =>
                 exists b4 st4 tr4,
                   (forall fuel, (fuel0 <= fuel)%nat ->
                      dispatchEvents E fuel (it_ready it) st3 = Some (b4, st4))
                   /\ calls st4 = calls st3 ++ EvDispatchEvents :: tr4
                   /\ Forall (fun e => is_provider_phase_event e = true) tr4
                   /\ m_event_time st4 = it_now it
                   /\ (b4 = false -> m_stop st4 = true)
                   /\ (forall w events ready,
                         it_ready it = (w, events) :: ready ->
                         hasFd (fd_watchers st3 w) = true ->
                         let st0 := observe (EvFdHandler w events)
                                      (observe EvDispatchEvents st3) in
                         exists trh rest,
                           calls (run_handler E (fd_m_handler E w events) st0)
                           = calls st0 ++ trh
                           /\ tr4 = EvFdHandler w events :: trh ++ rest)
                   /\ (forall sig, (signal_fired sig tr4 <= 1)%nat)
                   /\ (forall sig,
                         AsyncSignalList.isRemoved (asig sig) st3 = false ->
                         signal_fired sig tr4 = 1%nat \/ b4 = false
                         \/ existsb (resets sig) tr4 = true)
                   /\ (b4 = true ->
                       AsyncSignalList.isLonely m_dispatch_async_list st4 = true)
                   /\ match b4 with
                      | false =>
                          forall fuel, (fuel0 <= fuel)%nat ->
                            run_iteration E fuel it st = Some (inl st4)
                      | true =>
                          exists info st5 tr5,
                            (forall fuel, (fuel0 <= fuel)%nat ->
                               prepare_timers_for_wait (time_max E) fuel st4
                               = Some (info, st5))
                            /\ match LinkedHeap.first (m_timer_heap st5) with
                               | None => wait_time info = time_max E
                               | Some root =>
                                   wait_time info = m_time (timers st5 root)
                                   /\ m_state (timers st5 root) <> TempUnset
                                   /\ m_state (timers st5 root) <> TempSet
                               end
                            /\ (forall fuel, (fuel0 <= fuel)%nat ->
                                  run_iteration E fuel it st
                                  = Some (inr (waitForEvents info (it_raised it) st5)))
                            /\ calls (waitForEvents info (it_raised it) st5)
                               = calls st4 ++ EvWaitForEvents info :: tr5
                            /\ Forall (fun e => e = EvWakeup) tr5
                            /\ m_event_time (waitForEvents info (it_raised it) st5)
                               = it_now it
                            /\ (forall sig, In sig (it_raised it) ->
                                  AsyncSignalList.isRemoved (asig sig)
                                    (waitForEvents info (it_raised it) st5) = false)
                      end
             end.
Proof.
  split; [intros fuel its0 Hs; unfold run; rewrite Hs; reflexivity |].
  split; [intros fuel Hs; unfold run; rewrite Hs; reflexivity |].
  cbv zeta.
  set (st1 := set_event_time (it_now it) (observe (EvGetTime (it_now it)) st)).
  pose proof (prepare_timers_for_dispatch_spec (it_now it) st1) as Hprep.
  cbv zeta in Hprep.
  destruct Hprep as (Hdue & Hrest & _ & Hheap & Hcalls2 & _ & _ & Hev & _).
  pose proof (run_iteration_phases E it st pending Hwf) as H. cbv zeta in H.
  fold st1 in H.
  set (st2 := prepare_timers_for_dispatch (it_now it) st1) in *.
  split; [rewrite Hev; reflexivity |].
  split; [exact Hdue |]. split; [exact Hrest |].
  destruct H as (fuel0 & b3 & st3 & tr3 & pending3 & Hrun3 & Hc3 & Hev3 & Hwf3 & Ht3 & Hbf3
                 & Hbt3 & Hnext).
  pose proof (Hrun3 fuel0 (le_n _)) as Hrun3'.
  assert (Hc2 : calls st2 = calls st ++ [EvGetTime (it_now it)])
    by (rewrite Hcalls2; reflexivity).
  assert (Htr : forall tr, calls st3 = calls st2 ++ tr -> tr = tr3).
  { intros tr Hc. rewrite Hc3, Hc2, <- app_assoc in Hc. apply app_inv_head in Hc.
    cbn [app] in Hc. congruence. }
  assert (Hin1 : forall x, In x (m_timer_heap st1) <-> In x (m_timer_heap st))
    by (intros x; reflexivity).
  assert (Ht1 : forall x, timers st1 x = timers st x) by (intros x; reflexivity).
  exists fuel0, b3, st3, tr3.
  split; [exact Hrun3 |]. split; [exact Hc3 |]. split; [exact Hev3 |].
  split; [exact Ht3 |]. split; [exact Hbf3 |]. split; [exact Hbt3 |].
  destruct (dispatch_timers_fired E fuel0 st2 b3 st3 Hrun3') as (trf & Hcf & Hfired).
  apply Htr in Hcf. subst trf.
  split; [intros x; apply Hfired |].
  split.
  { intros x Hx.
    destruct (decide (m_state (timers st2 x) = Dispatch)) as [Hd | Hd]; [exact Hd |].
    destruct (Hfired x) as [_ H0]. rewrite (H0 Hd) in Hx. discriminate Hx. }
  split.
  { intros root Hroot Hd.
    pose proof (dispatch_timers_first E fuel0 st2 b3 st3 root Hrun3' Hroot Hd) as HF.
    cbv zeta in HF. destruct HF as (trh & rest & Hh & Hc).
    exists trh, rest. split; [exact Hh |]. symmetry. apply Htr. exact Hc. }
  split.
  { intros Hb root Hroot. rewrite Hb in Hrun3'.
    apply (dispatch_timers_true_root E fuel0 st2 st3 root Hrun3' Hroot). }
  split.
  { intros Hready.
    assert (Hready1 : heap_ready st1)
      by (revert Hready; apply heap_ready_frame; reflexivity).
    pose proof (heap_ok_prepare_timers_for_dispatch (it_now it) st1 Hready1) as Hok2.
    fold st2 in Hok2.
    destruct Hready as [_ Hp].
    destruct (dispatch_timers_complete E fuel0 st2 b3 st3 Hok2 Hrun3')
      as (trc & Hcc & Hall & Honly & Hnone).
    apply Htr in Hcc. subst trc.
    split.
    { intros x Hx.
      assert (Hex : existsb (fires x) tr3 = true) by (apply existsb_fires_timer_fired; lia).
      destruct (Honly x Hex) as [Hin Hd]. rewrite Hheap in Hin. apply Hin1 in Hin.
      split; [exact Hin |].
      unfold getSetTime.
      destruct (Z_le_gt_dec (m_time (timers st x)) (it_now it)) as [Hle | Hgt]; [exact Hle |].
      rewrite Hrest in Hd by (rewrite Ht1; lia).
      rewrite Ht1, (Hp x Hin) in Hd. discriminate Hd. }
    split.
    { intros Hb x Hin Hle. unfold getSetTime in Hle.
      destruct (Hall Hb x) as [Hf | Ht].
      - rewrite Hheap. apply Hin1. exact Hin.
      - apply Hdue; [apply Hin1; exact Hin | rewrite Ht1; apply Hp; exact Hin
                     | rewrite Ht1; exact Hle].
      - left. apply existsb_fires_timer_fired in Hf. destruct (Hfired x) as [Hle1 _]. lia.
      - right. exact Ht. }
    split; [exact Hnone |].
    apply (heap_ok_dispatch_timers E fuel0 st2 b3 st3 Hok2 Hrun3'). }
  destruct b3; [| exact Hnext].
  destruct Hnext as (b4 & st4 & tr4 & pending4 & dispatch4 & Hrun4 & Hc4 & Hev4 & Hwf4 & _
                     & Ht4 & Hbf4 & Hnext).
  pose proof (Hrun4 fuel0 (le_n _)) as Hrun4'.
  assert (Htr4 : forall tr, calls st4 = calls st3 ++ EvDispatchEvents :: tr -> tr = tr4).
  { intros tr Hc. rewrite Hc4 in Hc. apply app_inv_head in Hc. congruence. }
  exists b4, st4, tr4.
  split; [exact Hrun4 |]. split; [exact Hc4 |]. split; [exact Hev4 |].
  split; [exact Ht4 |]. split; [exact Hbf4 |].
  split.
  { intros w events ready Hready Hfd.
    pose proof (dispatchEvents_first E fuel0 st3 pending3 b4 st4 w events ready Hwf3) as HF.
    rewrite <- Hready in HF. specialize (HF Hrun4' Hfd). cbv zeta in HF.
    destruct HF as (trh & rest & Hh & Hc).
    exists trh, rest. split; [exact Hh |]. symmetry. apply Htr4. exact Hc. }
  destruct (dispatchEvents_signals E fuel0 (it_ready it) st3 pending3 b4 st4 Hwf3 Hrun4')
    as (trs & Hcs & Hle & Hq & Hlonely).
  apply Htr4 in Hcs. subst trs.
  split; [exact Hle |]. split; [exact Hq |]. split; [exact Hlonely |].
  destruct b4; [| exact Hnext].
  destruct Hnext as (info & st5 & tr5 & pending6 & Hrun5 & Hit & Hc6 & Hev6 & _ & Ht6 & Hroot).
  exists info, st5, tr5.
  split; [exact Hrun5 |]. split; [exact Hroot |]. split; [exact Hit |].
  split; [exact Hc6 |]. split; [exact Hev6 |]. split; [exact Ht6 |].
  destruct (prepare_timers_for_wait_links _ _ _ _ _ (Hrun5 fuel0 (le_n _))) as [Hn5 Hp5].
  apply (waitForEvents_queued info (it_raised it) st5 pending4 dispatch4).
  revert Hwf4. apply lists_wf_frame; assumption.
Qed.

(** The first iteration of a run with three timers set, two signals
    raised and a watcher whose fd can be read. *)
Lemma run_iteration_in_order_example :
  lists_wf ex_full [2%nat; 3%nat] [] /\ heap_ready ex_full /\
  ((forall fuel its0, m_stop ex_full = true -> run ex_env fuel its0 ex_full = Returned ex_full)
  /\ (forall fuel, m_stop ex_full = false ->
        run ex_env fuel (ex_iteration_fd :: [ex_iteration_2]) ex_full
        = match run_iteration ex_env fuel ex_iteration_fd ex_full with
          | None => OutOfFuel
          | Some (inl st') => Returned st'
          | Some (inr st') => run_loop ex_env fuel [ex_iteration_2] st'
          end)
  /\ let st1 := set_event_time (it_now ex_iteration_fd) (observe (EvGetTime (it_now ex_iteration_fd)) ex_full) in
     let st2 := prepare_timers_for_dispatch (it_now ex_iteration_fd) st1 in
     m_event_time st2 = it_now ex_iteration_fd
     /\ (forall x, In x (m_timer_heap ex_full) -> m_state (timers ex_full x) = Pending ->
                   m_time (timers ex_full x) <= it_now ex_iteration_fd -> m_state (timers st2 x) = Dispatch)
     /\ (forall x, ~ (In x (m_timer_heap ex_full) /\ m_state (timers ex_full x) = Pending
                      /\ m_time (timers ex_full x) <= it_now ex_iteration_fd) -> timers st2 x = timers ex_full x)
     /\ exists fuel0 b3 st3 tr3,
          (forall fuel, (fuel0 <= fuel)%nat -> dispatch_timers ex_env fuel st2 = Some (b3, st3))
          /\ calls st3 = calls ex_full ++ EvGetTime (it_now ex_iteration_fd) :: tr3
          /\ Forall (fun e => is_timer_phase_event e = true) tr3
          /\ m_event_time st3 = it_now ex_iteration_fd
          /\ (b3 = false -> m_stop st3 = true)
          /\ (m_stop ex_full = false -> b3 = true -> m_stop st3 = false)
          /\ (forall x, (timer_fired x tr3 <= 1)%nat)
          /\ (forall x, timer_fired x tr3 = 1%nat -> m_state (timers st2 x) = Dispatch)
          /\ (forall root,
                LinkedHeap.first (m_timer_heap st2) = Some root ->
                m_state (timers st2 root) = Dispatch ->
                let st0 := observe (EvTimerExpired root)
                             (heap_fixup root (set_m_state root TempUnset st2)) in
                exists trh rest,
                  calls (run_handler ex_env (handleTimerExpired ex_env root) st0) = calls st0 ++ trh
                  /\ tr3 = EvTimerExpired root :: trh ++ rest)
          /\ (b3 = true -> forall root,
                LinkedHeap.first (m_timer_heap st3) = Some root ->
                m_state (timers st3 root) <> Dispatch)
          /\ (heap_ready ex_full ->
              (forall x, timer_fired x tr3 = 1%nat ->
                 In x (m_timer_heap ex_full) /\ getSetTime (timers ex_full x) <= it_now ex_iteration_fd)
              /\ (b3 = true -> forall x,
                    In x (m_timer_heap ex_full) -> getSetTime (timers ex_full x) <= it_now ex_iteration_fd ->
                    timer_fired x tr3 = 1%nat \/ existsb (touches x) tr3 = true)
              /\ (b3 = true -> forall x,
                    In x (m_timer_heap st3) -> m_state (timers st3 x) <> Dispatch)
              /\ heap_ok st3)
          /\ match b3 with
             | false =>
                 forall fuel, (fuel0 <= fuel)%nat ->
                   run_iteration ex_env fuel ex_iteration_fd ex_full = Some (inl st3)
             | true =>
                 exists b4 st4 tr4,
                   (forall fuel, (fuel0 <= fuel)%nat ->
                      dispatchEvents ex_env fuel (it_ready ex_iteration_fd) st3 = Some (b4, st4))
                   /\ calls st4 = calls st3 ++ EvDispatchEvents :: tr4
                   /\ Forall (fun e => is_provider_phase_event e = true) tr4
                   /\ m_event_time st4 = it_now ex_iteration_fd
                   /\ (b4 = false -> m_stop st4 = true)
                   /\ (forall w events ready,
                         it_ready ex_iteration_fd = (w, events) :: ready ->
                         hasFd (fd_watchers st3 w) = true ->
                         let st0 := observe (EvFdHandler w events)
                                      (observe EvDispatchEvents st3) in
                         exists trh rest,
                           calls (run_handler ex_env (fd_m_handler ex_env w events) st0)
                           = calls st0 ++ trh
                           /\ tr4 = EvFdHandler w events :: trh ++ rest)
                   /\ (forall sig, (signal_fired sig tr4 <= 1)%nat)
                   /\ (forall sig,
                         AsyncSignalList.isRemoved (asig sig) st3 = false ->
                         signal_fired sig tr4 = 1%nat \/ b4 = false
                         \/ existsb (resets sig) tr4 = true)
                   /\ (b4 = true ->
                       AsyncSignalList.isLonely m_dispatch_async_list st4 = true)
                   /\ match b4 with
                      | false =>
                          forall fuel, (fuel0 <= fuel)%nat ->
                            run_iteration ex_env fuel ex_iteration_fd ex_full = Some (inl st4)
                      | true =>
                          exists info st5 tr5,
                            (forall fuel, (fuel0 <= fuel)%nat ->
                               prepare_timers_for_wait (time_max ex_env) fuel st4
                               = Some (info, st5))
                            /\ match LinkedHeap.first (m_timer_heap st5) with
                               | None => wait_time info = time_max ex_env
                               | Some root =>
                                   wait_time info = m_time (timers st5 root)
                                   /\ m_state (timers st5 root) <> TempUnset
                                   /\ m_state (timers st5 root) <> TempSet
                               end
                            /\ (forall fuel, (fuel0 <= fuel)%nat ->
                                  run_iteration ex_env fuel ex_iteration_fd ex_full
                                  = Some (inr (waitForEvents info (it_raised ex_iteration_fd) st5)))
                            /\ calls (waitForEvents info (it_raised ex_iteration_fd) st5)
                               = calls st4 ++ EvWaitForEvents info :: tr5
                            /\ Forall (fun e => e = EvWakeup) tr5
                            /\ m_event_time (waitForEvents info (it_raised ex_iteration_fd) st5)
                               = it_now ex_iteration_fd
                            /\ (forall sig, In sig (it_raised ex_iteration_fd) ->
                                  AsyncSignalList.isRemoved (asig sig)
                                    (waitForEvents info (it_raised ex_iteration_fd) st5) = false)
                      end
             end).
Proof.
  assert (Hwf : lists_wf ex_full [2%nat; 3%nat] []).
  { unfold lists_wf, ring. cbn [map rev app path].
    split; [split; vm_compute; auto |]. split; [split; vm_compute; auto |].
    split; [repeat constructor; cbn [In]; lia |].
    intros sig Hs.
    destruct sig as [| [| [| [| sig]]]]; try reflexivity;
      exfalso; apply Hs; cbn [In]; auto. }
  assert (Hready : heap_ready ex_full).
  { split; [split; [split |] |].
    - vm_compute. repeat constructor; cbn [In]; lia.
    - intros tim Hin. vm_compute in Hin.
      destruct Hin as [<- | [<- | [<- | []]]]; vm_compute; discriminate.
    - vm_compute. repeat split; intros y Hy;
        repeat (destruct Hy as [<- | Hy]); try contradiction; vm_compute;
        first [left; reflexivity | right; split; [reflexivity | discriminate]].
    - intros tim Hin. vm_compute in Hin.
      destruct Hin as [<- | [<- | [<- | []]]]; vm_compute; reflexivity. }
  split; [exact Hwf |]. split; [exact Hready |].
  apply (run_iteration_in_order ex_env ex_iteration_fd [ex_iteration_2] ex_full
           [2%nat; 3%nat] Hwf).
Defined.

(** The history of that iteration: timers 2 and 4, which are due, fire;
    the provider invokes the handler of watcher 0 and the handler of
    signal 2, which resets signal 3; the loop waits until the deadline 40
    of timer 4 and is woken by signal 1. *)
Lemma run_iteration_in_order_run :
  option_map (fun r => calls (iteration_state r))
    (run_iteration ex_env 5 ex_iteration_fd ex_full)
  = Some [EvGetTime 0; EvWakeup; EvInitFdImpl 7 1;
          EvGetTime 10;
          EvTimerExpired 2; EvCall (A_setAt 2 20); EvCall (A_unset 2);
          EvTimerExpired 4; EvCall (A_setAfter 4 30);
          EvDispatchEvents; EvFdHandler 0 1;
          EvSignalHandler 2; EvCall (A_signal_reset 3);
          EvWaitForEvents {| wait_time := 40; wait_time_changed := true |};
          EvWakeup].
Proof. vm_compute. reflexivity. Qed.
